(** * AI-Roadmap-Generator: the markdown core of [public/app.js]

    A shallow embedding of the text-processing functions of the
    front end ([renderMarkdown], [stripLinksFromMarkdown],
    [stripLinksExceptRecommendedResources], [getSubsectionTitle],
    [buildCollapsibleRoadmap]), of the progressive revealer
    ([renderRoadmapLineByLine]) and of the assembly of the answer in the
    server ([generateYTTutorialsFallback] and the route that calls it),
    followed by the properties of the specification that were checked
    against them and by further properties of the same code.

    The file has three parts: the program (characters, strings, the
    regular-expression matcher and the functions of [app.js], each pattern
    written next to its source text), the vocabulary in which the
    properties are stated, and the properties with their proofs.

    JavaScript strings are modelled as [string]: sequences of code units
    below 256.  On that range the character classes of the regular
    expressions ([\s], [\d], [\w], [.]), [trim], [toLowerCase] and the
    case folding of the [i] flag are the ones written out below. *)

From Stdlib Require Import Ascii String List Bool Arith ZArith Lia.
From Stdlib Require Import Sorted Permutation.
Import ListNotations.

Local Open Scope list_scope.
Local Open Scope string_scope.

(** ** Characters *)

Module Chr.

Definition code (c : ascii) : nat := nat_of_ascii c.

Definition between (lo hi : nat) (c : ascii) : bool :=
  (lo <=? code c)%nat && (code c <=? hi)%nat.

(** [\d] *)
Definition is_digit (c : ascii) : bool := between 48 57 c.

Definition is_upper (c : ascii) : bool := between 65 90 c.
Definition is_lower (c : ascii) : bool := between 97 122 c.

(** [[A-Za-z]] *)
Definition is_alpha (c : ascii) : bool := is_upper c || is_lower c.

(** [\w] is [[A-Za-z0-9_]] *)
Definition is_word (c : ascii) : bool :=
  is_alpha c || is_digit c || (code c =? 95)%nat.

(** Line terminators: LF and CR (U+2028 and U+2029 lie outside the range). *)
Definition is_line_terminator (c : ascii) : bool :=
  (code c =? 10)%nat || (code c =? 13)%nat.

(** [\s], which is also what [trim] removes: TAB, LF, VT, FF, CR, space and
    the no-break space. *)
Definition is_space (c : ascii) : bool :=
  between 9 13 c || (code c =? 32)%nat || (code c =? 160)%nat.

(** [.] without the [s] flag *)
Definition dot (c : ascii) : bool := negb (is_line_terminator c).

(** Case folding of the [i] flag.  Every literal character of the
    expressions below is ASCII, and a character above 127 never folds to an
    ASCII one, so only [a-z] move. *)
Definition canonicalize (c : ascii) : ascii :=
  if is_lower c then ascii_of_nat (code c - 32) else c.

(** [toLowerCase] on one code unit: [A-Z], and the capital letters of the
    Latin-1 block ([À-Þ] without the multiplication sign). *)
Definition to_lower (c : ascii) : ascii :=
  if is_upper c then ascii_of_nat (code c + 32)
  else if between 192 222 c && negb (code c =? 215)%nat
       then ascii_of_nat (code c + 32)
       else c.

(** [toUpperCase] on one code unit; the source applies it to a [\w] match
    only. *)
Definition to_upper (c : ascii) : ascii :=
  if is_lower c then ascii_of_nat (code c - 32) else c.

End Chr.

(** ** Strings *)

Module Str.

Definition nl : string := String (ascii_of_nat 10) "".
Definition cr : string := String (ascii_of_nat 13) "".
Definition dq : string := String (ascii_of_nat 34) "".

Fixpoint map (f : ascii -> ascii) (s : string) : string :=
  match s with
  | "" => ""
  | String c t => String (f c) (map f t)
  end.

Definition toLowerCase : string -> string := map Chr.to_lower.
Definition toUpperCase : string -> string := map Chr.to_upper.

Fixpoint rev_onto (s acc : string) : string :=
  match s with
  | "" => acc
  | String c t => rev_onto t (String c acc)
  end.

Definition rev (s : string) : string := rev_onto s "".

Fixpoint trimStart (s : string) : string :=
  match s with
  | "" => ""
  | String c t => if Chr.is_space c then trimStart t else s
  end.

Definition trimEnd (s : string) : string := rev (trimStart (rev s)).

(** [String.prototype.trim] *)
Definition trim (s : string) : string := trimEnd (trimStart s).

Fixpoint take (n : nat) (s : string) : string :=
  match n, s with
  | S n', String c t => String c (take n' t)
  | _, _ => ""
  end.

(** [Array.prototype.join] *)
Fixpoint join (sep : string) (l : list string) : string :=
  match l with
  | [] => ""
  | [x] => x
  | x :: rest => x ++ sep ++ join sep rest
  end.

(** [a || b] on strings: the empty string is the only falsy one. *)
Definition or_else (a b : string) : string :=
  match a with "" => b | _ => a end.

(** [s] occurs in [t] *)
Fixpoint is_prefix (p s : string) : bool :=
  match p, s with
  | "", _ => true
  | String a p', String b s' => Ascii.eqb a b && is_prefix p' s'
  | _, _ => false
  end.

Fixpoint contains (p s : string) : bool :=
  is_prefix p s ||
  match s with
  | "" => false
  | String _ t => contains p t
  end.

End Str.

(** ** Regular expressions

    The matcher follows the ECMAScript semantics: a pattern denotes a
    function from a state and a continuation to a result, alternatives and
    quantifiers backtrack through the continuation. *)

Module Re.

Inductive regex : Type :=
| Empty
| Char (c : ascii)
| Class (p : ascii -> bool)
| Seq (r1 r2 : regex)
| Alt (r1 r2 : regex)
| Rep (lo : nat) (hi : option nat) (greedy : bool) (r : regex)
| Group (n : nat) (r : regex)
| Bol
| Eol
| WordB
| NegLook (r : regex).

Record flags : Type := Flags { ignoreCase : bool; multiline : bool }.

Definition no_flags : flags := Flags false false.
Definition fl_i : flags := Flags true false.
Definition fl_im : flags := Flags true true.

(** A match state: the character before the current position (for [^] and
    [\b]), the input from the current position on, and the captures. *)
Record mstate : Type :=
  MState { before : option ascii; input : string; caps : list (nat * string) }.

Definition cont : Type := mstate -> option mstate.

Definition advance (c : ascii) (t : string) (x : mstate) : mstate :=
  MState (Some c) t (caps x).

Definition char_eq (fl : flags) (c a : ascii) : bool :=
  if ignoreCase fl
  then Ascii.eqb (Chr.canonicalize c) (Chr.canonicalize a)
  else Ascii.eqb c a.

Definition at_bol (fl : flags) (x : mstate) : bool :=
  match before x with
  | None => true
  | Some c => multiline fl && Chr.is_line_terminator c
  end.

Definition at_eol (fl : flags) (x : mstate) : bool :=
  match input x with
  | "" => true
  | String c _ => multiline fl && Chr.is_line_terminator c
  end.

Definition at_word_boundary (x : mstate) : bool :=
  let a := match before x with Some c => Chr.is_word c | None => false end in
  let b := match input x with String c _ => Chr.is_word c | "" => false end in
  xorb a b.

(** The text consumed between the states [x] and [y]. *)
Definition consumed (x y : mstate) : string :=
  Str.take (String.length (input x) - String.length (input y)) (input x).

Definition set_cap (n : nat) (s : string) (y : mstate) : mstate :=
  MState (before y) (input y) ((n, s) :: caps y).

Fixpoint lookup_cap (n : nat) (l : list (nat * string)) : option string :=
  match l with
  | [] => None
  | (m, s) :: rest => if (m =? n)%nat then Some s else lookup_cap n rest
  end.

Definition dec_hi (hi : option nat) : option nat :=
  match hi with Some h => Some (pred h) | None => None end.

Definition hi_is_zero (hi : option nat) : bool :=
  match hi with Some 0 => true | _ => false end.

(** The quantifier loop (RepeatMatcher) for a body matcher [m].  An
    iteration that is not required and consumes nothing is rejected, so
    [lo] plus the length of the input decreases at every iteration and the
    first argument, which starts above that sum, never reaches [0]. *)
Fixpoint repeat_matcher (m : cont -> cont) (k : cont) (greedy : bool)
    (fuel lo : nat) (hi : option nat) (x : mstate) {struct fuel}
    : option mstate :=
  match fuel with
  | 0 => None
  | S fuel' =>
    if hi_is_zero hi then k x
    else
      let d : cont := fun y =>
        if (lo =? 0)%nat && (String.length (input y) =? String.length (input x))%nat
        then None
        else repeat_matcher m k greedy fuel' (pred lo) (dec_hi hi) y in
      if negb (lo =? 0)%nat then m d x
      else if greedy
      then match m d x with Some z => Some z | None => k x end
      else match k x with Some z => Some z | None => m d x end
  end.

Fixpoint rmatch (fl : flags) (r : regex) (k : cont) (x : mstate)
    : option mstate :=
  match r with
  | Empty => k x
  | Char c =>
    match input x with
    | String a t => if char_eq fl c a then k (advance a t x) else None
    | "" => None
    end
  | Class p =>
    match input x with
    | String a t => if p a then k (advance a t x) else None
    | "" => None
    end
  | Seq r1 r2 => rmatch fl r1 (fun y => rmatch fl r2 k y) x
  | Alt r1 r2 =>
    match rmatch fl r1 k x with
    | Some z => Some z
    | None => rmatch fl r2 k x
    end
  | Rep lo hi greedy r' =>
    repeat_matcher (rmatch fl r') k greedy
      (S (lo + String.length (input x))) lo hi x
  | Group n r' =>
    rmatch fl r' (fun y => k (set_cap n (consumed x y) y)) x
  | Bol => if at_bol fl x then k x else None
  | Eol => if at_eol fl x then k x else None
  | WordB => if at_word_boundary x then k x else None
  | NegLook r' =>
    match rmatch fl r' (fun y => Some y) x with
    | Some _ => None
    | None => k x
    end
  end.

(** Pattern syntax *)
Definition Star (r : regex) : regex := Rep 0 None true r.
Definition Plus (r : regex) : regex := Rep 1 None true r.
Definition PlusLazy (r : regex) : regex := Rep 1 None false r.
Definition Opt (r : regex) : regex := Rep 0 (Some 1) true r.
Definition AtLeast (n : nat) (r : regex) : regex := Rep n None true r.
Definition Between (lo hi : nat) (r : regex) : regex :=
  Rep lo (Some hi) true r.

Fixpoint lit (s : string) : regex :=
  match s with
  | "" => Empty
  | String c "" => Char c
  | String c t => Seq (Char c) (lit t)
  end.

Fixpoint cat (l : list regex) : regex :=
  match l with
  | [] => Empty
  | [r] => r
  | r :: rest => Seq r (cat rest)
  end.

Fixpoint alts (l : list regex) : regex :=
  match l with
  | [] => Empty
  | [r] => r
  | r :: rest => Alt r (alts rest)
  end.

Definition Any : regex := Class Chr.dot.
Definition Space : regex := Class Chr.is_space.
Definition Digit : regex := Class Chr.is_digit.
Definition Word : regex := Class Chr.is_word.
Definition OneOf (s : string) : regex :=
  Class (fun c => existsb (Ascii.eqb c) (list_ascii_of_string s)).

(** One attempt at the current position of [x]. *)
Definition match_at (fl : flags) (r : regex) (x : mstate) : option mstate :=
  rmatch fl r (fun y => Some y) x.

Definition start (s : string) : mstate := MState None s [].

(** [RegExp.prototype.exec] without the [g] flag: the leftmost match, as
    the text before it, the matched text and the end state. *)
Fixpoint exec_from (fl : flags) (r : regex) (bef : option ascii) (s : string)
    : option (string * string * mstate) :=
  let x := MState bef s [] in
  match match_at fl r x with
  | Some y => Some ("", consumed x y, y)
  | None =>
    match s with
    | "" => None
    | String c t =>
      match exec_from fl r (Some c) t with
      | Some (pre, m, y) => Some (String c pre, m, y)
      | None => None
      end
    end
  end.

Definition exec (fl : flags) (r : regex) (s : string) :=
  exec_from fl r None s.

(** [RegExp.prototype.test] *)
Definition test (fl : flags) (r : regex) (s : string) : bool :=
  match exec fl r s with Some _ => true | None => false end.

(** [match[n]] of a successful [String.prototype.match] *)
Definition group (n : nat) (y : mstate) : string :=
  match lookup_cap n (caps y) with Some s => s | None => "" end.

(** A replacement: a function of the matched text and of the end state.
    [tmpl] builds the ones written as strings with [$n]. *)
Definition replacement : Type := string -> mstate -> string.

Inductive piece : Type := T (s : string) | G (n : nat).

Fixpoint tmpl (l : list piece) : replacement :=
  fun m y =>
    match l with
    | [] => ""
    | T s :: rest => s ++ tmpl rest m y
    | G n :: rest => group n y ++ tmpl rest m y
    end.

(** [String.prototype.replace] with a pattern without the [g] flag *)
Definition replace (fl : flags) (r : regex) (by_ : replacement) (s : string)
    : string :=
  match exec fl r s with
  | Some (pre, m, y) => pre ++ by_ m y ++ input y
  | None => s
  end.

(** [String.prototype.replace] with the [g] flag.  [skip] counts the
    characters of the input still covered by the last match; after an empty
    match the search resumes one character further on. *)
Fixpoint replace_all_from (fl : flags) (r : regex) (by_ : replacement)
    (skip : nat) (bef : option ascii) (s : string) : string :=
  match s with
  | "" =>
    let x := MState bef s [] in
    match match_at fl r x with
    | Some y => by_ (consumed x y) y
    | None => ""
    end
  | String c t =>
    match skip with
    | S n => replace_all_from fl r by_ n (Some c) t
    | 0 =>
      let x := MState bef s [] in
      match match_at fl r x with
      | Some y =>
        let m := consumed x y in
        match String.length m with
        | 0 => by_ m y ++ String c (replace_all_from fl r by_ 0 (Some c) t)
        | S n => by_ m y ++ replace_all_from fl r by_ n (Some c) t
        end
      | None => String c (replace_all_from fl r by_ 0 (Some c) t)
      end
    end
  end.

Definition replace_all (fl : flags) (r : regex) (by_ : replacement)
    (s : string) : string :=
  replace_all_from fl r by_ 0 None s.

(** [String.prototype.split] with a pattern without capture groups.  [cur]
    is the piece being collected; a match that is empty and starts the piece
    is passed over. *)
Fixpoint split_from (fl : flags) (r : regex) (skip : nat)
    (bef : option ascii) (cur : string) (s : string) : list string :=
  match s with
  | "" => [cur]
  | String c t =>
    match skip with
    | S n => split_from fl r n (Some c) cur t
    | 0 =>
      let x := MState bef s [] in
      match match_at fl r x with
      | Some y =>
        match String.length (consumed x y), cur with
        | 0, "" => split_from fl r 0 (Some c) (String c "") t
        | 0, _ => cur :: split_from fl r 0 (Some c) (String c "") t
        | S n, _ => cur :: split_from fl r n (Some c) "" t
        end
      | None => split_from fl r 0 (Some c) (cur ++ String c "") t
      end
    end
  end.

Definition split (fl : flags) (r : regex) (s : string) : list string :=
  match s with
  | "" => match match_at fl r (start s) with Some _ => [] | None => [""] end
  | _ => split_from fl r 0 None "" s
  end.

End Re.

(** ** The markdown functions of [app.js] *)

Import Re.

(** [/\r?\n/], the line separator of every [split] of the source *)
Definition rx_newline : regex :=
  cat [Opt (Char (ascii_of_nat 13)); Char (ascii_of_nat 10)].

Definition lines_of (md : string) : list string :=
  split no_flags rx_newline md.

(** The tail [(.*$)] shared by the line patterns *)
Definition rest_of_line : regex := Group 1 (cat [Star Any; Eol]).

(** [/^###### (.*$)/gim] and the five shorter ones *)
Definition rx_heading (hashes : string) : regex :=
  cat [Bol; lit hashes; Char " "; rest_of_line].

Definition heading_pass (hashes tag : string) (html : string) : string :=
  replace_all fl_im (rx_heading hashes)
    (tmpl [T ("<" ++ tag ++ ">"); G 1; T ("</" ++ tag ++ ">")]) html.

(** [/\*\*\*(.+?)\*\*\*/gim], [/\*\*(.+?)\*\*/gim], [/\*(.+?)\*/gim] *)
Definition rx_emphasis (stars : string) : regex :=
  cat [lit stars; Group 1 (PlusLazy Any); lit stars].

(** [/^\s*[-*] (.*$)/gim] *)
Definition rx_bullet : regex :=
  cat [Bol; Star Space; OneOf "-*"; Char " "; rest_of_line].

(** [/^\s*\d+\.\s+(.*$)/gim] *)
Definition rx_numbered : regex :=
  cat [Bol; Star Space; Plus Digit; Char "."; Plus Space; rest_of_line].

(** [/(<li>.*<\/li>)/gim] *)
Definition rx_list_items : regex :=
  Group 1 (cat [lit "<li>"; Star Any; lit "</li>"]).

(** [/^\s*(?!<h\d|<ul>|<li>|<\/li>|<\/ul>)(.+)$/gim] *)
Definition rx_paragraph : regex :=
  cat [Bol; Star Space;
       NegLook (alts [cat [lit "<h"; Digit]; lit "<ul>"; lit "<li>";
                      lit "</li>"; lit "</ul>"]);
       Group 1 (Plus Any); Eol].

(** The three replacements that open [renderMarkdown] and make up
    [escapeHtml] *)
Definition escape_passes (s : string) : string :=
  let s := replace_all no_flags (Char "&") (tmpl [T "&amp;"]) s in
  let s := replace_all no_flags (Char "<") (tmpl [T "&lt;"]) s in
  replace_all no_flags (Char ">") (tmpl [T "&gt;"]) s.

Definition renderMarkdown (md : string) : string :=
  match md with
  | "" => ""
  | _ =>
    let html := md in
    (* Escape basic HTML first *)
    let html := escape_passes html in
    (* Headings *)
    let html := heading_pass "######" "h6" html in
    let html := heading_pass "#####" "h5" html in
    let html := heading_pass "####" "h4" html in
    let html := heading_pass "###" "h3" html in
    let html := heading_pass "##" "h2" html in
    let html := heading_pass "#" "h1" html in
    (* Bold & italics *)
    let html := replace_all fl_im (rx_emphasis "***")
                  (tmpl [T "<strong><em>"; G 1; T "</em></strong>"]) html in
    let html := replace_all fl_im (rx_emphasis "**")
                  (tmpl [T "<strong>"; G 1; T "</strong>"]) html in
    let html := replace_all fl_im (rx_emphasis "*")
                  (tmpl [T "<em>"; G 1; T "</em>"]) html in
    (* Bullet lists *)
    let html := replace_all fl_im rx_bullet
                  (tmpl [T "<li>"; G 1; T "</li>"]) html in
    (* Numbered lists *)
    let html := replace_all fl_im rx_numbered
                  (tmpl [T "<li>"; G 1; T "</li>"]) html in
    (* Wrap consecutive <li> in <ul> / <ol> *)
    let html := replace_all fl_im rx_list_items
                  (tmpl [T "<ul>"; G 1; T "</ul>"]) html in
    (* Paragraphs *)
    replace_all fl_im rx_paragraph (tmpl [T "<p>"; G 1; T "</p>"]) html
  end.

(** [/([A-Za-z])-([A-Za-z])/g] *)
Definition rx_hyphenated : regex :=
  cat [Group 1 (Class Chr.is_alpha); Char "-"; Group 2 (Class Chr.is_alpha)].

Definition toTitleCase (text : string) : string :=
  let s := Str.trim text in
  let s := replace_all no_flags (Char "_") (tmpl [T " "]) s in
  let s := replace_all no_flags rx_hyphenated (tmpl [G 1; T " "; G 2]) s in
  let s := replace_all no_flags (Plus Space) (tmpl [T " "]) s in
  replace_all no_flags (cat [WordB; Word]) (fun m _ => Str.toUpperCase m) s.

Definition not_char (x : ascii) (a : ascii) : bool := negb (Ascii.eqb a x).

(** [[^\s)]] *)
Definition url_char (a : ascii) : bool :=
  negb (Chr.is_space a || Ascii.eqb a ")").

(** [https?:\/\/[^\s)]+] *)
Definition rx_url : regex :=
  cat [lit "http"; Opt (Char "s"); lit "://"; Plus (Class url_char)].

(** [/\[([^\]]+)\]\((https?:\/\/[^\s)]+)\)/gi] *)
Definition rx_md_link : regex :=
  cat [Char "["; Group 1 (Plus (Class (not_char "]"))); Char "]"; Char "(";
       Group 2 rx_url; Char ")"].

(** [/<https?:\/\/[^>]+>/gi] *)
Definition rx_autolink : regex :=
  cat [Char "<"; lit "http"; Opt (Char "s"); lit "://";
       Plus (Class (not_char ">")); Char ">"].

(** [/[ \t]{2,}/g] *)
Definition rx_blanks : regex :=
  AtLeast 2 (Class (fun a => Ascii.eqb a " " || Ascii.eqb a (ascii_of_nat 9))).

(** [/\n{3,}/g] *)
Definition rx_blank_lines : regex := AtLeast 3 (Char (ascii_of_nat 10)).

Definition collapse_blank_lines (s : string) : string :=
  replace_all no_flags rx_blank_lines (tmpl [T (Str.nl ++ Str.nl)]) s.

Definition stripLinksFromMarkdown (md : string) : string :=
  match md with
  | "" => ""
  | _ =>
    let sanitized := md in
    (* [label](url) -> label *)
    let sanitized := replace_all fl_i rx_md_link (tmpl [G 1]) sanitized in
    (* <https://...> -> "" *)
    let sanitized := replace_all fl_i rx_autolink (tmpl []) sanitized in
    (* bare https://... -> "" *)
    let sanitized := replace_all fl_i rx_url (tmpl []) sanitized in
    Str.trim
      (collapse_blank_lines
         (replace_all no_flags rx_blanks (tmpl [T " "]) sanitized))
  end.

(** [/^#{1,6}\s+/] *)
Definition rx_hashes : regex := cat [Bol; Between 1 6 (Char "#"); Plus Space].

(** [/^\s*[-*+]\s+/] *)
Definition rx_bullet_marker : regex :=
  cat [Bol; Star Space; OneOf "-*+"; Plus Space].

(** [/^\s*\d+\.\s+/] *)
Definition rx_number_marker : regex :=
  cat [Bol; Star Space; Plus Digit; Char "."; Plus Space].

Definition normalizeHeadingCandidate (line : string) : string :=
  let s := replace no_flags rx_hashes (tmpl []) line in
  let s := replace no_flags rx_bullet_marker (tmpl []) s in
  let s := replace no_flags rx_number_marker (tmpl []) s in
  let s := replace_all no_flags (lit "**") (tmpl []) s in
  Str.trim s.

(** [/^recommended\s*resources\b/] *)
Definition rx_recommended_heading : regex :=
  cat [Bol; lit "recommended"; Star Space; lit "resources"; WordB].

(** [/^(duration|objectives|concrete tasks\/activities|concrete tasks|suggested project ideas|phase\s+\d+|yt tutorials|tips for staying consistent|how to measure progress|recommended next step)\b/] *)
Definition rx_other_heading : regex :=
  cat [Bol;
       Group 1 (alts [lit "duration"; lit "objectives";
                      lit "concrete tasks/activities"; lit "concrete tasks";
                      lit "suggested project ideas";
                      cat [lit "phase"; Plus Space; Plus Digit];
                      lit "yt tutorials"; lit "tips for staying consistent";
                      lit "how to measure progress";
                      lit "recommended next step"]);
       WordB].

(** One turn of the loop of [stripLinksExceptRecommendedResources]: the
    flag before the line, the line; the flag after it and the line pushed
    to [output].  The replacements that give [normalized] are those of
    [normalizeHeadingCandidate], which the source writes out again here. *)
Definition strip_step (inRecommendedResources : bool) (line : string)
    : bool * string :=
  let normalized := Str.toLowerCase (normalizeHeadingCandidate line) in
  if test no_flags rx_recommended_heading normalized
  then (true, line)
  else
    let inRecommendedResources :=
      if test no_flags rx_other_heading normalized
      then false else inRecommendedResources in
    (inRecommendedResources,
     if inRecommendedResources then line else stripLinksFromMarkdown line).

Fixpoint strip_loop (inRecommendedResources : bool) (lines : list string)
    : list string :=
  match lines with
  | [] => []
  | line :: rest =>
    let '(flag, out) := strip_step inRecommendedResources line in
    out :: strip_loop flag rest
  end.

Definition stripLinksExceptRecommendedResources (md : string) : string :=
  match md with
  | "" => ""
  | _ =>
    let lines := lines_of md in
    let output := strip_loop false lines in
    Str.trim (collapse_blank_lines (Str.join Str.nl output))
  end.

(** [/recommended\s*resources/i] *)
Definition rx_recommended_title : regex :=
  cat [lit "recommended"; Star Space; lit "resources"].

Definition sanitizeSectionMarkdown (title md : string) : string :=
  if test fl_i rx_recommended_title title then md
  else stripLinksExceptRecommendedResources md.

Definition escapeHtml (text : string) : string := escape_passes text.

(** ** The subsection classifier *)

(** [/[:\-]+$/] *)
Definition rx_trailing_punct : regex := cat [Plus (OneOf ":-"); Eol].

Definition anchored (l : list regex) : regex := cat (Bol :: l ++ [Eol])%list.

(** The table of [getSubsectionTitle], in the order of the source *)
Definition patterns : list (regex * string) :=
  [ (* /^duration(\s*\(.*\))?$/ *)
    (anchored [lit "duration";
               Opt (Group 1 (cat [Star Space; Char "("; Star Any; Char ")"]))],
     "Duration");
    (* /^objectives?$/ *)
    (anchored [lit "objective"; Opt (Char "s")], "Objectives");
    (* /^concrete tasks\/activities$/ *)
    (anchored [lit "concrete tasks/activities"], "Concrete Tasks/Activities");
    (* /^concrete tasks$/ *)
    (anchored [lit "concrete tasks"], "Concrete Tasks/Activities");
    (* /^tasks\/activities$/ *)
    (anchored [lit "tasks/activities"], "Concrete Tasks/Activities");
    (* /^suggested project ideas?$/ *)
    (anchored [lit "suggested project idea"; Opt (Char "s")],
     "Suggested Project Ideas");
    (* /^recommended resources?$/ *)
    (anchored [lit "recommended resource"; Opt (Char "s")],
     "Recommended Resources");
    (* /^resources?$/ *)
    (anchored [lit "resource"; Opt (Char "s")], "Recommended Resources");
    (* /^tips for staying consistent$/ *)
    (anchored [lit "tips for staying consistent"],
     "Tips For Staying Consistent");
    (* /^how to measure progress$/ *)
    (anchored [lit "how to measure progress"], "How To Measure Progress");
    (* /^recommended next step$/ *)
    (anchored [lit "recommended next step"], "Recommended Next Step") ]%list.

Definition subsection_key (line : string) : string :=
  Str.toLowerCase
    (replace no_flags rx_trailing_punct (tmpl [])
       (normalizeHeadingCandidate line)).

Definition getSubsectionTitle (line : string) : option string :=
  let normalized := subsection_key line in
  match find (fun p => test no_flags (fst p) normalized) patterns with
  | Some p => Some (snd p)
  | None => None
  end.

Record subsection : Type :=
  Subsection { sub_title : string; sub_lines : list string }.

(** The loop of [splitPhaseContentIntoSubsections]; [current] is [null] or
    the subsection being filled. *)
Fixpoint split_subsections (preface : list string)
    (subsections : list subsection) (current : option subsection)
    (contentLines : list string) : list string * list subsection :=
  match contentLines with
  | [] =>
    match current with
    | Some cur => (preface, subsections ++ [cur])%list
    | None => (preface, subsections)
    end
  | line :: rest =>
    match getSubsectionTitle line with
    | Some title =>
      let subsections :=
        match current with
        | Some cur => (subsections ++ [cur])%list
        | None => subsections
        end in
      split_subsections preface subsections (Some (Subsection title [])) rest
    | None =>
      match current with
      | Some cur =>
        split_subsections preface subsections
          (Some (Subsection (sub_title cur) (sub_lines cur ++ [line])%list))
          rest
      | None =>
        split_subsections (preface ++ [line])%list subsections None rest
      end
    end
  end.

Definition splitPhaseContentIntoSubsections (contentLines : list string)
    : list string * list subsection :=
  split_subsections [] [] None contentLines.

(** ** Numbers

    A phase number is the Number value of a run of decimal digits: a
    non-negative integer below [2^53] as it is, a larger one rounded to 53
    significant bits, and [Infinity] from [2^1024] on. *)

Inductive number : Type := Fin (z : Z) | Infinity.

Fixpoint digits_value (acc : Z) (s : string) : Z :=
  match s with
  | "" => acc
  | String d t => digits_value (10 * acc + Z.of_nat (Chr.code d - 48)) t
  end.

Definition round_to_double (n : Z) : number :=
  if (n <? 2 ^ 53)%Z then Fin n
  else
    let e := (Z.log2 n - 52)%Z in
    let q := (n / 2 ^ e)%Z in
    let r := (n mod 2 ^ e)%Z in
    let half := (2 ^ (e - 1))%Z in
    let q' := if (half <? r)%Z || ((r =? half)%Z && Z.odd q)
              then (q + 1)%Z else q in
    if (2 ^ 1024 <=? q' * 2 ^ e)%Z then Infinity else Fin (q' * 2 ^ e).

(** [Number(phaseMatch[1])] *)
Definition Number (digits : string) : number :=
  round_to_double (digits_value 0 digits).

Definition MAX_SAFE_INTEGER : number := Fin (2 ^ 53 - 1).

(** The sign of [a - b] as the sort sees it: [Infinity - Infinity] is NaN,
    which the sort reads as [0]. *)
Definition compare_numbers (a b : number) : comparison :=
  match a, b with
  | Fin x, Fin y => (x ?= y)%Z
  | Fin _, Infinity => Lt
  | Infinity, Fin _ => Gt
  | Infinity, Infinity => Eq
  end.

(** ** The document builder *)

Record section : Type :=
  Section_ { sec_type : string; phaseNumber : number; sec_title : string;
             content : list string }.

(** [/^(#{1,6})\s+(.+)$/] *)
Definition rx_heading_line : regex :=
  cat [Bol; Group 1 (Between 1 6 (Char "#")); Plus Space;
       Group 2 (Plus Any); Eol].

(** [/^\s*[-*+]\s*/] *)
Definition rx_bullet_marker_loose : regex :=
  cat [Bol; Star Space; OneOf "-*+"; Star Space].

(** [/^phase\s+(\d+)\s*:/i] *)
Definition rx_phase : regex :=
  cat [Bol; lit "phase"; Plus Space; Group 1 (Plus Digit); Star Space;
       Char ":"].

(** [/^yt\s*tutorials\b/i] *)
Definition rx_yt : regex :=
  cat [Bol; lit "yt"; Star Space; lit "tutorials"; WordB].

(** The result of [parseSectionMeta] is [meta] with an empty [content]. *)
Definition parseSectionMeta (line : string) : option section :=
  let rawText :=
    match exec no_flags rx_heading_line line with
    | Some (_, _, headingMatch) => group 2 headingMatch
    | None => line
    end in
  let normalized :=
    Str.trim
      (replace_all no_flags (lit "**") (tmpl [])
         (replace no_flags rx_number_marker (tmpl [])
            (replace no_flags rx_bullet_marker_loose (tmpl []) rawText))) in
  match exec fl_i rx_phase normalized with
  | Some (_, _, phaseMatch) =>
    Some (Section_ "phase" (Number (group 1 phaseMatch))
            (toTitleCase normalized) [])
  | None =>
    if test fl_i rx_yt normalized
    then Some (Section_ "yt" MAX_SAFE_INTEGER "YT Tutorials" [])
    else None
  end.

Definition push_content (s : section) (line : string) : section :=
  Section_ (sec_type s) (phaseNumber s) (sec_title s)
    (content s ++ [line])%list.

(** The segmentation loop of [buildCollapsibleRoadmap]: [introLines],
    [sections] and [currentSection] after the lines. *)
Fixpoint segment (introLines : list string) (sections : list section)
    (currentSection : option section) (lines : list string)
    : list string * list section :=
  match lines with
  | [] =>
    match currentSection with
    | Some cur => (introLines, sections ++ [cur])%list
    | None => (introLines, sections)
    end
  | line :: rest =>
    match parseSectionMeta line with
    | Some meta =>
      let sections :=
        match currentSection with
        | Some cur => (sections ++ [cur])%list
        | None => sections
        end in
      segment introLines sections (Some meta) rest
    | None =>
      match currentSection with
      | Some cur =>
        segment introLines sections (Some (push_content cur line)) rest
      | None => segment (introLines ++ [line])%list sections None rest
      end
    end
  end.

(** [Array.prototype.sort] with the comparator
    [(a, b) => a.phaseNumber - b.phaseNumber]: the sort is stable and the
    comparator consistent, so the result is that of a stable insertion. *)
Fixpoint insert_section (x : section) (l : list section) : list section :=
  match l with
  | [] => [x]
  | y :: rest =>
    match compare_numbers (phaseNumber y) (phaseNumber x) with
    | Gt => x :: y :: rest
    | _ => y :: insert_section x rest
    end
  end.

Definition sort_by_phaseNumber (l : list section) : list section :=
  fold_left (fun acc x => insert_section x acc) l [].

Fixpoint mapi_from {A B : Type} (i : nat) (f : A -> nat -> B) (l : list A)
    : list B :=
  match l with
  | [] => []
  | x :: rest => f x i :: mapi_from (S i) f rest
  end.

(** [Array.prototype.map] with the index *)
Definition mapi {A B : Type} (f : A -> nat -> B) (l : list A) : list B :=
  mapi_from 0 f l.

Definition concat_strings (l : list string) : string := Str.join "" l.

Definition attr (name value : string) : string :=
  name ++ "=" ++ Str.dq ++ value ++ Str.dq.

Fixpoint spaces (n : nat) : string :=
  match n with 0 => "" | S n' => String " " (spaces n') end.

(** A [<details>] card before it is written out. *)
Record card : Type :=
  Card { openAttr : string; card_title : string; contentHtml : string }.

(** The card template; [indent] is [12] in the phase blocks and [6] in
    [buildStandaloneCard]. *)
Definition card_html (indent : nat) (k : card) : string :=
  Str.nl ++ spaces indent
  ++ "<details " ++ attr "class" "roadmap-card" ++ openAttr k ++ ">"
  ++ Str.nl ++ spaces (indent + 2)
  ++ "<summary " ++ attr "class" "roadmap-card-summary" ++ ">"
  ++ Str.nl ++ spaces (indent + 4)
  ++ "<span " ++ attr "class" "roadmap-card-title" ++ ">"
  ++ card_title k ++ "</span>"
  ++ Str.nl ++ spaces (indent + 4)
  ++ "<span " ++ attr "class" "roadmap-card-icon" ++ " "
  ++ attr "aria-hidden" "true" ++ "></span>"
  ++ Str.nl ++ spaces (indent + 2) ++ "</summary>"
  ++ Str.nl ++ spaces (indent + 2)
  ++ "<div " ++ attr "class" "roadmap-card-body" ++ ">"
  ++ contentHtml k ++ "</div>"
  ++ Str.nl ++ spaces indent ++ "</details>"
  ++ Str.nl ++ spaces (indent - 2).

(** The body of the two [map] callbacks that build a card, from a
    subsection ([sub.title], [sub.lines]) and from a section
    ([section.title], [section.content]) *)
Definition card_of (title : string) (lines : list string) (open : bool)
    : card :=
  let rawContentMd := Str.trim (Str.join Str.nl lines) in
  let contentMd := sanitizeSectionMarkdown title rawContentMd in
  let contentHtml :=
    renderMarkdown (Str.or_else contentMd "_No details available._") in
  Card (if open then " open" else "") (escapeHtml title) contentHtml.

(** The cards of one phase block *)
Definition subsectionCards (s : section) (phaseIndex : nat) : list card :=
  let '(preface, subsections) :=
    splitPhaseContentIntoSubsections (content s) in
  let fallbackSubsections :=
    match subsections with
    | [] => [Subsection "Details" (content s)]
    | _ => subsections
    end in
  mapi (fun sub subIndex =>
          card_of (sub_title sub) (sub_lines sub)
            ((phaseIndex =? 0)%nat && (subIndex =? 0)%nat))
    fallbackSubsections.

Definition phaseBlock (s : section) (phaseIndex : nat) : string :=
  let '(preface, subsections) :=
    splitPhaseContentIntoSubsections (content s) in
  let phaseTitleHtml :=
    "<h3 " ++ attr "class" "roadmap-phase-title" ++ ">"
    ++ escapeHtml (sec_title s) ++ "</h3>" in
  let prefaceMd := Str.trim (Str.join Str.nl preface) in
  let prefaceHtml :=
    match prefaceMd with
    | "" => ""
    | _ => "<div " ++ attr "class" "roadmap-phase-preface" ++ ">"
           ++ renderMarkdown (sanitizeSectionMarkdown "Phase Intro" prefaceMd)
           ++ "</div>"
    end in
  "<section " ++ attr "class" "roadmap-phase-block" ++ ">"
  ++ phaseTitleHtml ++ prefaceHtml
  ++ concat_strings (List.map (card_html 12) (subsectionCards s phaseIndex))
  ++ "</section>".

Definition buildStandaloneCard (s : section) (openByDefault : bool) : card :=
  card_of (sec_title s) (content s) openByDefault.

Definition has_type (t : string) (s : section) : bool :=
  String.eqb (sec_type s) t.

Definition is_empty {A : Type} (l : list A) : bool :=
  match l with [] => true | _ => false end.

(** What [buildCollapsibleRoadmap] computes from a non-empty [sections]
    before it writes the result out. *)
Record layout : Type :=
  Layout { introHtml : string;
           phaseSections : list section;
           otherSections : list section;
           ytSections : list section }.

Definition layout_of (introLines : list string) (sections : list section)
    : layout :=
  Layout (renderMarkdown (Str.trim (Str.join Str.nl introLines)))
    (sort_by_phaseNumber (filter (has_type "phase") sections))
    (filter (fun s => negb (has_type "phase" s) && negb (has_type "yt" s))
       sections)
    (filter (has_type "yt") sections).

Definition otherCards (l : layout) : list card :=
  mapi (fun s idx =>
          buildStandaloneCard s
            (is_empty (phaseSections l) && (idx =? 0)%nat))
    (otherSections l).

Definition ytCards (l : layout) : list card :=
  mapi (fun s idx =>
          buildStandaloneCard s
            (is_empty (phaseSections l) && is_empty (otherSections l)
             && (idx =? 0)%nat))
    (ytSections l).

Definition phaseBlocksHtml (l : layout) : string :=
  concat_strings (mapi phaseBlock (phaseSections l)).

Definition otherCardsHtml (l : layout) : string :=
  concat_strings (List.map (card_html 6) (otherCards l)).

Definition ytCardsHtml (l : layout) : string :=
  concat_strings (List.map (card_html 6) (ytCards l)).

Definition buildCollapsibleRoadmap (md : string) : string :=
  match md with
  | "" => ""
  | _ =>
    let '(introLines, sections) := segment [] [] None (lines_of md) in
    match sections with
    | [] => renderMarkdown md
    | _ =>
      let l := layout_of introLines sections in
      introHtml l ++ phaseBlocksHtml l ++ otherCardsHtml l ++ ytCardsHtml l
    end
  end.

(** ** What can throw

    The functions above are written over strings and [option]s, with each
    test for [null] and the read it protects taken together.  In
    JavaScript they are two steps: a read of a property of [null] or
    [undefined] throws a [TypeError], as does the call of a string method
    on them, and the code makes such reads at the places marked below,
    each behind a test of its own.  [Js] writes the functions again with
    the two steps apart, over a result that is a value or the error. *)

Module Js.

Inductive outcome (A : Type) : Type :=
| Ok (a : A)
| TypeError.

Arguments Ok {A} a.
Arguments TypeError {A}.

Definition bind {A B : Type} (o : outcome A) (f : A -> outcome B)
    : outcome B :=
  match o with
  | Ok a => f a
  | TypeError => TypeError
  end.

Notation "x <- o ;; f" := (bind o (fun x => f))
  (at level 61, o at next level, right associativity).

(** What a caller can pass for [md]; the specification speaks of the
    strings. *)
Inductive value : Type :=
| Undefined
| Null
| Str (s : string).

(** [!md] *)
Definition falsy (md : value) : bool :=
  match md with
  | Str "" => true
  | Str _ => false
  | Undefined => true
  | Null => true
  end.

(** [String(md)] *)
Definition to_String (md : value) : string :=
  match md with
  | Str s => s
  | Undefined => "undefined"
  | Null => "null"
  end.

(** The receiver of [md.replace(...)] and [md.split(...)] *)
Definition receiver (md : value) : outcome string :=
  match md with
  | Str s => Ok s
  | Undefined => TypeError
  | Null => TypeError
  end.

(** [m[n]] for the result [m] of [String.prototype.match] *)
Definition at_index (m : option (string * string * mstate)) (n : nat)
    : outcome string :=
  match m with
  | Some (_, _, y) => Ok (group n y)
  | None => TypeError
  end.

(** [o.f] *)
Definition field {A B : Type} (o : option A) (f : A -> B) : outcome B :=
  match o with
  | Some a => Ok (f a)
  | None => TypeError
  end.

Definition truthy {A : Type} (o : option A) : bool :=
  match o with Some _ => true | None => false end.

Fixpoint mapi_from {A B : Type} (i : nat) (f : A -> nat -> outcome B)
    (l : list A) : outcome (list B) :=
  match l with
  | [] => Ok []
  | x :: rest =>
    y <- f x i ;;
    ys <- mapi_from (S i) f rest ;;
    Ok (y :: ys)
  end.

Definition getSubsectionTitle (line : string) : outcome (option string) :=
  let normalized := subsection_key line in
  let match_ := find (fun p => test no_flags (fst p) normalized) patterns in
  if truthy match_
  then
    title <- field match_ snd ;;                 (* match.title *)
    Ok (Some title)
  else Ok None.

Fixpoint split_subsections (preface : list string)
    (subsections : list subsection) (current : option subsection)
    (contentLines : list string)
    : outcome (list string * list subsection) :=
  match contentLines with
  | [] =>
    if truthy current
    then
      cur <- field current id ;;
      Ok (preface, subsections ++ [cur])%list
    else Ok (preface, subsections)
  | line :: rest =>
    title <- getSubsectionTitle line ;;
    match title with
    | Some title =>
      subsections <-
        (if truthy current
         then
           cur <- field current id ;;
           Ok (subsections ++ [cur])%list
         else Ok subsections) ;;
      split_subsections preface subsections (Some (Subsection title [])) rest
    | None =>
      if truthy current
      then
        cur_title <- field current sub_title ;;
        cur_lines <- field current sub_lines ;;  (* current.lines.push *)
        split_subsections preface subsections
          (Some (Subsection cur_title (cur_lines ++ [line])%list)) rest
      else split_subsections (preface ++ [line])%list subsections None rest
    end
  end.

Definition splitPhaseContentIntoSubsections (contentLines : list string)
    : outcome (list string * list subsection) :=
  split_subsections [] [] None contentLines.

Definition parseSectionMeta (line : string) : outcome (option section) :=
  let headingMatch := exec no_flags rx_heading_line line in
  rawText <-
    (if truthy headingMatch
     then at_index headingMatch 2                (* headingMatch[2] *)
     else Ok line) ;;
  let normalized :=
    Str.trim
      (replace_all no_flags (lit "**") (tmpl [])
         (replace no_flags rx_number_marker (tmpl [])
            (replace no_flags rx_bullet_marker_loose (tmpl []) rawText))) in
  let phaseMatch := exec fl_i rx_phase normalized in
  if truthy phaseMatch
  then
    digits <- at_index phaseMatch 1 ;;           (* phaseMatch[1] *)
    Ok (Some (Section_ "phase" (Number digits) (toTitleCase normalized) []))
  else
    if test fl_i rx_yt normalized
    then Ok (Some (Section_ "yt" MAX_SAFE_INTEGER "YT Tutorials" []))
    else Ok None.

Fixpoint segment (introLines : list string) (sections : list section)
    (currentSection : option section) (lines : list string)
    : outcome (list string * list section) :=
  match lines with
  | [] =>
    if truthy currentSection
    then
      cur <- field currentSection id ;;
      Ok (introLines, sections ++ [cur])%list
    else Ok (introLines, sections)
  | line :: rest =>
    meta <- parseSectionMeta line ;;
    match meta with
    | Some meta =>
      sections <-
        (if truthy currentSection
         then
           cur <- field currentSection id ;;
           Ok (sections ++ [cur])%list
         else Ok sections) ;;
      segment introLines sections (Some meta) rest
    | None =>
      if truthy currentSection
      then
        cur <- field currentSection id ;;        (* currentSection.content *)
        segment introLines sections (Some (push_content cur line)) rest
      else segment (introLines ++ [line])%list sections None rest
    end
  end.

Definition phaseBlock (s : section) (phaseIndex : nat) : outcome string :=
  split <- splitPhaseContentIntoSubsections (content s) ;;
  let '(preface, subsections) := split in
  let phaseTitleHtml :=
    "<h3 " ++ attr "class" "roadmap-phase-title" ++ ">"
    ++ escapeHtml (sec_title s) ++ "</h3>" in
  let prefaceMd := Str.trim (Str.join Str.nl preface) in
  let prefaceHtml :=
    match prefaceMd with
    | "" => ""
    | _ => "<div " ++ attr "class" "roadmap-phase-preface" ++ ">"
           ++ renderMarkdown
                (sanitizeSectionMarkdown "Phase Intro" prefaceMd)
           ++ "</div>"
    end in
  let fallbackSubsections :=
    match subsections with
    | [] => [Subsection "Details" (content s)]
    | _ => subsections
    end in
  let subsectionCards :=
    mapi (fun sub subIndex =>
            card_of (sub_title sub) (sub_lines sub)
              ((phaseIndex =? 0)%nat && (subIndex =? 0)%nat))
      fallbackSubsections in
  Ok ("<section " ++ attr "class" "roadmap-phase-block" ++ ">"
      ++ phaseTitleHtml ++ prefaceHtml
      ++ concat_strings (List.map (card_html 12) subsectionCards)
      ++ "</section>").

Definition renderMarkdown (md : value) : outcome string :=
  if falsy md then Ok ""
  else
    html <- receiver md ;;                       (* md.replace *)
    Ok (renderMarkdown html).

Definition stripLinksFromMarkdown (md : value) : outcome string :=
  if falsy md then Ok ""
  else Ok (stripLinksFromMarkdown (to_String md)).

Definition stripLinksExceptRecommendedResources (md : value)
    : outcome string :=
  if falsy md then Ok ""
  else Ok (stripLinksExceptRecommendedResources (to_String md)).

Definition buildCollapsibleRoadmap (md : value) : outcome string :=
  if falsy md then Ok ""
  else
    text <- receiver md ;;                       (* md.split *)
    segmented <- segment [] [] None (lines_of text) ;;
    let '(introLines, sections) := segmented in
    match sections with
    | [] => renderMarkdown md
    | _ =>
      let l := layout_of introLines sections in
      phaseBlocks <- mapi_from 0 phaseBlock (phaseSections l) ;;
      Ok (introHtml l ++ concat_strings phaseBlocks ++ otherCardsHtml l
          ++ ytCardsHtml l)
    end.

End Js.

(** ** The progressive revealer

    [renderRoadmapLineByLine] is an [async] function: it runs until its
    next [await delay(waitMs)], and whatever else the page does happens
    between two of its turns.  The shared state is the counter
    [renderJobId] and the displayed [roadmapContent.innerHTML]. *)

Module Revealer.

Record world : Type := World { renderJobId : nat; innerHTML : string }.

Definition set_innerHTML (html : string) (w : world) : world :=
  World (renderJobId w) html.

(** What a call is doing: waiting in [await delay] with [streamed] built
    and the lines after [lines[i]] still to come, or returned. *)
Inductive run : Type :=
| Waiting (streamed : string) (remaining : list string)
| Returned (completed : bool).

Definition empty_roadmap : string := "<p>Empty roadmap.</p>".

(** From the head of the [for] loop to the next [await] or [return];
    [first] is [i === 0]. *)
Definition loop_head (roadmap : string) (jobId : nat) (first : bool)
    (streamed : string) (remaining : list string) (w : world)
    : run * world :=
  match remaining with
  | line :: rest =>
    if negb (jobId =? renderJobId w)%nat then (Returned false, w)
    else
      let streamed := streamed ++ (if first then "" else Str.nl) ++ line in
      (Waiting streamed rest,
       set_innerHTML (buildCollapsibleRoadmap streamed) w)
  | [] =>
    if negb (jobId =? renderJobId w)%nat then (Returned false, w)
    else
      (Returned true,
       set_innerHTML
         (Str.or_else (buildCollapsibleRoadmap roadmap) empty_roadmap) w)
  end.

(** The call, up to its first [await] *)
Definition renderRoadmapLineByLine (roadmap : string) (jobId : nat)
    (w : world) : run * world :=
  let lines := lines_of roadmap in
  match lines with
  | [] => (Returned false, set_innerHTML empty_roadmap w)
  | _ => loop_head roadmap jobId true "" lines (set_innerHTML "" w)
  end.

(** The continuation after an [await] *)
Definition resume (roadmap : string) (jobId : nat) (r : run) (w : world)
    : run * world :=
  match r with
  | Waiting streamed remaining =>
    loop_head roadmap jobId false streamed remaining w
  | Returned _ => (r, w)
  end.

(** [setLoading(true)], as far as the shared state goes *)
Definition setLoading_true (w : world) : world :=
  World (renderJobId w + 1) (innerHTML w).

(** The page: the shared state and the calls in flight. *)
Record call : Type :=
  Call { roadmap_of : string; jobId_of : nat; state_of : run }.

Record page : Type := Page { shared : world; calls : list call }.

Inductive event : Type :=
| Submit                                  (* a submission starts *)
| Render (roadmap : string) (jobId : nat) (* a call is made *)
| Wake (i : nat).                         (* the delay of call [i] ends *)

Fixpoint wake (i : nat) (l : list call) (w : world) : list call * world :=
  match l, i with
  | [], _ => ([], w)
  | k :: rest, 0 =>
    let '(r, w') := resume (roadmap_of k) (jobId_of k) (state_of k) w in
    (Call (roadmap_of k) (jobId_of k) r :: rest, w')
  | k :: rest, S i' =>
    let '(rest', w') := wake i' rest w in (k :: rest', w')
  end.

Definition step (p : page) (e : event) : page :=
  match e with
  | Submit => Page (setLoading_true (shared p)) (calls p)
  | Render roadmap jobId =>
    let '(r, w) := renderRoadmapLineByLine roadmap jobId (shared p) in
    Page w (calls p ++ [Call roadmap jobId r])%list
  | Wake i =>
    let '(l, w) := wake i (calls p) (shared p) in Page w l
  end.

Definition run_events (p : page) (evs : list event) : page :=
  fold_left step evs p.

End Revealer.

(** ** The roadmap the server sends

    The handler of [/api/generate-roadmap], from the first completion to
    [res.json({ roadmap })].  A completion that returns gives a [content]
    that is a string or not; the second completion, made inside
    [generateYTTutorialsFallback], may also throw, which that function
    catches. *)

Module Server.

(** [/yt\s*tutorials/i] *)
Definition rx_yt_tutorials : regex :=
  cat [lit "yt"; Star Space; lit "tutorials"].

Definition apology : string :=
  "Sorry, I couldn't generate a roadmap. Please try again.".

Inductive completion : Type :=
| Threw
| Answered (content : option string).

(** [nvidiaClient] is the client, or [null] *)
Definition generateYTTutorialsFallback (nvidiaClient : bool)
    (second : completion) : string :=
  if negb nvidiaClient then ""
  else
    match second with
    | Answered (Some content) => Str.trim content
    | Answered None => ""
    | Threw => ""
    end.

(** [roadmap] as it is first assigned *)
Definition first_roadmap (content : option string) : string :=
  match content with
  | Some c => match Str.trim c with "" => apology | _ => Str.trim c end
  | None => apology
  end.

(** [roadmap] as it is sent; the handler has returned before when
    [nvidiaClient] is [null]. *)
Definition sent_roadmap (content : option string) (second : completion)
    : string :=
  let roadmap := first_roadmap content in
  if negb (test fl_i rx_yt_tutorials roadmap)
  then
    let ytSection := generateYTTutorialsFallback true second in
    match ytSection with
    | "" => roadmap
    | _ => roadmap ++ Str.nl ++ Str.nl ++ ytSection
    end
  else roadmap.

End Server.

(** * Vocabulary of the properties *)

(** ** Texts *)

Module Text.

Fixpoint all (p : ascii -> bool) (s : string) : bool :=
  match s with
  | "" => true
  | String c t => p c && all p t
  end.

(** The last character of [m], or [b] when [m] is empty *)
Fixpoint last_of (m : string) (b : option ascii) : option ascii :=
  match m with
  | "" => b
  | String c t => last_of t (Some c)
  end.

Fixpoint take_while (p : ascii -> bool) (s : string) : string :=
  match s with
  | String c t => if p c then String c (take_while p t) else ""
  | "" => ""
  end.

Fixpoint drop_while (p : ascii -> bool) (s : string) : string :=
  match s with
  | String c t => if p c then drop_while p t else s
  | "" => ""
  end.

Fixpoint drop (n : nat) (s : string) : string :=
  match n, s with
  | S n', String _ t => drop n' t
  | _, _ => s
  end.

(** Nothing of the class is left after [drop_while]. *)
Definition stops (p : ascii -> bool) (s : string) : Prop :=
  match s with
  | "" => True
  | String c _ => p c = false
  end.

Definition nonspace (a : ascii) : bool := negb (Chr.is_space a).

Definition LF : ascii := ascii_of_nat 10.

Definition is_lf (a : ascii) : bool := Ascii.eqb LF a.

(** A text made of line feeds only: every line of it is empty. *)
Definition blank_lines (s : string) : Prop := all is_lf s = true.

Definition no_newline (l : string) : Prop :=
  all (fun a => negb (is_lf a)) l = true.

(** [l] occurs in [s], byte for byte. *)
Definition occurs (l s : string) : Prop := exists a b, s = a ++ l ++ b.

(** A text with a character that is no white space at either end *)
Definition tight (l : string) : Prop :=
  (exists a t, l = String a t /\ Chr.is_space a = false)
  /\ (exists a t, Str.rev l = String a t /\ Chr.is_space a = false).

End Text.

(** ** Matchers *)

Module Matcher.
Import Text.

Definition len (x : mstate) : nat := String.length (input x).

(** Two continuations that agree on every state with at most [n]
    characters left *)
Definition agree_below (n : nat) (k1 k2 : cont) : Prop :=
  forall y, len y <= n -> k1 y = k2 y.

(** A matcher that calls its continuation on no longer input only *)
Definition local (m : cont -> cont) : Prop :=
  forall k1 k2 x, agree_below (len x) k1 k2 -> m k1 x = m k2 x.

(** The state reached from [x] when [m] has been consumed and [r] is left *)
Definition after (m r : string) (x : mstate) : mstate :=
  MState (last_of m (before x)) r (caps x).

(** A successful match went through its continuation, on a state further
    on in the input. *)
Definition reaches (m : cont -> cont) : Prop :=
  forall k x z, m k x = Some z ->
    exists y pre, input x = pre ++ input y /\ k y = Some z.

(** A literal: the state after it, if the input starts with it. *)
Fixpoint lit_state (fl : flags) (l : string) (x : mstate) : option mstate :=
  match l with
  | "" => Some x
  | String c l' =>
    match input x with
    | String a t => if char_eq fl c a then lit_state fl l' (advance a t x)
                    else None
    | "" => None
    end
  end.

End Matcher.

(** ** The table of the classifier *)

Module Classifier.

(** The literal each pattern of the table starts with *)
Definition prefix_of (i : nat) : string :=
  nth i ["duration"; "objective"; "concrete tasks/activities";
         "concrete tasks"; "tasks/activities"; "suggested project idea";
         "recommended resource"; "resource"; "tips for staying consistent";
         "how to measure progress"; "recommended next step"] "".

Definition compatible (a b : string) : bool :=
  Str.is_prefix a b || Str.is_prefix b a.

(** At most one element of [l] satisfies [f]. *)
Definition exclusive {A : Type} (f : A -> bool) (l : list A) : Prop :=
  forall i j x y, i < j -> nth_error l i = Some x -> nth_error l j = Some y ->
                  f x = true -> f y = true -> False.

End Classifier.

(** ** URL tokens and regions *)

Module Sanitizer.
Import Text.

(** The rest of [s] after the literal [l], letter case apart *)
Fixpoint strip_ci (l s : string) : option string :=
  match l with
  | "" => Some s
  | String c l' =>
    match s with
    | String a t => if char_eq fl_i c a then strip_ci l' t else None
    | "" => None
    end
  end.

(** [://] and one character of the URL class *)
Definition url_body (s : string) : bool :=
  match strip_ci "://" s with
  | Some (String u _) => url_char u
  | _ => false
  end.

(** [s] starts with a URL token: a match of [https?:\/\/[^\s)]+] *)
Definition url_at (s : string) : bool :=
  match strip_ci "http" s with
  | Some r =>
    match r with
    | String a t => char_eq fl_i "s" a && url_body t
    | "" => false
    end || url_body r
  | None => false
  end.

(** A URL token starts somewhere in [s]. *)
Fixpoint has_url (s : string) : bool :=
  url_at s ||
  match s with
  | String _ t => has_url t
  | "" => false
  end.

(** What [:\/\/[^\s)]+] leaves of [r] when it matches at its start *)
Definition url_tail_rest (r : string) : option string :=
  match strip_ci "://" r with
  | Some r2 =>
    if (1 <=? String.length (take_while url_char r2))%nat
    then Some (drop_while url_char r2) else None
  | None => None
  end.

(** What [rx_url] leaves of [s] when it matches at its start *)
Definition url_rest (s : string) : option string :=
  match strip_ci "http" s with
  | Some r =>
    match r with
    | String a t =>
      if char_eq fl_i "s" a
      then match url_tail_rest t with
           | Some z => Some z
           | None => url_tail_rest r
           end
      else url_tail_rest r
    | "" => url_tail_rest r
    end
  | None => None
  end.

(** The characters of the scheme belong to the URL class, in either
    case. *)
Definition scheme_char (c : ascii) : Prop :=
  forall a, char_eq fl_i c a = true -> url_char a = true.

Fixpoint scheme_chars (l : string) : Prop :=
  match l with
  | "" => True
  | String c l' => scheme_char c /\ scheme_chars l'
  end.

(** The pass that removes the bare URLs *)
Definition strip_urls_from (skip : nat) (bef : option ascii) (s : string)
    : string :=
  replace_all_from fl_i rx_url (tmpl []) skip bef s.

(** The heading text the sanitizer looks at *)
Definition heading_key (line : string) : string :=
  Str.toLowerCase (normalizeHeadingCandidate line).

Definition opens_region (line : string) : bool :=
  test no_flags rx_recommended_heading (heading_key line).

Definition closes_region (line : string) : bool :=
  test no_flags rx_other_heading (heading_key line).

(** The region policy in the words of the specification: a line lies
    inside when it is a [Recommended Resources] heading, or when the line
    before it lies inside and it is no other recognized heading. *)
Fixpoint region (inside : bool) (lines : list string) : list bool :=
  match lines with
  | [] => []
  | line :: rest =>
    let here := opens_region line || (inside && negb (closes_region line)) in
    here :: region here rest
  end.

Definition keep_or_strip (x : bool * string) : string :=
  if fst x then snd x else stripLinksFromMarkdown (snd x).

End Sanitizer.

(** ** Pages and their events *)

Module RevealerSpec.
Import Revealer.

Definition is_wake (i : nat) (e : event) : bool :=
  match e with Wake j => (i =? j)%nat | _ => false end.

(** The events without the turns of call [i] *)
Definition without (i : nat) (evs : list event) : list event :=
  filter (fun e => negb (is_wake i e)) evs.

(** Two pages that differ in the state of one superseded call only. *)
Definition agree_but (i : nat) (p q : page) : Prop :=
  shared p = shared q
  /\ exists pre kp kq post,
       calls p = (pre ++ kp :: post)%list
       /\ calls q = (pre ++ kq :: post)%list
       /\ length pre = i
       /\ roadmap_of kp = roadmap_of kq
       /\ jobId_of kp = jobId_of kq
       /\ jobId_of kp < renderJobId (shared p).

(** A render of ten lines that a second submission supersedes after three
    of them. *)
Definition ten_lines : string :=
  Str.join Str.nl
    ["## Phase 1: One"; "Objectives"; "- a"; "- b"; "Duration"; "1 week";
     "## Phase 2: Two"; "Objectives"; "- c"; "- d"].

Definition newer : string :=
  Str.join Str.nl ["## Phase 1: Other"; "Duration"; "2 weeks"].

Definition after_three_lines : page :=
  run_events (Page (World 0 "") [])
    [Submit; Render ten_lines 1; Wake 0; Wake 0; Submit].

Definition race : list event :=
  [Render newer 2; Wake 0; Wake 1; Wake 0; Wake 1; Wake 1; Wake 0].

End RevealerSpec.

(** ** Documents and cards *)

Definition sections_of (md : string) : list section :=
  snd (segment [] [] None (lines_of md)).

Definition intro_of (md : string) : list string :=
  fst (segment [] [] None (lines_of md)).

Definition known_type (s : section) : Prop :=
  sec_type s = "phase" \/ sec_type s = "yt".

(** [a] may stand before [b]: the comparator does not put [b] first. *)
Definition ascending (a b : section) : Prop :=
  compare_numbers (phaseNumber a) (phaseNumber b) <> Gt.

(** The document of the ordering scenario: phases 3, 1, 2 in that order,
    then the tutorials. *)
Definition doc_3_1_2 : string :=
  Str.join Str.nl
    ["Plan"; "## Phase 3: Ship"; "- release"; "## Phase 1: Learn";
     "- read"; "## Phase 2: Build"; "- code"; "## YT Tutorials"; "- watch"].

(** Every card of the output, in the order in which it is written. *)
Definition cards_in_order (l : layout) : list card :=
  (concat (mapi subsectionCards (phaseSections l))
   ++ otherCards l ++ ytCards l)%list.

Definition is_open (k : card) : Prop := openAttr k = " open".
Definition is_closed (k : card) : Prop := openAttr k = "".

Definition no_card : card := Card "" "" "".

(** The card the default-expansion rule names. *)
Definition default_card (l : layout) : card :=
  match phaseSections l, otherSections l, ytSections l with
  | p :: _, _, _ => hd no_card (subsectionCards p 0)
  | [], o :: _, _ => buildStandaloneCard o true
  | [], [], y :: _ => buildStandaloneCard y true
  | [], [], [] => no_card
  end.

(** A line outside any region that names the two schemes and then gives a
    link, and a region whose last line ends with two spaces *)
Definition doc_bare_scheme : string :=
  "Use http:// or https:// prefixes, e.g. https://example.com".

Definition doc_trailing_blanks : string :=
  "Recommended Resources" ++ Str.nl ++ "- https://a.com  ".

(** ** Lines and the groups they fall into *)

Definition is_section_heading (line : string) : bool :=
  match parseSectionMeta line with Some _ => true | None => false end.

Definition is_subsection_heading (line : string) : bool :=
  match getSubsectionTitle line with Some _ => true | None => false end.

(** A section as [parseSectionMeta] returned it, before any line was pushed
    to its [content] *)
Definition meta_of (s : section) : section :=
  Section_ (sec_type s) (phaseNumber s) (sec_title s) [].

(** A line that opens no section, a heading line and the section it opens *)
Definition plain_line (line : string) : Prop := is_section_heading line = false.

Definition starts (h : string) (s : section) : Prop :=
  parseSectionMeta h = Some (meta_of s).

(** The same for the subsections of a phase *)
Definition plain_subline (line : string) : Prop :=
  is_subsection_heading line = false.

Definition titles (h : string) (s : subsection) : Prop :=
  getSubsectionTitle h = Some (sub_title s).

(** The lines of a document from its sections and the heading line each
    one started at *)
Fixpoint lines_of_sections (headings : list string) (secs : list section)
    : list string :=
  match headings, secs with
  | h :: hs, s :: ss => (h :: content s ++ lines_of_sections hs ss)%list
  | _, _ => []
  end.

(** The lines of a phase from its subsections and their heading lines *)
Fixpoint lines_of_subsections (headings : list string)
    (subs : list subsection) : list string :=
  match headings, subs with
  | h :: hs, s :: ss => (h :: sub_lines s ++ lines_of_subsections hs ss)%list
  | _, _ => []
  end.

(** The placeholder of a card without content, as it is displayed *)
Definition no_details_html : string := "<p>_No details available._</p>".

(** ** Line breaks *)

(** The text with every CR LF turned into LF *)
Fixpoint lf_newlines (s : string) : string :=
  match s with
  | "" => ""
  | String a t =>
    match t with
    | String b _ =>
      if Ascii.eqb a (ascii_of_nat 13) && Ascii.eqb b (ascii_of_nat 10)
      then lf_newlines t
      else String a (lf_newlines t)
    | "" => String a ""
    end
  end.

(** The number of line feeds of a text *)
Fixpoint count_lf (s : string) : nat :=
  match s with
  | "" => 0
  | String a t => (if Text.is_lf a then 1 else 0) + count_lf t
  end.

(** ** A render that nothing interrupts *)

(** [n] turns of the call at index [i] *)
Definition turns (i n : nat) : list Revealer.event :=
  repeat (Revealer.Wake i) n.

(** The text streamed once the lines up to [lines[k]] are in *)
Definition streamed_upto (k : nat) (roadmap : string) : string :=
  Str.join Str.nl (firstn (S k) (lines_of roadmap)).

(** ** Escaping *)

(** What [escapeHtml] writes for one character *)
Definition escape_char (a : ascii) : string :=
  if Ascii.eqb "&" a then "&amp;"
  else if Ascii.eqb "<" a then "&lt;"
  else if Ascii.eqb ">" a then "&gt;"
  else String a "".

(** A text with every character replaced by a text *)
Fixpoint expand (f : ascii -> string) (s : string) : string :=
  match s with
  | "" => ""
  | String a t => f a ++ expand f t
  end.

(** The characters that open and close a tag *)
Definition angle (a : ascii) : bool := Ascii.eqb "<" a || Ascii.eqb ">" a.

(** One pass of [escape_passes], character by character *)
Definition one_pass (c : ascii) (w : string) (a : ascii) : string :=
  if Ascii.eqb c a then w else String a "".

(** ** Runs of a class *)

(** No run of [n] characters of the class [q], or more, in [s] *)
Fixpoint runs_below (q : ascii -> bool) (n : nat) (s : string) : bool :=
  (String.length (Text.take_while q s) <? n)%nat
  && match s with
     | "" => true
     | String _ t => runs_below q n t
     end.

(** Three line feeds in a row: two empty lines *)
Definition two_empty_lines : string := Str.nl ++ Str.nl ++ Str.nl.

(** ** A render that comes too late *)

Definition has_returned (k : Revealer.call) : bool :=
  match Revealer.state_of k with
  | Revealer.Returned _ => true
  | Revealer.Waiting _ _ => false
  end.

Definition is_turn (e : Revealer.event) : bool :=
  match e with Revealer.Wake _ => true | _ => false end.

(** A first roadmap has been displayed to the end under job [2] when the
    answer to the submission of job [1] arrives. *)
Definition displayed_page : Revealer.page :=
  Revealer.run_events (Revealer.Page (Revealer.World 0 "") [])
    [Revealer.Submit; Revealer.Submit;
     Revealer.Render ("## Phase 1: One" ++ Str.nl ++ "Duration") 2;
     Revealer.Wake 0; Revealer.Wake 0].

(** ** Phases with the same number *)

(** The comparator of the sort finds the number of [s] equal to [n]. *)
Definition same_number (n : number) (s : section) : bool :=
  match compare_numbers (phaseNumber s) n with
  | Eq => true
  | _ => false
  end.

(** ** Plain lines *)

(** A character of a plain line: no line terminator and no asterisk *)
Definition plain_char (c : ascii) : bool :=
  Chr.dot c && negb (Ascii.eqb "*" c).

(** A character of an escaped plain line *)
Definition quiet (c : ascii) : bool := plain_char c && negb (angle c).

(** A position in an escaped plain line that starts with a letter: at the
    start of the line, the line is there; further on, the character before
    is no line terminator. *)
Definition inside_line (bef : option ascii) (s : string) : Prop :=
  match bef with
  | None => exists a t, s = String a t /\ Chr.is_alpha a = true
  | Some c => Chr.is_line_terminator c = false
  end
  /\ Text.all quiet s = true.

(** ** Heading lines *)

(** The markers of [renderMarkdown] and the tags they stand for *)
Definition heading_levels : list (string * string) :=
  [("#", "h1"); ("##", "h2"); ("###", "h3"); ("####", "h4"); ("#####", "h5");
   ("######", "h6")].

(** No [<li] in a text, in either case *)
Fixpoint no_li (s : string) : bool :=
  match s with
  | "" => true
  | String a t =>
    negb (char_eq fl_im "<" a
          && match t with
             | String b _ => char_eq fl_im "l" b
             | "" => false
             end)
    && no_li t
  end.

(** ** Line markers *)

Definition hash (c : ascii) : bool := Ascii.eqb "#" c.

Definition bullet (c : ascii) : bool :=
  existsb (Ascii.eqb c) (list_ascii_of_string "-*+").

(** White space, one character at least *)
Definition spaces1 (ws : string) : bool :=
  (1 <=? String.length ws)%nat && Text.all Chr.is_space ws.

(** One to six [#] and white space *)
Definition heading_marker (m : string) : bool :=
  (1 <=? String.length (Text.take_while hash m))%nat
  && (String.length (Text.take_while hash m) <=? 6)%nat
  && spaces1 (Text.drop_while hash m).

(** [-], [*] or [+] and white space *)
Definition bullet_marker (m : string) : bool :=
  match m with
  | String c ws => bullet c && spaces1 ws
  | "" => false
  end.

(** Digits, a full stop and white space *)
Definition number_marker (m : string) : bool :=
  (1 <=? String.length (Text.take_while Chr.is_digit m))%nat
  && match Text.drop_while Chr.is_digit m with
     | String c ws => Ascii.eqb "." c && spaces1 ws
     | "" => false
     end.

(** No marker, or the marker [f] *)
Definition optional (f : string -> bool) (m : string) : bool :=
  match m with "" => true | _ => f m end.

(** The first character of [s] is of the class [p]. *)
Definition starts_with (p : ascii -> bool) (s : string) : bool :=
  match s with String c _ => p c | "" => false end.

(** ** Phase headings *)

(** Digits, one at least *)
Definition digits1 (ds : string) : bool :=
  (1 <=? String.length ds)%nat && Text.all Chr.is_digit ds.

(** The word [l] in any letter case *)
Definition spells (l p : string) : bool :=
  match Sanitizer.strip_ci l p with
  | Some "" => true
  | _ => false
  end.

Definition no_star (c : ascii) : bool := negb (Ascii.eqb "*" c).

(** ** Titles *)

(** Every lower-case letter of [s] follows a word character;
    [after_word] says whether [s] itself follows one. *)
Fixpoint title_cased (after_word : bool) (s : string) : bool :=
  match s with
  | "" => true
  | String c t =>
    (negb (Chr.is_lower c) || after_word) && title_cased (Chr.is_word c) t
  end.

(** The character before the position is a word character. *)
Definition after_word_char (bef : option ascii) : bool :=
  match bef with Some c => Chr.is_word c | None => false end.

(** ** Links *)

(** None of the patterns that [stripLinksFromMarkdown] rewrites matches
    in [s]. *)
Definition link_free (s : string) : bool :=
  negb (test fl_i rx_url s) && negb (test fl_i rx_autolink s)
  && negb (test no_flags rx_blanks s) && negb (test no_flags rx_blank_lines s).

(** The text of a markdown link *)
Definition md_link (label url : string) : string :=
  "[" ++ label ++ "](" ++ url ++ ")".

(** ** Region lines in the text returned *)

(** A character that is no white space *)
Definition has_text (s : string) : bool := negb (Text.all Chr.is_space s).

(** A line pushed before (after) [output[i]] holds a character that is no
    white space. *)
Definition text_before (i : nat) (output : list string) : bool :=
  existsb has_text (firstn i output).

Definition text_after (i : nat) (output : list string) : bool :=
  existsb has_text (skipn (S i) output).

(** A line as it stands in the text returned: between the line feeds that
    join it to its neighbours; with nothing but white space before it, at
    the start of the text and without the white space it starts with; with
    nothing but white space after it, at the end of the text and without
    the white space it ends with. *)
Definition as_returned (before after : bool) (line : string) : string :=
  (if before then Str.nl else "")
  ++ (let l := if before then line else Str.trimStart line in
      if after then l else Str.trimEnd l)
  ++ (if after then Str.nl else "").

(** [k] line feeds *)
Fixpoint line_feeds (k : nat) : string :=
  match k with
  | 0 => ""
  | S n => String Text.LF (line_feeds n)
  end.

(** What [.replace(/\n{3,}/g, "\n\n")] writes for a run of [k] line
    feeds *)
Definition emit (k : nat) : string :=
  if (3 <=? k)%nat then Str.nl ++ Str.nl else line_feeds k.

(** The pass as a recursion over the text, with the line feeds of the run
    being read counted in [k] *)
Fixpoint squeeze (k : nat) (s : string) : string :=
  match s with
  | "" => emit k
  | String c t =>
    if Text.is_lf c then squeeze (S k) t
    else emit k ++ String c (squeeze 0 t)
  end.

(** The lines joined, around one of them *)
Definition joined_before (i : nat) (l : list string) : string :=
  match firstn i l with
  | [] => ""
  | _ => Str.join Str.nl (firstn i l) ++ Str.nl
  end.

Definition joined_after (i : nat) (l : list string) : string :=
  match skipn (S i) l with
  | [] => ""
  | _ => Str.nl ++ Str.join Str.nl (skipn (S i) l)
  end.

(** A region whose second line is indented and ends with two spaces, with
    text before and after it *)
Definition doc_region_indented : string :=
  Str.join Str.nl
    ["Objectives"; "- see https://a.com"; "## Recommended Resources";
     "  - [Docs](https://example.com)  "; "Duration"; "2 weeks"].

(** ** Tags in the output *)

(** The captures of [y] that are not those of [x] are parts of [pre]. *)
Definition caps_from (x y : mstate) (pre : string) : Prop :=
  forall n c, lookup_cap n (caps y) = Some c ->
              lookup_cap n (caps x) = Some c \/ Text.occurs c pre.

(** A successful match went through its continuation on a state further
    on, with captures taken from the text passed over. *)
Definition carries (m : cont -> cont) : Prop :=
  forall k x z, m k x = Some z ->
    exists y pre,
      input x = pre ++ input y /\ caps_from x y pre /\ k y = Some z.

(** The characters before the [>] of the tags that [renderMarkdown]
    writes ([<h1>] to [<h6>], [<strong>], [<em>], [<li>], [<ul>], [<p>] and
    the closing ones), and [>] itself *)
Definition tag_end (c : ascii) : bool :=
  existsb (Ascii.eqb c) (list_ascii_of_string "123456gmilp>").

Definition closes (prev : option ascii) : bool :=
  match prev with
  | None => true
  | Some c => tag_end c
  end.

(** Every [>] of [s] stands at the start, or after one of those
    characters; [prev] is the character before [s]. *)
Fixpoint tags_closed (prev : option ascii) (s : string) : bool :=
  match s with
  | "" => true
  | String c t =>
    (negb (Ascii.eqb c ">") || closes prev) && tags_closed (Some c) t
  end.

(** The tag that opens a card, expanded and collapsed *)
Definition details_open : string :=
  "<details " ++ attr "class" "roadmap-card" ++ " open>".

Definition details_closed : string :=
  "<details " ++ attr "class" "roadmap-card" ++ ">".

(** The two characters before the [>] of [details_open], and of either
    tag *)
Definition marks_open (x y : ascii) : bool :=
  Ascii.eqb x "e" && Ascii.eqb y "n".

Definition marks_card (x y : ascii) : bool :=
  marks_open x y || (Ascii.eqb x "d" && Ascii.eqb y (ascii_of_nat 34)).

(** No [>] of [s] stands after two characters that [bad] marks; [pp] and
    [p] are the two characters before [s]. *)
Fixpoint free (bad : ascii -> ascii -> bool) (pp p : option ascii)
    (s : string) : bool :=
  match s with
  | "" => true
  | String c t =>
    negb (Ascii.eqb c ">"
          && match pp, p with
             | Some x, Some y => bad x y
             | _, _ => false
             end)
    && free bad p (Some c) t
  end.

(** The two characters before what follows [s] *)
Fixpoint hist (s : string) (pp p : option ascii) : option ascii * option ascii :=
  match s with
  | "" => (pp, p)
  | String c t => hist t p (Some c)
  end.

(** [s] is free of the marked [>] whatever stands before it. *)
Definition sealed (bad : ascii -> ascii -> bool) (s : string) : Prop :=
  forall pp p, free bad pp p s = true.

(** The texts of a card, each [>] of which closes a tag of
    [renderMarkdown] *)
Definition card_text_closed (k : card) : Prop :=
  tags_closed None (card_title k) = true
  /\ tags_closed None (contentHtml k) = true.

(** The parts of [card_html] after its [<details>] tag: down to the title,
    from the title to the content, and after the content *)
Definition card_top (indent : nat) : string :=
  Str.nl ++ spaces (indent + 2)
  ++ "<summary " ++ attr "class" "roadmap-card-summary" ++ ">"
  ++ Str.nl ++ spaces (indent + 4)
  ++ "<span " ++ attr "class" "roadmap-card-title" ++ ">".

Definition card_mid (indent : nat) : string :=
  "</span>"
  ++ Str.nl ++ spaces (indent + 4)
  ++ "<span " ++ attr "class" "roadmap-card-icon" ++ " "
  ++ attr "aria-hidden" "true" ++ "></span>"
  ++ Str.nl ++ spaces (indent + 2) ++ "</summary>"
  ++ Str.nl ++ spaces (indent + 2)
  ++ "<div " ++ attr "class" "roadmap-card-body" ++ ">".

Definition card_foot (indent : nat) : string :=
  "</div>"
  ++ Str.nl ++ spaces indent ++ "</details>"
  ++ Str.nl ++ spaces (indent - 2).

Definition card_body (indent : nat) (k : card) : string :=
  card_top indent ++ card_title k ++ card_mid indent ++ contentHtml k
  ++ card_foot indent.

(** The parts of [phaseBlock] before the title and between the title and
    the cards *)
Definition block_head : string :=
  "<section " ++ attr "class" "roadmap-phase-block" ++ ">"
  ++ "<h3 " ++ attr "class" "roadmap-phase-title" ++ ">".

Definition prefaceHtml (s : section) : string :=
  let '(preface, subsections) :=
    splitPhaseContentIntoSubsections (content s) in
  let prefaceMd := Str.trim (Str.join Str.nl preface) in
  match prefaceMd with
  | "" => ""
  | _ => "<div " ++ attr "class" "roadmap-phase-preface" ++ ">"
         ++ renderMarkdown (sanitizeSectionMarkdown "Phase Intro" prefaceMd)
         ++ "</div>"
  end.

(** ** Paragraphs and white space *)

(** The alternatives of the lookahead [(?!<h\d|<ul>|<li>|<\/li>|<\/ul>)] of
    the paragraph pattern, and a text one of them matches at its start *)
Definition rx_refused : regex :=
  alts [cat [lit "<h"; Digit]; lit "<ul>"; lit "<li>"; lit "</li>";
        lit "</ul>"].

Definition refused (s : string) : bool :=
  match match_at fl_im rx_refused (start s) with
  | Some _ => true
  | None => false
  end.

(** White space that ends no line *)
Definition is_blank (c : ascii) : bool := Chr.is_space c && Chr.dot c.

(** A line of white space only, which can be empty, and a line of text:
    it starts with a letter and holds no asterisk *)
Definition blank_line (l : string) : bool := Text.all is_blank l.

Definition text_line (l : string) : bool :=
  starts_with Chr.is_alpha l && Text.all plain_char l.

Definition paragraph_of (l : string) : string :=
  "<p>" ++ escapeHtml l ++ "</p>".

(** A line of text once escaped: neither an asterisk nor [<] or [>] *)
Definition quiet_line (l : string) : bool :=
  starts_with Chr.is_alpha l && Text.all quiet l.

(** An escaped text in which every line is white space or starts, after
    white space or none, with a letter, and holds neither an asterisk nor
    [<] or [>]; [lead] says that nothing but white space has been read on
    the line. *)
Fixpoint calm (lead : bool) (s : string) : bool :=
  match s with
  | "" => true
  | String c t =>
    if Text.is_lf c then calm true t
    else if lead
    then (is_blank c && calm true t)
         || (Chr.is_alpha c && quiet c && calm false t)
    else quiet c && calm false t
  end.

(** A position of such a text: within a line, the character before is
    no line terminator. *)
Definition calm_at (bef : option ascii) (s : string) : Prop :=
  exists lead,
    calm lead s = true
    /\ (lead = false ->
        exists c, bef = Some c /\ Chr.is_line_terminator c = false).

(** * Properties *)

(** ** Segmentation *)

Lemma parseSectionMeta_type (line : string) (s : section) :
  parseSectionMeta line = Some s -> known_type s.
Proof.
  unfold parseSectionMeta, known_type.
  destruct (exec fl_i rx_phase _) as [[[? ?] ?]|].
  - intros [= <-]. now left.
  - destruct (test fl_i rx_yt _); [|discriminate].
    intros [= <-]. now right.
Qed.

Lemma known_type_push (s : section) (line : string) :
  known_type s -> known_type (push_content s line).
Proof. exact (fun H => H). Qed.

Lemma segment_types (lines : list string) :
  forall intro secs cur,
    Forall known_type secs ->
    (forall c, cur = Some c -> known_type c) ->
    Forall known_type (snd (segment intro secs cur lines)).
Proof.
  induction lines as [|line rest IH]; intros intro secs cur Hs Hc; simpl.
  - destruct cur as [c|]; simpl; [|assumption].
    apply Forall_app. split; [assumption|]. constructor; [|constructor].
    now apply Hc.
  - destruct (parseSectionMeta line) as [meta|] eqn:Hm.
    + apply IH.
      * destruct cur as [c|]; [|assumption].
        apply Forall_app. split; [assumption|].
        constructor; [|constructor]. now apply Hc.
      * intros c [= <-]. eapply parseSectionMeta_type. eassumption.
    + destruct cur as [c|].
      * apply IH; [assumption|].
        intros c' [= <-]. apply known_type_push. now apply Hc.
      * apply IH; [assumption|]. discriminate.
Qed.

Lemma sections_known (md : string) : Forall known_type (sections_of md).
Proof.
  apply segment_types; [constructor|discriminate].
Qed.

Lemma segment_unstructured (lines : list string) :
  (forall line, In line lines -> parseSectionMeta line = None) ->
  forall intro secs,
    segment intro secs None lines = ((intro ++ lines)%list, secs).
Proof.
  induction lines as [|line rest IH]; intros Hn intro secs; simpl.
  - now rewrite app_nil_r.
  - rewrite (Hn line (or_introl eq_refl)).
    rewrite IH by (intros l Hl; apply Hn; now right).
    now rewrite <- app_assoc.
Qed.

(** [buildCollapsibleRoadmap] in terms of [sections_of] and [intro_of] *)
Lemma buildCollapsibleRoadmap_unfold (md : string) :
  buildCollapsibleRoadmap md =
  match md with
  | "" => ""
  | _ =>
    match sections_of md with
    | [] => renderMarkdown md
    | _ =>
      let l := layout_of (intro_of md) (sections_of md) in
      introHtml l ++ phaseBlocksHtml l ++ otherCardsHtml l ++ ytCardsHtml l
    end
  end.
Proof.
  unfold buildCollapsibleRoadmap, sections_of, intro_of.
  destruct md as [|a md]; [reflexivity|].
  destruct (segment [] [] None (lines_of (String a md))) as [i s].
  reflexivity.
Qed.

(** C3. A document none of whose lines [parseSectionMeta] recognizes as a
    [Phase N:] or [YT Tutorials] heading is rendered by the fallback path:
    [buildCollapsibleRoadmap] returns exactly [renderMarkdown] of it. *)
Theorem fallback_is_renderMarkdown (d : string) :
  (forall line, In line (lines_of d) -> parseSectionMeta line = None) ->
  buildCollapsibleRoadmap d = renderMarkdown d.
Proof.
  intros Hn. rewrite buildCollapsibleRoadmap_unfold.
  destruct d as [|a d]; [reflexivity|].
  unfold sections_of. now rewrite (segment_unstructured _ Hn).
Qed.

Lemma fallback_is_renderMarkdown_witness :
  buildCollapsibleRoadmap
    ("Learn the basics" ++ Str.nl ++ "- then *practice*")
  = renderMarkdown ("Learn the basics" ++ Str.nl ++ "- then *practice*").
Proof.
  apply fallback_is_renderMarkdown.
  intros line Hl. vm_compute in Hl.
  destruct Hl as [<-|[<-|[]]]; vm_compute; reflexivity.
Defined.

Lemma no_other_sections_aux (md : string) :
  otherSections (layout_of (intro_of md) (sections_of md)) = []
  /\ otherCardsHtml (layout_of (intro_of md) (sections_of md)) = "".
Proof.
  assert (Ho : otherSections (layout_of (intro_of md) (sections_of md)) = []).
  { simpl. pose proof (sections_known md) as Hk.
    induction Hk as [|s l Hs _ IH]; [reflexivity|]. simpl.
    unfold has_type at 1 2.
    destruct Hs as [-> | ->]; simpl; exact IH. }
  split; [exact Ho|].
  unfold otherCardsHtml, otherCards. now rewrite Ho.
Qed.

(** C10. [parseSectionMeta] yields a [phase] section, a [yt] section or
    nothing, so for every document the list [otherSections] is empty, no
    card comes from it and [otherCardsHtml] is the empty string. *)
Theorem no_other_sections (md : string) :
  (forall line s, parseSectionMeta line = Some s ->
                  sec_type s = "phase" \/ sec_type s = "yt")
  /\ otherSections (layout_of (intro_of md) (sections_of md)) = []
  /\ otherCards (layout_of (intro_of md) (sections_of md)) = []
  /\ otherCardsHtml (layout_of (intro_of md) (sections_of md)) = "".
Proof.
  destruct (no_other_sections_aux md) as [Ho Hh].
  split; [exact parseSectionMeta_type|].
  split; [exact Ho|].
  split; [|exact Hh].
  unfold otherCards. now rewrite Ho.
Qed.

(** ** Ordering of the phase blocks *)

Lemma compare_numbers_flip (a b : number) :
  compare_numbers a b <> Gt -> compare_numbers b a <> Lt.
Proof.
  destruct a as [x|], b as [y|]; simpl; try congruence.
  rewrite (Z.compare_antisym x y). destruct (x ?= y)%Z; simpl; congruence.
Qed.

Lemma compare_numbers_total (a b : number) :
  compare_numbers a b = Gt -> compare_numbers b a <> Gt.
Proof.
  destruct a as [x|], b as [y|]; simpl; try congruence.
  rewrite (Z.compare_antisym x y). destruct (x ?= y)%Z; simpl; congruence.
Qed.

Lemma ascending_trans (a b c : section) :
  ascending a b -> ascending b c -> ascending a c.
Proof.
  unfold ascending.
  destruct (phaseNumber a) as [x|], (phaseNumber b) as [y|],
           (phaseNumber c) as [z|]; simpl; try congruence.
  rewrite !Z.compare_gt_iff. lia.
Qed.

Lemma insert_section_hd (x a : section) (l : list section) :
  ascending a x -> HdRel ascending a l -> HdRel ascending a (insert_section x l).
Proof.
  intros Hax Hl. destruct l as [|y rest]; simpl.
  - now constructor.
  - destruct (compare_numbers (phaseNumber y) (phaseNumber x));
      constructor; try assumption; now inversion Hl.
Qed.

Lemma insert_section_sorted (x : section) (l : list section) :
  Sorted ascending l -> Sorted ascending (insert_section x l).
Proof.
  induction 1 as [|y rest Hs IH Hhd]; simpl.
  - repeat constructor.
  - destruct (compare_numbers (phaseNumber y) (phaseNumber x)) eqn:Hc.
    + constructor; [exact IH|]. apply insert_section_hd; [|assumption].
      unfold ascending. congruence.
    + constructor; [exact IH|]. apply insert_section_hd; [|assumption].
      unfold ascending. congruence.
    + constructor; [now constructor|]. constructor.
      unfold ascending. now apply compare_numbers_total.
Qed.

Lemma insert_section_perm (x : section) (l : list section) :
  Permutation (insert_section x l) (x :: l).
Proof.
  induction l as [|y rest IH]; simpl; [reflexivity|].
  destruct (compare_numbers (phaseNumber y) (phaseNumber x));
    try reflexivity;
    (etransitivity; [apply perm_skip, IH | apply perm_swap]).
Qed.

Lemma sort_fold_sorted (l : list section) :
  forall acc, Sorted ascending acc ->
    Sorted ascending (fold_left (fun acc x => insert_section x acc) l acc).
Proof.
  induction l as [|x rest IH]; intros acc Hacc; simpl; [assumption|].
  apply IH. now apply insert_section_sorted.
Qed.

Lemma sort_fold_perm (l : list section) :
  forall acc,
    Permutation (fold_left (fun acc x => insert_section x acc) l acc)
                (acc ++ l)%list.
Proof.
  induction l as [|x rest IH]; intros acc; simpl.
  - now rewrite app_nil_r.
  - rewrite IH.
    transitivity ((x :: acc) ++ rest)%list.
    + apply Permutation_app_tail, insert_section_perm.
    + simpl. apply Permutation_middle.
Qed.

Lemma sort_by_phaseNumber_sorted (l : list section) :
  StronglySorted ascending (sort_by_phaseNumber l).
Proof.
  apply Sorted_StronglySorted.
  - intros a b c. apply ascending_trans.
  - apply sort_fold_sorted. constructor.
Qed.

Lemma sort_by_phaseNumber_perm (l : list section) :
  Permutation (sort_by_phaseNumber l) l.
Proof. apply (sort_fold_perm l []). Qed.

Lemma sections_of_empty : sections_of "" = [].
Proof. reflexivity. Qed.

Lemma buildCollapsibleRoadmap_structured (md : string) :
  sections_of md <> [] ->
  let l := layout_of (intro_of md) (sections_of md) in
  buildCollapsibleRoadmap md
  = introHtml l ++ phaseBlocksHtml l ++ otherCardsHtml l ++ ytCardsHtml l.
Proof.
  intros Hs. rewrite buildCollapsibleRoadmap_unfold.
  destruct md as [|a md]; [now rewrite sections_of_empty in Hs|].
  destruct (sections_of (String a md)); [congruence|reflexivity].
Qed.

(** C2. When at least one section is recognized, the phase blocks of the
    output are the recognized phase sections rearranged in ascending order
    of their phase numbers, whatever their order in the document, and the
    YT Tutorials cards follow the last phase block; phases met in the order
    3, 1, 2 are displayed in the order 1, 2, 3. *)
Theorem phase_blocks_ascending :
  (forall md : string,
     sections_of md <> [] ->
     let l := layout_of (intro_of md) (sections_of md) in
     StronglySorted ascending (phaseSections l)
     /\ Permutation (phaseSections l)
          (filter (has_type "phase") (sections_of md))
     /\ buildCollapsibleRoadmap md
        = introHtml l
          ++ concat_strings (mapi phaseBlock (phaseSections l))
          ++ concat_strings (List.map (card_html 6) (ytCards l)))
  /\ List.map phaseNumber (filter (has_type "phase") (sections_of doc_3_1_2))
     = [Fin 3; Fin 1; Fin 2]
  /\ List.map sec_title
       (phaseSections
          (layout_of (intro_of doc_3_1_2) (sections_of doc_3_1_2)))
     = ["Phase 1: Learn"; "Phase 2: Build"; "Phase 3: Ship"].
Proof.
  split; [|split; vm_compute; reflexivity].
  intros md Hs l. split; [|split].
  - apply sort_by_phaseNumber_sorted.
  - apply sort_by_phaseNumber_perm.
  - rewrite (buildCollapsibleRoadmap_structured md Hs). fold l.
    destruct (no_other_sections_aux md) as [_ Ho]. fold l in Ho.
    rewrite Ho. reflexivity.
Qed.

Lemma phase_blocks_ascending_witness :
  sections_of doc_3_1_2 <> []
  /\ StronglySorted ascending
       (phaseSections (layout_of (intro_of doc_3_1_2) (sections_of doc_3_1_2)))
  /\ Permutation
       (phaseSections (layout_of (intro_of doc_3_1_2) (sections_of doc_3_1_2)))
       (filter (has_type "phase") (sections_of doc_3_1_2)).
Proof.
  assert (H : sections_of doc_3_1_2 <> []) by (vm_compute; discriminate).
  split; [exact H|].
  destruct (proj1 phase_blocks_ascending doc_3_1_2 H) as [Hs [Hp _]].
  split; [exact Hs | exact Hp].
Defined.

(** ** The card that starts expanded *)

Lemma mapi_from_closed {A : Type} (f : A -> nat -> card) (l : list A) :
  forall i, (forall x j, i <= j -> is_closed (f x j)) ->
    Forall is_closed (mapi_from i f l).
Proof.
  induction l as [|x rest IH]; intros i Hf; simpl; constructor.
  - apply Hf. lia.
  - apply IH. intros y j Hj. apply Hf. lia.
Qed.

Lemma subsectionCards_later (s : section) (i : nat) :
  0 < i -> Forall is_closed (subsectionCards s i).
Proof.
  intros Hi. unfold subsectionCards.
  destruct (splitPhaseContentIntoSubsections (content s)) as [pre subs].
  apply mapi_from_closed. intros sub j _. unfold is_closed, card_of. simpl.
  destruct i; [lia|reflexivity].
Qed.

Lemma subsectionCards_first (s : section) :
  exists k rest,
    subsectionCards s 0 = k :: rest /\ is_open k /\ Forall is_closed rest.
Proof.
  unfold subsectionCards.
  destruct (splitPhaseContentIntoSubsections (content s)) as [pre subs].
  destruct subs as [|sub subs]; unfold mapi; simpl.
  - eexists. eexists. split; [reflexivity|]. split; [reflexivity|constructor].
  - eexists. eexists. split; [reflexivity|]. split; [reflexivity|].
    apply mapi_from_closed. intros x j Hj. unfold is_closed. simpl.
    destruct j; [lia|reflexivity].
Qed.

Lemma concat_mapi_from_closed (l : list section) :
  forall i, 0 < i ->
    Forall is_closed (concat (mapi_from i subsectionCards l)).
Proof.
  induction l as [|s rest IH]; intros i Hi; simpl; [constructor|].
  apply Forall_app. split.
  - now apply subsectionCards_later.
  - apply IH. lia.
Qed.

Lemma standalone_cards (g : nat -> bool) (s : section) (l : list section) :
  mapi (fun s idx => buildStandaloneCard s (g idx)) (s :: l)
  = buildStandaloneCard s (g 0)
    :: mapi_from 1 (fun s idx => buildStandaloneCard s (g idx)) l.
Proof. reflexivity. Qed.

Lemma standalone_rest_closed (g : nat -> bool) (i : nat) (l : list section) :
  (forall j, i <= j -> g j = false) ->
  Forall is_closed (mapi_from i (fun s idx => buildStandaloneCard s (g idx)) l).
Proof.
  intros Hg. apply mapi_from_closed. intros x j Hj.
  unfold is_closed. simpl. now rewrite (Hg j Hj).
Qed.

Lemma standalone_closed (s : section) : is_closed (buildStandaloneCard s false).
Proof. reflexivity. Qed.

Lemma standalone_open (s : section) : is_open (buildStandaloneCard s true).
Proof. reflexivity. Qed.

Lemma sections_partition (secs : list section) :
  secs <> [] ->
  filter (has_type "phase") secs <> []
  \/ filter (fun s => negb (has_type "phase" s) && negb (has_type "yt" s))
       secs <> []
  \/ filter (has_type "yt") secs <> [].
Proof.
  destruct secs as [|s rest]; [congruence|]. intros _. simpl.
  destruct (has_type "phase" s); simpl; [left; discriminate|].
  destruct (has_type "yt" s); simpl; right; [right|left]; discriminate.
Qed.

Lemma sort_by_phaseNumber_nil (l : list section) :
  sort_by_phaseNumber l = [] -> l = [].
Proof.
  intros H. apply Permutation_nil. rewrite <- H.
  apply sort_by_phaseNumber_perm.
Qed.

(** The card that the rule names is the first of the cards, and the only
    one whose [openAttr] is not empty. *)
Lemma default_card_first (md : string) :
  sections_of md <> [] ->
  let l := layout_of (intro_of md) (sections_of md) in
  exists rest,
    cards_in_order l = default_card l :: rest
    /\ is_open (default_card l)
    /\ Forall is_closed rest.
Proof.
  intros Hs l.
  unfold cards_in_order, default_card, otherCards, ytCards.
  destruct (phaseSections l) as [|p ps] eqn:Hp.
  - cbn [mapi mapi_from concat app is_empty].
    destruct (otherSections l) as [|o os] eqn:Ho.
    + destruct (ytSections l) as [|y ys] eqn:Hy.
      * exfalso. destruct (sections_partition _ Hs) as [H|[H|H]].
        -- apply H. apply sort_by_phaseNumber_nil. exact Hp.
        -- apply H. exact Ho.
        -- apply H. exact Hy.
      * rewrite standalone_cards. cbn [mapi mapi_from app is_empty].
        eexists. split; [reflexivity|]. split; [reflexivity|].
        apply standalone_rest_closed. intros [|j] Hj; [lia|reflexivity].
    + rewrite standalone_cards. cbn [app].
      eexists. split; [reflexivity|]. split; [reflexivity|].
      apply Forall_app. split.
      * apply standalone_rest_closed. intros [|j] Hj; [lia|reflexivity].
      * apply standalone_rest_closed. intros j _.
        cbn [is_empty]. now rewrite andb_false_r.
  - destruct (subsectionCards_first p) as [k [rest [Hk [Hopen Hclosed]]]].
    unfold mapi. cbn [mapi_from concat hd]. rewrite Hk. cbn [hd app].
    eexists. split; [reflexivity|]. split; [assumption|].
    repeat (apply Forall_app; split).
    + assumption.
    + apply concat_mapi_from_closed. lia.
    + apply standalone_rest_closed. intros. reflexivity.
    + apply standalone_rest_closed. intros. reflexivity.
Qed.

(** ** Superseded renders *)

Module RevealerFacts.
Import Revealer RevealerSpec.

Lemma checkpoint_stale (roadmap : string) (jobId : nat) (first : bool)
    (streamed : string) (remaining : list string) (w : world) :
  jobId <> renderJobId w ->
  loop_head roadmap jobId first streamed remaining w = (Returned false, w).
Proof.
  intros H. apply Nat.eqb_neq in H. unfold loop_head. rewrite H.
  destruct remaining; reflexivity.
Qed.

Lemma resume_stale (roadmap : string) (jobId : nat) (r : run) (w : world) :
  jobId <> renderJobId w ->
  exists r', resume roadmap jobId r w = (r', w)
             /\ (forall s l, r = Waiting s l -> r' = Returned false).
Proof.
  intros H. destruct r as [s l|b]; simpl.
  - rewrite (checkpoint_stale _ _ _ _ _ _ H). eexists. split; [reflexivity|].
    reflexivity.
  - eexists. split; [reflexivity|]. discriminate.
Qed.

Lemma wake_app_l (pre l : list call) (w : world) :
  forall n, n < length pre ->
    wake n (pre ++ l)%list w
    = (fst (wake n pre w) ++ l, snd (wake n pre w))%list.
Proof.
  induction pre as [|k pre IH]; intros n Hn; simpl in Hn; [lia|].
  destruct n as [|n]; simpl.
  - destruct (resume (roadmap_of k) (jobId_of k) (state_of k) w) as [r w'].
    reflexivity.
  - rewrite IH by lia. destruct (wake n pre w) as [pre' w']. reflexivity.
Qed.

Lemma wake_app_r (pre l : list call) (w : world) :
  forall n,
    wake (length pre + n) (pre ++ l)%list w
    = (pre ++ fst (wake n l w), snd (wake n l w))%list.
Proof.
  induction pre as [|k pre IH]; intros n; simpl.
  - destruct (wake n l w). reflexivity.
  - rewrite IH. reflexivity.
Qed.

Lemma wake_length (l : list call) :
  forall n w, length (fst (wake n l w)) = length l.
Proof.
  induction l as [|k l IH]; intros n w; [now destruct n|].
  destruct n as [|n]; simpl.
  - destruct (resume (roadmap_of k) (jobId_of k) (state_of k) w). reflexivity.
  - specialize (IH n w). destruct (wake n l w). simpl in *. now rewrite IH.
Qed.

Lemma resume_world_mono (roadmap : string) (jobId : nat) (r : run) (w : world) :
  renderJobId (snd (resume roadmap jobId r w)) = renderJobId w.
Proof.
  destruct r as [s l|b]; simpl; [|reflexivity].
  unfold loop_head.
  destruct l; destruct (negb (jobId =? renderJobId w)%nat); reflexivity.
Qed.

Lemma wake_world_mono (l : list call) :
  forall n w, renderJobId (snd (wake n l w)) = renderJobId w.
Proof.
  induction l as [|k l IH]; intros n w; [now destruct n|].
  destruct n as [|n]; simpl.
  - pose proof (resume_world_mono (roadmap_of k) (jobId_of k) (state_of k) w).
    destruct (resume (roadmap_of k) (jobId_of k) (state_of k) w). assumption.
  - specialize (IH n w). destruct (wake n l w). assumption.
Qed.

Lemma render_world_mono (roadmap : string) (jobId : nat) (w : world) :
  renderJobId (snd (renderRoadmapLineByLine roadmap jobId w)) = renderJobId w.
Proof.
  unfold renderRoadmapLineByLine.
  destruct (lines_of roadmap); [reflexivity|].
  unfold loop_head.
  destruct (negb (jobId =? renderJobId (set_innerHTML "" w))%nat);
    reflexivity.
Qed.

Lemma step_own_wake (i : nat) (p q : page) :
  agree_but i p q -> agree_but i (step p (Wake i)) q.
Proof.
  intros [Hw (pre & kp & kq & post & Hp & Hq & Hl & Hr & Hj & Hlt)].
  unfold step. rewrite Hp.
  replace i with (length pre + 0) by lia. rewrite wake_app_r. simpl.
  destruct (resume_stale (roadmap_of kp) (jobId_of kp) (state_of kp)
              (shared p)) as [r' [Hres _]]; [lia|].
  rewrite Hres. simpl. split; [assumption|].
  exists pre, (Call (roadmap_of kp) (jobId_of kp) r'), kq, post.
  simpl. repeat split; try assumption. lia.
Qed.

Lemma step_other (i : nat) (e : event) (p q : page) :
  is_wake i e = false ->
  agree_but i p q -> agree_but i (step p e) (step q e).
Proof.
  intros He [Hw (pre & kp & kq & post & Hp & Hq & Hl & Hr & Hj & Hlt)].
  destruct e as [|roadmap jobId|n]; simpl.
  - split; [simpl; now rewrite Hw|].
    exists pre, kp, kq, post. simpl. repeat split; try assumption.
    lia.
  - rewrite <- Hw.
    pose proof (render_world_mono roadmap jobId (shared p)) as Hm.
    destruct (renderRoadmapLineByLine roadmap jobId (shared p)) as [r w].
    simpl in Hm |- *. split; [reflexivity|].
    exists pre, kp, kq, (post ++ [Call roadmap jobId r])%list. simpl.
    rewrite Hp, Hq, <- !app_assoc. simpl.
    repeat split; try assumption. lia.
  - simpl in He. apply Nat.eqb_neq in He.
    rewrite Hp, Hq, <- Hw.
    destruct (Nat.lt_ge_cases n (length pre)) as [Hn|Hn].
    + rewrite !wake_app_l by assumption.
      pose proof (wake_world_mono pre n (shared p)) as Hm.
      pose proof (wake_length pre n (shared p)) as Hlen.
      destruct (wake n pre (shared p)) as [pre' w']. simpl in *.
      split; [reflexivity|].
      exists pre', kp, kq, post. simpl. repeat split; try assumption; lia.
    + replace n with (length pre + S (n - length pre - 1)) by lia.
      rewrite !wake_app_r. simpl.
      pose proof (wake_world_mono post (n - length pre - 1) (shared p)) as Hm.
      destruct (wake (n - length pre - 1) post (shared p)) as [post' w'].
      simpl in *. split; [reflexivity|].
      exists pre, kp, kq, post'. simpl. repeat split; try assumption; lia.
Qed.

Lemma run_events_agree (i : nat) (evs : list event) :
  forall p q, agree_but i p q ->
    agree_but i (run_events p evs) (run_events q (without i evs)).
Proof.
  induction evs as [|e evs IH]; intros p q H; simpl; [assumption|].
  destruct (is_wake i e) eqn:He; simpl.
  - destruct e as [| |n]; try discriminate. simpl in He.
    apply Nat.eqb_eq in He. subst n.
    apply IH. now apply step_own_wake.
  - apply IH. now apply step_other.
Qed.

Lemma agree_but_refl (i : nat) (p : page) (k : call) :
  nth_error (calls p) i = Some k ->
  jobId_of k < renderJobId (shared p) ->
  agree_but i p p.
Proof.
  intros Hn Hlt. split; [reflexivity|].
  destruct (nth_error_split _ _ Hn) as (pre & post & Hc & Hl).
  exists pre, k, k, post. repeat split; assumption.
Qed.

End RevealerFacts.

(** C4. A turn of [renderRoadmapLineByLine] that finds its [jobId]
    different from [renderJobId] at the checkpoint returns [false] and
    leaves the shared state as it is.  So once a waiting call has been
    superseded, whatever happens next on the page, the display and the
    counter end as they would without any further turn of that call. *)
Theorem superseded_run_is_inert :
  (forall roadmap jobId first streamed remaining w,
     jobId <> Revealer.renderJobId w ->
     Revealer.loop_head roadmap jobId first streamed remaining w
     = (Revealer.Returned false, w))
  /\ (forall roadmap jobId b w,
        Revealer.resume roadmap jobId (Revealer.Returned b) w
        = (Revealer.Returned b, w))
  /\ (forall (p : Revealer.page) (i : nat) (k : Revealer.call)
             (evs : list Revealer.event),
        nth_error (Revealer.calls p) i = Some k ->
        Revealer.jobId_of k < Revealer.renderJobId (Revealer.shared p) ->
        Revealer.shared (Revealer.run_events p evs)
        = Revealer.shared
            (Revealer.run_events p (RevealerSpec.without i evs))).
Proof.
  split; [exact RevealerFacts.checkpoint_stale|].
  split; [reflexivity|].
  intros p i k evs Hn Hlt.
  exact (proj1 (RevealerFacts.run_events_agree i evs p p
                  (RevealerFacts.agree_but_refl i p k Hn Hlt))).
Qed.

Lemma superseded_run_is_inert_witness :
  nth_error (Revealer.calls RevealerSpec.after_three_lines) 0
  = Some (Revealer.Call RevealerSpec.ten_lines 1
            (Revealer.Waiting
               (Str.join Str.nl ["## Phase 1: One"; "Objectives"; "- a"])
               ["- b"; "Duration"; "1 week"; "## Phase 2: Two"; "Objectives";
                "- c"; "- d"]))
  /\ 1 < Revealer.renderJobId (Revealer.shared RevealerSpec.after_three_lines)
  /\ Revealer.shared
       (Revealer.run_events RevealerSpec.after_three_lines RevealerSpec.race)
     = Revealer.shared
         (Revealer.run_events RevealerSpec.after_three_lines
            (RevealerSpec.without 0 RevealerSpec.race))
  /\ Revealer.innerHTML
       (Revealer.shared
          (Revealer.run_events RevealerSpec.after_three_lines
             RevealerSpec.race))
     = buildCollapsibleRoadmap RevealerSpec.newer.
Proof.
  split; [vm_compute; reflexivity|].
  split; [vm_compute; lia|].
  split; [|vm_compute; reflexivity].
  eapply (proj2 (proj2 superseded_run_is_inert)
            RevealerSpec.after_three_lines 0).
  - vm_compute. reflexivity.
  - vm_compute. lia.
Defined.

(** ** Strings *)

Module StrFacts.
Import Text.

Lemma append_nil_r (s : string) : s ++ "" = s.
Proof. induction s as [|c s IH]; simpl; [reflexivity|now rewrite IH]. Qed.

Lemma append_assoc (a b c : string) : (a ++ b) ++ c = a ++ b ++ c.
Proof. induction a as [|x a IH]; simpl; [reflexivity|now rewrite IH]. Qed.

Lemma length_append (a b : string) :
  String.length (a ++ b) = String.length a + String.length b.
Proof. induction a as [|x a IH]; simpl; [reflexivity|now rewrite IH]. Qed.

Lemma take_append (m r : string) : Str.take (String.length m) (m ++ r) = m.
Proof. induction m as [|c m IH]; simpl; [now destruct r|now rewrite IH]. Qed.

Lemma all_append (p : ascii -> bool) (a b : string) :
  all p (a ++ b) = all p a && all p b.
Proof.
  induction a as [|x a IH]; simpl; [reflexivity|].
  now rewrite IH, andb_assoc.
Qed.

Lemma last_of_append (a b : string) (o : option ascii) :
  last_of (a ++ b) o = last_of b (last_of a o).
Proof.
  revert o. induction a as [|x a IH]; intros o; simpl; [reflexivity|].
  apply IH.
Qed.

Lemma length_neq_S (n : nat) : (n =? S n)%nat = false.
Proof. apply Nat.eqb_neq. lia. Qed.

End StrFacts.

(** ** The matcher *)

Module ReFacts.
Import Text Matcher StrFacts.

Lemma agree_below_le (n n' : nat) (k1 k2 : cont) :
  n' <= n -> agree_below n k1 k2 -> agree_below n' k1 k2.
Proof. intros Hle H y Hy. apply H. lia. Qed.

Section Quantifier.

Variable m : cont -> cont.
Hypothesis m_local : local m.
Variable greedy : bool.

Lemma repeat_local (fuel : nat) :
  forall lo hi x k1 k2,
    agree_below (len x) k1 k2 ->
    repeat_matcher m k1 greedy fuel lo hi x
    = repeat_matcher m k2 greedy fuel lo hi x.
Proof.
  induction fuel as [|fuel IH]; intros lo hi x k1 k2 Hk; simpl;
    [reflexivity|].
  rewrite (Hk x (le_n _)).
  match goal with
  | |- context [m ?d1 x] =>
    match goal with
    | |- _ = (if _ then _ else if _ then m ?d2 x else _) =>
      assert (Hd : m d1 x = m d2 x)
    end
  end.
  { apply m_local. intros y Hy.
    destruct ((lo =? 0)%nat && _); [reflexivity|].
    apply IH. eapply agree_below_le; eassumption. }
  rewrite Hd. reflexivity.
Qed.

(** The first argument of [repeat_matcher] only has to be large enough:
    above [lo] plus the length of the input its value does not matter, so
    the loop is never cut short. *)
Lemma repeat_fuel (k : cont) (f1 : nat) :
  forall f2 lo hi x,
    lo + len x < f1 -> lo + len x < f2 ->
    repeat_matcher m k greedy f1 lo hi x
    = repeat_matcher m k greedy f2 lo hi x.
Proof.
  induction f1 as [|f1 IH]; intros f2 lo hi x H1 H2; [lia|].
  destruct f2 as [|f2]; [lia|]. simpl.
  match goal with
  | |- context [m ?d1 x] =>
    match goal with
    | |- _ = (if _ then _ else if _ then m ?d2 x else _) =>
      assert (Hd : m d1 x = m d2 x)
    end
  end.
  { apply m_local. intros y Hy. unfold len in *.
    destruct (lo =? 0)%nat eqn:Hlo; simpl.
    - destruct (String.length (input y) =? String.length (input x))%nat
        eqn:Hlen; [reflexivity|].
      apply Nat.eqb_eq in Hlo. apply Nat.eqb_neq in Hlen.
      apply IH; unfold len; lia.
    - apply Nat.eqb_neq in Hlo. apply IH; unfold len; lia. }
  rewrite Hd. reflexivity.
Qed.

End Quantifier.

Lemma rmatch_local (fl : flags) (r : regex) : local (rmatch fl r).
Proof.
  induction r as [ | c | p | r1 IH1 r2 IH2 | r1 IH1 r2 IH2
                 | lo hi g r IH | n r IH | | | | r IH];
    intros k1 k2 x Hk; cbn [rmatch].
  - apply Hk. constructor.
  - destruct (input x) as [|a t] eqn:Hx; [reflexivity|].
    destruct (char_eq fl c a); [|reflexivity].
    apply Hk. unfold len. rewrite Hx. simpl. lia.
  - destruct (input x) as [|a t] eqn:Hx; [reflexivity|].
    destruct (p a); [|reflexivity].
    apply Hk. unfold len. rewrite Hx. simpl. lia.
  - apply IH1. intros y Hy. apply IH2.
    eapply agree_below_le; eassumption.
  - rewrite (IH1 k1 k2 x Hk), (IH2 k1 k2 x Hk). reflexivity.
  - apply repeat_local; assumption.
  - apply IH. intros y Hy. apply Hk. exact Hy.
  - rewrite (Hk x (le_n _)). reflexivity.
  - rewrite (Hk x (le_n _)). reflexivity.
  - rewrite (Hk x (le_n _)). reflexivity.
  - rewrite (Hk x (le_n _)). reflexivity.
Qed.

(** Any larger first argument gives the quantifier of [rmatch] the same
    result. *)
Lemma rmatch_rep_fuel (fl : flags) (lo : nat) (hi : option nat) (g : bool)
    (r : regex) (k : cont) (x : mstate) (fuel : nat) :
  lo + len x < fuel ->
  rmatch fl (Rep lo hi g r) k x
  = repeat_matcher (rmatch fl r) k g fuel lo hi x.
Proof.
  intros H. cbn [rmatch]. apply repeat_fuel.
  - apply rmatch_local.
  - unfold len. lia.
  - assumption.
Qed.

Lemma consumed_append (b b' : option ascii) (m r : string)
    (cs cs' : list (nat * string)) :
  consumed (MState b (m ++ r) cs) (MState b' r cs') = m.
Proof.
  unfold consumed. simpl. rewrite length_append.
  replace (String.length m + String.length r - String.length r)
    with (String.length m) by lia.
  apply take_append.
Qed.

Lemma repeat_matcher_S (m : cont -> cont) (k : cont) (greedy : bool)
    (fuel lo : nat) (hi : option nat) (x : mstate) :
  repeat_matcher m k greedy (S fuel) lo hi x =
  if hi_is_zero hi then k x
  else
    let d : cont := fun y =>
      if (lo =? 0)%nat && (String.length (input y) =? String.length (input x))%nat
      then None
      else repeat_matcher m k greedy fuel (pred lo) (dec_hi hi) y in
    if negb (lo =? 0)%nat then m d x
    else if greedy
    then match m d x with Some z => Some z | None => k x end
    else match k x with Some z => Some z | None => m d x end.
Proof. reflexivity. Qed.

Lemma repeat_reaches (m : cont -> cont) (greedy : bool) :
  reaches m ->
  forall fuel lo hi, reaches (fun k => repeat_matcher m k greedy fuel lo hi).
Proof.
  intros Hm fuel.
  induction fuel as [|fuel IH]; intros lo hi k x z H; [discriminate|].
  rewrite repeat_matcher_S in H.
  assert (Hk : k x = Some z ->
               exists y pre, input x = pre ++ input y /\ k y = Some z).
  { intros Hx. exists x, "". split; [reflexivity|assumption]. }
  assert (Hd : forall d : cont,
             (forall y, d y = Some z ->
                        (lo =? 0)%nat
                        && (String.length (input y) =? String.length (input x))%nat
                        = false
                        /\ repeat_matcher m k greedy fuel (pred lo) (dec_hi hi) y
                           = Some z) ->
             m d x = Some z ->
             exists y pre, input x = pre ++ input y /\ k y = Some z).
  { intros d Hdy Hmd.
    destruct (Hm d x z Hmd) as (y1 & pre1 & Hx1 & Hd1).
    destruct (Hdy y1 Hd1) as [_ Hrep].
    destruct (IH _ _ k y1 z Hrep) as (y2 & pre2 & Hx2 & Hk2).
    exists y2, (pre1 ++ pre2). split; [|assumption].
    now rewrite Hx1, Hx2, append_assoc. }
  cbv zeta in H.
  match type of H with
  | context [m ?d x] =>
    assert (Hdd : forall y, d y = Some z ->
                (lo =? 0)%nat
                && (String.length (input y) =? String.length (input x))%nat
                = false
                /\ repeat_matcher m k greedy fuel (pred lo) (dec_hi hi) y
                   = Some z);
    [ intros y Hy;
      destruct ((lo =? 0)%nat
                && (String.length (input y) =? String.length (input x))%nat);
      [discriminate | split; [reflexivity|exact Hy]]
    | specialize (Hd d Hdd) ]
  end.
  destruct (hi_is_zero hi); [auto|].
  destruct (negb (lo =? 0)%nat); [auto|].
  destruct greedy.
  - match type of H with
    | context [m ?d x] => destruct (m d x) as [z'|] eqn:Hmd
    end; [|auto].
    injection H as ->. auto.
  - destruct (k x) as [z'|] eqn:Hkx; [|auto].
    injection H as ->. auto.
Qed.

Lemma rmatch_reaches (fl : flags) (r : regex) : reaches (rmatch fl r).
Proof.
  induction r as [ | c | p | r1 IH1 r2 IH2 | r1 IH1 r2 IH2
                 | lo hi g r IH | n r IH | | | | r IH];
    intros k x z H; cbn [rmatch] in H.
  - exists x, "". auto.
  - destruct (input x) as [|a t] eqn:Hx; [discriminate|].
    destruct (char_eq fl c a); [|discriminate].
    exists (advance a t x), (String a ""). auto.
  - destruct (input x) as [|a t] eqn:Hx; [discriminate|].
    destruct (p a); [|discriminate].
    exists (advance a t x), (String a ""). auto.
  - destruct (IH1 _ _ _ H) as (y1 & pre1 & Hx1 & H1).
    destruct (IH2 _ _ _ H1) as (y2 & pre2 & Hx2 & H2).
    exists y2, (pre1 ++ pre2). split; [|assumption].
    now rewrite Hx1, Hx2, append_assoc.
  - destruct (rmatch fl r1 k x) as [z'|] eqn:H1.
    + injection H as ->. eauto.
    + eauto.
  - exact (repeat_reaches _ g IH _ lo hi k x z H).
  - destruct (IH _ _ _ H) as (y & pre & Hx & Hk).
    exists (set_cap n (consumed x y) y), pre. auto.
  - destruct (at_bol fl x); [|discriminate]. exists x, "". auto.
  - destruct (at_eol fl x); [|discriminate]. exists x, "". auto.
  - destruct (at_word_boundary x); [|discriminate]. exists x, "". auto.
  - destruct (rmatch fl r (fun y => Some y) x); [discriminate|].
    exists x, "". auto.
Qed.

Lemma after_nil (x : mstate) : after "" (input x) x = x.
Proof. now destruct x. Qed.

Lemma after_advance (a : ascii) (t m r : string) (x : mstate) :
  after m r (advance a t x) = after (String a m) r x.
Proof. reflexivity. Qed.

(** A quantified character class: whatever the continuation, a match has
    consumed characters of the class, at least [lo] of them. *)
Lemma repeat_class_inv (fl : flags) (p : ascii -> bool) (k : cont)
    (greedy : bool) (fuel : nat) :
  forall lo x z,
    repeat_matcher (rmatch fl (Class p)) k greedy fuel lo None x = Some z ->
    exists m r,
      input x = m ++ r /\ all p m = true /\ lo <= String.length m
      /\ k (after m r x) = Some z.
Proof.
  induction fuel as [|fuel IH]; intros lo x z H; [discriminate|].
  rewrite repeat_matcher_S in H. cbv zeta in H. cbn [hi_is_zero dec_hi] in H.
  assert (Hk : lo = 0 -> k x = Some z ->
               exists m r, input x = m ++ r /\ all p m = true
                           /\ lo <= String.length m
                           /\ k (after m r x) = Some z).
  { intros -> Hx. exists "", (input x). rewrite after_nil. auto. }
  assert (Hd : forall d : cont,
             (forall y, d y = Some z ->
                repeat_matcher (rmatch fl (Class p)) k greedy fuel (pred lo)
                  None y = Some z) ->
             rmatch fl (Class p) d x = Some z ->
             exists m r, input x = m ++ r /\ all p m = true
                         /\ lo <= String.length m
                         /\ k (after m r x) = Some z).
  { intros d Hdy Hmd. cbn [rmatch] in Hmd.
    destruct (input x) as [|a t] eqn:Hx; [discriminate|].
    destruct (p a) eqn:Hpa; [|discriminate].
    destruct (IH _ _ _ (Hdy _ Hmd)) as (m & r & Ht & Hall & Hlo & Hkk).
    simpl in Ht. exists (String a m), r. simpl. rewrite Hpa, Hall, <- Ht.
    rewrite after_advance in Hkk. repeat split; auto. lia. }
  match type of H with
  | context [rmatch fl (Class p) ?d x] =>
    assert (Hdd : forall y, d y = Some z ->
                repeat_matcher (rmatch fl (Class p)) k greedy fuel (pred lo)
                  None y = Some z);
    [ intros y Hy;
      destruct ((lo =? 0)%nat
                && (String.length (input y) =? String.length (input x))%nat);
      [discriminate | exact Hy]
    | specialize (Hd d Hdd) ]
  end.
  destruct (lo =? 0)%nat eqn:Hlo; cbn [negb] in H; [|auto].
  apply Nat.eqb_eq in Hlo.
  destruct greedy.
  - match type of H with
    | context [rmatch fl (Class p) ?d x] =>
      destruct (rmatch fl (Class p) d x) as [z'|] eqn:Hmd
    end; [|auto].
    injection H as ->. auto.
  - destruct (k x) as [z'|] eqn:Hkx; [|auto].
    injection H as ->. auto.
Qed.

Lemma take_drop_while (p : ascii -> bool) (s : string) :
  s = take_while p s ++ drop_while p s.
Proof.
  induction s as [|c t IH]; simpl; [reflexivity|].
  destruct (p c); simpl; [now rewrite <- IH|reflexivity].
Qed.

Lemma take_while_all (p : ascii -> bool) (s : string) :
  all p (take_while p s) = true.
Proof.
  induction s as [|c t IH]; simpl; [reflexivity|].
  destruct (p c) eqn:Hc; simpl; [now rewrite Hc|reflexivity].
Qed.

Lemma drop_while_stops (p : ascii -> bool) (s : string) :
  stops p (drop_while p s).
Proof.
  induction s as [|c t IH]; simpl; [exact I|].
  destruct (p c) eqn:Hc; simpl; assumption.
Qed.

(** The greedy loop in last position takes the whole run of the class. *)
Lemma repeat_class_greedy (fl : flags) (p : ascii -> bool) (fuel : nat) :
  forall lo x,
    lo + len x < fuel ->
    repeat_matcher (rmatch fl (Class p)) (fun y => Some y) true fuel lo None x
    = if (lo <=? String.length (take_while p (input x)))%nat
      then Some (after (take_while p (input x)) (drop_while p (input x)) x)
      else None.
Proof.
  induction fuel as [|fuel IH]; intros lo x Hf; [lia|].
  rewrite repeat_matcher_S. cbv zeta. cbn [hi_is_zero dec_hi rmatch].
  unfold len in *.
  destruct (input x) as [|a t] eqn:Hx.
  - simpl. destruct lo; simpl; [|reflexivity].
    destruct x; simpl in Hx; now subst.
  - cbn [take_while drop_while]. destruct (p a) eqn:Hpa.
    + cbn [advance input String.length]. rewrite length_neq_S, andb_false_r.
      rewrite IH by (simpl in *; lia).
      cbn [input]. rewrite after_advance.
      destruct lo as [|lo]; simpl; [reflexivity|].
      destruct (lo <=? String.length (take_while p t))%nat; reflexivity.
    + simpl. destruct lo; simpl; [|reflexivity].
      destruct x; simpl in Hx; now subst.
Qed.

(** [c?] *)
Lemma rmatch_opt_char (fl : flags) (c : ascii) (k : cont) (x : mstate) :
  rmatch fl (Opt (Char c)) k x =
  match input x with
  | String a t =>
    if char_eq fl c a
    then match k (advance a t x) with Some z => Some z | None => k x end
    else k x
  | "" => k x
  end.
Proof.
  unfold Opt. cbn [rmatch]. rewrite repeat_matcher_S. cbv zeta.
  cbn [hi_is_zero Nat.eqb negb andb rmatch].
  destruct (input x) as [|a t] eqn:Hx; [reflexivity|].
  destruct (char_eq fl c a); [|reflexivity].
  cbn [advance input String.length]. rewrite length_neq_S.
  cbn [Nat.add]. rewrite repeat_matcher_S. reflexivity.
Qed.

Lemma rmatch_lit (fl : flags) (l : string) :
  forall k x,
    rmatch fl (lit l) k x
    = match lit_state fl l x with Some y => k y | None => None end.
Proof.
  induction l as [|c l IH]; intros k x; [reflexivity|].
  destruct l as [|c' l].
  - cbn [lit rmatch lit_state].
    destruct (input x) as [|a t]; [reflexivity|].
    destruct (char_eq fl c a); reflexivity.
  - change (lit (String c (String c' l)))
      with (Seq (Char c) (lit (String c' l))).
    cbn [rmatch]. cbn [lit_state] in *.
    destruct (input x) as [|a t]; [reflexivity|].
    destruct (char_eq fl c a); [|reflexivity].
    apply IH.
Qed.

Lemma lit_state_inv (fl : flags) (l : string) :
  forall x y,
    lit_state fl l x = Some y ->
    exists m, input x = m ++ input y
              /\ String.length m = String.length l
              /\ y = after m (input y) x
              /\ (ignoreCase fl = false -> m = l).
Proof.
  induction l as [|c l IH]; intros x y H; simpl in H.
  - injection H as <-. exists "". rewrite after_nil. auto.
  - destruct (input x) as [|a t] eqn:Hx; [discriminate|].
    destruct (char_eq fl c a) eqn:Hc; [|discriminate].
    destruct (IH _ _ H) as (m & Hm & Hl & Hy & Hcase).
    exists (String a m). simpl in *. rewrite <- Hm.
    repeat split; auto.
    intros Hi. unfold char_eq in Hc. rewrite Hi in Hc.
    apply Ascii.eqb_eq in Hc. subst. now rewrite Hcase.
Qed.

End ReFacts.

(** ** The classifier *)

Module ClassifierFacts.
Import Text Matcher Classifier StrFacts ReFacts.

Lemma exec_anchored (fl : flags) (r : regex) (s : string) :
  multiline fl = false ->
  forall c, exec_from fl (Seq Bol r) (Some c) s = None.
Proof.
  intros Hm. induction s as [|a t IH]; intros c; simpl.
  - unfold match_at. cbn [rmatch]. unfold at_bol. simpl. now rewrite Hm.
  - unfold match_at. cbn [rmatch]. unfold at_bol. simpl. rewrite Hm. simpl.
    now rewrite IH.
Qed.

(** Without the [m] flag a pattern that starts with [^] is tried at the
    start of the text only. *)
Lemma test_anchored (fl : flags) (r : regex) (s : string) :
  multiline fl = false ->
  test fl (Seq Bol r) s = true ->
  exists y, rmatch fl r (fun y => Some y) (start s) = Some y.
Proof.
  intros Hm. unfold test, exec. destruct s as [|a t]; simpl.
  - unfold match_at. cbn [rmatch]. unfold at_bol. simpl.
    destruct (rmatch fl r _ _) as [y|]; [eauto|discriminate].
  - unfold match_at. cbn [rmatch]. unfold at_bol. simpl.
    destruct (rmatch fl r _ _) as [y|]; [eauto|].
    now rewrite exec_anchored.
Qed.

Lemma anchored_cons (r : regex) (l : list regex) :
  anchored (r :: l) = Seq Bol (Seq r (cat (l ++ [Eol])%list)).
Proof.
  unfold anchored. simpl. destruct (l ++ [Eol])%list eqn:H; [|reflexivity].
  now destruct l.
Qed.

Lemma test_anchored_lit (X : string) (l : list regex) (s : string) :
  test no_flags (anchored (lit X :: l)) s = true ->
  exists t, s = X ++ t.
Proof.
  rewrite anchored_cons. intros H.
  destruct (test_anchored no_flags _ _ eq_refl H) as [y Hy].
  cbn [rmatch] in Hy. rewrite rmatch_lit in Hy.
  destruct (lit_state no_flags X (start s)) as [y1|] eqn:Hl; [|discriminate].
  destruct (lit_state_inv _ _ _ _ Hl) as (m & Hm & _ & _ & Hcase).
  rewrite (Hcase eq_refl) in Hm. simpl in Hm. eauto.
Qed.

Lemma test_anchored_exact (X : string) (s : string) :
  test no_flags (anchored [lit X]) s = true -> s = X.
Proof.
  rewrite anchored_cons. intros H.
  destruct (test_anchored no_flags _ _ eq_refl H) as [y Hy].
  cbn [rmatch app cat] in Hy. rewrite rmatch_lit in Hy.
  destruct (lit_state no_flags X (start s)) as [y1|] eqn:Hl; [|discriminate].
  destruct (lit_state_inv _ _ _ _ Hl) as (m & Hm & _ & _ & Hcase).
  rewrite (Hcase eq_refl) in Hm. simpl in Hm.
  unfold at_eol in Hy. destruct (input y1); [|discriminate].
  now rewrite append_nil_r in Hm.
Qed.

Lemma pattern_prefix (s : string) (i : nat) (p : regex * string) :
  nth_error patterns i = Some p ->
  test no_flags (fst p) s = true ->
  exists t, s = prefix_of i ++ t.
Proof.
  intros Hn Ht.
  assert (Hp : forall X l,
             fst p = anchored (lit X :: l) -> exists t, s = X ++ t).
  { intros X l Hx. rewrite Hx in Ht. exact (test_anchored_lit X l s Ht). }
  destruct i as [|i]; [injection Hn as <-; now eapply (Hp "duration")|].
  destruct i as [|i]; [injection Hn as <-; now eapply (Hp "objective")|].
  destruct i as [|i];
    [injection Hn as <-; now eapply (Hp "concrete tasks/activities")|].
  destruct i as [|i]; [injection Hn as <-; now eapply (Hp "concrete tasks")|].
  destruct i as [|i];
    [injection Hn as <-; now eapply (Hp "tasks/activities")|].
  destruct i as [|i];
    [injection Hn as <-; now eapply (Hp "suggested project idea")|].
  destruct i as [|i];
    [injection Hn as <-; now eapply (Hp "recommended resource")|].
  destruct i as [|i]; [injection Hn as <-; now eapply (Hp "resource")|].
  destruct i as [|i];
    [injection Hn as <-; now eapply (Hp "tips for staying consistent")|].
  destruct i as [|i];
    [injection Hn as <-; now eapply (Hp "how to measure progress")|].
  destruct i as [|i];
    [injection Hn as <-; now eapply (Hp "recommended next step")|].
  simpl in Hn. now destruct i.
Qed.

Lemma common_start (a b ta tb : string) :
  a ++ ta = b ++ tb -> compatible a b = true.
Proof.
  unfold compatible. revert b.
  induction a as [|x a IH]; intros b H; [reflexivity|].
  destruct b as [|y b]; [apply orb_true_r|].
  simpl in H. injection H as -> H. simpl. rewrite Ascii.eqb_refl. simpl.
  now apply IH.
Qed.

(** No text is matched by two patterns of the table. *)
Lemma patterns_exclusive (s : string) (i j : nat) (pi pj : regex * string) :
  i < j ->
  nth_error patterns i = Some pi ->
  nth_error patterns j = Some pj ->
  test no_flags (fst pi) s = true ->
  test no_flags (fst pj) s = true ->
  False.
Proof.
  intros Hij Hi Hj Hti Htj.
  destruct (pattern_prefix s i pi Hi Hti) as [ti Hpi].
  destruct (pattern_prefix s j pj Hj Htj) as [tj Hpj].
  assert (Hc : compatible (prefix_of i) (prefix_of j) = true).
  { apply (common_start _ _ ti tj). congruence. }
  assert (Hi11 : i < 11).
  { change 11 with (length patterns). apply nth_error_Some.
    rewrite Hi. discriminate. }
  assert (Hj11 : j < 11).
  { change 11 with (length patterns). apply nth_error_Some.
    rewrite Hj. discriminate. }
  destruct (Nat.eq_dec i 2) as [-> | Hi2].
  - destruct (Nat.eq_dec j 3) as [-> | Hj3].
    + injection Hj as <-.
      pose proof (test_anchored_exact "concrete tasks" s Htj) as Hs.
      rewrite Hs in Hpi. discriminate.
    + do 11 (destruct j as [|j]; [try lia; vm_compute in Hc; discriminate|]).
      lia.
  - do 11 (destruct i as [|i];
           [do 11 (destruct j as [|j];
                   [try lia; vm_compute in Hc; discriminate|]); lia|]).
    lia.
Qed.

Section Exclusive.

Context {A : Type} (f : A -> bool).

Lemma exclusive_tail (x : A) (l : list A) :
  exclusive f (x :: l) -> exclusive f l.
Proof.
  intros H i j a b Hij Hi Hj. apply (H (S i) (S j)); [lia|assumption..].
Qed.

Lemma exclusive_head (x : A) (l : list A) :
  exclusive f (x :: l) -> f x = true -> forall y, In y l -> f y = false.
Proof.
  intros H Hx y Hy. destruct (In_nth_error _ _ Hy) as [j Hj].
  destruct (f y) eqn:Hfy; [|reflexivity].
  exfalso. apply (H 0 (S j) x y); auto. lia.
Qed.

Lemma exclusive_filter (l : list A) :
  exclusive f l -> length (filter f l) <= 1.
Proof.
  induction l as [|x l IH]; intros H; simpl; [lia|].
  destruct (f x) eqn:Hx.
  - pose proof (exclusive_head x l H Hx) as Hl.
    replace (filter f l) with (@nil A); [simpl; lia|].
    symmetry. clear -Hl. induction l as [|y l IH]; [reflexivity|].
    simpl. rewrite (Hl y (or_introl eq_refl)). apply IH.
    intros z Hz. apply Hl. now right.
  - apply IH. eapply exclusive_tail. eassumption.
Qed.

Lemma exclusive_find (l : list A) (x : A) :
  exclusive f l -> In x l -> f x = true -> find f l = Some x.
Proof.
  induction l as [|y l IH]; intros H Hin Hx; [contradiction|]. simpl.
  destruct (f y) eqn:Hy.
  - destruct Hin as [-> | Hin]; [reflexivity|].
    pose proof (exclusive_head y l H Hy x Hin). congruence.
  - destruct Hin as [-> | Hin]; [congruence|].
    apply IH; auto. eapply exclusive_tail. eassumption.
Qed.

End Exclusive.

Lemma patterns_are_exclusive (s : string) :
  exclusive (fun p => test no_flags (fst p) s) patterns.
Proof. intros i j x y. apply patterns_exclusive. Qed.

End ClassifierFacts.

(** C9. The patterns of [getSubsectionTitle] are mutually exclusive: no
    text is matched by two of them, so the title returned for a line is the
    title of whichever pattern recognizes it, and the spellings that share a
    title ([Resources] and [Recommended Resources]; [Concrete Tasks],
    [Tasks/Activities] and [Concrete Tasks/Activities]) all get that one
    title. *)
Theorem classifier_canonical_titles :
  (forall s : string,
     length (filter (fun p => test no_flags (fst p) s) patterns) <= 1)
  /\ (forall (line : string) (p : regex * string),
        In p patterns ->
        test no_flags (fst p) (subsection_key line) = true ->
        getSubsectionTitle line = Some (snd p))
  /\ getSubsectionTitle "Resources" = Some "Recommended Resources"
  /\ getSubsectionTitle "Recommended Resources" = Some "Recommended Resources"
  /\ getSubsectionTitle "Concrete Tasks" = Some "Concrete Tasks/Activities"
  /\ getSubsectionTitle "Tasks/Activities" = Some "Concrete Tasks/Activities"
  /\ getSubsectionTitle "Concrete Tasks/Activities"
     = Some "Concrete Tasks/Activities".
Proof.
  split.
  { intros s. apply ClassifierFacts.exclusive_filter.
    apply ClassifierFacts.patterns_are_exclusive. }
  split.
  { intros line p Hin Ht. unfold getSubsectionTitle.
    rewrite (ClassifierFacts.exclusive_find _ patterns p
               (ClassifierFacts.patterns_are_exclusive _) Hin Ht).
    reflexivity. }
  repeat split; vm_compute; reflexivity.
Qed.

Lemma classifier_canonical_titles_witness :
  getSubsectionTitle "## **Resources:**" = Some "Recommended Resources".
Proof.
  apply (proj1 (proj2 classifier_canonical_titles) "## **Resources:**"
           (nth 7 patterns (Empty, ""))).
  - apply nth_In. simpl. lia.
  - vm_compute. reflexivity.
Defined.

(** ** Totality *)

Module JsFacts.

Lemma getSubsectionTitle_returns (line : string) :
  Js.getSubsectionTitle line = Js.Ok (getSubsectionTitle line).
Proof.
  unfold Js.getSubsectionTitle, getSubsectionTitle.
  destruct (find _ patterns) as [p|]; reflexivity.
Qed.

Lemma split_subsections_returns (contentLines : list string) :
  forall preface subsections current,
    Js.split_subsections preface subsections current contentLines
    = Js.Ok (split_subsections preface subsections current contentLines).
Proof.
  induction contentLines as [|line rest IH]; intros preface subsections current.
  - destruct current; reflexivity.
  - cbn [Js.split_subsections split_subsections].
    rewrite getSubsectionTitle_returns. cbn [Js.bind].
    destruct (getSubsectionTitle line) as [title|].
    + destruct current as [cur|]; cbn [Js.truthy Js.field Js.bind]; apply IH.
    + destruct current as [cur|]; cbn [Js.truthy Js.field Js.bind]; apply IH.
Qed.

Lemma parseSectionMeta_returns (line : string) :
  Js.parseSectionMeta line = Js.Ok (parseSectionMeta line).
Proof.
  unfold Js.parseSectionMeta, parseSectionMeta.
  destruct (exec no_flags rx_heading_line line) as [[[pre m] y]|];
    cbn [Js.truthy Js.at_index Js.bind];
    match goal with
    | |- context [exec fl_i rx_phase ?n] =>
      destruct (exec fl_i rx_phase n) as [[[pre' m'] y']|]
    end;
    cbn [Js.truthy Js.at_index Js.bind];
    try reflexivity;
    match goal with
    | |- context [test fl_i rx_yt ?n] => destruct (test fl_i rx_yt n)
    end; reflexivity.
Qed.

Lemma segment_returns (lines : list string) :
  forall introLines sections currentSection,
    Js.segment introLines sections currentSection lines
    = Js.Ok (segment introLines sections currentSection lines).
Proof.
  induction lines as [|line rest IH]; intros introLines sections currentSection.
  - destruct currentSection; reflexivity.
  - cbn [Js.segment segment].
    rewrite parseSectionMeta_returns. cbn [Js.bind].
    destruct (parseSectionMeta line) as [meta|].
    + destruct currentSection as [cur|];
        cbn [Js.truthy Js.field Js.bind]; apply IH.
    + destruct currentSection as [cur|];
        cbn [Js.truthy Js.field Js.bind id]; apply IH.
Qed.

Lemma phaseBlock_returns (s : section) (phaseIndex : nat) :
  Js.phaseBlock s phaseIndex = Js.Ok (phaseBlock s phaseIndex).
Proof.
  unfold Js.phaseBlock, Js.splitPhaseContentIntoSubsections, phaseBlock,
    subsectionCards, splitPhaseContentIntoSubsections.
  rewrite split_subsections_returns. cbn [Js.bind].
  destruct (split_subsections [] [] None (content s)) as [preface subsections].
  reflexivity.
Qed.

Lemma phaseBlocks_return (l : list section) :
  forall i,
    Js.mapi_from i Js.phaseBlock l = Js.Ok (mapi_from i phaseBlock l).
Proof.
  induction l as [|s rest IH]; intros i; [reflexivity|].
  cbn [Js.mapi_from mapi_from].
  rewrite phaseBlock_returns. cbn [Js.bind]. rewrite IH. reflexivity.
Qed.

Lemma buildCollapsibleRoadmap_returns (md : string) :
  Js.buildCollapsibleRoadmap (Js.Str md) = Js.Ok (buildCollapsibleRoadmap md).
Proof.
  destruct md as [|a md]; [reflexivity|].
  unfold Js.buildCollapsibleRoadmap, buildCollapsibleRoadmap.
  cbn [Js.falsy Js.receiver Js.bind].
  rewrite segment_returns. cbn [Js.bind].
  destruct (segment [] [] None (lines_of (String a md)))
    as [introLines sections].
  destruct sections as [|s sections]; [reflexivity|].
  cbv zeta. rewrite phaseBlocks_return. reflexivity.
Qed.

End JsFacts.

(** C6. No call of the four text functions on a string throws.  Written
    with the reads that can throw apart from the tests that protect them
    ([headingMatch[2]], [phaseMatch[1]], [match.title], [current.lines],
    [currentSection.content], the receiver of [md.replace] and
    [md.split]), each function returns, and what it returns is the value of
    the function as it is modelled above; [null] and [undefined] are
    stopped by [!md].  The one loop of the matcher that is bounded, the
    quantifier, never stops for lack of steps.  Each function returns the
    empty string for the empty string. *)
Theorem text_functions_total :
  (forall md : string,
     Js.renderMarkdown (Js.Str md) = Js.Ok (renderMarkdown md)
     /\ Js.stripLinksFromMarkdown (Js.Str md)
        = Js.Ok (stripLinksFromMarkdown md)
     /\ Js.stripLinksExceptRecommendedResources (Js.Str md)
        = Js.Ok (stripLinksExceptRecommendedResources md)
     /\ Js.buildCollapsibleRoadmap (Js.Str md)
        = Js.Ok (buildCollapsibleRoadmap md))
  /\ (forall (line : string) (contentLines : list string),
        Js.parseSectionMeta line = Js.Ok (parseSectionMeta line)
        /\ Js.getSubsectionTitle line = Js.Ok (getSubsectionTitle line)
        /\ Js.splitPhaseContentIntoSubsections contentLines
           = Js.Ok (splitPhaseContentIntoSubsections contentLines))
  /\ (forall md : Js.value,
        Js.falsy md = true ->
        Js.renderMarkdown md = Js.Ok ""
        /\ Js.stripLinksFromMarkdown md = Js.Ok ""
        /\ Js.stripLinksExceptRecommendedResources md = Js.Ok ""
        /\ Js.buildCollapsibleRoadmap md = Js.Ok "")
  /\ (forall fl lo hi g r k x fuel,
        lo + String.length (input x) < fuel ->
        rmatch fl (Rep lo hi g r) k x
        = repeat_matcher (rmatch fl r) k g fuel lo hi x)
  /\ renderMarkdown "" = ""
  /\ stripLinksFromMarkdown "" = ""
  /\ stripLinksExceptRecommendedResources "" = ""
  /\ buildCollapsibleRoadmap "" = "".
Proof.
  split; [|split; [|split; [|split]]].
  - intros md. repeat split.
    + destruct md; reflexivity.
    + destruct md; reflexivity.
    + destruct md; reflexivity.
    + apply JsFacts.buildCollapsibleRoadmap_returns.
  - intros line contentLines. repeat split.
    + apply JsFacts.parseSectionMeta_returns.
    + apply JsFacts.getSubsectionTitle_returns.
    + apply JsFacts.split_subsections_returns.
  - intros md H.
    unfold Js.renderMarkdown, Js.stripLinksFromMarkdown,
      Js.stripLinksExceptRecommendedResources, Js.buildCollapsibleRoadmap.
    rewrite H. repeat split.
  - intros. now apply ReFacts.rmatch_rep_fuel.
  - repeat split.
Qed.

(** ** List items *)

(** C7, on the code.  [renderMarkdown] turns bullets and numbered items
    into the same [<li>] and [<ul>] elements, but the wrapping pattern
    [(<li>.*<\/li>)] does not cross a line break: each item of a run gets a
    [<ul>] of its own. *)
Theorem list_items_wrapped_one_by_one :
  renderMarkdown ("- a" ++ Str.nl ++ "- b")
  = "<ul><li>a</li></ul>" ++ Str.nl ++ "<ul><li>b</li></ul>"
  /\ renderMarkdown ("1. a" ++ Str.nl ++ "2. b")
     = "<ul><li>a</li></ul>" ++ Str.nl ++ "<ul><li>b</li></ul>".
Proof. split; vm_compute; reflexivity. Qed.

(** ** The link sanitizer *)

Module SanitizerFacts.
Import Text Matcher Sanitizer StrFacts ReFacts.

Lemma lit_state_strip (l : string) :
  forall x,
    match lit_state fl_i l x, strip_ci l (input x) with
    | Some y, Some r => input y = r /\ caps y = caps x
    | None, None => True
    | _, _ => False
    end.
Proof.
  induction l as [|c l IH]; intros x; simpl; [auto|].
  destruct (input x) as [|a t] eqn:Hx; [exact I|].
  destruct (char_eq fl_i c a); [|exact I].
  specialize (IH (advance a t x)). simpl in IH. exact IH.
Qed.

Lemma plus_url_char (x : mstate) :
  rmatch fl_i (Plus (Class url_char)) (fun y => Some y) x
  = if (1 <=? String.length (take_while url_char (input x)))%nat
    then Some (after (take_while url_char (input x))
                 (drop_while url_char (input x)) x)
    else None.
Proof.
  unfold Plus. cbn [rmatch].
  apply (repeat_class_greedy fl_i url_char). unfold len. lia.
Qed.

Lemma url_tail_match (y : mstate) :
  match rmatch fl_i (Seq (lit "://") (Plus (Class url_char)))
          (fun y => Some y) y,
        url_tail_rest (input y) with
  | Some z, Some r => input z = r
  | None, None => True
  | _, _ => False
  end.
Proof.
  cbn [rmatch]. rewrite rmatch_lit. unfold url_tail_rest.
  pose proof (lit_state_strip "://" y) as H.
  destruct (lit_state fl_i "://" y) as [y2|],
           (strip_ci "://" (input y)) as [r2|]; try contradiction;
    [|exact I].
  destruct H as [<- _]. rewrite plus_url_char.
  destruct (1 <=? _)%nat; [reflexivity|exact I].
Qed.

(** [rx_url] matches at [x] exactly when [url_rest] says so, and stops
    where it says. *)
Lemma rx_url_match (x : mstate) :
  match match_at fl_i rx_url x, url_rest (input x) with
  | Some y, Some r => input y = r
  | None, None => True
  | _, _ => False
  end.
Proof.
  unfold match_at, rx_url.
  change (cat [lit "http"; Opt (Char "s"); lit "://"; Plus (Class url_char)])
    with (Seq (lit "http")
            (Seq (Opt (Char "s"))
               (Seq (lit "://") (Plus (Class url_char))))).
  cbn [rmatch]. rewrite rmatch_lit. unfold url_rest.
  pose proof (lit_state_strip "http" x) as H.
  destruct (lit_state fl_i "http" x) as [y1|],
           (strip_ci "http" (input x)) as [r1|]; try contradiction;
    [|exact I].
  destruct H as [<- _]. rewrite rmatch_opt_char.
  pose proof (url_tail_match y1) as H1. cbn [rmatch] in H1.
  destruct (input y1) as [|a t] eqn:Hy1; [exact H1|].
  destruct (char_eq fl_i "s" a); [|exact H1].
  pose proof (url_tail_match (advance a t y1)) as H2.
  cbn [rmatch advance input] in H2.
  destruct (rmatch fl_i (lit "://") _ (advance a t y1)) as [z|].
  - destruct (url_tail_rest t) as [r2|]; [exact H2|contradiction].
  - destruct (url_tail_rest t) as [r2|]; [contradiction|exact H1].
Qed.

Lemma take_while_length_pos (p : ascii -> bool) (s : string) :
  (1 <=? String.length (take_while p s))%nat
  = match s with String u _ => p u | "" => false end.
Proof.
  destruct s as [|u t]; [reflexivity|]. simpl. now destruct (p u).
Qed.

Lemma url_tail_rest_body (r : string) :
  match url_tail_rest r with Some _ => true | None => false end = url_body r.
Proof.
  unfold url_tail_rest, url_body.
  destruct (strip_ci "://" r) as [r2|]; [|reflexivity].
  rewrite take_while_length_pos.
  destruct r2 as [|u t2]; [reflexivity|]. now destruct (url_char u).
Qed.

Lemma url_rest_at (s : string) :
  match url_rest s with Some _ => true | None => false end = url_at s.
Proof.
  unfold url_rest, url_at.
  destruct (strip_ci "http" s) as [r|]; [|reflexivity].
  destruct r as [|a t]; [apply url_tail_rest_body|].
  rewrite <- (url_tail_rest_body t), <- (url_tail_rest_body (String a t)).
  destruct (char_eq fl_i "s" a); [|reflexivity].
  destruct (url_tail_rest t); reflexivity.
Qed.

Lemma strip_ci_split (l : string) :
  forall s r, strip_ci l s = Some r ->
    exists m, s = m ++ r /\ String.length m = String.length l.
Proof.
  induction l as [|c l IH]; intros s r H; simpl in H.
  - injection H as <-. now exists "".
  - destruct s as [|a t]; [discriminate|].
    destruct (char_eq fl_i c a); [|discriminate].
    destruct (IH _ _ H) as (m & -> & Hl).
    exists (String a m). simpl. auto.
Qed.

Lemma url_tail_rest_stops (r0 r : string) :
  url_tail_rest r0 = Some r -> stops url_char r /\ exists m, r0 = m ++ r.
Proof.
  unfold url_tail_rest. intros H.
  destruct (strip_ci "://" r0) as [r2|] eqn:H2; [|discriminate].
  destruct (1 <=? _)%nat; [|discriminate]. injection H as <-.
  split; [apply drop_while_stops|].
  destruct (strip_ci_split _ _ _ H2) as (m2 & -> & _).
  exists (m2 ++ take_while url_char r2).
  now rewrite append_assoc, <- take_drop_while.
Qed.

(** A match of [rx_url] is not empty and runs up to the end of the text, a
    white space or a closing parenthesis. *)
Lemma url_rest_stops (s r : string) :
  url_rest s = Some r ->
  stops url_char r /\ exists a m, s = String a m ++ r.
Proof.
  unfold url_rest.
  destruct (strip_ci "http" s) as [r1|] eqn:H1; [|discriminate].
  destruct (strip_ci_split _ _ _ H1) as (m1 & -> & Hl1).
  intros H.
  assert (Hr : stops url_char r /\ exists m, r1 = m ++ r).
  { destruct r1 as [|a t]; [now apply url_tail_rest_stops|].
    destruct (char_eq fl_i "s" a); [|now apply url_tail_rest_stops].
    destruct (url_tail_rest t) as [z|] eqn:Hz.
    - injection H as ->. destruct (url_tail_rest_stops _ _ Hz) as [Hs [m ->]].
      split; [assumption|]. now exists (String a m).
    - now apply url_tail_rest_stops. }
  destruct Hr as [Hs [m ->]]. split; [assumption|].
  destruct m1 as [|a m1]; [discriminate|]. simpl.
  exists a, (m1 ++ m). now rewrite append_assoc.
Qed.

Lemma strip_ci_append (l : string) :
  forall s r w, strip_ci l s = Some r -> strip_ci l (s ++ w) = Some (r ++ w).
Proof.
  induction l as [|c l IH]; intros s r w H; simpl in *.
  - now injection H as <-.
  - destruct s as [|a t]; [discriminate|]. simpl.
    destruct (char_eq fl_i c a); [|discriminate]. now apply IH.
Qed.

Lemma url_body_append (r w : string) :
  url_body r = true -> url_body (r ++ w) = true.
Proof.
  unfold url_body. intros H.
  destruct (strip_ci "://" r) as [r2|] eqn:H2; [|discriminate].
  rewrite (strip_ci_append _ _ _ w H2).
  destruct r2 as [|u t]; [discriminate|]. exact H.
Qed.

(** A URL token at the start of [s] is still there when text follows. *)
Lemma url_at_append (s w : string) :
  url_at s = true -> url_at (s ++ w) = true.
Proof.
  unfold url_at. intros H.
  destruct (strip_ci "http" s) as [r|] eqn:H1; [|discriminate].
  rewrite (strip_ci_append _ _ _ w H1).
  apply orb_true_iff in H. apply orb_true_iff. destruct H as [H|H].
  - left. destruct r as [|a t]; [discriminate|]. simpl.
    apply andb_true_iff in H. destruct H as [-> H]. simpl.
    now apply url_body_append.
  - right. now apply url_body_append.
Qed.

Ltac by_cases_on_char a :=
  destruct a as [[] [] [] [] [] [] [] []]; vm_compute; congruence.

Lemma scheme_h : scheme_char "h". Proof. intros a. by_cases_on_char a. Qed.
Lemma scheme_t : scheme_char "t". Proof. intros a. by_cases_on_char a. Qed.
Lemma scheme_p : scheme_char "p". Proof. intros a. by_cases_on_char a. Qed.
Lemma scheme_s : scheme_char "s". Proof. intros a. by_cases_on_char a. Qed.
Lemma scheme_colon : scheme_char ":". Proof. intros a. by_cases_on_char a. Qed.
Lemma scheme_slash : scheme_char "/". Proof. intros a. by_cases_on_char a. Qed.

Section Prefix.

(** A class [p] that contains the URL class, and the run of [p] that a
    text starts with *)
Variable p : ascii -> bool.
Hypothesis p_url : forall a, url_char a = true -> p a = true.

Lemma strip_ci_take_while (l : string) :
  scheme_chars l ->
  forall s,
    strip_ci l (take_while p s)
    = match strip_ci l s with
      | Some r => Some (take_while p r)
      | None => None
      end.
Proof.
  induction l as [|c l IH]; intros Hl s; simpl; [reflexivity|].
  destruct Hl as [Hc Hl].
  destruct s as [|a t]; [reflexivity|]. simpl.
  destruct (char_eq fl_i c a) eqn:Hca.
  - rewrite (p_url _ (Hc _ Hca)). simpl. rewrite Hca. now apply IH.
  - destruct (p a); simpl; [now rewrite Hca|reflexivity].
Qed.

Lemma url_body_take_while (r : string) :
  url_body (take_while p r) = url_body r.
Proof.
  unfold url_body. rewrite strip_ci_take_while.
  - destruct (strip_ci "://" r) as [r2|]; [|reflexivity].
    destruct r2 as [|u t]; [reflexivity|]. simpl.
    destruct (p u) eqn:Hu; [reflexivity|].
    destruct (url_char u) eqn:Hc; [|reflexivity].
    rewrite (p_url _ Hc) in Hu. discriminate.
  - simpl. auto using scheme_colon, scheme_slash.
Qed.

(** Whether a URL token starts a text depends on its run of [p] only. *)
Lemma url_at_take_while (s : string) :
  url_at (take_while p s) = url_at s.
Proof.
  unfold url_at. rewrite strip_ci_take_while.
  - destruct (strip_ci "http" s) as [r|]; [|reflexivity].
    rewrite url_body_take_while. f_equal.
    destruct r as [|a t]; [reflexivity|]. simpl.
    destruct (char_eq fl_i "s" a) eqn:Hs.
    + rewrite (p_url _ (scheme_s _ Hs)). rewrite Hs. simpl.
      apply url_body_take_while.
    + destruct (p a); simpl; [now rewrite Hs|reflexivity].
  - simpl. auto using scheme_h, scheme_t, scheme_p.
Qed.

Lemma url_at_not_p (a : ascii) (t : string) :
  p a = false -> url_at (String a t) = false.
Proof.
  intros Ha. rewrite <- url_at_take_while. simpl. now rewrite Ha.
Qed.

End Prefix.

Lemma url_class_itself (a : ascii) : url_char a = true -> url_char a = true.
Proof. exact (fun H => H). Qed.

Lemma rx_url_none (x : mstate) :
  match_at fl_i rx_url x = None -> url_at (input x) = false.
Proof.
  intros H. pose proof (rx_url_match x) as Hm. rewrite H in Hm.
  rewrite <- url_rest_at. now destruct (url_rest (input x)).
Qed.

Lemma rx_url_some (x y : mstate) :
  match_at fl_i rx_url x = Some y ->
  url_at (input x) = true
  /\ stops url_char (input y)
  /\ exists a m, input x = String a m ++ input y.
Proof.
  intros H. pose proof (rx_url_match x) as Hm. rewrite H in Hm.
  rewrite <- url_rest_at.
  destruct (url_rest (input x)) as [r|] eqn:Hr; [|contradiction].
  subst r. split; [reflexivity|]. now apply url_rest_stops.
Qed.

(** [test] with [rx_url] says whether a URL token starts somewhere. *)
Lemma exec_rx_url (s : string) :
  forall bef,
    match exec_from fl_i rx_url bef s with Some _ => true | None => false end
    = has_url s.
Proof.
  induction s as [|a t IH]; intros bef.
  - cbn [exec_from].
    destruct (match_at fl_i rx_url (MState bef "" [])) as [y|] eqn:Hm;
      [|reflexivity].
    destruct (rx_url_some _ _ Hm) as [Hu _]. discriminate.
  - cbn [exec_from has_url].
    destruct (match_at fl_i rx_url (MState bef (String a t) [])) as [y|]
      eqn:Hm.
    + destruct (rx_url_some _ _ Hm) as [Hu _]. cbn [input] in Hu.
      now rewrite Hu.
    + apply rx_url_none in Hm. cbn [input] in Hm. rewrite Hm.
      rewrite <- (IH (Some a)).
      now destruct (exec_from fl_i rx_url (Some a) t) as [[[? ?] ?]|].
Qed.

Lemma test_rx_url (s : string) : test fl_i rx_url s = has_url s.
Proof. apply exec_rx_url. Qed.

Lemma has_url_tail (a : ascii) (t : string) :
  has_url (String a t) = false -> has_url t = false.
Proof. simpl. intros H. now apply orb_false_iff in H. Qed.

Lemma stops_take_while (p : ascii -> bool) (u w : string) :
  stops p (take_while p u ++ w) -> take_while p u = "".
Proof.
  destruct u as [|a t]; [reflexivity|]. simpl.
  destruct (p a) eqn:Ha; [|reflexivity]. simpl. congruence.
Qed.

Lemma drop_append (m r : string) : drop (String.length m) (m ++ r) = r.
Proof.
  induction m as [|a m IH]; simpl; [now destruct r|assumption].
Qed.

(** After the pass no URL token is left.  While the characters of a match
    are passed over ([skip] above [0]) the output starts where the match
    stopped; otherwise its run of URL characters is one of the input. *)
Lemma strip_urls_clean (s : string) :
  forall skip bef,
    match skip with
    | 0 =>
      has_url (strip_urls_from 0 bef s) = false
      /\ exists w, s = take_while url_char (strip_urls_from 0 bef s) ++ w
    | S n =>
      stops url_char (drop skip s) ->
      has_url (strip_urls_from skip bef s) = false
      /\ take_while url_char (strip_urls_from skip bef s) = ""
    end.
Proof.
  unfold strip_urls_from.
  induction s as [|c t IH]; intros skip bef.
  - assert (H0 : replace_all_from fl_i rx_url (tmpl []) skip bef "" = "").
    { destruct skip; simpl;
        destruct (match_at fl_i rx_url (MState bef "" [])) as [y|] eqn:Hm;
        try reflexivity;
        destruct (rx_url_some _ _ Hm) as [Hu _]; discriminate. }
    rewrite H0. destruct skip; [split; [reflexivity|now exists ""]|].
    intros _. split; reflexivity.
  - assert (Hstop : forall n b,
               stops url_char (drop n t) ->
               has_url (replace_all_from fl_i rx_url (tmpl []) n b t) = false
               /\ take_while url_char
                    (replace_all_from fl_i rx_url (tmpl []) n b t) = "").
    { intros n b Hs. specialize (IH n b). destruct n as [|n].
      - destruct IH as [Hh [w Hw]]. split; [assumption|].
        simpl in Hs. rewrite Hw in Hs. now apply stops_take_while in Hs.
      - now apply IH. }
    destruct skip as [|n]; [|intros Hs; now apply Hstop].
    cbn [replace_all_from].
    destruct (match_at fl_i rx_url (MState bef (String c t) [])) as [y|]
      eqn:Hm.
    + destruct (rx_url_some _ _ Hm) as (_ & Hs & a & m & Hx).
      simpl in Hx. injection Hx as <- Ht.
      replace (consumed (MState bef (String c t) []) y)
        with (String c m).
      2:{ destruct y as [yb yi yc]. simpl in Ht. subst t.
          symmetry. apply (consumed_append bef yb (String c m) yi). }
      cbn [String.length]. change (tmpl [] (String c m) y) with "".
      cbn [append].
      assert (Hd : stops url_char (drop (String.length m) t)).
      { rewrite Ht, drop_append. exact Hs. }
      destruct (Hstop (String.length m) (Some c) Hd) as [Hh Htw].
      split; [assumption|]. rewrite Htw. now exists (String c t).
    + apply rx_url_none in Hm. simpl in Hm.
      destruct (IH 0 (Some c)) as [Hh [w Hw]].
      set (out := replace_all_from fl_i rx_url (tmpl []) 0 (Some c) t) in *.
      assert (Hat : url_at (String c out) = false).
      { rewrite <- (url_at_take_while url_char url_class_itself).
        simpl. destruct (url_char c) eqn:Hc; [|reflexivity].
        destruct (url_at (String c (take_while url_char out))) eqn:Hu;
          [|reflexivity].
        apply (url_at_append _ w) in Hu. simpl in Hu.
        rewrite <- Hw in Hu. congruence. }
      split.
      * simpl. now rewrite Hat, Hh.
      * simpl. destruct (url_char c).
        -- exists w. simpl. now rewrite <- Hw.
        -- now exists (String c t).
Qed.

Lemma strip_urls_no_url (s : string) :
  has_url (replace_all fl_i rx_url (tmpl []) s) = false.
Proof. exact (proj1 (strip_urls_clean s 0 None)). Qed.

(** *** Passes that only squeeze white space *)

Lemma nonspace_url (a : ascii) : url_char a = true -> nonspace a = true.
Proof.
  unfold url_char, nonspace. intros H. apply negb_true_iff in H.
  apply orb_false_iff in H. destruct H as [-> _]. reflexivity.
Qed.

Lemma url_at_space (a : ascii) (t : string) :
  Chr.is_space a = true -> url_at (String a t) = false.
Proof.
  intros H. apply (url_at_not_p nonspace nonspace_url).
  unfold nonspace. now rewrite H.
Qed.

Lemma has_url_spaces (w x : string) :
  all Chr.is_space w = true -> has_url (w ++ x) = has_url x.
Proof.
  induction w as [|a w IH]; intros H; [reflexivity|].
  simpl in H. apply andb_true_iff in H. destruct H as [Ha Hw].
  cbn [append has_url]. rewrite (url_at_space _ _ Ha). now apply IH.
Qed.

Lemma has_url_suffix (u x : string) :
  has_url x = true -> has_url (u ++ x) = true.
Proof.
  induction u as [|a u IH]; intros H; [assumption|].
  cbn [append has_url]. rewrite (IH H). apply orb_true_r.
Qed.

Lemma has_url_prefix (x w : string) :
  has_url x = true -> has_url (x ++ w) = true.
Proof.
  induction x as [|a x IH]; intros H; [discriminate|].
  cbn [has_url] in H. cbn [append has_url].
  apply orb_true_iff in H. apply orb_true_iff. destruct H as [H|H].
  - left. exact (url_at_append (String a x) w H).
  - right. now apply IH.
Qed.

Section Squeeze.

(** A pattern whose matches start with a white-space character, replaced
    by a text of white space *)
Variable fl : flags.
Variable r : regex.
Variable by_ : replacement.
Variable b0 : ascii.
Variable w0 : string.
Hypothesis match_space :
  forall x y, match_at fl r x = Some y ->
    exists a m, input x = String a m ++ input y /\ Chr.is_space a = true.
Hypothesis by_space : forall m y, by_ m y = String b0 w0.
Hypothesis w0_space : all Chr.is_space (String b0 w0) = true.

Lemma squeeze_end (bef : option ascii) :
  match_at fl r (MState bef "" []) = None.
Proof.
  destruct (match_at fl r (MState bef "" [])) as [y|] eqn:Hm; [|reflexivity].
  destruct (match_space _ _ Hm) as (a & m & Hx & _). discriminate.
Qed.

Lemma squeeze_consumed (bef : option ascii) (c : ascii) (t : string)
    (y : mstate) :
  match_at fl r (MState bef (String c t) []) = Some y ->
  Chr.is_space c = true
  /\ exists m, consumed (MState bef (String c t) []) y = String c m.
Proof.
  intros Hm. destruct (match_space _ _ Hm) as (a & m & Hx & Ha).
  simpl in Hx. injection Hx as <- Ht. split; [assumption|].
  exists m. destruct y as [yb yi yc]. simpl in Ht. subst t.
  apply (consumed_append bef yb (String c m) yi).
Qed.

(** The text up to the first white space is not touched. *)
Lemma squeeze_run (s : string) :
  forall bef,
    take_while nonspace (replace_all_from fl r by_ 0 bef s)
    = take_while nonspace s.
Proof.
  induction s as [|c t IH]; intros bef; cbn [replace_all_from].
  - now rewrite squeeze_end.
  - destruct (match_at fl r (MState bef (String c t) [])) as [y|] eqn:Hm.
    + destruct (squeeze_consumed _ _ _ _ Hm) as [Hc [m ->]].
      cbn [String.length]. rewrite by_space.
      simpl in w0_space. apply andb_true_iff in w0_space.
      destruct w0_space as [Hb _].
      simpl. unfold nonspace. now rewrite Hb, Hc.
    + simpl. destruct (nonspace c); [|reflexivity]. now rewrite IH.
Qed.

(** The pass brings in no URL token. *)
Lemma squeeze_has_url (s : string) :
  forall skip bef,
    has_url (replace_all_from fl r by_ skip bef s) = true ->
    has_url s = true.
Proof.
  induction s as [|c t IH]; intros skip bef; cbn [replace_all_from].
  - rewrite squeeze_end. now destruct skip.
  - assert (Ht : forall n b,
               has_url (replace_all_from fl r by_ n b t) = true ->
               has_url (String c t) = true).
    { intros n b H. cbn [has_url]. rewrite (IH n b H). apply orb_true_r. }
    destruct skip as [|n]; [|apply Ht].
    destruct (match_at fl r (MState bef (String c t) [])) as [y|] eqn:Hm.
    + destruct (squeeze_consumed _ _ _ _ Hm) as [Hc [m ->]].
      cbn [String.length]. rewrite by_space, (has_url_spaces _ _ w0_space).
      apply Ht.
    + cbn [has_url]. intros H. apply orb_true_iff in H.
      destruct H as [H|H]; [|now apply (Ht 0 (Some c))].
      rewrite <- (url_at_take_while nonspace nonspace_url) in H.
      cbn [take_while] in H.
      rewrite <- (url_at_take_while nonspace nonspace_url (String c t)).
      cbn [take_while]. destruct (nonspace c); [|discriminate].
      rewrite squeeze_run in H. now rewrite H.
Qed.

End Squeeze.

(** The matches of [[ \t]{2,}] and of [\n{3,}] *)
Lemma class_run_match (lo : nat) (q : ascii -> bool) (x y : mstate) :
  0 < lo ->
  (forall a, q a = true -> Chr.is_space a = true) ->
  rmatch no_flags (Rep lo None true (Class q)) (fun y => Some y) x = Some y ->
  exists a m, input x = String a m ++ input y /\ Chr.is_space a = true.
Proof.
  intros Hlo Hq H.
  change (repeat_matcher (rmatch no_flags (Class q)) (fun y => Some y) true
            (S (lo + String.length (input x))) lo None x = Some y) in H.
  destruct (repeat_class_inv no_flags q _ true _ _ _ _ H)
    as (m & rest & Hx & Hall & Hlen & Hk).
  injection Hk as <-. destruct m as [|a m]; [simpl in Hlen; lia|].
  simpl in Hall. apply andb_true_iff in Hall. destruct Hall as [Ha _].
  exists a, m. split; [exact Hx|]. now apply Hq.
Qed.

Lemma blank_is_space (a : ascii) :
  Ascii.eqb a " " || Ascii.eqb a (ascii_of_nat 9) = true ->
  Chr.is_space a = true.
Proof.
  intros H. apply orb_true_iff in H.
  destruct H as [H|H]; apply Ascii.eqb_eq in H; subst; reflexivity.
Qed.

Lemma newline_is_space (a : ascii) :
  char_eq no_flags (ascii_of_nat 10) a = true -> Chr.is_space a = true.
Proof.
  unfold char_eq. cbn [ignoreCase no_flags]. intros H.
  apply Ascii.eqb_eq in H. now subst.
Qed.

Lemma blanks_has_url (s : string) :
  has_url (replace_all no_flags rx_blanks (tmpl [T " "]) s) = true ->
  has_url s = true.
Proof.
  apply (squeeze_has_url no_flags rx_blanks (tmpl [T " "]) " " "").
  - intros x y H.
    apply (class_run_match 2
             (fun a => Ascii.eqb a " " || Ascii.eqb a (ascii_of_nat 9)) x y);
      [lia| |exact H].
    exact blank_is_space.
  - reflexivity.
  - reflexivity.
Qed.

Lemma collapse_has_url (s : string) :
  has_url (collapse_blank_lines s) = true -> has_url s = true.
Proof.
  apply (squeeze_has_url no_flags rx_blank_lines
           (tmpl [T (Str.nl ++ Str.nl)]) (ascii_of_nat 10) Str.nl).
  - intros x y H.
    apply (class_run_match 3 (char_eq no_flags (ascii_of_nat 10)) x y);
      [lia| |exact H].
    exact newline_is_space.
  - reflexivity.
  - reflexivity.
Qed.

(** *** [trim] *)

Lemma rev_onto_append (s acc : string) :
  Str.rev_onto s acc = Str.rev s ++ acc.
Proof.
  unfold Str.rev. revert acc.
  induction s as [|a s IH]; intros acc; simpl; [reflexivity|].
  rewrite (IH (String a acc)), (IH (String a "")).
  now rewrite append_assoc.
Qed.

Lemma rev_append (a b : string) : Str.rev (a ++ b) = Str.rev b ++ Str.rev a.
Proof.
  induction a as [|x a IH]; simpl.
  - now rewrite append_nil_r.
  - unfold Str.rev in *. simpl.
    rewrite (rev_onto_append (a ++ b)), (rev_onto_append a).
    unfold Str.rev. rewrite IH. now rewrite append_assoc.
Qed.

Lemma rev_involutive (s : string) : Str.rev (Str.rev s) = s.
Proof.
  induction s as [|a s IH]; [reflexivity|].
  unfold Str.rev at 2. simpl. rewrite rev_onto_append, rev_append, IH.
  reflexivity.
Qed.

Lemma trimStart_suffix (s : string) : exists u, s = u ++ Str.trimStart s.
Proof.
  induction s as [|a s [u IH]]; simpl; [now exists ""|].
  destruct (Chr.is_space a); [|now exists ""].
  exists (String a u). simpl. now rewrite <- IH.
Qed.

Lemma trimEnd_prefix (s : string) : exists w, s = Str.trimEnd s ++ w.
Proof.
  unfold Str.trimEnd. destruct (trimStart_suffix (Str.rev s)) as [u Hu].
  exists (Str.rev u).
  rewrite <- rev_append, <- Hu. symmetry. apply rev_involutive.
Qed.

Lemma trim_has_url (s : string) :
  has_url (Str.trim s) = true -> has_url s = true.
Proof.
  unfold Str.trim. intros H.
  destruct (trimStart_suffix s) as [u Hu]. rewrite Hu.
  apply has_url_suffix.
  destruct (trimEnd_prefix (Str.trimStart s)) as [w Hw]. rewrite Hw.
  now apply has_url_prefix.
Qed.

(** No URL token is left in a text that went through
    [stripLinksFromMarkdown]. *)
Lemma stripLinksFromMarkdown_no_url (md : string) :
  has_url (stripLinksFromMarkdown md) = false.
Proof.
  destruct md as [|a md]; [reflexivity|].
  unfold stripLinksFromMarkdown.
  destruct (has_url (Str.trim _)) eqn:H; [|reflexivity].
  apply trim_has_url, collapse_has_url, blanks_has_url in H.
  now rewrite strip_urls_no_url in H.
Qed.

(** *** Regions *)

Lemma strip_loop_region (lines : list string) :
  forall flag,
    strip_loop flag lines
    = List.map keep_or_strip (combine (region flag lines) lines).
Proof.
  induction lines as [|line rest IH]; intros flag; [reflexivity|].
  cbn [strip_loop region combine List.map]. unfold strip_step.
  fold (heading_key line). fold (opens_region line).
  fold (closes_region line).
  destruct (opens_region line); cbn [orb].
  - unfold keep_or_strip at 1. cbn [fst snd]. now rewrite IH.
  - destruct (closes_region line); cbn [negb andb].
    + rewrite andb_false_r. unfold keep_or_strip at 1. cbn [fst snd].
      now rewrite IH.
    + rewrite andb_true_r. unfold keep_or_strip at 1. cbn [fst snd].
      now rewrite IH.
Qed.

Lemma strip_loop_nth (lines : list string) :
  forall flag i line inside,
    nth_error lines i = Some line ->
    nth_error (region flag lines) i = Some inside ->
    nth_error (strip_loop flag lines) i
    = Some (if inside then line else stripLinksFromMarkdown line).
Proof.
  induction lines as [|l rest IH]; intros flag i line inside Hl Hr.
  - now destruct i.
  - rewrite strip_loop_region. destruct i as [|i]; simpl in *.
    + injection Hl as <-. injection Hr as <-. reflexivity.
    + rewrite <- strip_loop_region. now apply IH.
Qed.

(** *** What the last steps keep of a line *)

Lemma occurs_after (u l s : string) : occurs l s -> occurs l (u ++ s).
Proof.
  intros (a & b & ->). exists (u ++ a), b. now rewrite append_assoc.
Qed.

Lemma occurs_join (sep x : string) (l : list string) :
  In x l -> occurs x (Str.join sep l).
Proof.
  induction l as [|y l IH]; intros H; [contradiction|].
  destruct H as [-> | H].
  - destruct l as [|z l]; simpl.
    + exists "", "". now rewrite append_nil_r.
    + exists "", (sep ++ Str.join sep (z :: l)). reflexivity.
  - destruct l as [|z l]; [contradiction|].
    change (Str.join sep (y :: z :: l))
      with (y ++ sep ++ Str.join sep (z :: l)).
    rewrite <- append_assoc. apply occurs_after. now apply IH.
Qed.

Section Keep.

(** A pattern whose matches are made of characters of the class [q], and
    a text [l] without any *)
Variable fl : flags.
Variable r : regex.
Variable by_ : replacement.
Variable q : ascii -> bool.
Hypothesis match_q :
  forall x y, match_at fl r x = Some y ->
    exists a m, input x = String a m ++ input y
                /\ all q (String a m) = true.
Variable l : string.
Hypothesis l_free : all (fun a => negb (q a)) l = true.

Lemma keep_copy (b : string) :
  forall u bef,
    all (fun a => negb (q a)) u = true ->
    replace_all_from fl r by_ 0 bef (u ++ b)
    = u ++ replace_all_from fl r by_ 0 (last_of u bef) b.
Proof.
  induction u as [|c u IH]; intros bef Hu; [reflexivity|].
  simpl in Hu. apply andb_true_iff in Hu. destruct Hu as [Hc Hu].
  cbn [append replace_all_from].
  destruct (match_at fl r (MState bef (String c (u ++ b)) [])) as [y|] eqn:Hm.
  - destruct (match_q _ _ Hm) as (a & m & Hx & Hq).
    simpl in Hx. injection Hx as <- _. simpl in Hq.
    apply andb_true_iff in Hq. destruct Hq as [Hq _].
    rewrite Hq in Hc. discriminate.
  - now rewrite IH.
Qed.

Lemma keep_occurs (b : string) :
  forall a skip bef,
    all q (Str.take skip (a ++ l ++ b)) = true ->
    occurs l (replace_all_from fl r by_ skip bef (a ++ l ++ b)).
Proof.
  induction a as [|c a IH]; intros skip bef Hs.
  - cbn [append] in *. destruct l as [|l0 l1] eqn:Hl.
    + eexists. exists "". cbn [append]. symmetry. apply append_nil_r.
    + destruct skip as [|n].
      * rewrite <- Hl in *. rewrite keep_copy by assumption.
        exists "". eexists. reflexivity.
      * simpl in Hs, l_free.
        apply andb_true_iff in Hs. destruct Hs as [Hq _].
        rewrite Hq in l_free. discriminate.
  - cbn [append replace_all_from]. destruct skip as [|n].
    + destruct (match_at fl r (MState bef (String c (a ++ l ++ b)) []))
        as [y|] eqn:Hm.
      * destruct (match_q _ _ Hm) as (a0 & m & Hx & Hq).
        simpl in Hx. injection Hx as <- Ht.
        replace (consumed (MState bef (String c (a ++ l ++ b)) []) y)
          with (String c m).
        2:{ destruct y as [yb yi yc]. simpl in Ht. rewrite Ht.
            symmetry. apply (consumed_append bef yb (String c m) yi). }
        cbn [String.length]. apply occurs_after. apply IH.
        rewrite Ht, take_append. simpl in Hq.
        apply andb_true_iff in Hq. now destruct Hq.
      * apply (occurs_after (String c "")). now apply IH.
    + apply IH. simpl in Hs. apply andb_true_iff in Hs. now destruct Hs.
Qed.

End Keep.

Lemma collapse_occurs (l s : string) :
  no_newline l -> occurs l s -> occurs l (collapse_blank_lines s).
Proof.
  intros Hl (a & b & ->).
  apply (keep_occurs no_flags rx_blank_lines _ is_lf); [|exact Hl|].
  - intros x y H.
    change (repeat_matcher (rmatch no_flags (Class is_lf))
              (fun y => Some y) true (S (3 + String.length (input x))) 3
              None x = Some y) in H.
    destruct (repeat_class_inv no_flags is_lf _ true _ _ _ _ H)
      as (m & rest & Hx & Hall & Hlen & Hk).
    injection Hk as <-. destruct m as [|c m]; [simpl in Hlen; lia|].
    exists c, m. split; assumption.
  - reflexivity.
Qed.

Lemma trimStart_occurs (l b : string) :
  (exists c t, l = String c t /\ Chr.is_space c = false) ->
  forall a, exists a', Str.trimStart (a ++ l ++ b) = a' ++ l ++ b.
Proof.
  intros (c & t & -> & Hc) a. induction a as [|x a [a' IH]].
  - exists "". simpl. now rewrite Hc.
  - cbn [append Str.trimStart]. destruct (Chr.is_space x).
    + now exists a'.
    + now exists (String x a).
Qed.

Lemma trim_occurs (l s : string) :
  tight l -> occurs l s -> occurs l (Str.trim s).
Proof.
  intros [Hfirst Hlast] (a & b & ->). unfold Str.trim, Str.trimEnd.
  destruct (trimStart_occurs l b Hfirst a) as [a' ->].
  rewrite !rev_append, append_assoc.
  destruct (trimStart_occurs (Str.rev l) (Str.rev a') Hlast (Str.rev b))
    as [b' ->].
  rewrite !rev_append, !rev_involutive.
  exists a', (Str.rev b'). now rewrite append_assoc.
Qed.

(** *** The lines of a text *)

Lemma take_length (n : nat) (s : string) :
  n <= String.length s -> String.length (Str.take n s) = n.
Proof.
  revert s. induction n as [|n IH]; intros s H; [reflexivity|].
  destruct s as [|a t]; simpl in *; [lia|]. rewrite IH; lia.
Qed.

Lemma newline_match_not_empty (x y : mstate) :
  match_at no_flags rx_newline x = Some y ->
  exists n, String.length (consumed x y) = S n.
Proof.
  unfold match_at, rx_newline.
  change (cat [Opt (Char (ascii_of_nat 13)); Char (ascii_of_nat 10)])
    with (Seq (Opt (Char (ascii_of_nat 13))) (Char (ascii_of_nat 10))).
  cbn [rmatch]. intros H.
  destruct (rmatch_reaches no_flags (Opt (Char (ascii_of_nat 13))) _ _ _ H)
    as (y1 & pre & Hx & Hk).
  destruct (input y1) as [|a t] eqn:Hy1; [discriminate|].
  destruct (char_eq no_flags (ascii_of_nat 10) a); [|discriminate].
  injection Hk as <-. unfold consumed. cbn [advance input].
  rewrite Hx, length_append. cbn [String.length].
  exists (String.length pre). rewrite take_length.
  - lia.
  - rewrite length_append. simpl. lia.
Qed.

Lemma newline_match_at (bef : option ascii) (a : ascii) (t : string) :
  is_lf a = true ->
  match_at no_flags rx_newline (MState bef (String a t) []) <> None.
Proof.
  intros Ha. unfold match_at, rx_newline.
  change (cat [Opt (Char (ascii_of_nat 13)); Char (ascii_of_nat 10)])
    with (Seq (Opt (Char (ascii_of_nat 13))) (Char (ascii_of_nat 10))).
  cbn [rmatch]. rewrite rmatch_opt_char. cbn [input].
  apply Ascii.eqb_eq in Ha. subst a.
  discriminate.
Qed.

Lemma split_no_newline (s : string) :
  forall skip bef cur,
    no_newline cur ->
    Forall no_newline (split_from no_flags rx_newline skip bef cur s).
Proof.
  induction s as [|c t IH]; intros skip bef cur Hcur; cbn [split_from].
  - now constructor.
  - destruct skip as [|n]; [|now apply IH].
    destruct (match_at no_flags rx_newline (MState bef (String c t) []))
      as [y|] eqn:Hm.
    + destruct (newline_match_not_empty _ _ Hm) as [n ->].
      constructor; [assumption|]. now apply IH.
    + apply IH. unfold no_newline in *. rewrite all_append, Hcur. simpl.
      destruct (is_lf c) eqn:Hc; [|reflexivity].
      now destruct (newline_match_at bef c t Hc).
Qed.

Lemma lines_no_newline (md line : string) :
  In line (lines_of md) -> no_newline line.
Proof.
  unfold lines_of, split. intros H.
  destruct md as [|a md].
  - destruct (match_at no_flags rx_newline (start "")); [contradiction|].
    destruct H as [<-|[]]. reflexivity.
  - pose proof (split_no_newline (String a md) 0 None "" eq_refl) as Hall.
    rewrite Forall_forall in Hall. now apply Hall.
Qed.

End SanitizerFacts.

(** ** Paragraphs *)

Module RenderFacts.
Import Text Matcher StrFacts ReFacts.

Lemma blank_lines_head (a : ascii) (t : string) :
  blank_lines (String a t) -> a = LF /\ blank_lines t.
Proof.
  unfold blank_lines. simpl. intros H. apply andb_true_iff in H.
  destruct H as [Ha Ht]. apply Ascii.eqb_eq in Ha. now split.
Qed.

Lemma blank_lines_suffix (pre s : string) :
  blank_lines (pre ++ s) -> blank_lines s.
Proof.
  unfold blank_lines. rewrite all_append. intros H.
  apply andb_true_iff in H. now destruct H.
Qed.

(** A pattern that matches nowhere in a text leaves it as it is. *)
Lemma replace_all_blank (fl : flags) (r : regex) (by_ : replacement) :
  (forall bef s, blank_lines s -> match_at fl r (MState bef s []) = None) ->
  forall s bef, blank_lines s -> replace_all_from fl r by_ 0 bef s = s.
Proof.
  intros Hno s. induction s as [|c t IH]; intros bef Hs;
    cbn [replace_all_from]; rewrite (Hno _ _ Hs); [reflexivity|].
  rewrite IH; [reflexivity|]. now destruct (blank_lines_head _ _ Hs).
Qed.

Lemma char_blank (fl : flags) (c : ascii) (k : cont) (x : mstate) :
  blank_lines (input x) -> char_eq fl c LF = false ->
  rmatch fl (Char c) k x = None.
Proof.
  intros Hx Hc. cbn [rmatch]. destruct (input x) as [|a t]; [reflexivity|].
  destruct (blank_lines_head _ _ Hx) as [-> _]. now rewrite Hc.
Qed.

Lemma class_blank (fl : flags) (p : ascii -> bool) (k : cont) (x : mstate) :
  blank_lines (input x) -> p LF = false ->
  rmatch fl (Class p) k x = None.
Proof.
  intros Hx Hc. cbn [rmatch]. destruct (input x) as [|a t]; [reflexivity|].
  destruct (blank_lines_head _ _ Hx) as [-> _]. now rewrite Hc.
Qed.

Lemma lit_blank (fl : flags) (c : ascii) (l : string) (k : cont)
    (x : mstate) :
  blank_lines (input x) -> char_eq fl c LF = false ->
  rmatch fl (lit (String c l)) k x = None.
Proof.
  intros Hx Hc. rewrite rmatch_lit. cbn [lit_state].
  destruct (input x) as [|a t]; [reflexivity|].
  destruct (blank_lines_head _ _ Hx) as [-> _]. now rewrite Hc.
Qed.

(** Over blank lines a quantifier passes on blank lines. *)
Lemma through_blank (fl : flags) (r : regex) (k : cont) (x : mstate) :
  blank_lines (input x) ->
  (forall y, blank_lines (input y) -> k y = None) ->
  rmatch fl r k x = None.
Proof.
  intros Hx Hk. destruct (rmatch fl r k x) as [z|] eqn:H; [|reflexivity].
  destruct (rmatch_reaches fl r k x z H) as (y & pre & Hin & Hy).
  rewrite Hin in Hx. apply blank_lines_suffix in Hx.
  rewrite (Hk y Hx) in Hy. discriminate.
Qed.

Lemma plus_class_blank (fl : flags) (p : ascii -> bool) (k : cont)
    (x : mstate) :
  blank_lines (input x) -> p LF = false ->
  rmatch fl (Plus (Class p)) k x = None.
Proof.
  intros Hx Hp.
  destruct (rmatch fl (Plus (Class p)) k x) as [z|] eqn:H; [|reflexivity].
  change (repeat_matcher (rmatch fl (Class p)) k true
            (S (1 + String.length (input x))) 1 None x = Some z) in H.
  destruct (repeat_class_inv fl p k true _ _ _ _ H)
    as (m & rest & Hin & Hall & Hlen & _).
  destruct m as [|a m]; [simpl in Hlen; lia|].
  rewrite Hin in Hx. destruct (blank_lines_head _ _ Hx) as [-> _].
  simpl in Hall. rewrite Hp in Hall. discriminate.
Qed.

Lemma heading_blank (hashes : string) :
  forall bef s, blank_lines s ->
    match_at fl_im (rx_heading (String "#" hashes)) (MState bef s []) = None.
Proof.
  intros bef s Hs. unfold match_at, rx_heading.
  change (cat [Bol; lit (String "#" hashes); Char " "; rest_of_line])
    with (Seq Bol (Seq (lit (String "#" hashes))
                     (Seq (Char " ") rest_of_line))).
  cbn [rmatch]. destruct (at_bol fl_im _); [|reflexivity].
  now apply lit_blank.
Qed.

Lemma emphasis_blank (stars : string) :
  forall bef s, blank_lines s ->
    match_at fl_im (rx_emphasis (String "*" stars)) (MState bef s []) = None.
Proof.
  intros bef s Hs. unfold match_at, rx_emphasis.
  change (cat [lit (String "*" stars); Group 1 (PlusLazy Any);
               lit (String "*" stars)])
    with (Seq (lit (String "*" stars))
            (Seq (Group 1 (PlusLazy Any)) (lit (String "*" stars)))).
  cbn [rmatch]. now apply lit_blank.
Qed.

Lemma bullet_blank :
  forall bef s, blank_lines s ->
    match_at fl_im rx_bullet (MState bef s []) = None.
Proof.
  intros bef s Hs. unfold match_at, rx_bullet.
  change (cat [Bol; Star Space; OneOf "-*"; Char " "; rest_of_line])
    with (Seq Bol (Seq (Star Space)
                     (Seq (OneOf "-*") (Seq (Char " ") rest_of_line)))).
  cbn [rmatch]. destruct (at_bol fl_im _); [|reflexivity].
  apply (through_blank fl_im (Star Space)); [exact Hs|].
  intros y Hy. now apply class_blank.
Qed.

Lemma numbered_blank :
  forall bef s, blank_lines s ->
    match_at fl_im rx_numbered (MState bef s []) = None.
Proof.
  intros bef s Hs. unfold match_at, rx_numbered.
  change (cat [Bol; Star Space; Plus Digit; Char "."; Plus Space;
               rest_of_line])
    with (Seq Bol (Seq (Star Space)
                     (Seq (Plus Digit)
                        (Seq (Char ".") (Seq (Plus Space) rest_of_line))))).
  cbn [rmatch]. destruct (at_bol fl_im _); [|reflexivity].
  apply (through_blank fl_im (Star Space)); [exact Hs|].
  intros y Hy. now apply (plus_class_blank fl_im Chr.is_digit).
Qed.

Lemma list_items_blank :
  forall bef s, blank_lines s ->
    match_at fl_im rx_list_items (MState bef s []) = None.
Proof.
  intros bef s Hs. unfold match_at, rx_list_items.
  change (cat [lit "<li>"; Star Any; lit "</li>"])
    with (Seq (lit "<li>") (Seq (Star Any) (lit "</li>"))).
  cbn [rmatch]. now apply lit_blank.
Qed.

Lemma paragraph_blank :
  forall bef s, blank_lines s ->
    match_at fl_im rx_paragraph (MState bef s []) = None.
Proof.
  intros bef s Hs. unfold match_at, rx_paragraph.
  match goal with
  | |- rmatch _ (cat [Bol; Star Space; ?n; ?g; Eol]) _ _ = None =>
    change (cat [Bol; Star Space; n; g; Eol])
      with (Seq Bol (Seq (Star Space) (Seq n (Seq g Eol))))
  end.
  cbn [rmatch]. destruct (at_bol fl_im _); [|reflexivity].
  apply (through_blank fl_im (Star Space)); [exact Hs|].
  intros y Hy.
  match goal with
  | |- match ?look with Some _ => None | None => _ end = None =>
    destruct look; [reflexivity|]
  end.
  now apply (plus_class_blank fl_im Chr.dot).
Qed.

Lemma replace_all_untouched (fl : flags) (r : regex) (by_ : replacement)
    (s : string) :
  (forall bef s, blank_lines s -> match_at fl r (MState bef s []) = None) ->
  blank_lines s -> replace_all fl r by_ s = s.
Proof. intros Hno Hs. now apply replace_all_blank. Qed.

Lemma escape_blank (c : ascii) (by_ : replacement) (s : string) :
  Ascii.eqb c LF = false ->
  blank_lines s ->
  replace_all no_flags (Char c) by_ s = s.
Proof.
  intros Hc Hs. apply replace_all_untouched; [|exact Hs].
  intros bef s' Hs'. now apply char_blank.
Qed.

(** A text whose lines are all empty comes back unchanged. *)
Lemma renderMarkdown_blank (s : string) :
  blank_lines s -> renderMarkdown s = s.
Proof.
  intros Hs. destruct s as [|a t]; [reflexivity|].
  unfold renderMarkdown, escape_passes, heading_pass.
  rewrite (escape_blank "&" _ _ eq_refl Hs).
  rewrite (escape_blank "<" _ _ eq_refl Hs).
  rewrite (escape_blank ">" _ _ eq_refl Hs).
  rewrite !(replace_all_untouched _ _ _ _ (heading_blank _) Hs).
  rewrite !(replace_all_untouched _ _ _ _ (emphasis_blank _) Hs).
  rewrite (replace_all_untouched _ _ _ _ bullet_blank Hs).
  rewrite (replace_all_untouched _ _ _ _ numbered_blank Hs).
  rewrite (replace_all_untouched _ _ _ _ list_items_blank Hs).
  now rewrite (replace_all_untouched _ _ _ _ paragraph_blank Hs).
Qed.

(** What the paragraph pattern captures is never empty and holds no line
    terminator. *)
Lemma paragraph_capture (x y : mstate) :
  match_at fl_im rx_paragraph x = Some y ->
  exists a t, group 1 y = String a t /\ all Chr.dot (String a t) = true.
Proof.
  unfold match_at, rx_paragraph.
  match goal with
  | |- rmatch _ (cat [Bol; Star Space; ?n; ?g; Eol]) _ _ = _ -> _ =>
    change (cat [Bol; Star Space; n; g; Eol])
      with (Seq Bol (Seq (Star Space) (Seq n (Seq g Eol))))
  end.
  cbn [rmatch]. intros H. destruct (at_bol fl_im x); [|discriminate].
  destruct (rmatch_reaches fl_im (Star Space) _ _ _ H) as (y1 & pre & _ & H1).
  cbv beta in H1.
  match type of H1 with
  | match ?look with Some _ => None | None => _ end = _ =>
    destruct look; [discriminate|]
  end.
  change (repeat_matcher (rmatch fl_im (Class Chr.dot))
            (fun y0 => if at_eol fl_im (set_cap 1 (consumed y1 y0) y0)
                       then Some (set_cap 1 (consumed y1 y0) y0) else None)
            true (S (1 + String.length (input y1))) 1 None y1 = Some y) in H1.
  destruct (repeat_class_inv fl_im Chr.dot _ true _ _ _ _ H1)
    as (m & rest & Hin & Hall & Hlen & Hk).
  destruct (at_eol fl_im _); [|discriminate]. injection Hk as <-.
  destruct m as [|a m]; [simpl in Hlen; lia|].
  exists a, m. split; [|exact Hall].
  unfold group, set_cap. cbn [caps lookup_cap Nat.eqb].
  destruct y1 as [b1 i1 c1]. simpl in Hin. subst i1.
  unfold after. cbn [before caps].
  apply (consumed_append b1 _ (String a m) rest).
Qed.

End RenderFacts.

(** ** Every line has its place *)

Module SegmentFacts.

Lemma parseSectionMeta_content (line : string) (m : section) :
  parseSectionMeta line = Some m -> content m = [] /\ meta_of m = m.
Proof.
  unfold parseSectionMeta.
  destruct (exec fl_i rx_phase _) as [[[? ?] ?]|].
  - intros [= <-]. split; reflexivity.
  - destruct (test fl_i rx_yt _); [|discriminate].
    intros [= <-]. split; reflexivity.
Qed.

(** With a section open: the lines up to the next heading extend it. *)
Lemma segment_open (lines : list string) :
  forall c intro secs,
  exists c' rest ext hs,
    segment intro secs (Some c) lines = (intro, secs ++ c' :: rest)%list
    /\ content c' = (content c ++ ext)%list
    /\ meta_of c' = meta_of c
    /\ lines = (ext ++ lines_of_sections hs rest)%list
    /\ Forall2 starts hs rest
    /\ Forall plain_line ext
    /\ Forall (fun s => Forall plain_line (content s)) rest.
Proof.
  induction lines as [|line rest IH]; intros c intro secs.
  - exists c, [], [], []. simpl. rewrite app_nil_r. repeat split; constructor.
  - cbn [segment]. destruct (parseSectionMeta line) as [m|] eqn:Hm.
    + destruct (parseSectionMeta_content _ _ Hm) as [Hc Hmeta].
      destruct (IH m intro (secs ++ [c])%list)
        as (m' & more & ext & hs & Hseg & Hcont & Hmm & Hl & Hf2 & Hext & Hrest).
      rewrite Hc in Hcont. simpl in Hcont.
      exists c, (m' :: more), [], (line :: hs).
      rewrite Hseg, <- app_assoc. simpl. rewrite app_nil_r, Hcont, <- Hl.
      repeat split; try constructor; try assumption.
      * unfold starts. now rewrite Hmm, Hmeta.
      * now rewrite Hcont.
    + destruct (IH (push_content c line) intro secs)
        as (c' & more & ext & hs & Hseg & Hcont & Hmm & Hl & Hf2 & Hext & Hrest).
      exists c', more, (line :: ext), hs. rewrite Hseg.
      simpl in Hcont. rewrite <- app_assoc in Hcont. simpl in Hcont.
      repeat split; try assumption.
      * simpl. now rewrite Hl.
      * constructor; [|assumption]. unfold plain_line, is_section_heading.
        now rewrite Hm.
Qed.

Lemma segment_intro (lines : list string) :
  forall intro,
  exists pre secs hs,
    segment intro [] None lines = ((intro ++ pre)%list, secs)
    /\ lines = (pre ++ lines_of_sections hs secs)%list
    /\ Forall2 starts hs secs
    /\ Forall plain_line pre
    /\ Forall (fun s => Forall plain_line (content s)) secs.
Proof.
  induction lines as [|line rest IH]; intros intro.
  - exists [], [], []. simpl. rewrite app_nil_r. repeat split; constructor.
  - cbn [segment]. destruct (parseSectionMeta line) as [m|] eqn:Hm.
    + destruct (parseSectionMeta_content _ _ Hm) as [Hc Hmeta].
      destruct (segment_open rest m intro [])
        as (m' & more & ext & hs & Hseg & Hcont & Hmm & Hl & Hf2 & Hext & Hrest).
      rewrite Hc in Hcont. simpl in Hcont.
      exists [], (m' :: more), (line :: hs).
      rewrite Hseg, app_nil_r. simpl. rewrite Hcont, <- Hl.
      repeat split; try constructor; try assumption.
      * unfold starts. now rewrite Hmm, Hmeta.
      * now rewrite Hcont.
    + destruct (IH (intro ++ [line])%list)
        as (pre & secs & hs & Hseg & Hl & Hf2 & Hpre & Hsecs).
      exists (line :: pre), secs, hs. rewrite Hseg, <- app_assoc. simpl.
      repeat split; try assumption.
      * now rewrite Hl.
      * constructor; [|assumption]. unfold plain_line, is_section_heading.
        now rewrite Hm.
Qed.

Lemma split_open (lines : list string) :
  forall c pre subs,
  exists c' rest ext hs,
    split_subsections pre subs (Some c) lines = (pre, subs ++ c' :: rest)%list
    /\ sub_lines c' = (sub_lines c ++ ext)%list
    /\ sub_title c' = sub_title c
    /\ lines = (ext ++ lines_of_subsections hs rest)%list
    /\ Forall2 titles hs rest
    /\ Forall plain_subline ext
    /\ Forall (fun s => Forall plain_subline (sub_lines s)) rest.
Proof.
  induction lines as [|line rest IH]; intros c pre subs.
  - exists c, [], [], []. simpl. rewrite app_nil_r. repeat split; constructor.
  - cbn [split_subsections].
    destruct (getSubsectionTitle line) as [t|] eqn:Ht.
    + destruct (IH (Subsection t []) pre (subs ++ [c])%list)
        as (m' & more & ext & hs & Hseg & Hcont & Hmm & Hl & Hf2 & Hext & Hrest).
      simpl in Hcont, Hmm.
      exists c, (m' :: more), [], (line :: hs).
      rewrite Hseg, <- app_assoc. simpl. rewrite app_nil_r, Hcont, <- Hl.
      repeat split; try constructor; try assumption.
      * unfold titles. now rewrite Hmm.
      * now rewrite Hcont.
    + destruct (IH (Subsection (sub_title c) (sub_lines c ++ [line])%list)
                  pre subs)
        as (c' & more & ext & hs & Hseg & Hcont & Hmm & Hl & Hf2 & Hext & Hrest).
      exists c', more, (line :: ext), hs. rewrite Hseg.
      simpl in Hcont, Hmm. rewrite <- app_assoc in Hcont. simpl in Hcont.
      repeat split; try assumption.
      * simpl. now rewrite Hl.
      * constructor; [|assumption]. unfold plain_subline, is_subsection_heading.
        now rewrite Ht.
Qed.

Lemma split_preface (lines : list string) :
  forall pre0,
  exists pre subs hs,
    split_subsections pre0 [] None lines = ((pre0 ++ pre)%list, subs)
    /\ lines = (pre ++ lines_of_subsections hs subs)%list
    /\ Forall2 titles hs subs
    /\ Forall plain_subline pre
    /\ Forall (fun s => Forall plain_subline (sub_lines s)) subs.
Proof.
  induction lines as [|line rest IH]; intros pre0.
  - exists [], [], []. simpl. rewrite app_nil_r. repeat split; constructor.
  - cbn [split_subsections].
    destruct (getSubsectionTitle line) as [t|] eqn:Ht.
    + destruct (split_open rest (Subsection t []) pre0 [])
        as (m' & more & ext & hs & Hseg & Hcont & Hmm & Hl & Hf2 & Hext & Hrest).
      simpl in Hcont, Hmm.
      exists [], (m' :: more), (line :: hs).
      rewrite Hseg, app_nil_r. simpl. rewrite Hcont, <- Hl.
      repeat split; try constructor; try assumption.
      * unfold titles. now rewrite Hmm.
      * now rewrite Hcont.
    + destruct (IH (pre0 ++ [line])%list)
        as (pre & subs & hs & Hseg & Hl & Hf2 & Hpre & Hsubs).
      exists (line :: pre), subs, hs. rewrite Hseg, <- app_assoc. simpl.
      repeat split; try assumption.
      * now rewrite Hl.
      * constructor; [|assumption]. unfold plain_subline, is_subsection_heading.
        now rewrite Ht.
Qed.

Lemma split_unstructured (lines : list string) :
  (forall line, In line lines -> getSubsectionTitle line = None) ->
  forall pre, split_subsections pre [] None lines = ((pre ++ lines)%list, []).
Proof.
  induction lines as [|line rest IH]; intros Hn pre; simpl.
  - now rewrite app_nil_r.
  - rewrite (Hn line (or_introl eq_refl)).
    rewrite IH by (intros l Hl; apply Hn; now right).
    now rewrite <- app_assoc.
Qed.

End SegmentFacts.

(** X1. The segmentation of [buildCollapsibleRoadmap] loses and repeats no
    line: the lines of the document are the intro lines followed, section
    by section, by the heading line that [parseSectionMeta] recognized and
    the lines of the section's [content]; no line of the intro or of a
    [content] is a section heading. *)
Theorem segmentation_covers_document (md : string) :
  exists headings : list string,
    lines_of md
    = (intro_of md ++ lines_of_sections headings (sections_of md))%list
    /\ Forall2 (fun h s => parseSectionMeta h = Some (meta_of s))
         headings (sections_of md)
    /\ Forall (fun line => is_section_heading line = false) (intro_of md)
    /\ Forall (fun s => Forall (fun line => is_section_heading line = false)
                          (content s))
         (sections_of md).
Proof.
  unfold intro_of, sections_of.
  destruct (SegmentFacts.segment_intro (lines_of md) [])
    as (pre & secs & hs & Hseg & Hl & Hf2 & Hpre & Hsecs).
  rewrite Hseg. simpl. exists hs. repeat split; assumption.
Qed.

(** X2. [splitPhaseContentIntoSubsections] loses and repeats no line: the
    content lines are the preface followed, subsection by subsection, by a
    heading line whose canonical title is the subsection's [title] and the
    subsection's [lines]; no line of the preface or of a subsection is a
    subsection heading. *)
Theorem subsections_cover_content (contentLines : list string) :
  exists headings : list string,
    contentLines
    = (fst (splitPhaseContentIntoSubsections contentLines)
       ++ lines_of_subsections headings
            (snd (splitPhaseContentIntoSubsections contentLines)))%list
    /\ Forall2 (fun h s => getSubsectionTitle h = Some (sub_title s))
         headings (snd (splitPhaseContentIntoSubsections contentLines))
    /\ Forall (fun line => is_subsection_heading line = false)
         (fst (splitPhaseContentIntoSubsections contentLines))
    /\ Forall (fun s => Forall (fun line => is_subsection_heading line = false)
                          (sub_lines s))
         (snd (splitPhaseContentIntoSubsections contentLines)).
Proof.
  unfold splitPhaseContentIntoSubsections.
  destruct (SegmentFacts.split_preface contentLines [])
    as (pre & subs & hs & Hseg & Hl & Hf2 & Hpre & Hsubs).
  rewrite Hseg. simpl. exists hs. repeat split; assumption.
Qed.

(** ** Cards without subsections, cards without content *)

Module CardFacts.
Import Text.

Lemma trimStart_blank (s : string) :
  all Chr.is_space s = true -> Str.trimStart s = "".
Proof.
  induction s as [|a s IH]; simpl; [reflexivity|].
  intros H. apply andb_true_iff in H. destruct H as [-> Hs]. now apply IH.
Qed.

Lemma trim_blank (s : string) : all Chr.is_space s = true -> Str.trim s = "".
Proof. intros H. unfold Str.trim. now rewrite (trimStart_blank s H). Qed.

Lemma join_blank (lines : list string) :
  Forall (fun line => all Chr.is_space line = true) lines ->
  all Chr.is_space (Str.join Str.nl lines) = true.
Proof.
  induction 1 as [|x l Hx Hl IH]; [reflexivity|].
  destruct l as [|y l]; [exact Hx|].
  change (Str.join Str.nl (x :: y :: l))
    with (x ++ Str.nl ++ Str.join Str.nl (y :: l)).
  rewrite !StrFacts.all_append, Hx, IH. reflexivity.
Qed.

Lemma sanitize_nothing (title : string) : sanitizeSectionMarkdown title "" = "".
Proof.
  unfold sanitizeSectionMarkdown.
  now destruct (test fl_i rx_recommended_title title).
Qed.

Lemma forallb_plain (lines : list string) :
  forallb (fun line => negb (is_subsection_heading line)) lines = true ->
  forall line, In line lines -> getSubsectionTitle line = None.
Proof.
  intros H line Hin. rewrite forallb_forall in H. specialize (H line Hin).
  unfold is_subsection_heading in H.
  now destruct (getSubsectionTitle line).
Qed.

Lemma or_else_some (a b : string) : a <> "" -> Str.or_else a b = a.
Proof. destruct a; [congruence|reflexivity]. Qed.

End CardFacts.

(** X3. A phase whose content has no line that [getSubsectionTitle]
    recognizes is displayed twice: the whole content is the preface of the
    block, and the single card [Details] that stands for the missing
    subsections holds the same HTML. *)
Theorem phase_without_subsections (s : section) (phaseIndex : nat) :
  forallb (fun line => negb (is_subsection_heading line)) (content s) = true ->
  stripLinksExceptRecommendedResources (Str.trim (Str.join Str.nl (content s)))
  <> "" ->
  phaseBlock s phaseIndex
  = "<section " ++ attr "class" "roadmap-phase-block" ++ ">"
    ++ ("<h3 " ++ attr "class" "roadmap-phase-title" ++ ">"
        ++ escapeHtml (sec_title s) ++ "</h3>")
    ++ ("<div " ++ attr "class" "roadmap-phase-preface" ++ ">"
        ++ renderMarkdown
             (stripLinksExceptRecommendedResources
                (Str.trim (Str.join Str.nl (content s))))
        ++ "</div>")
    ++ card_html 12
         (Card (if (phaseIndex =? 0)%nat then " open" else "") "Details"
            (renderMarkdown
               (stripLinksExceptRecommendedResources
                  (Str.trim (Str.join Str.nl (content s))))))
    ++ "</section>".
Proof.
  intros Hplain Hmd.
  pose proof (SegmentFacts.split_unstructured (content s)
                (CardFacts.forallb_plain _ Hplain) []) as Hsplit.
  unfold phaseBlock, subsectionCards, splitPhaseContentIntoSubsections.
  rewrite Hsplit. cbn [app mapi mapi_from List.map sub_title sub_lines].
  unfold card_of.
  assert (Hdetails : test fl_i rx_recommended_title "Details" = false)
    by (vm_compute; reflexivity).
  assert (Hintro : test fl_i rx_recommended_title "Phase Intro" = false)
    by (vm_compute; reflexivity).
  unfold sanitizeSectionMarkdown. rewrite Hdetails, Hintro.
  rewrite (CardFacts.or_else_some _ _ Hmd).
  replace (escapeHtml "Details") with "Details" by (vm_compute; reflexivity).
  rewrite andb_true_r.
  destruct (Str.trim (Str.join Str.nl (content s))) as [|a t] eqn:Htrim.
  - now elim Hmd.
  - reflexivity.
Qed.

Lemma phase_without_subsections_witness :
  phaseBlock
    (Section_ "phase" (Fin 1) "Phase 1: Basics"
       ["Read the first chapter."; "Then write a summary."]) 0
  = "<section " ++ attr "class" "roadmap-phase-block" ++ ">"
    ++ ("<h3 " ++ attr "class" "roadmap-phase-title" ++ ">"
        ++ "Phase 1: Basics" ++ "</h3>")
    ++ ("<div " ++ attr "class" "roadmap-phase-preface" ++ ">"
        ++ ("<p>Read the first chapter.</p>" ++ Str.nl
            ++ "<p>Then write a summary.</p>")
        ++ "</div>")
    ++ card_html 12
         (Card " open" "Details"
            ("<p>Read the first chapter.</p>" ++ Str.nl
             ++ "<p>Then write a summary.</p>"))
    ++ "</section>".
Proof.
  rewrite (phase_without_subsections
             (Section_ "phase" (Fin 1) "Phase 1: Basics"
                ["Read the first chapter."; "Then write a summary."]) 0).
  - vm_compute. reflexivity.
  - vm_compute. reflexivity.
  - vm_compute. discriminate.
Defined.

(** X4. A card whose lines hold white space only (or that has no line at
    all) shows the placeholder, whatever its title; the underscores of the
    placeholder are displayed as they are. *)
Theorem empty_card_placeholder (title : string) (lines : list string)
    (open : bool) :
  Forall (fun line => Text.all Chr.is_space line = true) lines ->
  contentHtml (card_of title lines open) = no_details_html.
Proof.
  intros H. unfold card_of. cbn [contentHtml].
  rewrite (CardFacts.trim_blank _ (CardFacts.join_blank _ H)).
  rewrite CardFacts.sanitize_nothing. vm_compute. reflexivity.
Qed.

Lemma empty_card_placeholder_witness :
  contentHtml (buildStandaloneCard (Section_ "yt" MAX_SAFE_INTEGER
                                      "YT Tutorials" [""; "  "]) true)
  = no_details_html.
Proof.
  apply (empty_card_placeholder "YT Tutorials" [""; "  "] true).
  repeat constructor.
Defined.

(** ** Lines and the text they come from *)

Module LinesFacts.
Import Text StrFacts ReFacts.

(** The matches of [/\r?\n/] *)
Lemma newline_match (bef : option ascii) (s : string) :
  match_at no_flags rx_newline (MState bef s [])
  = match s with
    | String a t =>
      if Ascii.eqb (ascii_of_nat 13) a
      then match t with
           | String b t' =>
             if Ascii.eqb (ascii_of_nat 10) b
             then Some (MState (Some b) t' [])
             else None
           | "" => None
           end
      else if Ascii.eqb (ascii_of_nat 10) a
           then Some (MState (Some a) t [])
           else None
    | "" => None
    end.
Proof.
  unfold match_at, rx_newline.
  change (cat [Opt (Char (ascii_of_nat 13)); Char (ascii_of_nat 10)])
    with (Seq (Opt (Char (ascii_of_nat 13))) (Char (ascii_of_nat 10))).
  cbn [rmatch]. rewrite rmatch_opt_char. cbn [input].
  destruct s as [|a t]; [reflexivity|].
  unfold char_eq. cbn [ignoreCase no_flags advance input].
  destruct (Ascii.eqb (ascii_of_nat 13) a) eqn:Hcr.
  - apply Ascii.eqb_eq in Hcr. subst a.
    destruct t as [|b t']; [reflexivity|].
    destruct (Ascii.eqb (ascii_of_nat 10) b); reflexivity.
  - destruct (Ascii.eqb (ascii_of_nat 10) a); reflexivity.
Qed.

Lemma split_from_cons (s : string) :
  forall skip bef cur,
    exists x l, split_from no_flags rx_newline skip bef cur s = x :: l.
Proof.
  induction s as [|c t IH]; intros skip bef cur; cbn [split_from].
  - now exists cur, [].
  - destruct skip as [|n]; [|apply IH].
    destruct (match_at no_flags rx_newline _) as [y|].
    + destruct (String.length _) as [|n].
      * destruct cur; [apply IH|]. eexists. eexists. reflexivity.
      * eexists. eexists. reflexivity.
    + apply IH.
Qed.

Lemma join_cons (sep x y : string) (l : list string) :
  Str.join sep (x :: y :: l) = x ++ sep ++ Str.join sep (y :: l).
Proof. reflexivity. Qed.

Lemma join_split_cons (x : string) (s : string) (skip : nat)
    (bef : option ascii) (cur : string) :
  Str.join Str.nl (x :: split_from no_flags rx_newline skip bef cur s)
  = x ++ Str.nl
    ++ Str.join Str.nl (split_from no_flags rx_newline skip bef cur s).
Proof.
  destruct (split_from_cons s skip bef cur) as (y & l & ->). reflexivity.
Qed.

Lemma length_split_cons (x : string) (l : list string) :
  length (x :: l) = S (length l).
Proof. reflexivity. Qed.

Lemma split_from_0 (bef : option ascii) (cur : string) (c : ascii)
    (t : string) :
  split_from no_flags rx_newline 0 bef cur (String c t)
  = match match_at no_flags rx_newline (MState bef (String c t) []) with
    | Some y =>
      match String.length (consumed (MState bef (String c t) []) y), cur with
      | 0, "" => split_from no_flags rx_newline 0 (Some c) (String c "") t
      | 0, _ => cur :: split_from no_flags rx_newline 0 (Some c) (String c "") t
      | S n, _ => cur :: split_from no_flags rx_newline n (Some c) "" t
      end
    | None => split_from no_flags rx_newline 0 (Some c) (cur ++ String c "") t
    end.
Proof. reflexivity. Qed.

Lemma split_from_S (n : nat) (bef : option ascii) (cur : string) (c : ascii)
    (t : string) :
  split_from no_flags rx_newline (S n) bef cur (String c t)
  = split_from no_flags rx_newline n (Some c) cur t.
Proof. reflexivity. Qed.

(** The pieces of a text, put together again and counted *)
Lemma split_join (s : string) :
  (forall bef cur,
     Str.join Str.nl (split_from no_flags rx_newline 0 bef cur s)
     = cur ++ lf_newlines s
     /\ length (split_from no_flags rx_newline 0 bef cur s)
        = S (count_lf s))
  /\ (forall c bef cur,
        Str.join Str.nl
          (split_from no_flags rx_newline 0 bef cur (String c s))
        = cur ++ lf_newlines (String c s)
        /\ length (split_from no_flags rx_newline 0 bef cur (String c s))
           = S (count_lf (String c s))).
Proof.
  induction s as [|a t [IH0 IH1]].
  - split.
    + intros bef cur. simpl. now rewrite append_nil_r.
    + intros c bef cur. rewrite split_from_0, newline_match.
      destruct (Ascii.eqb (ascii_of_nat 13) c) eqn:Hcr.
      * apply Ascii.eqb_eq in Hcr. subst c. simpl. split; reflexivity.
      * destruct (Ascii.eqb (ascii_of_nat 10) c) eqn:Hlf.
        -- apply Ascii.eqb_eq in Hlf. subst c.
           simpl. split; reflexivity.
        -- simpl. unfold is_lf, LF. rewrite Hlf. split; reflexivity.
  - split; [exact (IH1 a)|].
    intros c bef cur. rewrite split_from_0, newline_match.
    destruct (Ascii.eqb (ascii_of_nat 13) c) eqn:Hcr.
    + apply Ascii.eqb_eq in Hcr. subst c.
      destruct (Ascii.eqb (ascii_of_nat 10) a) eqn:Hlf.
      * apply Ascii.eqb_eq in Hlf. subst a.
        rewrite (consumed_append bef _
                   (String (ascii_of_nat 13) (String (ascii_of_nat 10) ""))
                   t [] []).
        cbn [String.length]. rewrite split_from_S.
        rewrite join_split_cons, length_split_cons.
        destruct (IH0 (Some (ascii_of_nat 10)) "") as [-> ->].
        split; [|reflexivity].
        change (lf_newlines
                  (String (ascii_of_nat 13) (String (ascii_of_nat 10) t)))
          with (lf_newlines (String (ascii_of_nat 10) t)).
        destruct t as [|b t']; reflexivity.
      * destruct (IH1 a (Some (ascii_of_nat 13))
                    (cur ++ String (ascii_of_nat 13) "")) as [-> ->].
        rewrite append_assoc. cbn [lf_newlines].
        rewrite (Ascii.eqb_sym a (ascii_of_nat 10)), Hlf. split; reflexivity.
    + destruct (Ascii.eqb (ascii_of_nat 10) c) eqn:Hlf.
      * apply Ascii.eqb_eq in Hlf. subst c.
        rewrite (consumed_append bef _ (String (ascii_of_nat 10) "")
                   (String a t) [] []).
        cbn [String.length].
        rewrite join_split_cons, length_split_cons.
        destruct (IH1 a (Some (ascii_of_nat 10)) "") as [-> ->].
        split; reflexivity.
      * destruct (IH1 a (Some c) (cur ++ String c "")) as [-> ->].
        rewrite append_assoc. cbn [lf_newlines count_lf].
        unfold is_lf, LF. rewrite Hlf, (Ascii.eqb_sym c (ascii_of_nat 13)), Hcr.
        split; reflexivity.
Qed.

Lemma lines_of_cons (md : string) : exists x l, lines_of md = x :: l.
Proof.
  unfold lines_of, split. destruct md as [|a t].
  - unfold start. rewrite newline_match. now exists "", [].
  - apply split_from_cons.
Qed.

End LinesFacts.

(** X5. The lines of a text are never none, there is one more of them than
    line feeds in the text, and joined by line feeds they give the text
    back with every CR LF turned into LF. *)
Theorem lines_round_trip (md : string) :
  lines_of md <> []
  /\ length (lines_of md) = S (count_lf md)
  /\ Str.join Str.nl (lines_of md) = lf_newlines md.
Proof.
  split.
  - destruct (LinesFacts.lines_of_cons md) as (x & l & ->). discriminate.
  - unfold lines_of, split. destruct md as [|a t].
    + unfold start. rewrite LinesFacts.newline_match. split; reflexivity.
    + destruct (proj2 (LinesFacts.split_join t) a None "") as [HJ HL].
      now split.
Qed.

(** ** The reveal, turn by turn *)

Module RevealFacts.
Import Revealer StrFacts.

Lemma join_snoc (sep x y : string) (l : list string) :
  Str.join sep ((x :: l) ++ [y]) = Str.join sep (x :: l) ++ sep ++ y.
Proof.
  revert x. induction l as [|z l IH]; intros x; [reflexivity|].
  change ((x :: z :: l) ++ [y])%list with (x :: ((z :: l) ++ [y]))%list.
  change (Str.join sep (x :: (z :: l) ++ [y]))
    with (x ++ sep ++ Str.join sep ((z :: l) ++ [y])).
  rewrite IH, LinesFacts.join_cons. now rewrite !append_assoc.
Qed.

Lemma skipn_next {A : Type} (l : list A) :
  forall k x rest,
    skipn k l = x :: rest ->
    firstn (S k) l = (firstn k l ++ [x])%list /\ skipn (S k) l = rest
    /\ k < length l.
Proof.
  induction l as [|a l IH]; intros k x rest H.
  - destruct k; discriminate.
  - destruct k as [|k].
    + injection H as <- <-. simpl. repeat split. lia.
    + destruct (IH k x rest H) as (Hf & Hs & Hl).
      change (firstn (S (S k)) (a :: l)) with (a :: firstn (S k) l).
      rewrite Hf. repeat split; [exact Hs|simpl; lia].
Qed.

Lemma skipn_all {A : Type} (l : list A) (k : nat) :
  skipn k l = [] -> length l <= k.
Proof.
  revert k. induction l as [|a l IH]; intros k H; [simpl; lia|].
  destruct k; [discriminate|]. simpl in *. apply IH in H. lia.
Qed.

Lemma firstn_S_cons {A : Type} (l : list A) (k : nat) :
  0 < length l -> exists x l', firstn (S k) l = x :: l'.
Proof. destruct l as [|a l]; simpl; [lia|]. intros _. eauto. Qed.

Lemma turns_S (i n : nat) : turns i (S n) = (turns i n ++ [Wake i])%list.
Proof. unfold turns. apply (repeat_cons n (Wake i)). Qed.

Lemma run_events_snoc (p : page) (evs : list event) (e : event) :
  run_events p (evs ++ [e]) = step (run_events p evs) e.
Proof. unfold run_events. now rewrite fold_left_app. Qed.

Lemma wake_last (pre : list call) (k : call) (w : world) :
  wake (length pre) (pre ++ [k]) w
  = ((pre ++ [Call (roadmap_of k) (jobId_of k)
                (fst (resume (roadmap_of k) (jobId_of k) (state_of k) w))])%list,
     snd (resume (roadmap_of k) (jobId_of k) (state_of k) w)).
Proof.
  replace (length pre) with (length pre + 0) by lia.
  rewrite RevealerFacts.wake_app_r. simpl.
  now destruct (resume (roadmap_of k) (jobId_of k) (state_of k) w).
Qed.

End RevealFacts.

(** X6. A render that no submission interrupts: after the call and [k]
    turns of it the page shows [buildCollapsibleRoadmap] of the first
    [k + 1] lines joined by line feeds, and the call waits with the lines
    that are left; once every line is in, it shows
    [buildCollapsibleRoadmap(roadmap)], or the notice of an empty roadmap
    when that is empty, the call has returned [true], and further turns
    change nothing. *)
Theorem reveal_line_by_line (p : Revealer.page) (roadmap : string) (k : nat) :
  Revealer.run_events p
    (Revealer.Render roadmap (Revealer.renderJobId (Revealer.shared p))
     :: turns (length (Revealer.calls p)) k)
  = if (k <? length (lines_of roadmap))%nat
    then
      Revealer.Page
        (Revealer.World (Revealer.renderJobId (Revealer.shared p))
           (buildCollapsibleRoadmap (streamed_upto k roadmap)))
        (Revealer.calls p
         ++ [Revealer.Call roadmap (Revealer.renderJobId (Revealer.shared p))
               (Revealer.Waiting (streamed_upto k roadmap)
                  (skipn (S k) (lines_of roadmap)))])%list
    else
      Revealer.Page
        (Revealer.World (Revealer.renderJobId (Revealer.shared p))
           (Str.or_else (buildCollapsibleRoadmap roadmap)
              Revealer.empty_roadmap))
        (Revealer.calls p
         ++ [Revealer.Call roadmap (Revealer.renderJobId (Revealer.shared p))
               (Revealer.Returned true)])%list.
Proof.
  induction k as [|k IH].
  - unfold turns, streamed_upto. cbn [repeat Revealer.run_events fold_left].
    unfold Revealer.step, Revealer.renderRoadmapLineByLine.
    destruct (LinesFacts.lines_of_cons roadmap) as (x & l & ->).
    unfold Revealer.loop_head. cbn [Revealer.renderJobId Revealer.set_innerHTML].
    rewrite Nat.eqb_refl. reflexivity.
  - rewrite RevealFacts.turns_S, app_comm_cons, RevealFacts.run_events_snoc, IH.
    clear IH. unfold Revealer.step.
    destruct (k <? length (lines_of roadmap))%nat eqn:Hk.
    + cbn [Revealer.calls Revealer.shared].
      rewrite RevealFacts.wake_last.
      cbn [Revealer.roadmap_of Revealer.jobId_of Revealer.state_of
           Revealer.resume].
      unfold Revealer.loop_head. cbn [Revealer.renderJobId].
      rewrite Nat.eqb_refl. cbn [negb].
      apply Nat.ltb_lt in Hk.
      destruct (skipn (S k) (lines_of roadmap)) as [|line rest] eqn:Hrest.
      * apply RevealFacts.skipn_all in Hrest.
        destruct (Nat.ltb_spec (S k) (length (lines_of roadmap))); [lia|].
        reflexivity.
      * destruct (RevealFacts.skipn_next _ _ _ _ Hrest) as (Hf & Hs & Hl).
        apply Nat.ltb_lt in Hl. rewrite Hl.
        unfold streamed_upto. rewrite Hf, Hs.
        destruct (RevealFacts.firstn_S_cons (lines_of roadmap) k)
          as (x & l' & ->); [lia|].
        rewrite RevealFacts.join_snoc. reflexivity.
    + cbn [Revealer.calls Revealer.shared].
      rewrite RevealFacts.wake_last.
      apply Nat.ltb_ge in Hk.
      destruct (Nat.ltb_spec (S k) (length (lines_of roadmap))); [lia|].
      reflexivity.
Qed.

(** ** Escaping *)

Module EscapeFacts.
Import Text StrFacts ReFacts.

Lemma char_match (c : ascii) (bef : option ascii) (s : string) :
  match_at no_flags (Char c) (MState bef s [])
  = match s with
    | String a t =>
      if Ascii.eqb c a then Some (MState (Some a) t []) else None
    | "" => None
    end.
Proof. destruct s; reflexivity. Qed.

Lemma consumed_one (bef : option ascii) (a : ascii) (t : string) :
  consumed (MState bef (String a t) []) (MState (Some a) t []) = String a "".
Proof. exact (consumed_append bef (Some a) (String a "") t [] []). Qed.

Lemma tmpl_text (w m : string) (y : mstate) : tmpl [T w] m y = w.
Proof. cbn [tmpl]. apply append_nil_r. Qed.

Lemma replace_char (c : ascii) (w : string) (s : string) :
  forall bef,
    replace_all_from no_flags (Char c) (tmpl [T w]) 0 bef s
    = expand (one_pass c w) s.
Proof.
  induction s as [|a t IH]; intros bef; cbn [replace_all_from].
  - reflexivity.
  - rewrite char_match. cbn [expand]. unfold one_pass at 1.
    destruct (Ascii.eqb c a).
    + rewrite consumed_one. cbn [String.length]. now rewrite tmpl_text, IH.
    + now rewrite IH.
Qed.

Lemma expand_append (f : ascii -> string) (a b : string) :
  expand f (a ++ b) = expand f a ++ expand f b.
Proof.
  induction a as [|x a IH]; simpl; [reflexivity|].
  now rewrite IH, append_assoc.
Qed.

Lemma escape_one (a : ascii) :
  expand (one_pass ">" "&gt;")
    (expand (one_pass "<" "&lt;") (one_pass "&" "&amp;" a))
  = escape_char a.
Proof.
  unfold escape_char, one_pass at 3.
  destruct (Ascii.eqb "&" a) eqn:Hamp; [reflexivity|].
  cbn [expand]. unfold one_pass at 2.
  destruct (Ascii.eqb "<" a) eqn:Hlt; [reflexivity|].
  cbn [expand append]. unfold one_pass.
  destruct (Ascii.eqb ">" a) eqn:Hgt; reflexivity.
Qed.

Lemma escape_passes_expand (s : string) :
  escape_passes s = expand escape_char s.
Proof.
  unfold escape_passes, replace_all. rewrite !replace_char.
  induction s as [|a t IH]; [reflexivity|].
  cbn [expand]. rewrite !expand_append, IH. now rewrite escape_one.
Qed.

Lemma escape_char_angle (a : ascii) :
  all (fun c => negb (angle c)) (escape_char a) = true.
Proof.
  unfold escape_char.
  destruct (Ascii.eqb "&" a) eqn:Hamp; [reflexivity|].
  destruct (Ascii.eqb "<" a) eqn:Hlt; [reflexivity|].
  destruct (Ascii.eqb ">" a) eqn:Hgt; [reflexivity|].
  simpl. unfold angle. now rewrite Hlt, Hgt.
Qed.

End EscapeFacts.

(** X7. The three replacements of [escapeHtml], which also open
    [renderMarkdown], amount to one pass that writes [&amp;], [&lt;] and
    [&gt;] for [&], [<] and [>] and every other character as it is: no
    character is escaped twice.  So escaping goes through concatenation,
    and the escaped text holds neither [<] nor [>]. *)
Theorem escapeHtml_one_pass :
  (forall s : string, escapeHtml s = expand escape_char s)
  /\ (forall a b : string, escapeHtml (a ++ b) = escapeHtml a ++ escapeHtml b)
  /\ (forall s : string,
        Text.all (fun c => negb (angle c)) (escapeHtml s) = true).
Proof.
  split; [exact EscapeFacts.escape_passes_expand|]. split.
  - intros a b. unfold escapeHtml.
    rewrite !EscapeFacts.escape_passes_expand.
    apply EscapeFacts.expand_append.
  - intros s. unfold escapeHtml. rewrite EscapeFacts.escape_passes_expand.
    induction s as [|a t IH]; [reflexivity|].
    cbn [expand]. now rewrite StrFacts.all_append, EscapeFacts.escape_char_angle.
Qed.

(** ** Where the links of a sanitized text come from *)

Module RegionFacts.
Import Text Sanitizer StrFacts SanitizerFacts.

Lemma take_while_before (p : ascii -> bool) (s : string) (c : ascii)
    (b : string) :
  p c = false -> take_while p (s ++ String c b) = take_while p s.
Proof.
  intros Hc. induction s as [|a s IH]; simpl; [now rewrite Hc|].
  destruct (p a); [now rewrite IH|reflexivity].
Qed.

(** A URL token does not go past white space. *)
Lemma url_at_before (s : string) (c : ascii) (b : string) :
  Chr.is_space c = true -> url_at (s ++ String c b) = url_at s.
Proof.
  intros Hc.
  rewrite <- (url_at_take_while nonspace nonspace_url (s ++ String c b)).
  rewrite take_while_before by (unfold nonspace; now rewrite Hc).
  apply (url_at_take_while nonspace nonspace_url).
Qed.

Lemma has_url_either (s : string) (c : ascii) (b : string) :
  Chr.is_space c = true ->
  has_url (s ++ String c b) = has_url s || has_url b.
Proof.
  intros Hc. induction s as [|a s IH].
  - cbn [append has_url]. now rewrite (url_at_space _ _ Hc).
  - change (String a s ++ String c b) with (String a (s ++ String c b)).
    cbn [has_url]. rewrite IH.
    change (String a (s ++ String c b)) with (String a s ++ String c b).
    rewrite (url_at_before _ _ _ Hc). apply orb_assoc.
Qed.

(** A URL token of the joined output lies in a line of a region. *)
Lemma strip_loop_urls (lines : list string) :
  forall flag,
    has_url (Str.join Str.nl (strip_loop flag lines)) = true ->
    exists i line,
      nth_error lines i = Some line
      /\ nth_error (region flag lines) i = Some true
      /\ has_url line = true.
Proof.
  induction lines as [|line rest IH]; intros flag H; [discriminate|].
  rewrite strip_loop_region in H. cbn [region combine List.map] in H.
  rewrite <- strip_loop_region in H. cbn [region].
  set (here := opens_region line || flag && negb (closes_region line)) in *.
  assert (Hhead : has_url (keep_or_strip (here, line)) = true ->
                  exists i l,
                    nth_error (line :: rest) i = Some l
                    /\ nth_error (here :: region here rest) i = Some true
                    /\ has_url l = true).
  { unfold keep_or_strip. cbn [fst snd]. destruct here.
    - intros Hl. now exists 0, line.
    - now rewrite stripLinksFromMarkdown_no_url. }
  destruct (strip_loop here rest) as [|y l] eqn:Hrest; [exact (Hhead H)|].
  rewrite LinesFacts.join_cons in H.
  change (Str.nl ++ Str.join Str.nl (y :: l))
    with (String (ascii_of_nat 10) (Str.join Str.nl (y :: l))) in H.
  rewrite has_url_either in H by reflexivity.
  apply orb_true_iff in H. destruct H as [H|H]; [exact (Hhead H)|].
  rewrite <- Hrest in H.
  destruct (IH here H) as (i & l' & Hn & Hr & Hu).
  now exists (S i), l'.
Qed.

End RegionFacts.

(** X8. Whatever URL the text returned by
    [stripLinksExceptRecommendedResources] holds was in a line of a
    [Recommended Resources] region of the input: when the URL pattern
    matches in the result, it matches in a line that the region policy
    keeps. *)
Theorem urls_only_from_regions (md : string) :
  test fl_i rx_url (stripLinksExceptRecommendedResources md) = true ->
  exists (i : nat) (line : string),
    nth_error (lines_of md) i = Some line
    /\ nth_error (Sanitizer.region false (lines_of md)) i = Some true
    /\ test fl_i rx_url line = true.
Proof.
  rewrite SanitizerFacts.test_rx_url. intros H.
  destruct md as [|a md]; [discriminate|].
  unfold stripLinksExceptRecommendedResources in H.
  apply SanitizerFacts.trim_has_url, SanitizerFacts.collapse_has_url in H.
  destruct (RegionFacts.strip_loop_urls _ _ H) as (i & line & Hn & Hr & Hu).
  exists i, line. now rewrite SanitizerFacts.test_rx_url.
Qed.

Lemma urls_only_from_regions_witness :
  exists (i : nat) (line : string),
    nth_error
      (lines_of ("Objectives" ++ Str.nl ++ "- see https://a.com" ++ Str.nl
                 ++ "## Recommended Resources" ++ Str.nl
                 ++ "- [Docs](https://example.com)")) i = Some line
    /\ nth_error
         (Sanitizer.region false
            (lines_of ("Objectives" ++ Str.nl ++ "- see https://a.com"
                       ++ Str.nl ++ "## Recommended Resources" ++ Str.nl
                       ++ "- [Docs](https://example.com)"))) i = Some true
    /\ test fl_i rx_url line = true.
Proof.
  apply urls_only_from_regions. vm_compute. reflexivity.
Defined.

(** ** The shape of a sanitized text *)

Module NormalFacts.
Import Text Matcher StrFacts ReFacts SanitizerFacts.

Lemma replace_all_from_0 (fl : flags) (r : regex) (by_ : replacement)
    (bef : option ascii) (c : ascii) (t : string) :
  replace_all_from fl r by_ 0 bef (String c t)
  = match match_at fl r (MState bef (String c t) []) with
    | Some y =>
      match String.length (consumed (MState bef (String c t) []) y) with
      | 0 => by_ (consumed (MState bef (String c t) []) y) y
             ++ String c (replace_all_from fl r by_ 0 (Some c) t)
      | S n => by_ (consumed (MState bef (String c t) []) y) y
               ++ replace_all_from fl r by_ n (Some c) t
      end
    | None => String c (replace_all_from fl r by_ 0 (Some c) t)
    end.
Proof. reflexivity. Qed.

(** The characters of a match are passed over. *)
Lemma replace_all_skip (fl : flags) (r : regex) (by_ : replacement)
    (m : string) :
  forall rest bef,
    replace_all_from fl r by_ (String.length m) bef (m ++ rest)
    = replace_all_from fl r by_ 0 (last_of m bef) rest.
Proof.
  induction m as [|c m IH]; intros rest bef; [reflexivity|].
  change (replace_all_from fl r by_ (String.length (String c m)) bef
            (String c m ++ rest))
    with (replace_all_from fl r by_ (String.length m) (Some c) (m ++ rest)).
  now rewrite IH.
Qed.

Lemma consumed_after (m rest : string) (x : mstate) :
  input x = m ++ rest -> consumed x (after m rest x) = m.
Proof.
  destruct x as [b i c]. simpl. intros ->. unfold after.
  apply consumed_append.
Qed.

Lemma take_while_app_all (q : ascii -> bool) (w x : string) :
  all q w = true -> take_while q (w ++ x) = w ++ take_while q x.
Proof.
  induction w as [|a w IH]; simpl; [reflexivity|].
  intros H. apply andb_true_iff in H. destruct H as [-> Hw].
  now rewrite IH.
Qed.

Lemma runs_below_app (q : ascii -> bool) (lo : nat) (x : string) :
  runs_below q lo x = true ->
  forall w,
    all q w = true ->
    String.length w + String.length (take_while q x) < lo ->
    runs_below q lo (w ++ x) = true.
Proof.
  intros Hx. induction w as [|a w IH]; intros Hw Hlen; [exact Hx|].
  change (String a w ++ x) with (String a (w ++ x)).
  cbn [runs_below].
  change (String a (w ++ x)) with (String a w ++ x).
  rewrite (take_while_app_all _ _ _ Hw), length_append.
  simpl in Hw. apply andb_true_iff in Hw. destruct Hw as [_ Hw].
  rewrite IH; [|exact Hw|simpl in Hlen; lia].
  rewrite andb_true_r. now apply Nat.ltb_lt.
Qed.

Lemma length_drop_while (q : ascii -> bool) (s : string) :
  String.length (drop_while q s) <= String.length s.
Proof.
  induction s as [|a s IH]; simpl; [lia|].
  destruct (q a); simpl; lia.
Qed.

Lemma take_while_stops (q : ascii -> bool) (s : string) :
  stops q s -> take_while q s = "".
Proof. destruct s as [|a s]; simpl; [reflexivity|]. now intros ->. Qed.

Section Runs.

(** A pattern that matches the runs of [lo] characters of a class or more,
    replaced by a text of the class, shorter than [top] *)
Variable fl : flags.
Variable r : regex.
Variable q : ascii -> bool.
Variable lo top : nat.
Variable w : string.
Hypothesis lo_pos : 0 < lo.
Hypothesis lo_le : lo <= top.
Hypothesis w_class : all q w = true.
Hypothesis w_short : String.length w < top.
Hypothesis match_run :
  forall bef s,
    match_at fl r (MState bef s [])
    = if (lo <=? String.length (take_while q s))%nat
      then Some (after (take_while q s) (drop_while q s) (MState bef s []))
      else None.

Lemma runs_replaced (n : nat) :
  forall s, String.length s <= n ->
  forall bef,
    take_while q (replace_all_from fl r (tmpl [T w]) 0 bef s)
    = (if (lo <=? String.length (take_while q s))%nat
       then w else take_while q s)
    /\ runs_below q top (replace_all_from fl r (tmpl [T w]) 0 bef s) = true.
Proof.
  induction n as [|n IH]; intros s Hn bef.
  - destruct s as [|c t]; [|simpl in Hn; lia].
    cbn [replace_all_from]. rewrite match_run. cbn [take_while String.length].
    destruct (Nat.leb_spec lo 0); [lia|]. split; [reflexivity|].
    simpl. rewrite andb_true_r. apply Nat.ltb_lt. lia.
  - destruct s as [|c t].
    + cbn [replace_all_from]. rewrite match_run.
      cbn [take_while String.length].
      destruct (Nat.leb_spec lo 0); [lia|]. split; [reflexivity|].
      simpl. rewrite andb_true_r. apply Nat.ltb_lt. lia.
    + simpl in Hn. rewrite replace_all_from_0, match_run.
      destruct (lo <=? String.length (take_while q (String c t)))%nat eqn:Hrun.
      * apply Nat.leb_le in Hrun.
        destruct (q c) eqn:Hc; cbn [take_while] in Hrun; rewrite Hc in Hrun;
          [|simpl in Hrun; lia].
        rewrite consumed_after
          by (cbn [input]; apply (take_drop_while q (String c t))).
        cbn [take_while drop_while]. rewrite Hc. cbn [String.length].
        rewrite EscapeFacts.tmpl_text.
        replace (replace_all_from fl r (tmpl [T w])
                   (String.length (take_while q t)) (Some c) t)
          with (replace_all_from fl r (tmpl [T w])
                  (String.length (take_while q t)) (Some c)
                  (take_while q t ++ drop_while q t))
          by (now rewrite <- take_drop_while).
        rewrite replace_all_skip.
        destruct (IH (drop_while q t)
                    ltac:(pose proof (length_drop_while q t); lia)
                    (last_of (take_while q t) (Some c))) as [Ht Hr].
        rewrite (take_while_stops _ _ (drop_while_stops q t)) in Ht.
        cbn [String.length] in Ht.
        destruct (Nat.leb_spec lo 0) as [|_]; [lia|].
        split.
        -- rewrite (take_while_app_all _ _ _ w_class), Ht.
           apply append_nil_r.
        -- apply runs_below_app; [exact Hr|exact w_class|].
           rewrite Ht. simpl. lia.
      * apply Nat.leb_gt in Hrun.
        destruct (IH t ltac:(lia) (Some c)) as [Ht Hr].
        cbn [take_while runs_below]. cbn [take_while] in Hrun.
        destruct (q c) eqn:Hc.
        -- cbn [String.length] in Hrun.
           destruct (Nat.leb_spec lo (String.length (take_while q t)));
             [lia|].
           rewrite Ht, Hr. split; [reflexivity|].
           rewrite andb_true_r. apply Nat.ltb_lt. simpl. lia.
        -- split; [reflexivity|]. rewrite Hr, andb_true_r.
           apply Nat.ltb_lt. simpl. lia.
Qed.

End Runs.

(** The matches of [\n{3,}] *)
Lemma blank_lines_match (bef : option ascii) (s : string) :
  match_at no_flags rx_blank_lines (MState bef s [])
  = if (3 <=? String.length (take_while is_lf s))%nat
    then Some (after (take_while is_lf s) (drop_while is_lf s)
                 (MState bef s []))
    else None.
Proof.
  unfold match_at, rx_blank_lines, AtLeast.
  change (rmatch no_flags (Rep 3 None true (Char (ascii_of_nat 10)))
            (fun y => Some y) (MState bef s []))
    with (repeat_matcher (rmatch no_flags (Class is_lf)) (fun y => Some y)
            true (S (3 + String.length s)) 3 None (MState bef s [])).
  rewrite repeat_class_greedy by (unfold len; simpl; lia).
  reflexivity.
Qed.

Lemma collapse_runs (s : string) :
  runs_below is_lf 3 (collapse_blank_lines s) = true.
Proof.
  unfold collapse_blank_lines, replace_all.
  apply (runs_replaced no_flags rx_blank_lines is_lf 3 3 (Str.nl ++ Str.nl)
           ltac:(lia) ltac:(lia) eq_refl ltac:(simpl; lia) blank_lines_match
           (String.length s) s (Nat.le_refl _) None).
Qed.

Lemma is_prefix_run (s : string) :
  Str.is_prefix two_empty_lines s = true ->
  3 <= String.length (take_while is_lf s).
Proof.
  unfold two_empty_lines, Str.nl. cbn [append].
  destruct s as [|a [|b [|c s]]]; cbn [Str.is_prefix]; intros H;
    repeat (apply andb_true_iff in H; destruct H as [? H]);
    try discriminate.
  repeat match goal with
         | Hx : Ascii.eqb _ _ = true |- _ => apply Ascii.eqb_eq in Hx
         end.
  subst. simpl. lia.
Qed.

Lemma runs_no_empty_lines (s : string) :
  runs_below is_lf 3 s = true -> Str.contains two_empty_lines s = false.
Proof.
  induction s as [|a s IH]; intros H; [reflexivity|].
  cbn [runs_below] in H. apply andb_true_iff in H. destruct H as [Hrun Hs].
  cbn [Str.contains]. rewrite (IH Hs), orb_false_r.
  destruct (Str.is_prefix two_empty_lines (String a s)) eqn:Hp;
    [|reflexivity].
  apply is_prefix_run in Hp. apply Nat.ltb_lt in Hrun. lia.
Qed.

Lemma is_prefix_append (p x w : string) :
  Str.is_prefix p x = true -> Str.is_prefix p (x ++ w) = true.
Proof.
  revert x. induction p as [|a p IH]; intros x H; [reflexivity|].
  destruct x as [|b x]; [discriminate|]. simpl in *.
  apply andb_true_iff in H. destruct H as [-> H]. now apply IH.
Qed.

Lemma contains_append_r (p x w : string) :
  Str.contains p x = true -> Str.contains p (x ++ w) = true.
Proof.
  induction x as [|a x IH]; intros H.
  - simpl in H. rewrite orb_false_r in H.
    destruct p; [|discriminate]. now destruct w.
  - cbn [Str.contains] in H.
    change (String a x ++ w) with (String a (x ++ w)).
    cbn [Str.contains]. apply orb_true_iff in H. apply orb_true_iff.
    destruct H as [H|H].
    + left. exact (is_prefix_append p (String a x) w H).
    + right. now apply IH.
Qed.

Lemma contains_append_l (p u x : string) :
  Str.contains p x = true -> Str.contains p (u ++ x) = true.
Proof.
  intros H. induction u as [|a u IH]; [exact H|].
  change (String a u ++ x) with (String a (u ++ x)).
  cbn [Str.contains]. rewrite IH. apply orb_true_r.
Qed.

Lemma trim_contains (p s : string) :
  Str.contains p s = false -> Str.contains p (Str.trim s) = false.
Proof.
  intros H. destruct (Str.contains p (Str.trim s)) eqn:Ht; [|reflexivity].
  unfold Str.trim in Ht.
  destruct (trimStart_suffix s) as [u Hu].
  destruct (trimEnd_prefix (Str.trimStart s)) as [w Hw].
  rewrite Hu, Hw in H.
  rewrite (contains_append_l p u _ (contains_append_r p _ w Ht)) in H.
  discriminate.
Qed.

(** *** [trim] *)

Lemma trimStart_head (s : string) :
  Str.trimStart s = ""
  \/ exists a t, Str.trimStart s = String a t /\ Chr.is_space a = false.
Proof.
  induction s as [|a s IH]; simpl; [now left|].
  destruct (Chr.is_space a) eqn:Ha; [exact IH|].
  right. now exists a, s.
Qed.

Lemma rev_cons (a : ascii) (s : string) :
  Str.rev (String a s) = Str.rev s ++ String a "".
Proof. exact (rev_append (String a "") s). Qed.

Lemma head_of_append (x y : string) (b : ascii) (u : string) :
  x <> "" -> x ++ y = String b u -> exists t, x = String b t.
Proof.
  destruct x as [|a x]; [congruence|]. simpl. intros _ [= -> _]. eauto.
Qed.

Lemma trim_tight (s : string) : Str.trim s = "" \/ tight (Str.trim s).
Proof.
  unfold Str.trim, Str.trimEnd.
  destruct (trimStart_head (Str.rev (Str.trimStart s)))
    as [->|(a & t & Hv & Ha)]; [now left|].
  right. rewrite Hv. split.
  - destruct (trimStart_suffix (Str.rev (Str.trimStart s))) as [sp Hsp].
    rewrite Hv in Hsp.
    assert (Hu : Str.trimStart s = Str.rev (String a t) ++ Str.rev sp).
    { rewrite <- rev_append, <- Hsp. symmetry. apply rev_involutive. }
    destruct (trimStart_head s) as [He|(b & u & Hb & Hbs)].
    + rewrite He in Hu. rewrite rev_cons in Hu.
      destruct (Str.rev t); discriminate.
    + rewrite Hb in Hu. symmetry in Hu.
      assert (Hne : Str.rev (String a t) <> "")
        by (rewrite rev_cons; destruct (Str.rev t); discriminate).
      destruct (head_of_append _ _ _ _ Hne Hu) as [t' Ht'].
      now exists b, t'.
  - exists a, t. split; [apply rev_involutive|exact Ha].
Qed.

End NormalFacts.

(** ** Region lines in the text returned *)

Module WholeLineFacts.
Import Text Matcher Sanitizer StrFacts ReFacts SanitizerFacts NormalFacts.

Lemma lf_is_space (a : ascii) : is_lf a = true -> Chr.is_space a = true.
Proof. unfold is_lf. intros H. apply Ascii.eqb_eq in H. now subst. Qed.

Lemma emit_small (k : nat) : k < 3 -> emit k = line_feeds k.
Proof.
  intros H. unfold emit. destruct (Nat.leb_spec 3 k); [lia|reflexivity].
Qed.

Lemma emit_two (k : nat) : 2 <= k -> emit k = Str.nl ++ Str.nl.
Proof.
  intros H. unfold emit. destruct (Nat.leb_spec 3 k); [reflexivity|].
  assert (k = 2) as -> by lia. reflexivity.
Qed.

Lemma emit_space (k : nat) : all Chr.is_space (emit k) = true.
Proof.
  unfold emit. destruct (3 <=? k)%nat; [reflexivity|].
  induction k as [|k IH]; [reflexivity|]. simpl. exact IH.
Qed.

Lemma emit_S (k : nat) : exists z, emit (S k) = Str.nl ++ z.
Proof.
  unfold emit. destruct (3 <=? S k)%nat.
  - now exists Str.nl.
  - now exists (line_feeds k).
Qed.

Lemma emit_S_end (k : nat) : exists z, emit (S k) = z ++ Str.nl.
Proof.
  unfold emit. destruct (3 <=? S k)%nat.
  - now exists Str.nl.
  - exists (line_feeds k). induction k as [|k IH]; [reflexivity|].
    cbn [line_feeds append] in *. now rewrite <- IH.
Qed.

(** The run that starts a text *)
Lemma squeeze_first_run (s : string) :
  forall k,
    squeeze k s
    = emit (k + String.length (take_while is_lf s))
      ++ squeeze 0 (drop_while is_lf s).
Proof.
  induction s as [|a t IH]; intros k.
  - cbn [squeeze take_while drop_while String.length].
    now rewrite Nat.add_0_r, append_nil_r.
  - cbn [squeeze take_while drop_while]. destruct (is_lf a) eqn:Ha.
    + rewrite IH. cbn [String.length]. now rewrite Nat.add_succ_r.
    + cbn [String.length squeeze]. rewrite Ha, Nat.add_0_r. reflexivity.
Qed.

(** The pass is the recursion. *)
Lemma collapse_squeeze (n : nat) :
  forall s, String.length s <= n ->
  forall bef,
    replace_all_from no_flags rx_blank_lines (tmpl [T (Str.nl ++ Str.nl)])
      0 bef s
    = squeeze 0 s.
Proof.
  induction n as [|n IH]; intros s Hn bef.
  - destruct s as [|c t]; [|simpl in Hn; lia].
    cbn [replace_all_from]. now rewrite blank_lines_match.
  - destruct s as [|c t].
    + cbn [replace_all_from]. now rewrite blank_lines_match.
    + simpl in Hn. rewrite replace_all_from_0, blank_lines_match.
      destruct (3 <=? String.length (take_while is_lf (String c t)))%nat
        eqn:Hrun.
      * apply Nat.leb_le in Hrun.
        rewrite (squeeze_first_run (String c t) 0). cbn [Nat.add].
        rewrite emit_two by lia.
        destruct (is_lf c) eqn:Hc; cbn [take_while] in Hrun; rewrite Hc in Hrun;
          [|simpl in Hrun; lia].
        rewrite consumed_after
          by (cbn [input]; apply (take_drop_while is_lf (String c t))).
        cbn [take_while drop_while]. rewrite Hc. cbn [String.length].
        rewrite EscapeFacts.tmpl_text.
        replace (replace_all_from no_flags rx_blank_lines
                   (tmpl [T (Str.nl ++ Str.nl)])
                   (String.length (take_while is_lf t)) (Some c) t)
          with (replace_all_from no_flags rx_blank_lines
                  (tmpl [T (Str.nl ++ Str.nl)])
                  (String.length (take_while is_lf t)) (Some c)
                  (take_while is_lf t ++ drop_while is_lf t))
          by (now rewrite <- take_drop_while).
        rewrite replace_all_skip.
        rewrite IH by (pose proof (length_drop_while is_lf t); lia).
        reflexivity.
      * apply Nat.leb_gt in Hrun. rewrite IH by lia.
        cbn [squeeze]. destruct (is_lf c) eqn:Hc; [|reflexivity].
        cbn [take_while] in Hrun. rewrite Hc in Hrun.
        cbn [String.length] in Hrun.
        rewrite (squeeze_first_run t 1), (squeeze_first_run t 0). cbn [Nat.add].
        rewrite !emit_small by lia.
        unfold is_lf in Hc. apply Ascii.eqb_eq in Hc. subst c. reflexivity.
Qed.

Lemma collapse_is_squeeze (s : string) :
  collapse_blank_lines s = squeeze 0 s.
Proof.
  unfold collapse_blank_lines, replace_all.
  apply (collapse_squeeze (String.length s)). apply Nat.le_refl.
Qed.

Lemma squeeze_space (s : string) :
  forall k, all Chr.is_space (squeeze k s) = all Chr.is_space s.
Proof.
  induction s as [|a t IH]; intros k; cbn [squeeze all].
  - apply emit_space.
  - destruct (is_lf a) eqn:Ha.
    + now rewrite IH, (lf_is_space a Ha).
    + rewrite all_append, emit_space. cbn [all andb]. now rewrite IH.
Qed.

(** A character that is no line feed stops every run. *)
Lemma squeeze_split (x : string) (c : ascii) (t : string) :
  is_lf c = false ->
  forall k, squeeze k (x ++ String c t) = squeeze k x ++ String c (squeeze 0 t).
Proof.
  intros Hc. induction x as [|a x IH]; intros k; cbn [append squeeze].
  - now rewrite Hc.
  - destruct (is_lf a); [apply IH|].
    now rewrite IH, append_assoc.
Qed.

Lemma squeeze_line (l q : string) :
  no_newline l -> squeeze 0 (l ++ q) = l ++ squeeze 0 q.
Proof.
  unfold no_newline. induction l as [|c l IH]; intros H; [reflexivity|].
  cbn [all] in H. apply andb_true_iff in H. destruct H as [Hc Hl].
  apply negb_true_iff in Hc. cbn [append squeeze]. rewrite Hc.
  cbn [emit Nat.leb line_feeds append]. now rewrite IH.
Qed.

Lemma squeeze_ends (x : string) :
  forall k, exists z, squeeze k (x ++ Str.nl) = z ++ Str.nl.
Proof.
  induction x as [|a x IH]; intros k.
  - cbn [append Str.nl squeeze].
    change (is_lf (ascii_of_nat 10)) with true. cbv iota.
    cbn [squeeze]. apply emit_S_end.
  - cbn [append squeeze]. destruct (is_lf a); [apply IH|].
    destruct (IH 0) as [z Hz]. exists (emit k ++ String a z).
    rewrite Hz, append_assoc. reflexivity.
Qed.

Lemma squeeze_starts (s : string) :
  forall k, exists z, squeeze (S k) s = Str.nl ++ z.
Proof.
  induction s as [|a s IH]; intros k; cbn [squeeze].
  - apply emit_S.
  - destruct (is_lf a); [apply IH|].
    destruct (emit_S k) as [z Hz]. exists (z ++ String a (squeeze 0 s)).
    rewrite Hz. now rewrite append_assoc.
Qed.

(** Around a line that is not empty *)
Lemma squeeze_around (x l q : string) :
  no_newline l -> l <> "" ->
  squeeze 0 (x ++ l ++ q) = squeeze 0 x ++ l ++ squeeze 0 q.
Proof.
  intros Hl Hne. destruct l as [|c l]; [congruence|].
  assert (Hc : is_lf c = false).
  { unfold no_newline in Hl. cbn [all] in Hl. apply andb_true_iff in Hl.
    now apply negb_true_iff. }
  cbn [append]. rewrite squeeze_split by exact Hc.
  change (String c (squeeze 0 (l ++ q))) with (String c "" ++ squeeze 0 (l ++ q)).
  rewrite squeeze_line.
  - reflexivity.
  - unfold no_newline in *. cbn [all] in Hl. apply andb_true_iff in Hl.
    apply Hl.
Qed.

(** Around an empty line between two line feeds *)
Lemma squeeze_from_two (s : string) :
  forall k, 2 <= k ->
    exists z, squeeze k s = Str.nl ++ Str.nl ++ z
              /\ all Chr.is_space z = all Chr.is_space s.
Proof.
  induction s as [|a s IH]; intros k Hk; cbn [squeeze].
  - exists "". now rewrite (emit_two k Hk).
  - destruct (is_lf a) eqn:Ha.
    + destruct (IH (S k) ltac:(lia)) as (z & Hz & Hs). exists z.
      split; [exact Hz|]. cbn [all]. now rewrite (lf_is_space a Ha).
    + exists (String a (squeeze 0 s)). rewrite (emit_two k Hk).
      split; [reflexivity|]. cbn [all]. now rewrite squeeze_space.
Qed.

Lemma squeeze_empty_line (x q : string) :
  forall k,
    exists y z,
      squeeze k (x ++ Str.nl ++ Str.nl ++ q) = y ++ Str.nl ++ Str.nl ++ z
      /\ all Chr.is_space y = all Chr.is_space x
      /\ all Chr.is_space z = all Chr.is_space q.
Proof.
  induction x as [|a x IH]; intros k.
  - cbn [append Str.nl squeeze].
    change (is_lf (ascii_of_nat 10)) with true. cbv iota.
    destruct (squeeze_from_two q (S (S k)) ltac:(lia)) as (z & Hz & Hs).
    exists "", z. split; [exact Hz|]. split; [reflexivity|exact Hs].
  - cbn [append squeeze]. destruct (is_lf a) eqn:Ha.
    + destruct (IH (S k)) as (y & z & Hy & Hsy & Hsz). exists y, z.
      split; [exact Hy|]. split; [|exact Hsz].
      cbn [all]. now rewrite (lf_is_space a Ha).
    + destruct (IH 0) as (y & z & Hy & Hsy & Hsz).
      exists (emit k ++ String a y), z. rewrite Hy. split.
      * now rewrite append_assoc.
      * split; [|exact Hsz].
        rewrite all_append, emit_space. cbn [all andb]. now rewrite Hsy.
Qed.

(** [trim] and what it cuts *)
Lemma trimStart_app (a b : string) :
  Str.trimStart (a ++ b)
  = if all Chr.is_space a then Str.trimStart b else Str.trimStart a ++ b.
Proof.
  induction a as [|c a IH]; [reflexivity|].
  cbn [append Str.trimStart all]. destruct (Chr.is_space c); [exact IH|].
  reflexivity.
Qed.

Lemma all_rev_onto (p : ascii -> bool) (s : string) :
  forall acc, all p (Str.rev_onto s acc) = all p s && all p acc.
Proof.
  induction s as [|c s IH]; intros acc; [reflexivity|].
  cbn [Str.rev_onto all]. rewrite IH. cbn [all].
  destruct (p c); [reflexivity|]. cbn [andb]. apply andb_false_r.
Qed.

Lemma all_rev (p : ascii -> bool) (s : string) :
  all p (Str.rev s) = all p s.
Proof. unfold Str.rev. rewrite all_rev_onto. cbn [all]. apply andb_true_r. Qed.

Lemma trimEnd_app (a b : string) :
  Str.trimEnd (a ++ b)
  = if all Chr.is_space b then Str.trimEnd a else a ++ Str.trimEnd b.
Proof.
  unfold Str.trimEnd. rewrite rev_append, trimStart_app, all_rev.
  destruct (all Chr.is_space b); [reflexivity|].
  now rewrite rev_append, rev_involutive.
Qed.

Lemma trimStart_text (s : string) :
  all Chr.is_space s = false -> all Chr.is_space (Str.trimStart s) = false.
Proof.
  induction s as [|c s IH]; [discriminate|].
  cbn [all Str.trimStart]. destruct (Chr.is_space c) eqn:Hc; [exact IH|].
  intros _. cbn [all]. now rewrite Hc.
Qed.

Lemma join_around (l : list string) :
  forall i x,
    nth_error l i = Some x ->
    Str.join Str.nl l = joined_before i l ++ x ++ joined_after i l.
Proof.
  unfold joined_before, joined_after.
  induction l as [|y l IH]; intros i x H; [now destruct i|].
  destruct i as [|i].
  - injection H as ->. cbn [firstn skipn append].
    destruct l as [|z l]; [now rewrite append_nil_r|reflexivity].
  - cbn [nth_error] in H. cbn [firstn skipn].
    specialize (IH i x H).
    destruct l as [|z l]; [now destruct i|].
    change (Str.join Str.nl (y :: z :: l))
      with (y ++ Str.nl ++ Str.join Str.nl (z :: l)).
    rewrite IH.
    destruct (firstn i (z :: l)) as [|f fs] eqn:Hf.
    + cbn [append Str.join]. now rewrite append_assoc.
    + change (Str.join Str.nl (y :: f :: fs))
        with (y ++ Str.nl ++ Str.join Str.nl (f :: fs)).
      now rewrite !append_assoc.
Qed.

Lemma join_space (l : list string) :
  all Chr.is_space (Str.join Str.nl l) = forallb (all Chr.is_space) l.
Proof.
  induction l as [|x l IH]; [reflexivity|].
  destruct l as [|y l].
  - cbn [Str.join forallb]. now rewrite andb_true_r.
  - change (Str.join Str.nl (x :: y :: l))
      with (x ++ Str.nl ++ Str.join Str.nl (y :: l)).
    rewrite !all_append, IH. reflexivity.
Qed.

Lemma forallb_space (l : list string) :
  forallb (all Chr.is_space) l = negb (existsb has_text l).
Proof.
  induction l as [|x l IH]; [reflexivity|].
  cbn [forallb existsb]. rewrite IH. unfold has_text.
  now destruct (all Chr.is_space x), (existsb _ l).
Qed.

Lemma before_space (i : nat) (l : list string) :
  all Chr.is_space (joined_before i l) = negb (text_before i l).
Proof.
  unfold joined_before, text_before.
  destruct (firstn i l) as [|f fs]; [reflexivity|].
  rewrite all_append, join_space, forallb_space. cbn [all Str.nl].
  apply andb_true_r.
Qed.

Lemma after_space (i : nat) (l : list string) :
  all Chr.is_space (joined_after i l) = negb (text_after i l).
Proof.
  unfold joined_after, text_after.
  destruct (skipn (S i) l) as [|f fs]; [reflexivity|].
  rewrite all_append, join_space, forallb_space. reflexivity.
Qed.

Lemma before_ends (i : nat) (l : list string) :
  text_before i l = true -> exists p, joined_before i l = p ++ Str.nl.
Proof.
  unfold joined_before, text_before.
  destruct (firstn i l) as [|f fs]; [discriminate|]. intros _.
  now eexists.
Qed.

Lemma after_starts (i : nat) (l : list string) :
  text_after i l = true -> exists q, joined_after i l = Str.nl ++ q.
Proof.
  unfold joined_after, text_after.
  destruct (skipn (S i) l) as [|f fs]; [discriminate|]. intros _.
  now eexists.
Qed.

Lemma trimStart_past (a b : string) :
  all Chr.is_space a = false -> Str.trimStart (a ++ b) = Str.trimStart a ++ b.
Proof. intros H. now rewrite trimStart_app, H. Qed.

Lemma trimStart_over (a b : string) :
  all Chr.is_space a = true -> Str.trimStart (a ++ b) = Str.trimStart b.
Proof. intros H. now rewrite trimStart_app, H. Qed.

Lemma trimEnd_past (a b : string) :
  all Chr.is_space b = false -> Str.trimEnd (a ++ b) = a ++ Str.trimEnd b.
Proof. intros H. now rewrite trimEnd_app, H. Qed.

Lemma trimEnd_over (a b : string) :
  all Chr.is_space b = true -> Str.trimEnd (a ++ b) = Str.trimEnd a.
Proof. intros H. now rewrite trimEnd_app, H. Qed.

Lemma text_after_nl (z : string) :
  all Chr.is_space z = false -> all Chr.is_space (Str.nl ++ z) = false.
Proof. intros H. exact H. Qed.

Lemma text_before_nl (z : string) :
  all Chr.is_space z = false -> all Chr.is_space (z ++ Str.nl) = false.
Proof. intros H. now rewrite all_append, H. Qed.

(** A line in the joined, collapsed and trimmed text *)
Lemma whole_line (i : nat) (output : list string) (line : string) :
  nth_error output i = Some line ->
  no_newline line ->
  has_text line = true
  \/ (text_before i output = true /\ text_after i output = true) ->
  exists pre post,
    Str.trim (collapse_blank_lines (Str.join Str.nl output))
    = pre ++ as_returned (text_before i output) (text_after i output) line
      ++ post
    /\ (text_before i output = false -> pre = "")
    /\ (text_after i output = false -> post = "").
Proof.
  intros Hnth Hline Hcase.
  rewrite (join_around output i line Hnth), collapse_is_squeeze.
  pose proof (before_space i output) as Hb.
  pose proof (after_space i output) as Ha.
  pose proof (before_ends i output) as Hbe.
  pose proof (after_starts i output) as Has.
  destruct line as [|c l].
  - (* an empty line, between two lines with text *)
    destruct Hcase as [Hcase|[Hb1 Ha1]]; [discriminate|].
    rewrite Hb1, Ha1 in *.
    destruct (Hbe eq_refl) as [p Hp]. destruct (Has eq_refl) as [r Hr].
    rewrite Hp in *. rewrite Hr in *. clear Hbe Has.
    cbn [append]. rewrite append_assoc.
    destruct (squeeze_empty_line p r 0) as (y & z & Hy & Hsy & Hsz).
    rewrite Hy. clear Hy.
    assert (Hz : all Chr.is_space z = false) by (rewrite Hsz; exact Ha).
    assert (Hyt : all Chr.is_space y = false).
    { rewrite Hsy. rewrite all_append in Hb. cbn [all Str.nl negb] in Hb.
      now rewrite andb_true_r in Hb. }
    unfold Str.trim. rewrite (trimStart_past _ _ Hyt).
    rewrite (trimEnd_past _ _ (text_after_nl _ (text_after_nl _ Hz))).
    rewrite (trimEnd_past _ _ (text_after_nl _ Hz)).
    rewrite (trimEnd_past _ _ Hz).
    exists (Str.trimStart y), (Str.trimEnd z).
    unfold as_returned. cbn [append]. split; [reflexivity|].
    split; discriminate.
  - (* a line with a character *)
    set (l0 := String c l) in *.
    rewrite squeeze_around by (assumption || discriminate).
    pose proof (squeeze_space (joined_before i output) 0) as Hsx.
    rewrite Hb in Hsx.
    pose proof (squeeze_space (joined_after i output) 0) as Hsq.
    rewrite Ha in Hsq.
    assert (Hxe : text_before i output = true ->
                  exists z, squeeze 0 (joined_before i output) = z ++ Str.nl
                            /\ all Chr.is_space z = false).
    { intros Hb1. destruct (Hbe Hb1) as [p Hp].
      destruct (squeeze_ends p 0) as [z Hz]. exists z.
      rewrite Hp, Hz in *. split; [reflexivity|].
      rewrite all_append, Hb1 in Hsx. cbn [all Str.nl negb] in Hsx.
      now rewrite andb_true_r in Hsx. }
    assert (Hqs : text_after i output = true ->
                  exists z, squeeze 0 (joined_after i output) = Str.nl ++ z
                            /\ all Chr.is_space z = false).
    { intros Ha1. destruct (Has Ha1) as [r Hr].
      rewrite Hr in *.
      change (squeeze 0 (Str.nl ++ r)) with (squeeze 1 r) in *.
      destruct (squeeze_starts r 0) as [z Hz]. exists z.
      rewrite Hz in *. split; [reflexivity|].
      rewrite Ha1 in Hsq. exact Hsq. }
    clear Hb Ha Hbe Has.
    unfold Str.trim, as_returned.
    destruct (text_before i output); destruct (text_after i output);
      cbn [negb] in Hsx, Hsq.
    + destruct (Hxe eq_refl) as (z & Hz & Hzt).
      destruct (Hqs eq_refl) as (w & Hw & Hwt).
      rewrite Hz, Hw. clear Hxe Hqs Hz Hw Hsx Hsq.
      rewrite !append_assoc.
      rewrite (trimStart_past z _ Hzt).
      rewrite <- !append_assoc.
      rewrite (trimEnd_past _ w Hwt).
      exists (Str.trimStart z), (Str.trimEnd w).
      split; [now rewrite !append_assoc|]. split; discriminate.
    + destruct (Hxe eq_refl) as (z & Hz & Hzt).
      rewrite Hz. clear Hxe Hqs Hz Hsx.
      destruct Hcase as [Ht|[_ Hf]]; [|discriminate].
      unfold has_text in Ht. apply negb_true_iff in Ht.
      rewrite !append_assoc.
      rewrite (trimStart_past z _ Hzt).
      rewrite <- !append_assoc.
      rewrite (trimEnd_over _ _ Hsq).
      rewrite (trimEnd_past _ l0 Ht).
      exists (Str.trimStart z), "".
      split; [now rewrite !append_assoc, append_nil_r|].
      split; [discriminate|reflexivity].
    + destruct (Hqs eq_refl) as (w & Hw & Hwt).
      rewrite Hw. clear Hxe Hqs Hw Hsq.
      destruct Hcase as [Ht|[Hf _]]; [|discriminate].
      unfold has_text in Ht. apply negb_true_iff in Ht.
      rewrite (trimStart_over _ _ Hsx).
      rewrite (trimStart_past l0 _ Ht).
      rewrite <- !append_assoc.
      rewrite (trimEnd_past _ w Hwt).
      exists "", (Str.trimEnd w). cbn [append].
      split; [now rewrite !append_assoc|].
      split; [reflexivity|discriminate].
    + clear Hxe Hqs.
      destruct Hcase as [Ht|[Hf _]]; [|discriminate].
      unfold has_text in Ht. apply negb_true_iff in Ht.
      rewrite (trimStart_over _ _ Hsx).
      rewrite (trimStart_past l0 _ Ht).
      rewrite (trimEnd_over _ _ Hsq).
      exists "", "". cbn [append]. rewrite !append_nil_r.
      split; [reflexivity|]. split; reflexivity.
Qed.

End WholeLineFacts.

(** C1 as stated fails twice: a scheme that is followed by white space is
    no match of the URL pattern and stays in a rewritten line, and the
    final [trim] removes the white space that ends a region line at the end
    of the text. *)
Lemma region_policy_counterexample :
  Sanitizer.region false (lines_of doc_bare_scheme) = [false]
  /\ Str.contains "https://example.com" doc_bare_scheme = true
  /\ stripLinksExceptRecommendedResources doc_bare_scheme
     = "Use http:// or https:// prefixes, e.g."
  /\ Str.contains "http://"
       (stripLinksExceptRecommendedResources doc_bare_scheme) = true
  /\ Sanitizer.region false (lines_of doc_trailing_blanks) = [true; true]
  /\ lines_of doc_trailing_blanks
     = ["Recommended Resources"; "- https://a.com  "]
  /\ stripLinksExceptRecommendedResources doc_trailing_blanks
     = "Recommended Resources" ++ Str.nl ++ "- https://a.com"
  /\ Str.contains "- https://a.com  "
       (stripLinksExceptRecommendedResources doc_trailing_blanks) = false.
Proof. repeat split; vm_compute; reflexivity. Qed.

(** C1, amended.  A line outside the [Recommended Resources] regions is
    replaced by [stripLinksFromMarkdown] of it, in which the URL pattern
    [https?:\/\/[^\s)]+] matches nowhere, in any letter case.  A line inside
    a region is pushed to the output as it is, and it stands in the text
    returned as a whole line, byte for byte, between the line feeds that
    join it to its neighbours.  The one exception is what the final [trim]
    cuts: when no line pushed before it holds a character that is no white
    space, the text returned starts with the line, without the white space
    the line starts with; when no line pushed after it holds one, the text
    ends with the line, without the white space it ends with.  (A region
    line of white space only that has no text on one of its sides is cut
    whole; the statement leaves it out.) *)
Theorem sanitizer_region_policy :
  (forall line : string,
     test fl_i rx_url (stripLinksFromMarkdown line) = false)
  /\ (forall (lines : list string) (i : nat) (line : string) (inside : bool),
        nth_error lines i = Some line ->
        nth_error (Sanitizer.region false lines) i = Some inside ->
        nth_error (strip_loop false lines) i
        = Some (if inside then line else stripLinksFromMarkdown line))
  /\ (forall (md : string) (i : nat) (line : string),
        nth_error (lines_of md) i = Some line ->
        nth_error (Sanitizer.region false (lines_of md)) i = Some true ->
        let output := strip_loop false (lines_of md) in
        has_text line = true
        \/ (text_before i output = true /\ text_after i output = true) ->
        exists pre post,
          stripLinksExceptRecommendedResources md
          = pre
            ++ as_returned (text_before i output) (text_after i output) line
            ++ post
          /\ (text_before i output = false -> pre = "")
          /\ (text_after i output = false -> post = "")).
Proof.
  split; [|split].
  - intros line. rewrite SanitizerFacts.test_rx_url.
    apply SanitizerFacts.stripLinksFromMarkdown_no_url.
  - intros lines. apply SanitizerFacts.strip_loop_nth.
  - intros md i line Hl Hr output Hcase.
    destruct md as [|a md].
    + destruct i as [|[|i]]; discriminate.
    + unfold stripLinksExceptRecommendedResources.
      apply WholeLineFacts.whole_line.
      * apply (SanitizerFacts.strip_loop_nth _ false i line true Hl Hr).
      * apply (SanitizerFacts.lines_no_newline (String a md)).
        eapply nth_error_In. eassumption.
      * exact Hcase.
Qed.

Lemma sanitizer_region_policy_witness :
  exists pre post,
    stripLinksExceptRecommendedResources doc_region_indented
    = pre ++ (Str.nl ++ "  - [Docs](https://example.com)  " ++ Str.nl) ++ post.
Proof.
  destruct (proj2 (proj2 sanitizer_region_policy) doc_region_indented 3
              "  - [Docs](https://example.com)  ")
    as (pre & post & H & _).
  - vm_compute. reflexivity.
  - vm_compute. reflexivity.
  - left. vm_compute. reflexivity.
  - exists pre, post. vm_compute in H. vm_compute. exact H.
Defined.



(** X9. What the two sanitizers return is trimmed and holds no two empty
    lines in a row: the text is empty or starts and ends with a character
    that is no white space, and three line feeds in a row occur nowhere in
    it. *)
Theorem sanitized_text_is_normalized (md : string) :
  (Str.contains two_empty_lines (stripLinksFromMarkdown md) = false
   /\ (stripLinksFromMarkdown md = ""
       \/ Text.tight (stripLinksFromMarkdown md)))
  /\ (Str.contains two_empty_lines (stripLinksExceptRecommendedResources md)
      = false
      /\ (stripLinksExceptRecommendedResources md = ""
          \/ Text.tight (stripLinksExceptRecommendedResources md))).
Proof.
  destruct md as [|a md]; [repeat split; now left|].
  unfold stripLinksFromMarkdown, stripLinksExceptRecommendedResources.
  repeat split;
    try apply NormalFacts.trim_tight;
    apply NormalFacts.trim_contains, NormalFacts.runs_no_empty_lines,
      NormalFacts.collapse_runs.
Qed.

(** ** The roadmap the server sends *)

Module ServerFacts.
Import Text StrFacts SanitizerFacts.

Lemma tight_not_empty (s : string) : tight s -> s <> "".
Proof. intros [(a & t & -> & _) _]. discriminate. Qed.

Lemma tight_append (a m b : string) :
  tight a -> tight b -> tight (a ++ m ++ b).
Proof.
  intros [(x & t & -> & Hx) _] [_ (y & u & Hb & Hy)]. split.
  - exists x, (t ++ m ++ b). now split.
  - rewrite !rev_append, Hb. eexists. eexists.
    split; [reflexivity|exact Hy].
Qed.

Lemma trim_or_tight (c : string) :
  Str.trim c <> "" -> tight (Str.trim c).
Proof. intros H. now destruct (NormalFacts.trim_tight c). Qed.

Lemma apology_tight : tight Server.apology.
Proof. split; eexists; eexists; split; vm_compute; reflexivity. Qed.

Lemma first_roadmap_tight (content : option string) :
  tight (Server.first_roadmap content).
Proof.
  unfold Server.first_roadmap. destruct content as [c|]; [|exact apology_tight].
  destruct (Str.trim c) as [|a t] eqn:Hc; [exact apology_tight|].
  rewrite <- Hc. apply trim_or_tight. now rewrite Hc.
Qed.

End ServerFacts.

(** X10. The roadmap sent by [/api/generate-roadmap] is never empty and
    starts and ends with a character that is no white space.  When
    [yt tutorials] does not occur in the first roadmap (the trimmed answer
    of the model, or the apology when there is none) and the second
    completion answers a text that is not white space only, the roadmap
    sent is the first one, an empty line and that text trimmed.  In every
    other case it is the first roadmap alone. *)
Theorem sent_roadmap_shape (content : option string)
    (second : Server.completion) :
  Text.tight (Server.sent_roadmap content second)
  /\ (forall section : string,
        test fl_i Server.rx_yt_tutorials (Server.first_roadmap content)
        = false ->
        second = Server.Answered (Some section) ->
        Str.trim section <> "" ->
        Server.sent_roadmap content second
        = Server.first_roadmap content ++ Str.nl ++ Str.nl
          ++ Str.trim section
        /\ Text.tight (Str.trim section))
  /\ (test fl_i Server.rx_yt_tutorials (Server.first_roadmap content) = true
      \/ second = Server.Threw
      \/ second = Server.Answered None
      \/ (exists section : string,
            second = Server.Answered (Some section)
            /\ Str.trim section = "") ->
      Server.sent_roadmap content second = Server.first_roadmap content).
Proof.
  pose proof (ServerFacts.first_roadmap_tight content) as Hfirst.
  unfold Server.sent_roadmap.
  destruct (test fl_i Server.rx_yt_tutorials (Server.first_roadmap content))
    eqn:Hyt; cbn [negb].
  - split; [exact Hfirst|]. split; [discriminate|reflexivity].
  - unfold Server.generateYTTutorialsFallback. cbn [negb].
    destruct second as [|[section|]].
    + split; [exact Hfirst|]. split; [discriminate|reflexivity].
    + destruct (Str.trim section) as [|a t] eqn:Hs.
      * split; [exact Hfirst|]. split; [|reflexivity].
        intros section' _ [= <-] Hne. now rewrite Hs in Hne.
      * assert (Htight : Text.tight (String a t)).
        { rewrite <- Hs. apply ServerFacts.trim_or_tight. now rewrite Hs. }
        split; [|split].
        -- exact (ServerFacts.tight_append _ (Str.nl ++ Str.nl) _ Hfirst
                    Htight).
        -- intros section' _ [= <-] _. rewrite Hs. split; [reflexivity|].
           exact Htight.
        -- intros [H|[H|[H|(section' & [= <-] & H)]]]; try discriminate.
           rewrite Hs in H. discriminate.
    + split; [exact Hfirst|]. split; [discriminate|reflexivity].
Qed.

(** ** A render that comes too late *)

Module LateFacts.
Import Revealer.

Lemma wake_returned (l : list call) :
  forallb has_returned l = true -> forall i w, wake i l w = (l, w).
Proof.
  induction l as [|k l IH]; intros H i w; [now destruct i|].
  cbn [forallb] in H. apply andb_true_iff in H. destruct H as [Hk Hl].
  destruct i as [|i]; cbn [wake].
  - unfold has_returned in Hk. destruct k as [r j [s rem|b]];
      [discriminate|reflexivity].
  - now rewrite (IH Hl).
Qed.

Lemma turns_returned (evs : list event) :
  forallb is_turn evs = true ->
  forall p, forallb has_returned (calls p) = true -> run_events p evs = p.
Proof.
  induction evs as [|e evs IH]; intros He p Hp; [reflexivity|].
  cbn [forallb] in He. apply andb_true_iff in He. destruct He as [He Hevs].
  destruct e as [| |i]; try discriminate.
  change (run_events p (Wake i :: evs)) with (run_events (step p (Wake i)) evs).
  cbn [step]. rewrite (wake_returned _ Hp).
  destruct p as [w l]. now apply IH.
Qed.

End LateFacts.

(** X11. A call of [renderRoadmapLineByLine] whose [jobId] is not the
    current one empties the display before it reaches its first
    checkpoint, where it returns [false].  When every other call has
    returned, no turn brings the display back. *)
Theorem late_render_empties_display (p : Revealer.page) (roadmap : string)
    (jobId : nat) (evs : list Revealer.event) :
  jobId <> Revealer.renderJobId (Revealer.shared p) ->
  forallb has_returned (Revealer.calls p) = true ->
  forallb is_turn evs = true ->
  Revealer.run_events p (Revealer.Render roadmap jobId :: evs)
  = Revealer.Page
      (Revealer.World (Revealer.renderJobId (Revealer.shared p)) "")
      (Revealer.calls p
       ++ [Revealer.Call roadmap jobId (Revealer.Returned false)])%list.
Proof.
  intros Hjob Hcalls Hevs.
  change (Revealer.run_events p (Revealer.Render roadmap jobId :: evs))
    with (Revealer.run_events
            (Revealer.step p (Revealer.Render roadmap jobId)) evs).
  assert (Hstep : Revealer.step p (Revealer.Render roadmap jobId)
                  = Revealer.Page
                      (Revealer.World
                         (Revealer.renderJobId (Revealer.shared p)) "")
                      (Revealer.calls p
                       ++ [Revealer.Call roadmap jobId
                             (Revealer.Returned false)])%list).
  { unfold Revealer.step, Revealer.renderRoadmapLineByLine.
    destruct (LinesFacts.lines_of_cons roadmap) as (x & l & ->).
    rewrite RevealerFacts.checkpoint_stale by exact Hjob. reflexivity. }
  rewrite Hstep. apply LateFacts.turns_returned; [exact Hevs|].
  cbn [Revealer.calls]. rewrite forallb_app, Hcalls. reflexivity.
Qed.

Lemma late_render_empties_display_witness :
  Revealer.innerHTML (Revealer.shared displayed_page)
  = buildCollapsibleRoadmap ("## Phase 1: One" ++ Str.nl ++ "Duration")
  /\ Revealer.run_events displayed_page
       [Revealer.Render "## Phase 1: Late" 1; Revealer.Wake 1;
        Revealer.Wake 0]
     = Revealer.Page (Revealer.World 2 "")
         [Revealer.Call ("## Phase 1: One" ++ Str.nl ++ "Duration") 2
            (Revealer.Returned true);
          Revealer.Call "## Phase 1: Late" 1 (Revealer.Returned false)].
Proof.
  split; [vm_compute; reflexivity|].
  apply (late_render_empties_display displayed_page "## Phase 1: Late" 1
           [Revealer.Wake 1; Revealer.Wake 0]).
  - vm_compute. discriminate.
  - vm_compute. reflexivity.
  - reflexivity.
Defined.

(** ** Phases with the same number *)

Module SortFacts.

Lemma above_not_same (n : number) (x y z : section) :
  compare_numbers (phaseNumber y) (phaseNumber x) = Gt ->
  ascending y z ->
  same_number n x = true ->
  same_number n z = false.
Proof.
  unfold ascending, same_number.
  destruct (phaseNumber x) as [a|], (phaseNumber y) as [b|],
           (phaseNumber z) as [c|], n as [m|]; simpl;
    try congruence; try reflexivity.
  intros Hgt Hasc Hsame.
  destruct (a ?= m)%Z eqn:Ham; try discriminate.
  apply Z.compare_eq in Ham. apply Z.compare_gt_iff in Hgt.
  destruct (c ?= m)%Z eqn:Hcm; try reflexivity.
  apply Z.compare_eq in Hcm. rewrite Z.compare_gt_iff in Hasc. lia.
Qed.

Lemma filter_above (n : number) (x y : section) (l : list section) :
  compare_numbers (phaseNumber y) (phaseNumber x) = Gt ->
  Forall (ascending y) l ->
  same_number n x = true ->
  filter (same_number n) l = [].
Proof.
  intros Hgt Hl Hx. induction Hl as [|z l Hz Hl IH]; [reflexivity|].
  cbn [filter]. now rewrite (above_not_same n x y z Hgt Hz Hx).
Qed.

Lemma ascending_refl (y : section) : ascending y y.
Proof.
  unfold ascending. destruct (phaseNumber y) as [a|]; simpl; [|congruence].
  now rewrite Z.compare_refl.
Qed.

Lemma insert_section_filter (n : number) (x : section) (l : list section) :
  StronglySorted ascending l ->
  filter (same_number n) (insert_section x l)
  = (filter (same_number n) l
     ++ (if same_number n x then [x] else []))%list.
Proof.
  induction 1 as [|y rest Hs IH Hall]; cbn [insert_section].
  - cbn [filter]. now destruct (same_number n x).
  - destruct (compare_numbers (phaseNumber y) (phaseNumber x)) eqn:Hc.
    + cbn [filter]. rewrite IH. now destruct (same_number n y).
    + cbn [filter]. rewrite IH. now destruct (same_number n y).
    + destruct (same_number n x) eqn:Hx.
      * change (filter (same_number n) (x :: y :: rest))
          with (if same_number n x
                then x :: filter (same_number n) (y :: rest)
                else filter (same_number n) (y :: rest)).
        rewrite Hx.
        now rewrite (filter_above n x y (y :: rest) Hc
                       (Forall_cons _ (ascending_refl y) Hall) Hx).
      * change (filter (same_number n) (x :: y :: rest))
          with (if same_number n x
                then x :: filter (same_number n) (y :: rest)
                else filter (same_number n) (y :: rest)).
        rewrite Hx. now rewrite app_nil_r.
Qed.

Lemma insert_section_strongly (x : section) (l : list section) :
  StronglySorted ascending l -> StronglySorted ascending (insert_section x l).
Proof.
  intros H. apply Sorted_StronglySorted.
  - intros a b c. apply ascending_trans.
  - apply insert_section_sorted. now apply StronglySorted_Sorted.
Qed.

Lemma sort_fold_filter (n : number) (l : list section) :
  forall acc, StronglySorted ascending acc ->
    filter (same_number n) (fold_left (fun acc x => insert_section x acc) l acc)
    = (filter (same_number n) acc ++ filter (same_number n) l)%list.
Proof.
  induction l as [|x rest IH]; intros acc Hacc; cbn [fold_left].
  - now rewrite app_nil_r.
  - rewrite IH by now apply insert_section_strongly.
    rewrite insert_section_filter by exact Hacc.
    rewrite <- app_assoc. cbn [filter].
    now destruct (same_number n x).
Qed.

End SortFacts.

(** X12. The sort of the phases is stable: the phases that carry the same
    number stand in the blocks in the order they have in the document. *)
Theorem phases_with_same_number_keep_order (introLines : list string)
    (sections : list section) (n : number) :
  filter (same_number n) (phaseSections (layout_of introLines sections))
  = filter (same_number n) (filter (has_type "phase") sections).
Proof.
  cbn [layout_of phaseSections]. unfold sort_by_phaseNumber.
  now rewrite SortFacts.sort_fold_filter by constructor.
Qed.

(** ** Plain lines *)

Module PlainFacts.
Import Text Matcher StrFacts ReFacts.

Lemma letter (a : ascii) :
  Chr.is_alpha a = true ->
  Chr.is_space a = false
  /\ Chr.is_digit a = false
  /\ char_eq fl_im "#" a = false
  /\ char_eq fl_im "<" a = false
  /\ existsb (Ascii.eqb a) (list_ascii_of_string "-*") = false
  /\ escape_char a = String a "".
Proof.
  destruct a as [[] [] [] [] [] [] [] []]; vm_compute; intros H;
    try discriminate H; repeat split.
Qed.

Lemma quiet_char (c : ascii) :
  quiet c = true ->
  char_eq fl_im "*" c = false
  /\ char_eq fl_im "<" c = false
  /\ Chr.dot c = true
  /\ Chr.is_line_terminator c = false.
Proof.
  destruct c as [[] [] [] [] [] [] [] []]; vm_compute; intros H;
    try discriminate H; repeat split.
Qed.

Lemma escape_quiet (c : ascii) :
  plain_char c = true -> all quiet (escape_char c) = true.
Proof.
  destruct c as [[] [] [] [] [] [] [] []]; vm_compute; intros H;
    try discriminate H; reflexivity.
Qed.

Lemma escaped_quiet (s : string) :
  all plain_char s = true -> all quiet (expand escape_char s) = true.
Proof.
  induction s as [|c s IH]; [reflexivity|]. simpl. intros H.
  apply andb_true_iff in H. destruct H as [Hc Hs].
  now rewrite all_append, (escape_quiet c Hc), IH.
Qed.

Lemma inside_line_next (bef : option ascii) (c : ascii) (t : string) :
  inside_line bef (String c t) -> inside_line (Some c) t.
Proof.
  intros [_ H]. simpl in H. apply andb_true_iff in H. destruct H as [Hc Ht].
  split; [|exact Ht]. now destruct (quiet_char c Hc) as (_ & _ & _ & ?).
Qed.

(** A pattern that matches nowhere in the line leaves it as it is. *)
Lemma untouched (fl : flags) (r : regex) (by_ : replacement) :
  (forall bef s, inside_line bef s -> match_at fl r (MState bef s []) = None) ->
  forall s bef, inside_line bef s -> replace_all_from fl r by_ 0 bef s = s.
Proof.
  intros Hno s. induction s as [|c t IH]; intros bef Hs;
    cbn [replace_all_from]; rewrite (Hno _ _ Hs); [reflexivity|].
  now rewrite (IH _ (inside_line_next _ _ _ Hs)).
Qed.

Lemma replace_all_inside (fl : flags) (r : regex) (by_ : replacement)
    (s : string) :
  (forall bef s, inside_line bef s -> match_at fl r (MState bef s []) = None) ->
  inside_line None s -> replace_all fl r by_ s = s.
Proof. intros Hno Hs. now apply untouched. Qed.

(** Only the start of the line is a start of line. *)
Lemma bol_inside (c : ascii) (s : string) (cs : list (nat * string)) :
  inside_line (Some c) s -> at_bol fl_im (MState (Some c) s cs) = false.
Proof. intros [Hc _]. unfold at_bol. cbn [before multiline fl_im]. now rewrite Hc. Qed.

Lemma heading_inside (hashes : string) :
  forall bef s, inside_line bef s ->
    match_at fl_im (rx_heading (String "#" hashes)) (MState bef s []) = None.
Proof.
  intros bef s Hs. unfold match_at, rx_heading.
  change (cat [Bol; lit (String "#" hashes); Char " "; rest_of_line])
    with (Seq Bol (Seq (lit (String "#" hashes))
                     (Seq (Char " ") rest_of_line))).
  cbn [rmatch]. destruct bef as [c|]; [now rewrite (bol_inside c s [] Hs)|].
  cbn [at_bol before]. rewrite rmatch_lit. cbn [lit_state input].
  destruct Hs as [(a & t & -> & Ha) _].
  destruct (letter a Ha) as (_ & _ & -> & _). reflexivity.
Qed.

Lemma emphasis_inside (stars : string) :
  forall bef s, inside_line bef s ->
    match_at fl_im (rx_emphasis (String "*" stars)) (MState bef s []) = None.
Proof.
  intros bef s [_ Hs]. unfold match_at, rx_emphasis.
  change (cat [lit (String "*" stars); Group 1 (PlusLazy Any);
               lit (String "*" stars)])
    with (Seq (lit (String "*" stars))
            (Seq (Group 1 (PlusLazy Any)) (lit (String "*" stars)))).
  cbn [rmatch]. rewrite rmatch_lit. cbn [lit_state input].
  destruct s as [|c t]; [reflexivity|].
  simpl in Hs. apply andb_true_iff in Hs. destruct Hs as [Hc _].
  destruct (quiet_char c Hc) as (-> & _). reflexivity.
Qed.

Lemma list_items_inside :
  forall bef s, inside_line bef s ->
    match_at fl_im rx_list_items (MState bef s []) = None.
Proof.
  intros bef s [_ Hs]. unfold match_at, rx_list_items.
  change (cat [lit "<li>"; Star Any; lit "</li>"])
    with (Seq (lit "<li>") (Seq (Star Any) (lit "</li>"))).
  cbn [rmatch]. rewrite rmatch_lit. cbn [lit_state input].
  destruct s as [|c t]; [reflexivity|].
  simpl in Hs. apply andb_true_iff in Hs. destruct Hs as [Hc _].
  destruct (quiet_char c Hc) as (_ & -> & _). reflexivity.
Qed.

(** [p*] before a character that is not of the class [p] *)
Lemma star_class_skip (fl : flags) (p : ascii -> bool) (k : cont)
    (x : mstate) (a : ascii) (t : string) :
  input x = String a t -> p a = false ->
  rmatch fl (Star (Class p)) k x = k x.
Proof.
  intros Hx Ha. unfold Star. cbn [rmatch]. rewrite repeat_matcher_S.
  cbv zeta. cbn [hi_is_zero Nat.eqb negb andb rmatch]. now rewrite Hx, Ha.
Qed.

(** [p+] before a character that is not of the class [p] *)
Lemma plus_class_stop (fl : flags) (p : ascii -> bool) (k : cont)
    (x : mstate) (a : ascii) (t : string) :
  input x = String a t -> p a = false ->
  rmatch fl (Plus (Class p)) k x = None.
Proof.
  intros Hx Ha. unfold Plus. cbn [rmatch]. rewrite repeat_matcher_S.
  cbv zeta. cbn [hi_is_zero Nat.eqb negb andb rmatch]. now rewrite Hx, Ha.
Qed.

Lemma bullet_inside :
  forall bef s, inside_line bef s ->
    match_at fl_im rx_bullet (MState bef s []) = None.
Proof.
  intros bef s Hs. unfold match_at, rx_bullet.
  change (cat [Bol; Star Space; OneOf "-*"; Char " "; rest_of_line])
    with (Seq Bol (Seq (Star Space)
                     (Seq (OneOf "-*") (Seq (Char " ") rest_of_line)))).
  cbn [rmatch]. destruct bef as [c|]; [now rewrite (bol_inside c s [] Hs)|].
  cbn [at_bol before]. destruct Hs as [(a & t & -> & Ha) _].
  destruct (letter a Ha) as (Hsp & _ & _ & _ & Hb & _).
  unfold Space. rewrite (star_class_skip fl_im Chr.is_space _
             (MState None (String a t) []) a t eq_refl Hsp).
  unfold OneOf. cbn [rmatch input]. now rewrite Hb.
Qed.

Lemma numbered_inside :
  forall bef s, inside_line bef s ->
    match_at fl_im rx_numbered (MState bef s []) = None.
Proof.
  intros bef s Hs. unfold match_at, rx_numbered.
  change (cat [Bol; Star Space; Plus Digit; Char "."; Plus Space;
               rest_of_line])
    with (Seq Bol (Seq (Star Space)
                     (Seq (Plus Digit)
                        (Seq (Char ".") (Seq (Plus Space) rest_of_line))))).
  cbn [rmatch]. destruct bef as [c|]; [now rewrite (bol_inside c s [] Hs)|].
  cbn [at_bol before]. destruct Hs as [(a & t & -> & Ha) _].
  destruct (letter a Ha) as (Hsp & Hd & _).
  unfold Space. rewrite (star_class_skip fl_im Chr.is_space _
             (MState None (String a t) []) a t eq_refl Hsp).
  unfold Digit. cbv beta.
  apply (plus_class_stop fl_im Chr.is_digit _
           (MState None (String a t) []) a t eq_refl Hd).
Qed.

(** The greedy loop over a text that is of the class to its end *)
Lemma repeat_class_all (fl : flags) (p : ascii -> bool) (k : cont)
    (fuel : nat) :
  forall lo x z,
    lo + len x < fuel ->
    all p (input x) = true ->
    lo <= len x ->
    k (after (input x) "" x) = Some z ->
    repeat_matcher (rmatch fl (Class p)) k true fuel lo None x = Some z.
Proof.
  induction fuel as [|fuel IH]; intros lo x z Hf Hall Hlo Hk; [lia|].
  rewrite repeat_matcher_S. cbv zeta. cbn [hi_is_zero dec_hi rmatch].
  unfold len in *.
  destruct (input x) as [|a t] eqn:Hx.
  - simpl in Hlo. assert (lo = 0) by lia. subst lo. cbn [Nat.eqb negb].
    replace (after "" "" x) with x in Hk
      by (destruct x; simpl in Hx; now subst).
    exact Hk.
  - simpl in Hall. apply andb_true_iff in Hall. destruct Hall as [Ha Ht].
    rewrite Ha. cbn [advance input String.length].
    rewrite length_neq_S, andb_false_r.
    assert (Hrec : repeat_matcher (rmatch fl (Class p)) k true fuel (pred lo)
                     None (advance a t x) = Some z).
    { apply IH; cbn [advance input]; simpl in *; try lia; [exact Ht|].
      now rewrite after_advance. }
    destruct (negb (lo =? 0)%nat); [exact Hrec|].
    change (match repeat_matcher (rmatch fl (Class p)) k true fuel (pred lo)
                    None (advance a t x) with
            | Some z0 => Some z0
            | None => k x
            end = Some z).
    now rewrite Hrec.
Qed.

Lemma last_inside (t : string) :
  forall c, Chr.is_line_terminator c = false -> all quiet t = true ->
    exists c', last_of t (Some c) = Some c'
               /\ Chr.is_line_terminator c' = false.
Proof.
  induction t as [|b t IH]; intros c Hc Ht; [now exists c|].
  simpl in Ht. apply andb_true_iff in Ht. destruct Ht as [Hb Ht].
  cbn [last_of]. apply IH; [|exact Ht].
  now destruct (quiet_char b Hb) as (_ & _ & _ & ?).
Qed.

Lemma take_all (s : string) : Str.take (String.length s) s = s.
Proof. induction s as [|a s IH]; simpl; [reflexivity|now rewrite IH]. Qed.

Lemma quiet_dot (s : string) : all quiet s = true -> all Chr.dot s = true.
Proof.
  induction s as [|c s IH]; [reflexivity|]. simpl. intros H.
  apply andb_true_iff in H. destruct H as [Hc Hs].
  destruct (quiet_char c Hc) as (_ & _ & -> & _). now apply IH.
Qed.

(** The paragraph pattern takes the whole line. *)
Lemma paragraph_match (a : ascii) (t : string) :
  Chr.is_alpha a = true -> all quiet (String a t) = true ->
  match_at fl_im rx_paragraph (MState None (String a t) [])
  = Some (MState (last_of t (Some a)) "" [(1, String a t)]).
Proof.
  intros Ha Hq. unfold match_at, rx_paragraph.
  match goal with
  | |- rmatch _ (cat [Bol; Star Space; ?n; ?g; Eol]) _ _ = _ =>
    change (cat [Bol; Star Space; n; g; Eol])
      with (Seq Bol (Seq (Star Space) (Seq n (Seq g Eol))))
  end.
  cbn [rmatch at_bol before].
  destruct (letter a Ha) as (Hsp & _ & _ & Hlt & _).
  unfold Space. rewrite (star_class_skip fl_im Chr.is_space _
             (MState None (String a t) []) a t eq_refl Hsp).
  cbn [alts cat rmatch]. rewrite !rmatch_lit. cbn [lit_state input].
  rewrite Hlt.
  change (repeat_matcher (rmatch fl_im (Class Chr.dot))
            (fun y =>
               if at_eol fl_im
                    (set_cap 1 (consumed (MState None (String a t) []) y) y)
               then Some (set_cap 1
                            (consumed (MState None (String a t) []) y) y)
               else None)
            true (S (1 + String.length (String a t))) 1 None
            (MState None (String a t) [])
          = Some (MState (last_of t (Some a)) "" [(1, String a t)])).
  apply repeat_class_all.
  - unfold len. simpl. lia.
  - exact (quiet_dot _ Hq).
  - unfold len. simpl. lia.
  - unfold after, set_cap, consumed, at_eol.
    cbn [input before caps String.length last_of].
    rewrite Nat.sub_0_r.
    change (S (String.length t)) with (String.length (String a t)).
    now rewrite take_all.
Qed.

Lemma paragraph_line (a : ascii) (t : string) :
  Chr.is_alpha a = true -> all quiet (String a t) = true ->
  replace_all fl_im rx_paragraph (tmpl [T "<p>"; G 1; T "</p>"]) (String a t)
  = "<p>" ++ String a t ++ "</p>".
Proof.
  intros Ha Hq. unfold replace_all.
  rewrite NormalFacts.replace_all_from_0, (paragraph_match a t Ha Hq).
  unfold consumed. cbn [input String.length]. rewrite Nat.sub_0_r.
  change (S (String.length t)) with (String.length (String a t)).
  rewrite take_all. cbn [String.length].
  replace (replace_all_from fl_im rx_paragraph
             (tmpl [T "<p>"; G 1; T "</p>"]) (String.length t) (Some a) t)
    with (replace_all_from fl_im rx_paragraph
            (tmpl [T "<p>"; G 1; T "</p>"]) (String.length t) (Some a)
            (t ++ ""))
    by (now rewrite append_nil_r).
  rewrite NormalFacts.replace_all_skip.
  simpl in Hq. apply andb_true_iff in Hq. destruct Hq as [Hqa Hqt].
  destruct (quiet_char a Hqa) as (_ & _ & _ & Hterm).
  destruct (last_inside t a Hterm Hqt) as (c' & -> & Hc').
  cbn [replace_all_from].
  assert (Hend : match_at fl_im rx_paragraph (MState (Some c') "" []) = None).
  { unfold match_at, rx_paragraph.
    match goal with
    | |- rmatch _ (cat [Bol; Star Space; ?n; ?g; Eol]) _ _ = _ =>
      change (cat [Bol; Star Space; n; g; Eol])
        with (Seq Bol (Seq (Star Space) (Seq n (Seq g Eol))))
    end.
    cbn [rmatch at_bol before multiline fl_im]. now rewrite Hc'. }
  rewrite Hend. unfold group. cbn [tmpl caps lookup_cap Nat.eqb].
  now rewrite !append_nil_r.
Qed.

End PlainFacts.

(** X13. A text of one line that starts with a letter and holds no
    asterisk is rendered as one paragraph around the escaped text: no
    heading, emphasis or list pattern touches it. *)
Theorem plain_line_is_a_paragraph (a : ascii) (t : string) :
  Chr.is_alpha a = true ->
  Text.all plain_char (String a t) = true ->
  renderMarkdown (String a t) = "<p>" ++ escapeHtml (String a t) ++ "</p>".
Proof.
  intros Ha Hplain.
  pose proof (PlainFacts.escaped_quiet _ Hplain) as Hq.
  unfold renderMarkdown, escapeHtml, heading_pass.
  rewrite EscapeFacts.escape_passes_expand.
  cbn [expand] in Hq |- *.
  destruct (PlainFacts.letter a Ha) as (_ & _ & _ & _ & _ & Hesc).
  rewrite Hesc in Hq |- *. cbn [append] in Hq |- *.
  assert (Hin : inside_line None (String a (expand escape_char t))).
  { split; [|exact Hq]. now exists a, (expand escape_char t). }
  rewrite !(PlainFacts.replace_all_inside _ _ _ _
              (PlainFacts.heading_inside _) Hin).
  rewrite !(PlainFacts.replace_all_inside _ _ _ _
              (PlainFacts.emphasis_inside _) Hin).
  rewrite (PlainFacts.replace_all_inside _ _ _ _ PlainFacts.bullet_inside Hin).
  rewrite (PlainFacts.replace_all_inside _ _ _ _ PlainFacts.numbered_inside Hin).
  rewrite (PlainFacts.replace_all_inside _ _ _ _
             PlainFacts.list_items_inside Hin).
  exact (PlainFacts.paragraph_line a _ Ha Hq).
Qed.

Lemma plain_line_is_a_paragraph_witness :
  renderMarkdown "Read <b> & write #1 - today."
  = "<p>" ++ escapeHtml "Read <b> & write #1 - today." ++ "</p>".
Proof.
  apply (plain_line_is_a_paragraph "R" "ead <b> & write #1 - today.");
    reflexivity.
Defined.

(** ** Texts without links *)

Module CleanFacts.
Import Text Sanitizer StrFacts SanitizerFacts.

(** A pattern that matches nowhere leaves the text as it is. *)
Lemma replace_all_no_match (fl : flags) (r : regex) (by_ : replacement)
    (s : string) :
  forall bef,
    exec_from fl r bef s = None -> replace_all_from fl r by_ 0 bef s = s.
Proof.
  induction s as [|c t IH]; intros bef H; cbn [exec_from] in H.
  - cbn [replace_all_from].
    now destruct (match_at fl r (MState bef "" [])).
  - rewrite NormalFacts.replace_all_from_0.
    destruct (match_at fl r (MState bef (String c t) [])); [discriminate|].
    destruct (exec_from fl r (Some c) t) as [[[pre m] y]|] eqn:Ht;
      [discriminate|].
    now rewrite (IH _ Ht).
Qed.

Lemma replace_all_test (fl : flags) (r : regex) (by_ : replacement)
    (s : string) :
  test fl r s = false -> replace_all fl r by_ s = s.
Proof.
  unfold test, exec, replace_all. intros H.
  apply replace_all_no_match.
  now destruct (exec_from fl r None s).
Qed.

Lemma trimStart_tight (s : string) (a : ascii) (t : string) :
  s = String a t -> Chr.is_space a = false -> Str.trimStart s = s.
Proof. intros -> Ha. simpl. now rewrite Ha. Qed.

Lemma trim_tight_id (s : string) : tight s -> Str.trim s = s.
Proof.
  intros [(a & t & Hs & Ha) (b & u & Hr & Hb)].
  unfold Str.trim, Str.trimEnd.
  rewrite (trimStart_tight s a t Hs Ha).
  rewrite (trimStart_tight (Str.rev s) b u Hr Hb).
  apply rev_involutive.
Qed.

(** A match that succeeds with one continuation succeeds with every
    continuation that accepts at least the same states. *)
Lemma repeat_mono (m : cont -> cont) (greedy : bool) :
  (forall k k' x, (forall y, k y <> None -> k' y <> None) ->
                  m k x <> None -> m k' x <> None) ->
  forall fuel lo hi k k' x,
    (forall y, k y <> None -> k' y <> None) ->
    repeat_matcher m k greedy fuel lo hi x <> None ->
    repeat_matcher m k' greedy fuel lo hi x <> None.
Proof.
  intros Hm fuel.
  induction fuel as [|fuel IH]; intros lo hi k k' x Hk H; [exact H|].
  rewrite ReFacts.repeat_matcher_S in H |- *. cbv zeta in H |- *.
  destruct (hi_is_zero hi); [now apply Hk|].
  match type of H with
  | context [m ?d x] =>
    match goal with
    | |- context [m ?d' x] =>
      assert (Hd : forall y, d y <> None -> d' y <> None);
      [ intros y Hy; cbv beta in Hy |- *;
        destruct ((lo =? 0)%nat
                  && (String.length (input y) =? String.length (input x))%nat);
        [exact Hy | now apply (IH _ _ k k')]
      | pose proof (Hm d d' x Hd) as Hmd ]
    end
  end.
  destruct (negb (lo =? 0)%nat); [now apply Hmd|].
  destruct greedy.
  - match type of H with
    | context [m ?d x] => destruct (m d x) eqn:H1
    end.
    + match goal with
      | |- context [m ?d' x] => destruct (m d' x) eqn:H2
      end; [discriminate|]. exfalso. apply Hmd; [discriminate|reflexivity].
    + match goal with
      | |- context [m ?d' x] => destruct (m d' x)
      end; [discriminate|]. now apply Hk.
  - destruct (k x) eqn:H1.
    + destruct (k' x) eqn:H2; [discriminate|].
      exfalso. apply (Hk x); [now rewrite H1|exact H2].
    + destruct (k' x); [discriminate|]. now apply Hmd.
Qed.

Lemma rmatch_mono (fl : flags) (r : regex) :
  forall k k' x,
    (forall y, k y <> None -> k' y <> None) ->
    rmatch fl r k x <> None -> rmatch fl r k' x <> None.
Proof.
  induction r as [ | c | p | r1 IH1 r2 IH2 | r1 IH1 r2 IH2
                 | lo hi g r IH | n r IH | | | | r IH];
    intros k k' x Hk H; cbn [rmatch] in H |- *.
  - now apply Hk.
  - destruct (input x) as [|a t]; [exact H|].
    destruct (char_eq fl c a); [now apply Hk|exact H].
  - destruct (input x) as [|a t]; [exact H|].
    destruct (p a); [now apply Hk|exact H].
  - apply (IH1 (fun y => rmatch fl r2 k y)); [|exact H].
    intros y. now apply IH2.
  - destruct (rmatch fl r1 k x) eqn:H1.
    + destruct (rmatch fl r1 k' x) eqn:H2; [discriminate|].
      exfalso. apply (IH1 k k' x Hk); [now rewrite H1|exact H2].
    + destruct (rmatch fl r1 k' x); [discriminate|]. now apply (IH2 k).
  - now apply (repeat_mono _ g IH _ lo hi k k').
  - apply (IH (fun y => k (set_cap n (consumed x y) y))); [|exact H].
    intros y. apply Hk.
  - destruct (at_bol fl x); [now apply Hk|exact H].
  - destruct (at_eol fl x); [now apply Hk|exact H].
  - destruct (at_word_boundary x); [now apply Hk|exact H].
  - destruct (rmatch fl r (fun y => Some y) x); [exact H|now apply Hk].
Qed.

(** A markdown link holds a URL. *)
Lemma md_link_url (x z : mstate) :
  match_at fl_i rx_md_link x = Some z -> has_url (input x) = true.
Proof.
  unfold match_at, rx_md_link.
  match goal with
  | |- rmatch _ (cat [?a; ?b; ?c; ?d; ?e; ?f]) _ _ = _ -> _ =>
    change (cat [a; b; c; d; e; f])
      with (Seq a (Seq b (Seq c (Seq d (Seq e f)))))
  end.
  intros H. cbn [rmatch] in H.
  destruct (input x) as [|a0 t0] eqn:Hx; [discriminate|].
  destruct (char_eq fl_i "[" a0); [|discriminate].
  apply (ReFacts.rmatch_reaches fl_i (Plus (Class (not_char "]")))) in H.
  destruct H as (y1 & pre1 & Hy1 & H). cbn [advance input] in Hy1.
  cbv beta in H. cbn [set_cap input] in H.
  destruct (input y1) as [|a1 t1] eqn:Hi1; [discriminate|].
  destruct (char_eq fl_i "]" a1); [|discriminate].
  cbn [advance input before caps] in H.
  destruct t1 as [|a2 t2]; [discriminate|].
  destruct (char_eq fl_i "(" a2); [|discriminate].
  cbn [advance input] in H.
  match type of H with
  | rmatch fl_i rx_url ?kk ?yy = Some z =>
    assert (Hurl : rmatch fl_i rx_url (fun y0 => Some y0) yy <> None);
    [ apply (rmatch_mono fl_i rx_url kk); [discriminate|now rewrite H]
    | destruct (rmatch fl_i rx_url (fun y0 => Some y0) yy) as [z'|] eqn:Hz;
      [|now elim Hurl];
      destruct (rx_url_some _ _ Hz) as [Hat _] ]
  end.
  cbn [advance input] in Hat.
  change (String a0 t0) with (String a0 "" ++ t0).
  apply has_url_suffix. rewrite Hy1. apply has_url_suffix.
  change (String a1 (String a2 t2))
    with (String a1 (String a2 "") ++ t2).
  apply has_url_suffix. destruct t2; cbn [has_url]; now rewrite Hat.
Qed.

Lemma no_url_no_link (s : string) :
  forall bef, has_url s = false -> exec_from fl_i rx_md_link bef s = None.
Proof.
  induction s as [|c t IH]; intros bef H; cbn [exec_from].
  - destruct (match_at fl_i rx_md_link (MState bef "" [])) as [z|] eqn:Hm;
      [|reflexivity].
    apply md_link_url in Hm. discriminate.
  - destruct (match_at fl_i rx_md_link (MState bef (String c t) []))
      as [z|] eqn:Hm.
    + apply md_link_url in Hm. cbn [input] in Hm. congruence.
    + cbn [has_url] in H. apply orb_false_iff in H. destruct H as [_ H].
      now rewrite (IH (Some c) H).
Qed.

End CleanFacts.

(** X14. [stripLinksFromMarkdown] gives back as it is a text that starts
    and ends with a character that is no white space and in which its
    patterns match nowhere: no URL (hence no markdown link), no link in
    angle brackets, no two blanks in a row and no three line feeds in a
    row. *)
Theorem clean_text_is_kept (s : string) :
  Text.tight s ->
  test fl_i rx_url s = false ->
  test fl_i rx_autolink s = false ->
  test no_flags rx_blanks s = false ->
  test no_flags rx_blank_lines s = false ->
  stripLinksFromMarkdown s = s.
Proof.
  intros Ht Hurl Hauto Hblanks Hlines.
  assert (Hlink : test fl_i rx_md_link s = false).
  { unfold test, exec. rewrite CleanFacts.no_url_no_link; [reflexivity|].
    now rewrite <- SanitizerFacts.test_rx_url. }
  destruct s as [|a t]; [reflexivity|].
  unfold stripLinksFromMarkdown, collapse_blank_lines.
  rewrite (CleanFacts.replace_all_test _ _ _ _ Hlink).
  rewrite (CleanFacts.replace_all_test _ _ _ _ Hauto).
  rewrite (CleanFacts.replace_all_test _ _ _ _ Hurl).
  rewrite (CleanFacts.replace_all_test _ _ _ _ Hblanks).
  rewrite (CleanFacts.replace_all_test _ _ _ _ Hlines).
  now apply CleanFacts.trim_tight_id.
Qed.

Lemma clean_text_is_kept_witness :
  stripLinksFromMarkdown ("- Read the docs (see above)." ++ Str.nl ++ Str.nl
                          ++ "Then build [a demo].")
  = "- Read the docs (see above)." ++ Str.nl ++ Str.nl
    ++ "Then build [a demo].".
Proof.
  apply clean_text_is_kept;
    try (vm_compute; reflexivity).
  split; eexists; eexists; split; vm_compute; reflexivity.
Defined.

(** ** Heading lines *)

Module HeadingFacts.
Import Text Matcher StrFacts ReFacts PlainFacts.

Lemma renderMarkdown_cons (c : ascii) (s : string) :
  renderMarkdown (String c s)
  = replace_all fl_im rx_paragraph (tmpl [T "<p>"; G 1; T "</p>"])
      (replace_all fl_im rx_list_items (tmpl [T "<ul>"; G 1; T "</ul>"])
         (replace_all fl_im rx_numbered (tmpl [T "<li>"; G 1; T "</li>"])
            (replace_all fl_im rx_bullet (tmpl [T "<li>"; G 1; T "</li>"])
               (replace_all fl_im (rx_emphasis "*")
                  (tmpl [T "<em>"; G 1; T "</em>"])
                  (replace_all fl_im (rx_emphasis "**")
                     (tmpl [T "<strong>"; G 1; T "</strong>"])
                     (replace_all fl_im (rx_emphasis "***")
                        (tmpl [T "<strong><em>"; G 1; T "</em></strong>"])
                        (heading_pass "#" "h1"
                           (heading_pass "##" "h2"
                              (heading_pass "###" "h3"
                                 (heading_pass "####" "h4"
                                    (heading_pass "#####" "h5"
                                       (heading_pass "######" "h6"
                                          (escape_passes
                                             (String c s)))))))))))))).
Proof. reflexivity. Qed.

Lemma dot_not_terminator (c : ascii) :
  Chr.dot c = true -> Chr.is_line_terminator c = false.
Proof. unfold Chr.dot. now destruct (Chr.is_line_terminator c). Qed.

(** With the [m] flag and no line terminator in the text, [^] holds at the
    start only. *)
Lemma bol_elsewhere (r : regex) (by_ : replacement) (s : string) :
  forall c,
    Chr.is_line_terminator c = false -> all Chr.dot s = true ->
    replace_all_from fl_im (Seq Bol r) by_ 0 (Some c) s = s.
Proof.
  induction s as [|a t IH]; intros c Hc Hs.
  - cbn [replace_all_from]. unfold match_at.
    cbn [rmatch at_bol before multiline fl_im]. now rewrite Hc.
  - rewrite NormalFacts.replace_all_from_0. unfold match_at.
    cbn [rmatch at_bol before multiline fl_im]. rewrite Hc. cbn [andb].
    simpl in Hs. apply andb_true_iff in Hs. destruct Hs as [Ha Ht].
    now rewrite (IH a (dot_not_terminator a Ha) Ht).
Qed.

Lemma bol_only_start (r : regex) (by_ : replacement) (s : string) :
  all Chr.dot s = true ->
  match_at fl_im (Seq Bol r) (MState None s []) = None ->
  replace_all fl_im (Seq Bol r) by_ s = s.
Proof.
  intros Hs Hno. unfold replace_all. destruct s as [|a t].
  - cbn [replace_all_from]. now rewrite Hno.
  - rewrite NormalFacts.replace_all_from_0, Hno.
    simpl in Hs. apply andb_true_iff in Hs. destruct Hs as [Ha Ht].
    now rewrite (bol_elsewhere r by_ t a (dot_not_terminator a Ha) Ht).
Qed.

Lemma last_dot (t : string) :
  forall c, Chr.is_line_terminator c = false -> all Chr.dot t = true ->
    exists c', last_of t (Some c) = Some c'
               /\ Chr.is_line_terminator c' = false.
Proof.
  induction t as [|b t IH]; intros c Hc Ht; [now exists c|].
  simpl in Ht. apply andb_true_iff in Ht. destruct Ht as [Hb Ht].
  cbn [last_of]. apply IH; [now apply dot_not_terminator|exact Ht].
Qed.

(** A match of the whole text, which is one line *)
Lemma bol_whole_line (r : regex) (by_ : replacement) (a : ascii) (t : string)
    (y : mstate) :
  all Chr.dot (String a t) = true ->
  match_at fl_im (Seq Bol r) (MState None (String a t) []) = Some y ->
  input y = "" ->
  replace_all fl_im (Seq Bol r) by_ (String a t) = by_ (String a t) y.
Proof.
  intros Hs Hm Hy. unfold replace_all.
  rewrite NormalFacts.replace_all_from_0, Hm.
  unfold consumed. rewrite Hy. cbn [input String.length].
  rewrite Nat.sub_0_r.
  change (S (String.length t)) with (String.length (String a t)).
  rewrite take_all. cbn [String.length].
  replace (replace_all_from fl_im (Seq Bol r) by_ (String.length t) (Some a) t)
    with (replace_all_from fl_im (Seq Bol r) by_ (String.length t) (Some a)
            (t ++ ""))
    by (now rewrite append_nil_r).
  rewrite NormalFacts.replace_all_skip.
  simpl in Hs. apply andb_true_iff in Hs. destruct Hs as [Ha Ht].
  destruct (last_dot t a (dot_not_terminator a Ha) Ht) as (c' & -> & Hc').
  cbn [replace_all_from]. unfold match_at.
  cbn [rmatch at_bol before multiline fl_im]. rewrite Hc'.
  apply append_nil_r.
Qed.

(** A pattern that starts with a character the text does not hold *)
Lemma first_char_absent (fl : flags) (c0 : ascii) (l : string) (r : regex)
    (by_ : replacement) (s : string) :
  all (fun c => negb (char_eq fl c0 c)) s = true ->
  forall bef,
    replace_all_from fl (Seq (lit (String c0 l)) r) by_ 0 bef s = s.
Proof.
  assert (Hno : forall bef s',
             all (fun c => negb (char_eq fl c0 c)) s' = true ->
             match_at fl (Seq (lit (String c0 l)) r) (MState bef s' []) = None).
  { intros bef s' Hs'. unfold match_at. cbn [rmatch]. rewrite rmatch_lit.
    cbn [lit_state input]. destruct s' as [|a t]; [reflexivity|].
    simpl in Hs'. apply andb_true_iff in Hs'. destruct Hs' as [Ha _].
    apply negb_true_iff in Ha. now rewrite Ha. }
  induction s as [|a t IH]; intros Hs bef.
  - cbn [replace_all_from]. now rewrite Hno.
  - rewrite NormalFacts.replace_all_from_0, (Hno _ _ Hs).
    simpl in Hs. apply andb_true_iff in Hs. destruct Hs as [_ Ht].
    now rewrite IH.
Qed.

Lemma emphasis_untouched (stars : string) (by_ : replacement) (s : string) :
  all (fun c => negb (char_eq fl_im "*" c)) s = true ->
  replace_all fl_im (rx_emphasis (String "*" stars)) by_ s = s.
Proof.
  intros Hs. unfold replace_all, rx_emphasis.
  change (cat [lit (String "*" stars); Group 1 (PlusLazy Any);
               lit (String "*" stars)])
    with (Seq (lit (String "*" stars))
            (Seq (Group 1 (PlusLazy Any)) (lit (String "*" stars)))).
  now apply first_char_absent.
Qed.

Lemma list_items_untouched (by_ : replacement) (s : string) :
  no_li s = true ->
  forall bef, replace_all_from fl_im rx_list_items by_ 0 bef s = s.
Proof.
  assert (Hno : forall bef s',
             no_li s' = true ->
             match_at fl_im rx_list_items (MState bef s' []) = None).
  { intros bef s' Hs'. unfold match_at, rx_list_items.
    change (cat [lit "<li>"; Star Any; lit "</li>"])
      with (Seq (lit "<li>") (Seq (Star Any) (lit "</li>"))).
    cbn [rmatch]. rewrite rmatch_lit. cbn [lit_state input].
    destruct s' as [|a t]; [reflexivity|].
    cbn [no_li] in Hs'. apply andb_true_iff in Hs'. destruct Hs' as [Ha _].
    apply negb_true_iff in Ha.
    destruct (char_eq fl_im "<" a); [|reflexivity].
    cbn [advance input]. destruct t as [|b t]; [reflexivity|].
    cbn [andb] in Ha. now rewrite Ha. }
  induction s as [|a t IH]; intros Hs bef.
  - cbn [replace_all_from]. now rewrite Hno.
  - rewrite NormalFacts.replace_all_from_0, (Hno _ _ Hs).
    cbn [no_li] in Hs. apply andb_true_iff in Hs. destruct Hs as [_ Ht].
    now rewrite IH.
Qed.

Lemma no_li_quiet (e x : string) :
  all quiet e = true -> no_li x = true -> no_li (e ++ x) = true.
Proof.
  intros He Hx. induction e as [|c e IH]; [exact Hx|].
  simpl in He. apply andb_true_iff in He. destruct He as [Hc He].
  change (String c e ++ x) with (String c (e ++ x)). cbn [no_li].
  destruct (quiet_char c Hc) as (_ & -> & _). now rewrite (IH He).
Qed.

Lemma quiet_no_star (e : string) :
  all quiet e = true ->
  all (fun c => negb (char_eq fl_im "*" c)) e = true.
Proof.
  induction e as [|c e IH]; [reflexivity|]. simpl. intros H.
  apply andb_true_iff in H. destruct H as [Hc He].
  destruct (quiet_char c Hc) as (-> & _). now apply IH.
Qed.

Lemma char_eq_refl (fl : flags) (c : ascii) : char_eq fl c c = true.
Proof. unfold char_eq. destruct (ignoreCase fl); apply Ascii.eqb_refl. Qed.

(** A literal at the start of the input *)
Lemma lit_state_prefix (fl : flags) (l : string) :
  forall x r, input x = l ++ r -> lit_state fl l x = Some (after l r x).
Proof.
  induction l as [|c l IH]; intros x r Hx.
  - simpl in Hx. simpl. destruct x; simpl in Hx. now subst.
  - cbn [lit_state]. rewrite Hx. cbn [append]. rewrite char_eq_refl.
    rewrite (IH (advance c (l ++ r) x) r eq_refl).
    now rewrite after_advance.
Qed.

(** The heading pattern on a line that starts with its marker *)
Lemma heading_match (h line : string) :
  all Chr.dot line = true ->
  match_at fl_im (rx_heading h) (MState None (h ++ " " ++ line) [])
  = Some (MState (last_of line (Some " "%char)) "" [(1, line)]).
Proof.
  intros Hline. unfold match_at, rx_heading.
  change (cat [Bol; lit h; Char " "; rest_of_line])
    with (Seq Bol (Seq (lit h) (Seq (Char " ") rest_of_line))).
  cbn [rmatch at_bol before]. rewrite rmatch_lit.
  rewrite (lit_state_prefix fl_im h (MState None (h ++ " " ++ line) [])
             (" " ++ line) eq_refl).
  unfold after. cbn [input before caps append].
  change (char_eq fl_im " " " ") with true. cbv iota.
  unfold rest_of_line.
  change (cat [Star Any; Eol]) with (Seq (Star Any) Eol).
  cbn [rmatch advance input before caps].
  match goal with
  | |- rmatch fl_im (Star Any) ?k ?x = _ =>
    change (repeat_matcher (rmatch fl_im (Class Chr.dot)) k true
              (S (0 + String.length line)) 0 None x
            = Some (MState (last_of line (Some " "%char)) "" [(1, line)]))
  end.
  apply repeat_class_all.
  - unfold len. simpl. lia.
  - exact Hline.
  - lia.
  - unfold after, set_cap, consumed, at_eol, advance.
    cbn [input before caps String.length last_of].
    rewrite Nat.sub_0_r. now rewrite take_all.
Qed.

Lemma heading_applies (c : ascii) (h tag line : string) :
  all Chr.dot (String c h ++ " " ++ line) = true ->
  heading_pass (String c h) tag (String c h ++ " " ++ line)
  = ("<" ++ tag ++ ">") ++ line ++ ("</" ++ tag ++ ">").
Proof.
  intros Hs. unfold heading_pass.
  assert (Hline : all Chr.dot line = true).
  { rewrite !all_append in Hs. apply andb_true_iff in Hs.
    destruct Hs as [_ Hs]. apply andb_true_iff in Hs. now destruct Hs. }
  pose proof (heading_match (String c h) line Hline) as Hm.
  unfold rx_heading in *.
  change (cat [Bol; lit (String c h); Char " "; rest_of_line])
    with (Seq Bol (cat [lit (String c h); Char " "; rest_of_line])) in *.
  change (String c h ++ " " ++ line) with (String c (h ++ " " ++ line)) in *.
  rewrite (bol_whole_line _ _ _ _ _ Hs Hm eq_refl).
  unfold group. cbn [tmpl caps lookup_cap Nat.eqb].
  now rewrite append_nil_r.
Qed.

Lemma heading_untouched (h tag s : string) :
  all Chr.dot s = true ->
  match_at fl_im (rx_heading h) (MState None s []) = None ->
  heading_pass h tag s = s.
Proof.
  intros Hs Hno. unfold heading_pass, rx_heading in *.
  change (cat [Bol; lit h; Char " "; rest_of_line])
    with (Seq Bol (cat [lit h; Char " "; rest_of_line])) in *.
  now apply bol_only_start.
Qed.

(** The list patterns and the paragraph pattern on a heading element *)
Lemma bullet_tag (by_ : replacement) (s s' : string) :
  s = String "<" s' -> all Chr.dot s = true ->
  replace_all fl_im rx_bullet by_ s = s.
Proof.
  intros -> Hs. unfold rx_bullet.
  change (cat [Bol; Star Space; OneOf "-*"; Char " "; rest_of_line])
    with (Seq Bol (Seq (Star Space)
                     (Seq (OneOf "-*") (Seq (Char " ") rest_of_line)))).
  apply bol_only_start; [exact Hs|]. unfold match_at.
  cbn [rmatch at_bol before]. unfold Space.
  rewrite (star_class_skip fl_im Chr.is_space _
             (MState None (String "<" s') []) "<" s' eq_refl eq_refl).
  reflexivity.
Qed.

Lemma numbered_tag (by_ : replacement) (s s' : string) :
  s = String "<" s' -> all Chr.dot s = true ->
  replace_all fl_im rx_numbered by_ s = s.
Proof.
  intros -> Hs. unfold rx_numbered.
  change (cat [Bol; Star Space; Plus Digit; Char "."; Plus Space;
               rest_of_line])
    with (Seq Bol (Seq (Star Space)
                     (Seq (Plus Digit)
                        (Seq (Char ".") (Seq (Plus Space) rest_of_line))))).
  apply bol_only_start; [exact Hs|]. unfold match_at.
  cbn [rmatch at_bol before]. unfold Space.
  rewrite (star_class_skip fl_im Chr.is_space _
             (MState None (String "<" s') []) "<" s' eq_refl eq_refl).
  unfold Digit. cbv beta.
  apply (plus_class_stop fl_im Chr.is_digit _
           (MState None (String "<" s') []) "<" s' eq_refl eq_refl).
Qed.

Lemma paragraph_heading (by_ : replacement) (s : string) (d : ascii)
    (s' : string) :
  s = "<h" ++ String d s' -> Chr.is_digit d = true ->
  all Chr.dot s = true ->
  replace_all fl_im rx_paragraph by_ s = s.
Proof.
  intros -> Hd Hs. unfold rx_paragraph.
  match goal with
  | |- replace_all _ (cat [Bol; Star Space; ?n; ?g; Eol]) _ _ = _ =>
    change (cat [Bol; Star Space; n; g; Eol])
      with (Seq Bol (Seq (Star Space) (Seq n (Seq g Eol))))
  end.
  apply bol_only_start; [exact Hs|]. unfold match_at.
  cbn [rmatch at_bol before]. unfold Space.
  rewrite (star_class_skip fl_im Chr.is_space _
             (MState None ("<h" ++ String d s') []) "<"
             (String "h" (String d s')) eq_refl eq_refl).
  cbn [alts cat rmatch]. rewrite !rmatch_lit.
  cbn [append lit_state input advance].
  change (char_eq fl_im "<" "<") with true.
  change (char_eq fl_im "h" "h") with true.
  cbv iota. unfold Digit. cbn [rmatch input advance]. now rewrite Hd.
Qed.

Lemma starts_append (x b : string) (a : ascii) (t : string) :
  x = String a t ->
  match x ++ b with String c _ => char_eq fl_im "l" c | "" => false end
  = match x with String c _ => char_eq fl_im "l" c | "" => false end.
Proof. now intros ->. Qed.

(** After a closed tag *)
Lemma no_li_append (x b : string) :
  no_li (x ++ ">") = true -> no_li b = true -> no_li ((x ++ ">") ++ b) = true.
Proof.
  intros Hx Hb. induction x as [|c x IH].
  - cbn [append no_li]. change (char_eq fl_im "<" ">") with false.
    now rewrite Hb.
  - change ((String c x ++ ">") ++ b) with (String c ((x ++ ">") ++ b)).
    change (String c x ++ ">") with (String c (x ++ ">")) in Hx.
    cbn [no_li] in Hx |- *.
    apply andb_true_iff in Hx. destruct Hx as [Hc Hx].
    rewrite (IH Hx), andb_true_r.
    destruct x as [|c' x]; exact Hc.
Qed.

End HeadingFacts.

(** One level: the passes for longer markers leave the line, the pass of
    the level makes the element, the later passes leave the element. *)
Ltac heading_level line Hq Hdot Hstar :=
  match goal with
  | |- renderMarkdown ?md = _ =>
    let md' := eval cbn [append] in md in
    change md with md'
  end;
  rewrite HeadingFacts.renderMarkdown_cons;
  match goal with
  | |- context [escape_passes ?s] =>
    rewrite (EscapeFacts.escape_passes_expand s);
    match goal with
    | |- _ = (_ ++ _ ++ ("</" ++ ?tg ++ ">")) =>
      match goal with
      | |- context [heading_pass ?h tg _] =>
        change (expand escape_char s) with (h ++ " " ++ line)
      end
    end
  end;
  repeat match goal with
         | |- context [heading_pass ?h ?tg (?p ++ ?q)] =>
           first
             [ rewrite (HeadingFacts.heading_untouched h tg (p ++ q))
                 by (first
                       [ rewrite !StrFacts.all_append, Hdot; reflexivity
                       | unfold match_at, rx_heading;
                         change (cat [Bol; lit h; Char " "; rest_of_line])
                           with (Seq Bol
                                   (Seq (lit h)
                                      (Seq (Char " ") rest_of_line)));
                         cbn [rmatch at_bol before];
                         rewrite ReFacts.rmatch_lit; reflexivity ])
             | rewrite HeadingFacts.heading_applies
                 by (rewrite !StrFacts.all_append, Hdot; reflexivity) ]
         end;
  match goal with
  | |- context [replace_all fl_im (rx_emphasis "***") _ ?r] =>
    let HdotR := fresh "HdotR" in
    let HstarR := fresh "HstarR" in
    assert (HdotR : Text.all Chr.dot r = true)
      by (rewrite !StrFacts.all_append, Hdot; reflexivity);
    assert (HstarR : Text.all (fun c => negb (char_eq fl_im "*" c)) r = true)
      by (rewrite !StrFacts.all_append, Hstar; reflexivity);
    rewrite !(HeadingFacts.emphasis_untouched _ _ r HstarR);
    rewrite (HeadingFacts.bullet_tag _ r _ eq_refl HdotR);
    rewrite (HeadingFacts.numbered_tag _ r _ eq_refl HdotR);
    unfold replace_all at 2;
    match r with
    | ("<" ++ ?tg ++ ">") ++ _ =>
      rewrite (HeadingFacts.list_items_untouched _ r
                 (HeadingFacts.no_li_append ("<" ++ tg)
                    (line ++ ("</" ++ tg ++ ">")) eq_refl
                    (HeadingFacts.no_li_quiet line ("</" ++ tg ++ ">") Hq
                       eq_refl))
                 None)
    end;
    exact (HeadingFacts.paragraph_heading _ r _ _ eq_refl eq_refl HdotR)
  end.

(** X15. A line made of one to six [#], a space and a text that starts
    with a letter and holds no asterisk is rendered as the heading element
    of that level around the escaped text, and nothing else: no paragraph
    is put around it. *)
Theorem heading_line_is_a_heading (hashes tag : string) (a : ascii)
    (t : string) :
  In (hashes, tag) heading_levels ->
  Chr.is_alpha a = true ->
  Text.all plain_char (String a t) = true ->
  renderMarkdown (hashes ++ " " ++ String a t)
  = ("<" ++ tag ++ ">") ++ escapeHtml (String a t) ++ ("</" ++ tag ++ ">").
Proof.
  intros Hin Ha Hplain.
  pose proof (PlainFacts.escaped_quiet _ Hplain) as Hq.
  unfold escapeHtml. rewrite (EscapeFacts.escape_passes_expand (String a t)).
  set (line := expand escape_char (String a t)) in *.
  pose proof (PlainFacts.quiet_dot _ Hq) as Hdot.
  pose proof (HeadingFacts.quiet_no_star _ Hq) as Hstar.
  unfold heading_levels in Hin. cbn [In] in Hin.
  destruct Hin as [Hin|[Hin|[Hin|[Hin|[Hin|[Hin|[]]]]]]];
    injection Hin as <- <-; heading_level line Hq Hdot Hstar.
Qed.

Lemma heading_line_is_a_heading_witness :
  renderMarkdown ("## " ++ "Phase 1: Learn <the> basics")
  = "<h2>Phase 1: Learn &lt;the&gt; basics</h2>".
Proof.
  apply (heading_line_is_a_heading "##" "h2" "P"
           "hase 1: Learn <the> basics").
  - right. left. reflexivity.
  - reflexivity.
  - reflexivity.
Defined.

(** ** Line markers *)

Module MarkerFacts.
Import Text Matcher StrFacts ReFacts.

Lemma kinds (c : ascii) :
  (bullet c = true -> Chr.is_space c = false /\ hash c = false)
  /\ (Chr.is_digit c = true ->
      Chr.is_space c = false /\ hash c = false /\ bullet c = false)
  /\ (Chr.is_alpha c = true ->
      Chr.is_space c = false /\ hash c = false /\ bullet c = false
      /\ Chr.is_digit c = false).
Proof.
  destruct c as [[] [] [] [] [] [] [] []]; vm_compute;
    repeat split; congruence.
Qed.

Lemma take_while_none (p : ascii -> bool) (s : string) :
  take_while p s = "" -> drop_while p s = s.
Proof. destruct s as [|a t]; simpl; [reflexivity|]. now destruct (p a). Qed.

(** The greedy loop takes the run of the class; when the continuation
    accepts the state after the run, that is the match. *)
Lemma repeat_class_run (fl : flags) (p : ascii -> bool) (k : cont)
    (fuel : nat) :
  forall lo hi x z,
    lo + len x < fuel ->
    match hi with
    | Some h => String.length (take_while p (input x)) <= h
    | None => True
    end ->
    lo <= String.length (take_while p (input x)) ->
    k (after (take_while p (input x)) (drop_while p (input x)) x) = Some z ->
    repeat_matcher (rmatch fl (Class p)) k true fuel lo hi x = Some z.
Proof.
  induction fuel as [|fuel IH]; intros lo hi x z Hf Hhi Hlo Hk; [lia|].
  rewrite repeat_matcher_S. cbv zeta.
  assert (Hstay : take_while p (input x) = "" -> k x = Some z).
  { intros He. rewrite He, (take_while_none _ _ He), after_nil in Hk.
    exact Hk. }
  destruct (hi_is_zero hi) eqn:Hz.
  { destruct hi as [[|h]|]; try discriminate.
    apply Hstay. destruct (take_while p (input x)); [reflexivity|].
    simpl in Hhi. lia. }
  cbn [rmatch]. unfold len in *.
  destruct (input x) as [|a t] eqn:Hx.
  - simpl in Hlo. assert (lo = 0) by lia. subst lo. cbn [Nat.eqb negb].
    now apply Hstay.
  - cbn [take_while drop_while] in *. destruct (p a) eqn:Ha.
    + cbn [advance input String.length].
      rewrite length_neq_S, andb_false_r.
      assert (Hrec : repeat_matcher (rmatch fl (Class p)) k true fuel
                       (pred lo) (dec_hi hi) (advance a t x) = Some z).
      { apply IH; cbn [advance input]; simpl in *; try lia.
        - destruct hi as [h|]; simpl in *; [lia|exact I].
        - now rewrite after_advance. }
      destruct (negb (lo =? 0)%nat); [exact Hrec|].
      change (match repeat_matcher (rmatch fl (Class p)) k true fuel
                      (pred lo) (dec_hi hi) (advance a t x) with
              | Some z0 => Some z0
              | None => k x
              end = Some z).
      now rewrite Hrec.
    + simpl in Hlo. assert (lo = 0) by lia. subst lo. cbn [Nat.eqb negb].
      now apply Hstay.
Qed.

Lemma run_then (p : ascii -> bool) (u : string) (s : string) :
  all p u = true -> starts_with p s = false ->
  take_while p (u ++ s) = u /\ drop_while p (u ++ s) = s.
Proof.
  intros Hu Hs. induction u as [|c u IH].
  - destruct s as [|a t]; [now split|]. simpl in *. now rewrite Hs.
  - simpl in Hu. apply andb_true_iff in Hu. destruct Hu as [Hc Hu].
    destruct (IH Hu) as [IH1 IH2].
    change (String c u ++ s) with (String c (u ++ s)).
    cbn [take_while drop_while]. rewrite Hc, IH1, IH2. now split.
Qed.

Lemma take_while_length (p : ascii -> bool) (s : string) :
  s = take_while p s ++ drop_while p s.
Proof. apply take_drop_while. Qed.

(** [replace] by nothing with a pattern that starts with [^] *)
Lemma replace_bol (r : regex) (s : string) :
  replace no_flags (Seq Bol r) (tmpl []) s
  = match rmatch no_flags r (fun y => Some y) (MState None s []) with
    | Some y => input y
    | None => s
    end.
Proof.
  unfold replace, exec. destruct s as [|a t]; cbn [exec_from].
  - unfold match_at. cbn [rmatch at_bol before].
    now destruct (rmatch no_flags r _ _).
  - unfold match_at. cbn [rmatch at_bol before].
    destruct (rmatch no_flags r _ _); [reflexivity|].
    now rewrite ClassifierFacts.exec_anchored.
Qed.

(** [\s+] at the end of a pattern *)
Lemma plus_space_last (x : mstate) (ws rest : string) :
  input x = ws ++ rest ->
  spaces1 ws = true -> starts_with Chr.is_space rest = false ->
  exists y, rmatch no_flags (Plus Space) (fun y => Some y) x = Some y
            /\ input y = rest.
Proof.
  intros Hx Hws Hrest. unfold spaces1 in Hws.
  apply andb_true_iff in Hws. destruct Hws as [Hlen Hall].
  apply Nat.leb_le in Hlen.
  destruct (run_then Chr.is_space ws rest Hall Hrest) as [Ht Hd].
  unfold Plus, Space. cbn [rmatch].
  rewrite (repeat_class_greedy no_flags Chr.is_space) by (unfold len; lia).
  rewrite Hx, Ht, Hd.
  destruct (Nat.leb_spec 1 (String.length ws)); [|lia].
  eexists. split; reflexivity.
Qed.

(** [\s*] before a character that is no white space *)
Lemma star_space_none (k : cont) (x : mstate) :
  starts_with Chr.is_space (input x) = false ->
  rmatch no_flags (Star Space) k x = k x.
Proof.
  intros H. unfold Star, Space. cbn [rmatch]. rewrite repeat_matcher_S.
  cbv zeta. cbn [hi_is_zero Nat.eqb negb andb rmatch].
  destruct (input x) as [|a t]; [reflexivity|]. simpl in H. now rewrite H.
Qed.

Lemma hashes_strip (m rest : string) :
  heading_marker m = true -> starts_with Chr.is_space rest = false ->
  replace no_flags rx_hashes (tmpl []) (m ++ rest) = rest.
Proof.
  intros Hm Hrest. unfold heading_marker in Hm.
  apply andb_true_iff in Hm. destruct Hm as [Hm Hws].
  apply andb_true_iff in Hm. destruct Hm as [H1 H6].
  apply Nat.leb_le in H1. apply Nat.leb_le in H6.
  set (hs := take_while hash m) in *. set (ws := drop_while hash m) in *.
  assert (Hsplit : m = hs ++ ws) by apply take_drop_while.
  assert (Hrun : take_while hash (m ++ rest) = hs
                 /\ drop_while hash (m ++ rest) = ws ++ rest).
  { rewrite Hsplit, append_assoc. apply run_then.
    - apply take_while_all.
    - pose proof (drop_while_stops hash m) as Hst. fold ws in Hst.
      unfold spaces1 in Hws. apply andb_true_iff in Hws.
      destruct Hws as [Hl _]. apply Nat.leb_le in Hl.
      destruct ws as [|w ws']; [simpl in Hl; lia|]. exact Hst. }
  destruct Hrun as [Ht Hd].
  unfold rx_hashes.
  change (cat [Bol; Between 1 6 (Char "#"); Plus Space])
    with (Seq Bol (Seq (Between 1 6 (Char "#")) (Plus Space))).
  rewrite replace_bol. cbn [rmatch].
  destruct (plus_space_last
              (after hs (ws ++ rest) (MState None (m ++ rest) []))
              ws rest eq_refl Hws Hrest) as (y & Hy & Hin).
  change (rmatch no_flags (Between 1 6 (Char "#"))
            (fun y0 => rmatch no_flags (Plus Space) (fun y1 => Some y1) y0)
            (MState None (m ++ rest) []))
    with (repeat_matcher (rmatch no_flags (Class hash))
            (fun y0 => rmatch no_flags (Plus Space) (fun y1 => Some y1) y0)
            true (S (1 + String.length (m ++ rest))) 1 (Some 6)
            (MState None (m ++ rest) [])).
  rewrite (repeat_class_run no_flags hash _ _ 1 (Some 6)
             (MState None (m ++ rest) []) y).
  - exact Hin.
  - unfold len. simpl. lia.
  - cbn [input]. now rewrite Ht.
  - cbn [input]. now rewrite Ht.
  - cbn [input]. rewrite Ht, Hd. exact Hy.
Qed.

Lemma hashes_keep (s : string) :
  starts_with hash s = false ->
  replace no_flags rx_hashes (tmpl []) s = s.
Proof.
  intros Hs. unfold rx_hashes.
  change (cat [Bol; Between 1 6 (Char "#"); Plus Space])
    with (Seq Bol (Seq (Between 1 6 (Char "#")) (Plus Space))).
  rewrite replace_bol. unfold Between. cbn [rmatch].
  rewrite repeat_matcher_S. cbv zeta.
  cbn [hi_is_zero Nat.eqb negb rmatch input].
  destruct s as [|a t]; [reflexivity|]. simpl in Hs.
  unfold hash in Hs. unfold char_eq. cbn [ignoreCase no_flags].
  now rewrite Hs.
Qed.

Lemma bullet_strip (m rest : string) :
  bullet_marker m = true -> starts_with Chr.is_space rest = false ->
  replace no_flags rx_bullet_marker (tmpl []) (m ++ rest) = rest.
Proof.
  intros Hm Hrest. destruct m as [|c ws]; [discriminate|].
  cbn [bullet_marker] in Hm. apply andb_true_iff in Hm.
  destruct Hm as [Hc Hws].
  destruct (kinds c) as [Hb _]. destruct (Hb Hc) as [Hsp _].
  unfold rx_bullet_marker.
  change (cat [Bol; Star Space; OneOf "-*+"; Plus Space])
    with (Seq Bol (Seq (Star Space) (Seq (OneOf "-*+") (Plus Space)))).
  rewrite replace_bol. cbn [rmatch].
  rewrite star_space_none by (cbn [input append starts_with]; exact Hsp).
  unfold OneOf. cbn [rmatch input append]. fold (bullet c). rewrite Hc.
  destruct (plus_space_last
              (advance c (ws ++ rest) (MState None (String c (ws ++ rest)) []))
              ws rest eq_refl Hws Hrest) as (y & -> & Hin).
  exact Hin.
Qed.

Lemma bullet_keep (s : string) :
  starts_with (fun c => Chr.is_space c || bullet c) s = false ->
  replace no_flags rx_bullet_marker (tmpl []) s = s.
Proof.
  intros Hs. unfold rx_bullet_marker.
  change (cat [Bol; Star Space; OneOf "-*+"; Plus Space])
    with (Seq Bol (Seq (Star Space) (Seq (OneOf "-*+") (Plus Space)))).
  rewrite replace_bol. cbn [rmatch].
  destruct s as [|a t].
  - rewrite star_space_none by reflexivity. reflexivity.
  - simpl in Hs. apply orb_false_iff in Hs. destruct Hs as [Hsp Hb].
    rewrite star_space_none by (cbn [input starts_with]; exact Hsp).
    unfold OneOf. cbn [rmatch input]. fold (bullet a). now rewrite Hb.
Qed.

Lemma number_strip (m rest : string) :
  number_marker m = true -> starts_with Chr.is_space rest = false ->
  replace no_flags rx_number_marker (tmpl []) (m ++ rest) = rest.
Proof.
  intros Hm Hrest. unfold number_marker in Hm.
  apply andb_true_iff in Hm. destruct Hm as [H1 Hdot].
  apply Nat.leb_le in H1.
  set (ds := take_while Chr.is_digit m) in *.
  pose proof (take_drop_while Chr.is_digit m) as Hsplit. fold ds in Hsplit.
  destruct (drop_while Chr.is_digit m) as [|c ws] eqn:Hdrop; [discriminate|].
  apply andb_true_iff in Hdot. destruct Hdot as [Hc Hws].
  apply Ascii.eqb_eq in Hc. subst c.
  assert (Hrun : take_while Chr.is_digit (m ++ rest) = ds
                 /\ drop_while Chr.is_digit (m ++ rest)
                    = String "." (ws ++ rest)).
  { rewrite Hsplit, append_assoc. apply run_then; [|reflexivity].
    apply take_while_all. }
  destruct Hrun as [Ht Hd].
  assert (Hfirst : starts_with Chr.is_space (m ++ rest) = false).
  { rewrite Hsplit. destruct ds as [|d ds'] eqn:Hds; [simpl in H1; lia|].
    pose proof (take_while_all Chr.is_digit m) as Hall. fold ds in Hall.
    rewrite Hds in Hall. simpl in Hall. apply andb_true_iff in Hall.
    destruct Hall as [Hd0 _]. cbn [append starts_with].
    destruct (kinds d) as (_ & Hk & _). now destruct (Hk Hd0). }
  unfold rx_number_marker.
  change (cat [Bol; Star Space; Plus Digit; Char "."; Plus Space])
    with (Seq Bol (Seq (Star Space)
                     (Seq (Plus Digit) (Seq (Char ".") (Plus Space))))).
  rewrite replace_bol. cbn [rmatch].
  rewrite star_space_none by exact Hfirst.
  destruct (plus_space_last
              (advance "." (ws ++ rest)
                 (after ds (String "." (ws ++ rest))
                    (MState None (m ++ rest) [])))
              ws rest eq_refl Hws Hrest) as (y & Hy & Hin).
  match goal with
  | |- context [rmatch no_flags (Plus Digit) ?k ?x] =>
    change (rmatch no_flags (Plus Digit) k x)
      with (repeat_matcher (rmatch no_flags (Class Chr.is_digit)) k true
              (S (1 + String.length (m ++ rest))) 1 None x)
  end.
  rewrite (repeat_class_run no_flags Chr.is_digit _ _ 1 None
             (MState None (m ++ rest) []) y).
  - exact Hin.
  - unfold len. simpl. lia.
  - exact I.
  - cbn [input]. now rewrite Ht.
  - cbn [input]. rewrite Ht, Hd. cbn [rmatch after input].
    change (char_eq no_flags "." ".") with true. cbv iota. exact Hy.
Qed.

Lemma number_keep (s : string) :
  starts_with (fun c => Chr.is_space c || Chr.is_digit c) s = false ->
  replace no_flags rx_number_marker (tmpl []) s = s.
Proof.
  intros Hs. unfold rx_number_marker.
  change (cat [Bol; Star Space; Plus Digit; Char "."; Plus Space])
    with (Seq Bol (Seq (Star Space)
                     (Seq (Plus Digit) (Seq (Char ".") (Plus Space))))).
  rewrite replace_bol. cbn [rmatch].
  destruct s as [|a t].
  - rewrite star_space_none by reflexivity.
    unfold Plus, Digit. cbn [rmatch]. rewrite repeat_matcher_S. reflexivity.
  - simpl in Hs. apply orb_false_iff in Hs. destruct Hs as [Hsp Hd].
    rewrite star_space_none by (cbn [input starts_with]; exact Hsp).
    unfold Digit. cbv beta.
    now rewrite (PlainFacts.plus_class_stop no_flags Chr.is_digit _
                   (MState None (String a t) []) a t eq_refl Hd).
Qed.

(** The first character after the markers that are there *)
Lemma bullet_marker_first (m rest : string) :
  bullet_marker m = true ->
  exists c r, m ++ rest = String c r /\ bullet c = true.
Proof.
  destruct m as [|c ws]; [discriminate|]. cbn [bullet_marker]. intros H.
  apply andb_true_iff in H. destruct H as [Hc _].
  now exists c, (ws ++ rest).
Qed.

Lemma number_marker_first (m rest : string) :
  number_marker m = true ->
  exists c r, m ++ rest = String c r /\ Chr.is_digit c = true.
Proof.
  unfold number_marker. intros H. apply andb_true_iff in H.
  destruct H as [H1 _]. apply Nat.leb_le in H1.
  destruct m as [|c ws]; [simpl in H1; lia|].
  cbn [take_while] in H1. destruct (Chr.is_digit c) eqn:Hc;
    [|simpl in H1; lia].
  now exists c, (ws ++ rest).
Qed.

End MarkerFacts.

(** X16. The markers in front of a line make no difference to the
    classifier: with a heading marker, a bullet and a number, each of them
    there or not, in that order, before a text that starts with a letter,
    [normalizeHeadingCandidate] and [getSubsectionTitle] give what they
    give for the text alone. *)
Theorem markers_are_ignored (m1 m2 m3 : string) (a : ascii) (t : string) :
  optional heading_marker m1 = true ->
  optional bullet_marker m2 = true ->
  optional number_marker m3 = true ->
  Chr.is_alpha a = true ->
  normalizeHeadingCandidate (m1 ++ m2 ++ m3 ++ String a t)
  = normalizeHeadingCandidate (String a t)
  /\ getSubsectionTitle (m1 ++ m2 ++ m3 ++ String a t)
     = getSubsectionTitle (String a t).
Proof.
  intros H1 H2 H3 Ha.
  destruct (MarkerFacts.kinds a) as (_ & _ & Hka).
  destruct (Hka Ha) as (Hsp & Hh & Hb & Hd). clear Hka.
  assert (Hs3 : replace no_flags rx_number_marker (tmpl [])
                  (m3 ++ String a t) = String a t
                /\ exists c r, m3 ++ String a t = String c r
                               /\ Chr.is_space c = false /\ hash c = false
                               /\ bullet c = false).
  { destruct m3 as [|c3 m3'].
    - split; [|now exists a, t].
      apply MarkerFacts.number_keep. cbn [append starts_with].
      now rewrite Hsp, Hd.
    - cbn [optional] in H3. split.
      + apply MarkerFacts.number_strip; [exact H3|]. exact Hsp.
      + destruct (MarkerFacts.number_marker_first _ (String a t) H3)
          as (c & r & Hc & Hdig).
        destruct (MarkerFacts.kinds c) as (_ & Hk & _).
        destruct (Hk Hdig) as (? & ? & ?). now exists c, r. }
  destruct Hs3 as [Hs3 (c3 & r3 & Hc3 & Hsp3 & Hh3 & Hb3)].
  assert (Hs2 : replace no_flags rx_bullet_marker (tmpl [])
                  (m2 ++ m3 ++ String a t) = m3 ++ String a t
                /\ exists c r, m2 ++ m3 ++ String a t = String c r
                               /\ Chr.is_space c = false /\ hash c = false).
  { destruct m2 as [|c2 m2'].
    - split; [|now exists c3, r3].
      apply MarkerFacts.bullet_keep. cbn [append]. rewrite Hc3.
      cbn [starts_with]. now rewrite Hsp3, Hb3.
    - cbn [optional] in H2. split.
      + apply MarkerFacts.bullet_strip; [exact H2|].
        rewrite Hc3. exact Hsp3.
      + destruct (MarkerFacts.bullet_marker_first _ (m3 ++ String a t) H2)
          as (c & r & Hc & Hbul).
        destruct (MarkerFacts.kinds c) as (Hk & _).
        destruct (Hk Hbul) as (? & ?). now exists c, r. }
  destruct Hs2 as [Hs2 (c2 & r2 & Hc2 & Hsp2 & Hh2)].
  assert (Hs1 : replace no_flags rx_hashes (tmpl [])
                  (m1 ++ m2 ++ m3 ++ String a t) = m2 ++ m3 ++ String a t).
  { destruct m1 as [|c1 m1'].
    - apply MarkerFacts.hashes_keep. cbn [append]. rewrite Hc2. exact Hh2.
    - cbn [optional] in H1. apply MarkerFacts.hashes_strip; [exact H1|].
      rewrite Hc2. exact Hsp2. }
  assert (Hn : normalizeHeadingCandidate (m1 ++ m2 ++ m3 ++ String a t)
               = normalizeHeadingCandidate (String a t)).
  { unfold normalizeHeadingCandidate. rewrite Hs1, Hs2, Hs3.
    rewrite (MarkerFacts.hashes_keep (String a t)) by exact Hh.
    rewrite (MarkerFacts.bullet_keep (String a t))
      by (cbn [starts_with]; now rewrite Hsp, Hb).
    rewrite (MarkerFacts.number_keep (String a t))
      by (cbn [starts_with]; now rewrite Hsp, Hd).
    reflexivity. }
  split; [exact Hn|].
  unfold getSubsectionTitle, subsection_key. now rewrite Hn.
Qed.

Lemma markers_are_ignored_witness :
  normalizeHeadingCandidate ("### " ++ "- " ++ "2. " ++ "Objectives:")
  = normalizeHeadingCandidate "Objectives:"
  /\ getSubsectionTitle ("### " ++ "- " ++ "2. " ++ "Objectives:")
     = getSubsectionTitle "Objectives:".
Proof.
  apply (markers_are_ignored "### " "- " "2. " "O" "bjectives:");
    reflexivity.
Defined.

(** ** Section headings *)

Module SectionFacts.
Import Text Matcher StrFacts ReFacts MarkerFacts.

Lemma exec_here (fl : flags) (r : regex) (bef : option ascii) (s : string)
    (y : mstate) :
  match_at fl r (MState bef s []) = Some y ->
  exec_from fl r bef s = Some ("", consumed (MState bef s []) y, y).
Proof. intros H. destruct s; cbn [exec_from]; now rewrite H. Qed.

Lemma exec_bol_none (r : regex) (s : string) :
  rmatch no_flags r (fun y => Some y) (MState None s []) = None ->
  exec no_flags (Seq Bol r) s = None.
Proof.
  intros H. unfold exec. destruct s as [|a t]; cbn [exec_from];
    unfold match_at; cbn [rmatch at_bol before]; rewrite H; [reflexivity|].
  now rewrite ClassifierFacts.exec_anchored.
Qed.

(** The heading pattern of [parseSectionMeta] on a marked line *)
Lemma heading_line_raw (m rest : string) :
  heading_marker m = true ->
  starts_with Chr.is_space rest = false ->
  rest <> "" ->
  all Chr.dot rest = true ->
  exists pre mt y,
    exec no_flags rx_heading_line (m ++ rest) = Some (pre, mt, y)
    /\ group 2 y = rest.
Proof.
  intros Hm Hrest Hne Hdot. unfold heading_marker in Hm.
  apply andb_true_iff in Hm. destruct Hm as [Hm Hws].
  apply andb_true_iff in Hm. destruct Hm as [H1 H6].
  apply Nat.leb_le in H1. apply Nat.leb_le in H6.
  set (hs := take_while hash m) in *. set (ws := drop_while hash m) in *.
  assert (Hsplit : m = hs ++ ws) by apply take_drop_while.
  assert (Hws' := Hws). unfold spaces1 in Hws'.
  apply andb_true_iff in Hws'. destruct Hws' as [Hwl Hwall].
  apply Nat.leb_le in Hwl.
  assert (Hrun : take_while hash (m ++ rest) = hs
                 /\ drop_while hash (m ++ rest) = ws ++ rest).
  { rewrite Hsplit, append_assoc. apply run_then.
    - apply take_while_all.
    - pose proof (drop_while_stops hash m) as Hst. fold ws in Hst.
      destruct ws as [|w ws']; [simpl in Hwl; lia|]. exact Hst. }
  destruct Hrun as [Ht Hd].
  destruct (run_then Chr.is_space ws rest Hwall Hrest) as [Hts Hds].
  set (x := MState None (m ++ rest) []).
  set (y1 := set_cap 1 (consumed x (after hs (ws ++ rest) x))
               (after hs (ws ++ rest) x)).
  set (y2 := after ws rest y1).
  set (z := set_cap 2 (consumed y2 (after rest "" y2)) (after rest "" y2)).
  exists "", (consumed x z), z. split.
  - apply exec_here. unfold match_at, rx_heading_line.
    change (cat [Bol; Group 1 (Between 1 6 (Char "#")); Plus Space;
                 Group 2 (Plus Any); Eol])
      with (Seq Bol
              (Seq (Group 1 (Between 1 6 (Char "#")))
                 (Seq (Plus Space) (Seq (Group 2 (Plus Any)) Eol)))).
    cbn [rmatch at_bol before]. fold x.
    match goal with
    | |- rmatch no_flags (Between 1 6 (Char "#")) ?k x = _ =>
      change (repeat_matcher (rmatch no_flags (Class hash)) k true
                (S (1 + String.length (m ++ rest))) 1 (Some 6) x = Some z)
    end.
    apply repeat_class_run.
    + unfold len, x. simpl. lia.
    + unfold x. cbn [input]. now rewrite Ht.
    + unfold x. cbn [input]. now rewrite Ht.
    + replace (take_while hash (input x)) with hs
        by (unfold x; cbn [input]; now rewrite Ht).
      replace (drop_while hash (input x)) with (ws ++ rest)
        by (unfold x; cbn [input]; now rewrite Hd).
      cbv beta. fold y1.
      match goal with
      | |- rmatch no_flags (Plus Space) ?k y1 = _ =>
        change (repeat_matcher (rmatch no_flags (Class Chr.is_space)) k true
                  (S (1 + String.length (ws ++ rest))) 1 None y1 = Some z)
      end.
      apply repeat_class_run.
      * unfold len, y1. simpl. lia.
      * exact I.
      * unfold y1. cbn [set_cap after input]. now rewrite Hts.
      * replace (take_while Chr.is_space (input y1)) with ws
          by (unfold y1; cbn [set_cap after input]; now rewrite Hts).
        replace (drop_while Chr.is_space (input y1)) with rest
          by (unfold y1; cbn [set_cap after input]; now rewrite Hds).
        cbv beta. fold y2.
        match goal with
        | |- rmatch no_flags (Plus Any) ?k y2 = _ =>
          change (repeat_matcher (rmatch no_flags (Class Chr.dot)) k true
                    (S (1 + String.length rest)) 1 None y2 = Some z)
        end.
        apply PlainFacts.repeat_class_all.
        -- unfold len, y2. simpl. lia.
        -- exact Hdot.
        -- unfold len, y2. cbn [after input].
           destruct rest; [congruence|simpl; lia].
        -- replace (input y2) with rest by reflexivity.
           cbv beta. fold z. reflexivity.
  - unfold z, group, set_cap. cbn [caps lookup_cap Nat.eqb].
    apply NormalFacts.consumed_after. unfold y2. cbn [after input].
    now rewrite append_nil_r.
Qed.

Lemma heading_line_none (s : string) :
  starts_with hash s = false -> exec no_flags rx_heading_line s = None.
Proof.
  intros Hs. unfold rx_heading_line.
  change (cat [Bol; Group 1 (Between 1 6 (Char "#")); Plus Space;
               Group 2 (Plus Any); Eol])
    with (Seq Bol
            (Seq (Group 1 (Between 1 6 (Char "#")))
               (Seq (Plus Space) (Seq (Group 2 (Plus Any)) Eol)))).
  apply exec_bol_none. unfold Between. cbn [rmatch].
  rewrite repeat_matcher_S. cbv zeta.
  cbn [hi_is_zero Nat.eqb negb rmatch input].
  destruct s as [|a t]; [reflexivity|]. simpl in Hs.
  unfold hash in Hs. unfold char_eq. cbn [ignoreCase no_flags].
  now rewrite Hs.
Qed.

Lemma loose_strip (m rest : string) :
  bullet_marker m = true -> starts_with Chr.is_space rest = false ->
  replace no_flags rx_bullet_marker_loose (tmpl []) (m ++ rest) = rest.
Proof.
  intros Hm Hrest. destruct m as [|c ws]; [discriminate|].
  cbn [bullet_marker] in Hm. apply andb_true_iff in Hm.
  destruct Hm as [Hc Hws].
  destruct (kinds c) as [Hb _]. destruct (Hb Hc) as [Hsp _].
  unfold spaces1 in Hws. apply andb_true_iff in Hws.
  destruct Hws as [_ Hall].
  destruct (run_then Chr.is_space ws rest Hall Hrest) as [Ht Hd].
  unfold rx_bullet_marker_loose.
  change (cat [Bol; Star Space; OneOf "-*+"; Star Space])
    with (Seq Bol (Seq (Star Space) (Seq (OneOf "-*+") (Star Space)))).
  rewrite replace_bol. cbn [rmatch].
  rewrite star_space_none by (cbn [input append starts_with]; exact Hsp).
  unfold OneOf. cbn [rmatch input append]. fold (bullet c). rewrite Hc.
  unfold Star, Space. cbn [rmatch].
  rewrite (repeat_class_greedy no_flags Chr.is_space)
    by (unfold len; lia).
  cbn [advance input Nat.leb]. now rewrite Hd.
Qed.

Lemma loose_keep (s : string) :
  starts_with (fun c => Chr.is_space c || bullet c) s = false ->
  replace no_flags rx_bullet_marker_loose (tmpl []) s = s.
Proof.
  intros Hs. unfold rx_bullet_marker_loose.
  change (cat [Bol; Star Space; OneOf "-*+"; Star Space])
    with (Seq Bol (Seq (Star Space) (Seq (OneOf "-*+") (Star Space)))).
  rewrite replace_bol. cbn [rmatch].
  destruct s as [|a t].
  - rewrite star_space_none by reflexivity. reflexivity.
  - simpl in Hs. apply orb_false_iff in Hs. destruct Hs as [Hsp Hb].
    rewrite star_space_none by (cbn [input starts_with]; exact Hsp).
    unfold OneOf. cbn [rmatch input]. fold (bullet a). now rewrite Hb.
Qed.

End SectionFacts.

(** X17. The markers in front of a line make no difference to
    [parseSectionMeta] either: with a heading marker, a bullet and a
    number, each of them there or not, in that order, before a text that
    starts with a letter, and no line terminator after the heading marker,
    the line is recognized as the text alone is. *)
Theorem section_markers_are_ignored (m1 m2 m3 : string) (a : ascii)
    (t : string) :
  optional heading_marker m1 = true ->
  optional bullet_marker m2 = true ->
  optional number_marker m3 = true ->
  Chr.is_alpha a = true ->
  Text.all Chr.dot (m2 ++ m3 ++ String a t) = true ->
  parseSectionMeta (m1 ++ m2 ++ m3 ++ String a t)
  = parseSectionMeta (String a t).
Proof.
  intros H1 H2 H3 Ha Hdot.
  destruct (MarkerFacts.kinds a) as (_ & _ & Hka).
  destruct (Hka Ha) as (Hsp & Hh & Hb & Hd). clear Hka.
  assert (Hs3 : replace no_flags rx_number_marker (tmpl [])
                  (m3 ++ String a t) = String a t
                /\ exists c r, m3 ++ String a t = String c r
                               /\ Chr.is_space c = false /\ hash c = false
                               /\ bullet c = false).
  { destruct m3 as [|c3 m3'].
    - split; [|now exists a, t].
      apply MarkerFacts.number_keep. cbn [append starts_with].
      now rewrite Hsp, Hd.
    - cbn [optional] in H3. split.
      + apply MarkerFacts.number_strip; [exact H3|]. exact Hsp.
      + destruct (MarkerFacts.number_marker_first _ (String a t) H3)
          as (c & r & Hc & Hdig).
        destruct (MarkerFacts.kinds c) as (_ & Hk & _).
        destruct (Hk Hdig) as (? & ? & ?). now exists c, r. }
  destruct Hs3 as [Hs3 (c3 & r3 & Hc3 & Hsp3 & Hh3 & Hb3)].
  assert (Hs2 : replace no_flags rx_bullet_marker_loose (tmpl [])
                  (m2 ++ m3 ++ String a t) = m3 ++ String a t
                /\ exists c r, m2 ++ m3 ++ String a t = String c r
                               /\ Chr.is_space c = false /\ hash c = false).
  { destruct m2 as [|c2 m2'].
    - split; [|now exists c3, r3].
      apply SectionFacts.loose_keep. cbn [append]. rewrite Hc3.
      cbn [starts_with]. now rewrite Hsp3, Hb3.
    - cbn [optional] in H2. split.
      + apply SectionFacts.loose_strip; [exact H2|].
        rewrite Hc3. exact Hsp3.
      + destruct (MarkerFacts.bullet_marker_first _ (m3 ++ String a t) H2)
          as (c & r & Hc & Hbul).
        destruct (MarkerFacts.kinds c) as (Hk & _).
        destruct (Hk Hbul) as (? & ?). now exists c, r. }
  destruct Hs2 as [Hs2 (c2 & r2 & Hc2 & Hsp2 & Hh2)].
  assert (Hraw : match exec no_flags rx_heading_line
                         (m1 ++ m2 ++ m3 ++ String a t) with
                 | Some (_, _, headingMatch) => group 2 headingMatch
                 | None => m1 ++ m2 ++ m3 ++ String a t
                 end = m2 ++ m3 ++ String a t).
  { destruct m1 as [|c1 m1'].
    - cbn [append]. rewrite SectionFacts.heading_line_none; [reflexivity|].
      rewrite Hc2. exact Hh2.
    - cbn [optional] in H1.
      destruct (SectionFacts.heading_line_raw (String c1 m1')
                  (m2 ++ m3 ++ String a t) H1)
        as (pre & mt & y & -> & Hg).
      + rewrite Hc2. exact Hsp2.
      + rewrite Hc2. discriminate.
      + exact Hdot.
      + exact Hg. }
  unfold parseSectionMeta. rewrite Hraw, Hs2, Hs3.
  rewrite (SectionFacts.heading_line_none (String a t)) by exact Hh.
  rewrite (SectionFacts.loose_keep (String a t))
    by (cbn [starts_with]; now rewrite Hsp, Hb).
  rewrite (MarkerFacts.number_keep (String a t))
    by (cbn [starts_with]; now rewrite Hsp, Hd).
  reflexivity.
Qed.

Lemma section_markers_are_ignored_witness :
  parseSectionMeta ("## " ++ "- " ++ "1. " ++ "Phase 2: Build")
  = parseSectionMeta "Phase 2: Build".
Proof.
  apply (section_markers_are_ignored "## " "- " "1. " "P" "hase 2: Build");
    reflexivity.
Defined.

(** ** Phase headings *)

Module PhaseFacts.
Import Text Matcher Sanitizer StrFacts ReFacts SanitizerFacts MarkerFacts.

Lemma word_chars (a : ascii) :
  (char_eq fl_i "p" a || char_eq fl_i "h" a || char_eq fl_i "a" a
   || char_eq fl_i "s" a || char_eq fl_i "e" a = true ->
   Chr.is_alpha a = true)
  /\ (Chr.is_alpha a = true -> no_star a = true)
  /\ (Chr.is_space a = true -> no_star a = true)
  /\ (Chr.is_digit a = true -> no_star a = true).
Proof.
  destruct a as [[] [] [] [] [] [] [] []]; vm_compute;
    repeat split; congruence.
Qed.

Lemma class_no_star (p : ascii -> bool) (s : string) :
  (forall a, p a = true -> no_star a = true) ->
  all p s = true -> all no_star s = true.
Proof.
  intros Hp. induction s as [|c s IH]; [reflexivity|]. simpl. intros H.
  apply andb_true_iff in H. destruct H as [Hc Hs].
  now rewrite (Hp c Hc), IH.
Qed.

(** The word [phase] in any case: five letters *)
Lemma spells_phase (p : string) :
  spells "phase" p = true ->
  all Chr.is_alpha p = true
  /\ exists a0 p0, p = String a0 p0 /\ Chr.is_alpha a0 = true.
Proof.
  unfold spells. intros H.
  destruct p as [|a0 [|a1 [|a2 [|a3 [|a4 p5]]]]]; cbn [strip_ci] in H;
    try discriminate;
    repeat match type of H with
           | context [char_eq fl_i ?c ?a] =>
             let E := fresh "E" in
             destruct (char_eq fl_i c a) eqn:E; try discriminate
           end.
  assert (forall a, char_eq fl_i "p" a = true \/ char_eq fl_i "h" a = true
                    \/ char_eq fl_i "a" a = true \/ char_eq fl_i "s" a = true
                    \/ char_eq fl_i "e" a = true -> Chr.is_alpha a = true)
    as Hw.
  { intros a Ha. apply (proj1 (word_chars a)).
    destruct Ha as [->|[->|[->|[->| ->]]]];
      rewrite ?orb_true_r; reflexivity. }
  assert (Chr.is_alpha a0 = true) as H0 by (apply Hw; auto).
  split; [|now exists a0, (String a1 (String a2 (String a3 (String a4 p5))))].
  destruct p5; [|discriminate]. simpl.
  rewrite H0, (Hw a1), (Hw a2), (Hw a3), (Hw a4); auto 6.
Qed.

Lemma lit_state_spelled (l : string) :
  forall p x r,
    strip_ci l p = Some "" -> input x = p ++ r ->
    lit_state fl_i l x = Some (after p r x).
Proof.
  induction l as [|c l IH]; intros p x r Hp Hx.
  - simpl in Hp. injection Hp as ->. simpl in Hx. simpl.
    destruct x; simpl in Hx. now subst.
  - cbn [strip_ci] in Hp. destruct p as [|a p]; [discriminate|].
    destruct (char_eq fl_i c a) eqn:Hc; [|discriminate].
    cbn [lit_state]. rewrite Hx. cbn [append]. rewrite Hc.
    rewrite (IH p (advance a (p ++ r) x) r Hp eq_refl).
    now rewrite after_advance.
Qed.

(** [**] is not found in a text without asterisk: the text is copied. *)
Lemma stars_prefix (u : string) :
  all no_star u = true ->
  forall s bef,
    replace_all_from no_flags (lit "**") (tmpl []) 0 bef (u ++ s)
    = u ++ replace_all_from no_flags (lit "**") (tmpl []) 0 (last_of u bef) s.
Proof.
  induction u as [|c u IH]; intros Hu s bef; [reflexivity|].
  simpl in Hu. apply andb_true_iff in Hu. destruct Hu as [Hc Hu].
  change (String c u ++ s) with (String c (u ++ s)).
  rewrite NormalFacts.replace_all_from_0.
  assert (Hno : match_at no_flags (lit "**") (MState bef (String c (u ++ s)) [])
                = None).
  { unfold match_at. change (lit "**") with (Seq (Char "*") (Char "*")).
    cbn [rmatch input]. unfold char_eq. cbn [ignoreCase no_flags].
    unfold no_star in Hc. apply negb_true_iff in Hc. now rewrite Hc. }
  rewrite Hno, (IH Hu). reflexivity.
Qed.

Lemma trimStart_keep (x y : string) :
  starts_with Chr.is_space y = false ->
  Str.trimStart (x ++ y) = Str.trimStart x ++ y.
Proof.
  intros Hy. induction x as [|a x IH].
  - destruct y as [|c y]; [reflexivity|]. simpl in *. now rewrite Hy.
  - change (String a x ++ y) with (String a (x ++ y)).
    cbn [Str.trimStart]. destruct (Chr.is_space a); [exact IH|reflexivity].
Qed.

(** [trim] leaves a start that has no white space at either end. *)
Lemma trim_prefix (u s : string) :
  starts_with Chr.is_space u = false ->
  starts_with Chr.is_space (Str.rev u) = false ->
  u <> "" ->
  Str.trim (u ++ s) = u ++ Str.trimEnd s.
Proof.
  intros Hu Hr Hne. unfold Str.trim.
  assert (Hstart : Str.trimStart (u ++ s) = u ++ s).
  { destruct u as [|c u]; [congruence|]. simpl in *. now rewrite Hu. }
  rewrite Hstart. unfold Str.trimEnd.
  rewrite rev_append, (trimStart_keep _ _ Hr), rev_append, rev_involutive.
  reflexivity.
Qed.

(** The phase pattern on a phase heading *)
Lemma phase_match (p ws ds ws' r : string) :
  spells "phase" p = true -> spaces1 ws = true -> digits1 ds = true ->
  all Chr.is_space ws' = true ->
  exists pre mt z,
    exec fl_i rx_phase (p ++ ws ++ ds ++ ws' ++ String ":" r)
    = Some (pre, mt, z)
    /\ group 1 z = ds.
Proof.
  intros Hp Hws Hds Hws'.
  unfold spaces1 in Hws. apply andb_true_iff in Hws.
  destruct Hws as [Hwl Hwall]. apply Nat.leb_le in Hwl.
  unfold digits1 in Hds. apply andb_true_iff in Hds.
  destruct Hds as [Hdl Hdall]. apply Nat.leb_le in Hdl.
  assert (Hd0 : exists d ds', ds = String d ds' /\ Chr.is_digit d = true).
  { destruct ds as [|d ds']; [simpl in Hdl; lia|]. simpl in Hdall.
    apply andb_true_iff in Hdall. destruct Hdall as [Hd _]. eauto. }
  destruct Hd0 as (d & ds' & Hdeq & Hd).
  destruct (kinds d) as (_ & Hkd & _). destruct (Hkd Hd) as (Hdsp & _).
  set (s3 := ws' ++ String ":" r).
  assert (Hs3 : starts_with Chr.is_digit s3 = false).
  { unfold s3. destruct ws' as [|w ws'']; [reflexivity|].
    simpl in Hws'. apply andb_true_iff in Hws'. destruct Hws' as [Hw _].
    cbn [append starts_with].
    destruct (Chr.is_digit w) eqn:Hwd; [|reflexivity].
    destruct (kinds w) as (_ & Hk & _). destruct (Hk Hwd) as (Hn & _).
    congruence. }
  destruct (run_then Chr.is_space ws (ds ++ s3) Hwall) as [Ht1 Hd1].
  { rewrite Hdeq. exact Hdsp. }
  destruct (run_then Chr.is_digit ds s3 Hdall Hs3) as [Ht2 Hd2].
  destruct (run_then Chr.is_space ws' (String ":" r) Hws' eq_refl)
    as [Ht3 Hd3].
  set (x := MState None (p ++ ws ++ ds ++ s3) []).
  set (x1 := after p (ws ++ ds ++ s3) x).
  set (x2 := after ws (ds ++ s3) x1).
  set (x3 := set_cap 1 (consumed x2 (after ds s3 x2)) (after ds s3 x2)).
  set (x4 := after ws' (String ":" r) x3).
  set (z := advance ":" r x4).
  exists "", (consumed x z), z. split.
  - apply SectionFacts.exec_here. unfold match_at, rx_phase.
    change (cat [Bol; lit "phase"; Plus Space; Group 1 (Plus Digit);
                 Star Space; Char ":"])
      with (Seq Bol
              (Seq (lit "phase")
                 (Seq (Plus Space)
                    (Seq (Group 1 (Plus Digit))
                       (Seq (Star Space) (Char ":")))))).
    cbn [rmatch at_bol before]. fold x. rewrite rmatch_lit.
    unfold spells in Hp.
    destruct (strip_ci "phase" p) as [[|? ?]|] eqn:Hstrip; try discriminate.
    rewrite (lit_state_spelled "phase" p x (ws ++ ds ++ s3) Hstrip eq_refl).
    fold x1.
    match goal with
    | |- rmatch fl_i (Plus Space) ?k x1 = _ =>
      change (repeat_matcher (rmatch fl_i (Class Chr.is_space)) k true
                (S (1 + String.length (ws ++ ds ++ s3))) 1 None x1 = Some z)
    end.
    apply repeat_class_run.
    + unfold len, x1. simpl. lia.
    + exact I.
    + replace (input x1) with (ws ++ ds ++ s3) by reflexivity.
      now rewrite Ht1.
    + replace (input x1) with (ws ++ ds ++ s3) by reflexivity.
      rewrite Ht1, Hd1. cbv beta. fold x2.
      match goal with
      | |- rmatch fl_i (Plus Digit) ?k x2 = _ =>
        change (repeat_matcher (rmatch fl_i (Class Chr.is_digit)) k true
                  (S (1 + String.length (ds ++ s3))) 1 None x2 = Some z)
      end.
      apply repeat_class_run.
      * unfold len, x2. simpl. lia.
      * exact I.
      * replace (input x2) with (ds ++ s3) by reflexivity. now rewrite Ht2.
      * replace (input x2) with (ds ++ s3) by reflexivity.
        rewrite Ht2, Hd2. cbv beta. fold x3.
        match goal with
        | |- rmatch fl_i (Star Space) ?k x3 = _ =>
          change (repeat_matcher (rmatch fl_i (Class Chr.is_space)) k true
                    (S (0 + String.length s3)) 0 None x3 = Some z)
        end.
        apply repeat_class_run.
        -- unfold len, x3. simpl. lia.
        -- exact I.
        -- lia.
        -- replace (input x3) with s3 by reflexivity. unfold s3.
           rewrite Ht3, Hd3. cbv beta. fold x4.
           cbn [rmatch]. replace (input x4) with (String ":" r) by reflexivity.
           change (char_eq fl_i ":" ":") with true. cbv iota. reflexivity.
  - unfold z, x4, x3, group. cbn [advance after set_cap caps lookup_cap Nat.eqb].
    apply NormalFacts.consumed_after. reflexivity.
Qed.

End PhaseFacts.

(** X18. A line that spells [phase] in any letter case, then white space,
    digits, white space or none, and a colon, is a phase section whatever
    follows the colon: its number is the Number of the digits, and its
    title is [toTitleCase] of the line without [**] and trimmed. *)
Theorem phase_heading_is_recognized (p ws ds ws' rest : string) :
  spells "phase" p = true ->
  spaces1 ws = true ->
  digits1 ds = true ->
  Text.all Chr.is_space ws' = true ->
  parseSectionMeta (p ++ ws ++ ds ++ ws' ++ String ":" rest)
  = Some (Section_ "phase" (Number ds)
            (toTitleCase
               (Str.trim
                  (replace_all no_flags (lit "**") (tmpl [])
                     (p ++ ws ++ ds ++ ws' ++ String ":" rest))))
            []).
Proof.
  intros Hp Hws Hds Hws'.
  destruct (PhaseFacts.spells_phase p Hp) as [Hpall (a0 & p0 & Hpeq & Ha0)].
  destruct (MarkerFacts.kinds a0) as (_ & _ & Hka).
  destruct (Hka Ha0) as (Hsp & Hh & Hb & Hd). clear Hka.
  set (line := p ++ ws ++ ds ++ ws' ++ String ":" rest).
  assert (Hline : line = String a0 (p0 ++ ws ++ ds ++ ws' ++ String ":" rest)).
  { unfold line. now rewrite Hpeq. }
  unfold parseSectionMeta.
  rewrite (SectionFacts.heading_line_none line)
    by (rewrite Hline; exact Hh).
  rewrite (SectionFacts.loose_keep line)
    by (rewrite Hline; cbn [starts_with]; now rewrite Hsp, Hb).
  rewrite (MarkerFacts.number_keep line)
    by (rewrite Hline; cbn [starts_with]; now rewrite Hsp, Hd).
  set (u := p ++ ws ++ ds ++ ws' ++ ":").
  assert (Hu : line = u ++ rest).
  { unfold line, u. rewrite !StrFacts.append_assoc. reflexivity. }
  assert (Hstar : Text.all no_star u = true).
  { unfold u. rewrite !StrFacts.all_append.
    unfold spaces1 in Hws. apply andb_true_iff in Hws.
    unfold digits1 in Hds. apply andb_true_iff in Hds.
    rewrite (PhaseFacts.class_no_star Chr.is_alpha p
               (fun a => proj1 (proj2 (PhaseFacts.word_chars a))) Hpall).
    rewrite (PhaseFacts.class_no_star Chr.is_space ws
               (fun a => proj1 (proj2 (proj2 (PhaseFacts.word_chars a))))
               (proj2 Hws)).
    rewrite (PhaseFacts.class_no_star Chr.is_digit ds
               (fun a => proj2 (proj2 (proj2 (PhaseFacts.word_chars a))))
               (proj2 Hds)).
    rewrite (PhaseFacts.class_no_star Chr.is_space ws'
               (fun a => proj1 (proj2 (proj2 (PhaseFacts.word_chars a))))
               Hws').
    reflexivity. }
  assert (Hnorm : exists r,
             Str.trim (replace_all no_flags (lit "**") (tmpl []) line)
             = p ++ ws ++ ds ++ ws' ++ String ":" r).
  { unfold replace_all. rewrite Hu, (PhaseFacts.stars_prefix u Hstar).
    rewrite PhaseFacts.trim_prefix.
    - eexists. unfold u. rewrite !StrFacts.append_assoc. reflexivity.
    - unfold u. rewrite Hpeq. exact Hsp.
    - unfold u. rewrite <- !StrFacts.append_assoc.
      rewrite SanitizerFacts.rev_append. reflexivity.
    - unfold u. rewrite Hpeq. discriminate. }
  destruct Hnorm as [r Hnorm].
  destruct (PhaseFacts.phase_match p ws ds ws' r Hp Hws Hds Hws')
    as (pre & mt & z & Hexec & Hgroup).
  rewrite Hnorm at 1. rewrite Hexec, Hgroup. reflexivity.
Qed.

Lemma phase_heading_is_recognized_witness :
  parseSectionMeta ("PHASE" ++ "  " ++ "03" ++ " " ++ String ":" " **Build** it ")
  = Some (Section_ "phase" (Fin 3) "PHASE 03 : Build It" []).
Proof.
  rewrite (phase_heading_is_recognized "PHASE" "  " "03" " " " **Build** it ");
    reflexivity.
Defined.

(** ** The heading of the tutorials *)

Module TutorialFacts.
Import Text Matcher Sanitizer StrFacts ReFacts SanitizerFacts MarkerFacts.

Lemma letters (a : ascii) :
  (char_eq fl_i "y" a = true ->
   char_eq fl_i "p" a = false /\ Chr.is_alpha a = true)
  /\ (char_eq fl_i "t" a || char_eq fl_i "u" a || char_eq fl_i "o" a
      || char_eq fl_i "r" a || char_eq fl_i "i" a || char_eq fl_i "a" a
      || char_eq fl_i "l" a || char_eq fl_i "s" a = true ->
      Chr.is_alpha a = true)
  /\ (Chr.is_alpha a = true -> Chr.is_word a = true).
Proof.
  destruct a as [[] [] [] [] [] [] [] []]; vm_compute;
    repeat split; congruence.
Qed.

Lemma spells_yt (y : string) :
  spells "yt" y = true ->
  exists a0 a1,
    y = String a0 (String a1 "")
    /\ char_eq fl_i "p" a0 = false
    /\ Chr.is_alpha a0 = true /\ Chr.is_alpha a1 = true.
Proof.
  unfold spells. intros H.
  destruct y as [|a0 [|a1 y2]]; cbn [strip_ci] in H; try discriminate;
    repeat match type of H with
           | context [char_eq fl_i ?c ?a] =>
             let E := fresh "E" in
             destruct (char_eq fl_i c a) eqn:E; try discriminate
           end.
  destruct y2; [|discriminate].
  destruct (proj1 (letters a0) E) as [Hp Ha0].
  exists a0, a1. repeat split; try assumption.
  apply (proj1 (proj2 (letters a1))). now rewrite E0.
Qed.

Lemma spells_tutorials (w : string) :
  spells "tutorials" w = true ->
  all Chr.is_alpha w = true
  /\ (exists a0 w0, w = String a0 w0 /\ Chr.is_alpha a0 = true)
  /\ (exists c u, Str.rev w = String c u /\ Chr.is_alpha c = true)
  /\ forall b, exists c, last_of w b = Some c /\ Chr.is_alpha c = true.
Proof.
  unfold spells. intros H.
  destruct w as [|a0 [|a1 [|a2 [|a3 [|a4 [|a5 [|a6 [|a7 [|a8 w9]]]]]]]]];
    cbn [strip_ci] in H; try discriminate;
    repeat match type of H with
           | context [char_eq fl_i ?c ?a] =>
             let E := fresh "E" in
             destruct (char_eq fl_i c a) eqn:E; try discriminate
           end.
  destruct w9; [|discriminate].
  assert (forall a, char_eq fl_i "t" a = true \/ char_eq fl_i "u" a = true
                    \/ char_eq fl_i "o" a = true \/ char_eq fl_i "r" a = true
                    \/ char_eq fl_i "i" a = true \/ char_eq fl_i "a" a = true
                    \/ char_eq fl_i "l" a = true \/ char_eq fl_i "s" a = true
                    -> Chr.is_alpha a = true) as Hw.
  { intros a Ha. apply (proj1 (proj2 (letters a))).
    destruct Ha as [->|[->|[->|[->|[->|[->|[->| ->]]]]]]];
      rewrite ?orb_true_r; reflexivity. }
  assert (Chr.is_alpha a0 = true) as H0 by (apply Hw; auto).
  assert (Chr.is_alpha a8 = true) as H8 by (apply Hw; auto 10).
  split; [|split; [|split]].
  - simpl.
    rewrite H0, (Hw a1), (Hw a2), (Hw a3), (Hw a4), (Hw a5), (Hw a6),
      (Hw a7), H8; auto 10.
  - eauto.
  - exists a8. eexists. split; [reflexivity|exact H8].
  - intros b. exists a8. split; [reflexivity|exact H8].
Qed.

Lemma trimEnd_first (s : string) :
  starts_with Chr.is_word s = false ->
  starts_with Chr.is_word (Str.trimEnd s) = false.
Proof.
  intros Hs. destruct (trimEnd_prefix s) as [w Hw].
  destruct (Str.trimEnd s) as [|c t]; [reflexivity|].
  rewrite Hw in Hs. exact Hs.
Qed.

Lemma no_stars (s : string) :
  all no_star s = true ->
  replace_all no_flags (lit "**") (tmpl []) s = s.
Proof.
  intros Hs. unfold replace_all.
  rewrite <- (append_nil_r s) at 1.
  rewrite (PhaseFacts.stars_prefix s Hs). cbn [replace_all_from].
  unfold match_at. change (lit "**") with (Seq (Char "*") (Char "*")).
  cbn [rmatch input]. apply append_nil_r.
Qed.

(** The pattern of the tutorials on their heading *)
Lemma yt_match (y ws w r : string) :
  spells "yt" y = true -> all Chr.is_space ws = true ->
  spells "tutorials" w = true ->
  starts_with Chr.is_word r = false ->
  test fl_i rx_yt (y ++ ws ++ w ++ r) = true.
Proof.
  intros Hy Hws Hw Hr.
  destruct (spells_tutorials w Hw) as (_ & (a0 & w0 & Hweq & Ha0) & _ & Hlast).
  destruct (kinds a0) as (_ & _ & Hk). destruct (Hk Ha0) as (Hsp & _).
  destruct (run_then Chr.is_space ws (w ++ r) Hws) as [Ht Hd].
  { rewrite Hweq. exact Hsp. }
  set (x := MState None (y ++ ws ++ w ++ r) []).
  set (x1 := after y (ws ++ w ++ r) x).
  set (x2 := after ws (w ++ r) x1).
  set (z := after w r x2).
  unfold test, exec.
  rewrite (SectionFacts.exec_here fl_i rx_yt None _ z); [reflexivity|].
  unfold match_at, rx_yt.
  change (cat [Bol; lit "yt"; Star Space; lit "tutorials"; WordB])
    with (Seq Bol
            (Seq (lit "yt")
               (Seq (Star Space) (Seq (lit "tutorials") WordB)))).
  cbn [rmatch at_bol before]. fold x. rewrite rmatch_lit.
  unfold spells in Hy, Hw.
  destruct (strip_ci "yt" y) as [[|? ?]|] eqn:Hsy; try discriminate.
  destruct (strip_ci "tutorials" w) as [[|? ?]|] eqn:Hsw; try discriminate.
  rewrite (PhaseFacts.lit_state_spelled "yt" y x (ws ++ w ++ r) Hsy eq_refl).
  fold x1.
  match goal with
  | |- rmatch fl_i (Star Space) ?k x1 = _ =>
    change (repeat_matcher (rmatch fl_i (Class Chr.is_space)) k true
              (S (0 + String.length (ws ++ w ++ r))) 0 None x1 = Some z)
  end.
  apply repeat_class_run.
  - unfold len, x1. simpl. lia.
  - exact I.
  - lia.
  - replace (input x1) with (ws ++ w ++ r) by reflexivity.
    rewrite Ht, Hd. cbv beta. fold x2. rewrite rmatch_lit.
    rewrite (PhaseFacts.lit_state_spelled "tutorials" w x2 r Hsw eq_refl).
    fold z. cbn [rmatch]. unfold at_word_boundary, z, after.
    cbn [before input].
    destruct (Hlast (before x2)) as (c & -> & Hc).
    rewrite (proj2 (proj2 (letters c)) Hc).
    destruct r as [|b r']; [reflexivity|]. simpl in Hr. now rewrite Hr.
Qed.

Lemma phase_not_yt (y s : string) :
  spells "yt" y = true -> exec fl_i rx_phase (y ++ s) = None.
Proof.
  intros Hy. destruct (spells_yt y Hy) as (a0 & a1 & -> & Hp & _).
  unfold exec, rx_phase.
  change (cat [Bol; lit "phase"; Plus Space; Group 1 (Plus Digit);
               Star Space; Char ":"])
    with (Seq Bol
            (Seq (lit "phase")
               (Seq (Plus Space)
                  (Seq (Group 1 (Plus Digit))
                     (Seq (Star Space) (Char ":")))))).
  cbn [append exec_from]. unfold match_at. cbn [rmatch at_bol before].
  rewrite rmatch_lit. cbn [lit_state input]. rewrite Hp.
  now rewrite ClassifierFacts.exec_anchored.
Qed.

End TutorialFacts.

(** X19. A line that spells [yt] and [tutorials] in any letter case, with
    white space or none between them, followed by nothing or by a text
    without asterisk that does not start with a word character, is the
    section of the tutorials: its type is [yt], its title [YT Tutorials],
    and its number the largest safe integer. *)
Theorem tutorials_heading_is_recognized (y ws w rest : string) :
  spells "yt" y = true ->
  Text.all Chr.is_space ws = true ->
  spells "tutorials" w = true ->
  Text.all no_star rest = true ->
  starts_with Chr.is_word rest = false ->
  parseSectionMeta (y ++ ws ++ w ++ rest)
  = Some (Section_ "yt" MAX_SAFE_INTEGER "YT Tutorials" []).
Proof.
  intros Hy Hws Hw Hstar Hrest.
  destruct (TutorialFacts.spells_yt y Hy) as (a0 & a1 & Hyeq & _ & Ha0 & Ha1).
  destruct (TutorialFacts.spells_tutorials w Hw)
    as (Hwall & _ & (c & u' & Hrev & Hc) & _).
  destruct (MarkerFacts.kinds a0) as (_ & _ & Hka).
  destruct (Hka Ha0) as (Hsp & Hh & Hb & Hd). clear Hka.
  destruct (MarkerFacts.kinds c) as (_ & _ & Hkc).
  destruct (Hkc Hc) as (Hcsp & _). clear Hkc.
  set (line := y ++ ws ++ w ++ rest).
  assert (Hline : line = String a0 (String a1 (ws ++ w ++ rest))).
  { unfold line. now rewrite Hyeq. }
  unfold parseSectionMeta.
  rewrite (SectionFacts.heading_line_none line)
    by (rewrite Hline; exact Hh).
  rewrite (SectionFacts.loose_keep line)
    by (rewrite Hline; cbn [starts_with]; now rewrite Hsp, Hb).
  rewrite (MarkerFacts.number_keep line)
    by (rewrite Hline; cbn [starts_with]; now rewrite Hsp, Hd).
  assert (Hall : Text.all no_star line = true).
  { unfold line. rewrite Hyeq, !StrFacts.all_append.
    rewrite (PhaseFacts.class_no_star Chr.is_space ws
               (fun a => proj1 (proj2 (proj2 (PhaseFacts.word_chars a))))
               Hws).
    rewrite (PhaseFacts.class_no_star Chr.is_alpha w
               (fun a => proj1 (proj2 (PhaseFacts.word_chars a))) Hwall).
    rewrite Hstar. simpl.
    rewrite (proj1 (proj2 (PhaseFacts.word_chars a0)) Ha0).
    now rewrite (proj1 (proj2 (PhaseFacts.word_chars a1)) Ha1). }
  rewrite (TutorialFacts.no_stars line Hall).
  assert (Hnorm : Str.trim line = y ++ ws ++ w ++ Str.trimEnd rest).
  { unfold line. rewrite <- !StrFacts.append_assoc.
    rewrite PhaseFacts.trim_prefix.
    - reflexivity.
    - rewrite Hyeq. exact Hsp.
    - rewrite SanitizerFacts.rev_append, Hrev. exact Hcsp.
    - rewrite Hyeq. discriminate. }
  rewrite Hnorm, (TutorialFacts.phase_not_yt y _ Hy).
  rewrite (TutorialFacts.yt_match y ws w _ Hy Hws Hw
             (TutorialFacts.trimEnd_first rest Hrest)).
  reflexivity.
Qed.

Lemma tutorials_heading_is_recognized_witness :
  parseSectionMeta ("Yt" ++ "" ++ "Tutorials" ++ " (2025) ")
  = Some (Section_ "yt" MAX_SAFE_INTEGER "YT Tutorials" []).
Proof.
  apply (tutorials_heading_is_recognized "Yt" "" "Tutorials" " (2025) ");
    reflexivity.
Defined.

(** ** Titles *)

Module TitleFacts.
Import Text Matcher StrFacts ReFacts.

Lemma upper (c : ascii) :
  Chr.is_lower (Chr.to_upper c) = false
  /\ Chr.is_word (Chr.to_upper c) = Chr.is_word c
  /\ Chr.is_space (Chr.to_upper c) = Chr.is_space c
  /\ (Chr.is_lower c = true -> Chr.is_word c = true).
Proof.
  destruct c as [[] [] [] [] [] [] [] []]; vm_compute;
    repeat split; congruence.
Qed.

(** The matches of [\b\w] *)
Lemma word_start_match (bef : option ascii) (s : string) :
  match_at no_flags (cat [WordB; Word]) (MState bef s [])
  = match s with
    | String c t =>
      if xorb (after_word_char bef) (Chr.is_word c) && Chr.is_word c
      then Some (MState (Some c) t [])
      else None
    | "" => None
    end.
Proof.
  unfold match_at. change (cat [WordB; Word]) with (Seq WordB Word).
  cbn [rmatch]. unfold at_word_boundary, after_word_char, Word.
  cbn [before input rmatch].
  destruct s as [|c t].
  - now destruct (xorb _ false).
  - destruct bef as [b|]; destruct (Chr.is_word c);
      try destruct (Chr.is_word b); reflexivity.
Qed.

(** The last pass of [toTitleCase] *)
Lemma capitals (s : string) :
  forall bef,
    title_cased (after_word_char bef)
      (replace_all_from no_flags (cat [WordB; Word])
         (fun m _ => Str.toUpperCase m) 0 bef s) = true
    /\ String.length
         (take_while Chr.is_space
            (replace_all_from no_flags (cat [WordB; Word])
               (fun m _ => Str.toUpperCase m) 0 bef s))
       = String.length (take_while Chr.is_space s)
    /\ forall n,
         runs_below Chr.is_space n
           (replace_all_from no_flags (cat [WordB; Word])
              (fun m _ => Str.toUpperCase m) 0 bef s)
         = runs_below Chr.is_space n s.
Proof.
  induction s as [|c t IH]; intros bef.
  - cbn [replace_all_from]. rewrite word_start_match. now repeat split.
  - rewrite NormalFacts.replace_all_from_0, word_start_match.
    destruct (IH (Some c)) as (IHt & IHl & IHr).
    destruct (upper c) as (Hlow & Hword & Hspace & Hlw).
    destruct (xorb (after_word_char bef) (Chr.is_word c) && Chr.is_word c)
      eqn:Hm.
    + rewrite EscapeFacts.consumed_one. cbn [String.length Str.toUpperCase].
      change (Str.toUpperCase (String c ""))
        with (String (Chr.to_upper c) "").
      cbn [append title_cased take_while runs_below].
      rewrite Hlow, Hword, Hspace. cbn [negb orb andb].
      cbn [after_word_char] in IHt. rewrite IHt.
      split; [reflexivity|]. split.
      * destruct (Chr.is_space c); [|reflexivity].
        cbn [String.length]. now rewrite IHl.
      * intros n. rewrite IHr.
        destruct (Chr.is_space c); [|reflexivity].
        cbn [String.length]. now rewrite IHl.
    + cbn [title_cased take_while runs_below].
      cbn [after_word_char] in IHt. rewrite IHt, andb_true_r.
      split; [|split].
      * destruct (Chr.is_lower c) eqn:Hl; [|reflexivity].
        rewrite (Hlw eq_refl) in Hm. rewrite andb_true_r in Hm.
        destruct (after_word_char bef); [reflexivity|discriminate].
      * destruct (Chr.is_space c); [|reflexivity].
        cbn [String.length]. now rewrite IHl.
      * intros n. rewrite IHr.
        destruct (Chr.is_space c); [|reflexivity].
        cbn [String.length]. now rewrite IHl.
Qed.

(** The matches of [\s+] *)
Lemma spaces_match (bef : option ascii) (s : string) :
  match_at no_flags (Plus Space) (MState bef s [])
  = if (1 <=? String.length (take_while Chr.is_space s))%nat
    then Some (after (take_while Chr.is_space s) (drop_while Chr.is_space s)
                 (MState bef s []))
    else None.
Proof.
  unfold match_at, Plus, Space. cbn [rmatch].
  apply (repeat_class_greedy no_flags Chr.is_space _ 1 (MState bef s [])).
  unfold len. simpl. lia.
Qed.

Lemma single_spaces (s : string) :
  runs_below Chr.is_space 2
    (replace_all no_flags (Plus Space) (tmpl [T " "]) s) = true.
Proof.
  unfold replace_all.
  apply (NormalFacts.runs_replaced no_flags (Plus Space) Chr.is_space 1 2 " "
           ltac:(lia) ltac:(lia) eq_refl ltac:(simpl; lia) spaces_match
           (String.length s) s (Nat.le_refl _) None).
Qed.

End TitleFacts.

(** X20. In a title made by [toTitleCase] each of the letters [a] to [z]
    follows a word character ([A-Za-z0-9_], the class [\w] of the pattern
    [/\b\w/g]): no word starts with one of them.  Letters outside that
    range are left as they are and count as no word character, so the
    letter after one is raised.  No two white-space characters stand in a
    row. *)
Theorem titles_are_capitalized (text : string) :
  title_cased false (toTitleCase text) = true
  /\ runs_below Chr.is_space 2 (toTitleCase text) = true.
Proof.
  unfold toTitleCase, replace_all at 1.
  match goal with
  | |- context [replace_all_from _ _ _ 0 None ?s] =>
    destruct (TitleFacts.capitals s None) as (Ht & _ & Hr)
  end.
  split; [exact Ht|]. rewrite Hr. apply TitleFacts.single_spaces.
Qed.

(** ** Links *)

Module LinkFacts.
Import Text Matcher Sanitizer StrFacts ReFacts SanitizerFacts MarkerFacts.

(** A match of the whole text *)
Lemma whole_match (fl : flags) (r : regex) (by_ : replacement) (a : ascii)
    (t : string) (y : mstate) :
  match_at fl r (MState None (String a t) []) = Some y ->
  input y = "" ->
  (forall bef, match_at fl r (MState bef "" []) = None) ->
  replace_all fl r by_ (String a t) = by_ (String a t) y.
Proof.
  intros Hm Hy Hend. unfold replace_all.
  rewrite NormalFacts.replace_all_from_0, Hm.
  unfold consumed. rewrite Hy. cbn [input String.length].
  rewrite Nat.sub_0_r.
  change (S (String.length t)) with (String.length (String a t)).
  rewrite PlainFacts.take_all. cbn [String.length].
  replace (replace_all_from fl r by_ (String.length t) (Some a) t)
    with (replace_all_from fl r by_ (String.length t) (Some a) (t ++ ""))
    by (now rewrite append_nil_r).
  rewrite NormalFacts.replace_all_skip. cbn [replace_all_from].
  rewrite Hend. apply append_nil_r.
Qed.

(** The URL pattern inside the link pattern, on a URL that the closing
    parenthesis follows *)
Lemma url_in_link (k : cont) (x : mstate) (scheme body rest : string)
    (z : mstate) :
  In scheme ["http://"; "https://"] ->
  input x = scheme ++ body ++ String ")" rest ->
  (1 <=? String.length body)%nat = true ->
  all url_char body = true ->
  k (after (scheme ++ body) (String ")" rest) x) = Some z ->
  rmatch fl_i rx_url k x = Some z.
Proof.
  intros Hin Hx Hlen Hbody Hk. apply Nat.leb_le in Hlen.
  destruct (run_then url_char body (String ")" rest) Hbody eq_refl)
    as [Ht Hd].
  assert (Htail : forall y,
             input y = "://" ++ body ++ String ")" rest ->
             after body (String ")" rest) (after "://" (body ++ String ")" rest) y)
             = after (scheme ++ body) (String ")" rest) x ->
             rmatch fl_i (lit "://")
               (fun y0 => rmatch fl_i (Plus (Class url_char)) k y0) y
             = Some z).
  { intros y Hy Hafter. rewrite rmatch_lit.
    rewrite (HeadingFacts.lit_state_prefix fl_i "://" y
               (body ++ String ")" rest) Hy).
    match goal with
    | |- rmatch fl_i (Plus (Class url_char)) ?k0 ?y0 = _ =>
      change (repeat_matcher (rmatch fl_i (Class url_char)) k0 true
                (S (1 + String.length (body ++ String ")" rest))) 1 None y0
              = Some z)
    end.
    apply repeat_class_run.
    - unfold len. simpl. lia.
    - exact I.
    - cbn [after input]. now rewrite Ht.
    - cbn [after input]. rewrite Ht, Hd.
      unfold after in Hafter |- *. cbn [before caps] in Hafter |- *.
      rewrite Hafter. exact Hk. }
  unfold rx_url.
  change (cat [lit "http"; Opt (Char "s"); lit "://"; Plus (Class url_char)])
    with (Seq (lit "http")
            (Seq (Opt (Char "s"))
               (Seq (lit "://") (Plus (Class url_char))))).
  cbn [rmatch]. rewrite rmatch_lit.
  destruct Hin as [<-|[<-|[]]].
  - rewrite (HeadingFacts.lit_state_prefix fl_i "http" x
               ("://" ++ body ++ String ")" rest) Hx).
    rewrite rmatch_opt_char. cbn [after input append].
    change (char_eq fl_i "s" ":") with false. cbv beta iota.
    apply Htail; [reflexivity|].
    unfold after. cbn [before caps input].
    now rewrite !last_of_append.
  - rewrite (HeadingFacts.lit_state_prefix fl_i "http" x
               ("s://" ++ body ++ String ")" rest) Hx).
    rewrite rmatch_opt_char. cbn [after input append].
    change (char_eq fl_i "s" "s") with true. cbv beta iota.
    rewrite Htail; [reflexivity|reflexivity|].
    unfold after, advance. cbn [before caps input].
    now rewrite !last_of_append.
Qed.

Lemma rmatch_seq (fl : flags) (r1 r2 : regex) (k : cont) (x : mstate) :
  rmatch fl (Seq r1 r2) k x = rmatch fl r1 (fun y => rmatch fl r2 k y) x.
Proof. reflexivity. Qed.

Lemma rmatch_group (fl : flags) (n : nat) (r : regex) (k : cont)
    (x : mstate) :
  rmatch fl (Group n r) k x
  = rmatch fl r (fun y => k (set_cap n (consumed x y) y)) x.
Proof. reflexivity. Qed.

Lemma char_step (fl : flags) (c : ascii) (k : cont) (x : mstate) (a : ascii)
    (t : string) :
  input x = String a t -> char_eq fl c a = true ->
  rmatch fl (Char c) k x = k (advance a t x).
Proof. intros Hx Hc. cbn [rmatch]. now rewrite Hx, Hc. Qed.

(** A captured run of a class *)
Lemma group_run (fl : flags) (n lo : nat) (p : ascii -> bool) (k : cont)
    (x : mstate) (run rest : string) (z : mstate) :
  input x = run ++ rest ->
  all p run = true -> starts_with p rest = false ->
  lo <= String.length run ->
  k (set_cap n run (after run rest x)) = Some z ->
  rmatch fl (Group n (Rep lo None true (Class p))) k x = Some z.
Proof.
  intros Hx Hrun Hrest Hlo Hk.
  destruct (run_then p run rest Hrun Hrest) as [Ht Hd].
  rewrite rmatch_group.
  match goal with
  | |- rmatch fl (Rep lo None true (Class p)) ?k0 x = _ =>
    change (repeat_matcher (rmatch fl (Class p)) k0 true
              (S (lo + String.length (input x))) lo None x = Some z)
  end.
  apply repeat_class_run.
  - unfold len. lia.
  - exact I.
  - now rewrite Hx, Ht.
  - rewrite Hx, Ht, Hd. cbv beta.
    rewrite NormalFacts.consumed_after by exact Hx. exact Hk.
Qed.

(** The link pattern on a link *)
Lemma md_link_match (label scheme body : string) :
  In scheme ["http://"; "https://"] ->
  (1 <=? String.length body)%nat = true ->
  all url_char body = true ->
  (1 <=? String.length label)%nat = true ->
  all (not_char "]") label = true ->
  exists z,
    match_at fl_i rx_md_link
      (MState None (md_link label (scheme ++ body)) []) = Some z
    /\ input z = "" /\ group 1 z = label.
Proof.
  intros Hin Hblen Hbody Hllen Hlabel. apply Nat.leb_le in Hllen.
  set (tail := String "]" (String "(" ((scheme ++ body) ++ ")"))).
  set (x0 := MState None (md_link label (scheme ++ body)) []).
  set (x1 := advance "[" (label ++ tail) x0).
  set (x2 := set_cap 1 label (after label tail x1)).
  set (x3 := advance "(" ((scheme ++ body) ++ ")")
               (advance "]" (String "(" ((scheme ++ body) ++ ")")) x2)).
  set (x4 := after (scheme ++ body) ")" x3).
  set (z := advance ")" "" (set_cap 2 (consumed x3 x4) x4)).
  exists z. split; [|split; reflexivity].
  unfold match_at, rx_md_link.
  match goal with
  | |- rmatch _ (cat [?a; ?b; ?c; ?d; ?e; ?f]) _ _ = _ =>
    change (cat [a; b; c; d; e; f])
      with (Seq a (Seq b (Seq c (Seq d (Seq e f)))))
  end.
  rewrite rmatch_seq.
  rewrite (char_step fl_i "[" _ x0 "[" (label ++ tail) eq_refl eq_refl).
  fold x1. rewrite rmatch_seq.
  apply (group_run fl_i 1 1 (not_char "]") _ x1 label tail z eq_refl Hlabel
           eq_refl Hllen).
  fold x2. rewrite rmatch_seq.
  rewrite (char_step fl_i "]" _ x2 "]" (String "(" ((scheme ++ body) ++ ")"))
             eq_refl eq_refl).
  rewrite rmatch_seq.
  rewrite (char_step fl_i "(" _
             (advance "]" (String "(" ((scheme ++ body) ++ ")")) x2)
             "(" ((scheme ++ body) ++ ")") eq_refl eq_refl).
  fold x3. rewrite rmatch_seq, rmatch_group.
  apply (url_in_link _ x3 scheme body "" z Hin).
  - unfold x3. cbn [advance input]. now rewrite append_assoc.
  - exact Hblen.
  - exact Hbody.
  - fold x4.
    rewrite (char_step fl_i ")" _ (set_cap 2 (consumed x3 x4) x4) ")" ""
               eq_refl eq_refl).
    reflexivity.
Qed.

Lemma md_link_end (bef : option ascii) :
  match_at fl_i rx_md_link (MState bef "" []) = None.
Proof. reflexivity. Qed.

End LinkFacts.

(** X21. A markdown link is replaced by its label: for a label that is
    not empty, holds no [\]], has no white space at either end and none of
    the patterns of [stripLinksFromMarkdown] in it, and a URL made of
    [http://] or [https://] and characters of the URL class,
    [stripLinksFromMarkdown] of the link is the label. *)
Theorem link_becomes_label (label scheme body : string) :
  In scheme ["http://"; "https://"] ->
  (1 <=? String.length body)%nat = true ->
  Text.all url_char body = true ->
  Text.all (not_char "]") label = true ->
  Text.tight label ->
  link_free label = true ->
  stripLinksFromMarkdown (md_link label (scheme ++ body)) = label.
Proof.
  intros Hin Hblen Hbody Hlabel Htight Hfree.
  assert (Hllen : (1 <=? String.length label)%nat = true).
  { destruct Htight as [(a & t & -> & _) _]. reflexivity. }
  destruct (LinkFacts.md_link_match label scheme body Hin Hblen Hbody Hllen
              Hlabel) as (z & Hm & Hz & Hg).
  unfold link_free in Hfree.
  apply andb_true_iff in Hfree. destruct Hfree as [Hfree Hlines].
  apply andb_true_iff in Hfree. destruct Hfree as [Hfree Hblanks].
  apply andb_true_iff in Hfree. destruct Hfree as [Hurl Hauto].
  apply negb_true_iff in Hurl, Hauto, Hblanks, Hlines.
  unfold md_link in *. cbn [append] in *.
  unfold stripLinksFromMarkdown, collapse_blank_lines.
  rewrite (LinkFacts.whole_match fl_i rx_md_link (tmpl [G 1]) _ _ z Hm Hz
             LinkFacts.md_link_end).
  cbn [tmpl]. rewrite Hg, (StrFacts.append_nil_r label).
  rewrite (CleanFacts.replace_all_test _ _ _ _ Hauto).
  rewrite (CleanFacts.replace_all_test _ _ _ _ Hurl).
  rewrite (CleanFacts.replace_all_test _ _ _ _ Hblanks).
  rewrite (CleanFacts.replace_all_test _ _ _ _ Hlines).
  now apply CleanFacts.trim_tight_id.
Qed.

Lemma link_becomes_label_witness :
  stripLinksFromMarkdown
    (md_link "the React docs" ("https://" ++ "react.dev/learn?x=1#top"))
  = "the React docs".
Proof.
  apply (link_becomes_label "the React docs" "https://"
           "react.dev/learn?x=1#top").
  - right. left. reflexivity.
  - reflexivity.
  - reflexivity.
  - reflexivity.
  - split; eexists; eexists; split; vm_compute; reflexivity.
  - vm_compute. reflexivity.
Defined.

(** ** Tags in the output *)

Module TagFacts.
Import Text Matcher StrFacts ReFacts NormalFacts.

(** *** Captures are parts of the text matched *)

Lemma occurs_refl (s : string) : occurs s s.
Proof. exists "", "". cbn [append]. now rewrite append_nil_r. Qed.

Lemma occurs_left (c a b : string) : occurs c a -> occurs c (a ++ b).
Proof.
  intros (u & v & ->). exists u, (v ++ b). now rewrite !append_assoc.
Qed.

Lemma occurs_right (c a b : string) : occurs c b -> occurs c (a ++ b).
Proof.
  intros (u & v & ->). exists (a ++ u), v. now rewrite !append_assoc.
Qed.

Lemma caps_from_refl (x : mstate) : caps_from x x "".
Proof. intros n c H. now left. Qed.

Lemma caps_from_trans (x y1 y2 : mstate) (pre1 pre2 : string) :
  caps_from x y1 pre1 -> caps_from y1 y2 pre2 ->
  caps_from x y2 (pre1 ++ pre2).
Proof.
  intros H1 H2 n c Hc. destruct (H2 n c Hc) as [Hy|Ho].
  - destruct (H1 n c Hy) as [Hx|Ho]; [now left|].
    right. now apply occurs_left.
  - right. now apply occurs_right.
Qed.

Lemma consumed_pre (x y : mstate) (pre : string) :
  input x = pre ++ input y -> consumed x y = pre.
Proof.
  intros H. unfold consumed. rewrite H, length_append.
  replace (String.length pre + String.length (input y)
           - String.length (input y))
    with (String.length pre) by lia.
  apply take_append.
Qed.

Lemma repeat_carries (m : cont -> cont) (greedy : bool) :
  carries m ->
  forall fuel lo hi, carries (fun k => repeat_matcher m k greedy fuel lo hi).
Proof.
  intros Hm fuel.
  induction fuel as [|fuel IH]; intros lo hi k x z H; [discriminate|].
  rewrite repeat_matcher_S in H.
  assert (Hk : k x = Some z ->
               exists y pre, input x = pre ++ input y
                             /\ caps_from x y pre /\ k y = Some z).
  { intros Hx. exists x, "". split; [reflexivity|].
    split; [apply caps_from_refl|assumption]. }
  assert (Hd : forall d : cont,
             (forall y, d y = Some z ->
                        repeat_matcher m k greedy fuel (pred lo) (dec_hi hi) y
                        = Some z) ->
             m d x = Some z ->
             exists y pre, input x = pre ++ input y
                           /\ caps_from x y pre /\ k y = Some z).
  { intros d Hdy Hmd.
    destruct (Hm d x z Hmd) as (y1 & pre1 & Hx1 & Hc1 & Hd1).
    destruct (IH _ _ k y1 z (Hdy y1 Hd1)) as (y2 & pre2 & Hx2 & Hc2 & Hk2).
    exists y2, (pre1 ++ pre2). split.
    - now rewrite Hx1, Hx2, append_assoc.
    - split; [|assumption]. eapply caps_from_trans; eassumption. }
  cbv zeta in H.
  match type of H with
  | context [m ?d x] =>
    assert (Hdd : forall y, d y = Some z ->
                repeat_matcher m k greedy fuel (pred lo) (dec_hi hi) y
                = Some z);
    [ intros y Hy;
      destruct ((lo =? 0)%nat
                && (String.length (input y) =? String.length (input x))%nat);
      [discriminate | exact Hy]
    | specialize (Hd d Hdd) ]
  end.
  destruct (hi_is_zero hi); [auto|].
  destruct (negb (lo =? 0)%nat); [auto|].
  destruct greedy.
  - match type of H with
    | context [m ?d x] => destruct (m d x) as [z'|] eqn:Hmd
    end; [|auto].
    injection H as ->. auto.
  - destruct (k x) as [z'|] eqn:Hkx; [|auto].
    injection H as ->. auto.
Qed.

Lemma rmatch_carries (fl : flags) (r : regex) : carries (rmatch fl r).
Proof.
  induction r as [ | c | p | r1 IH1 r2 IH2 | r1 IH1 r2 IH2
                 | lo hi g r IH | n r IH | | | | r IH];
    intros k x z H; cbn [rmatch] in H.
  - exists x, "". split; [reflexivity|]. split; [apply caps_from_refl|auto].
  - destruct (input x) as [|a t] eqn:Hx; [discriminate|].
    destruct (char_eq fl c a); [|discriminate].
    exists (advance a t x), (String a ""). split; [reflexivity|].
    split; [|assumption]. intros n' c' Hc. now left.
  - destruct (input x) as [|a t] eqn:Hx; [discriminate|].
    destruct (p a); [|discriminate].
    exists (advance a t x), (String a ""). split; [reflexivity|].
    split; [|assumption]. intros n' c' Hc. now left.
  - destruct (IH1 _ _ _ H) as (y1 & pre1 & Hx1 & Hc1 & H1).
    destruct (IH2 _ _ _ H1) as (y2 & pre2 & Hx2 & Hc2 & H2).
    exists y2, (pre1 ++ pre2). split.
    + now rewrite Hx1, Hx2, append_assoc.
    + split; [|assumption]. eapply caps_from_trans; eassumption.
  - destruct (rmatch fl r1 k x) as [z'|] eqn:H1.
    + injection H as ->. eauto.
    + eauto.
  - exact (repeat_carries _ g IH _ lo hi k x z H).
  - destruct (IH _ _ _ H) as (y & pre & Hx & Hc & Hk).
    exists (set_cap n (consumed x y) y), pre. split; [exact Hx|].
    split; [|exact Hk].
    intros n' c' Hl. unfold set_cap in Hl. cbn [caps lookup_cap] in Hl.
    destruct (n =? n')%nat.
    + injection Hl as <-. right. rewrite (consumed_pre x y pre Hx).
      apply occurs_refl.
    + now apply Hc.
  - destruct (at_bol fl x); [|discriminate].
    exists x, "". split; [reflexivity|]. split; [apply caps_from_refl|auto].
  - destruct (at_eol fl x); [|discriminate].
    exists x, "". split; [reflexivity|]. split; [apply caps_from_refl|auto].
  - destruct (at_word_boundary x); [|discriminate].
    exists x, "". split; [reflexivity|]. split; [apply caps_from_refl|auto].
  - destruct (rmatch fl r (fun y => Some y) x); [discriminate|].
    exists x, "". split; [reflexivity|]. split; [apply caps_from_refl|auto].
Qed.

(** What a match at the start of [s] leaves: the text matched, the rest,
    and a capture that is a part of the text matched. *)
Lemma match_group (fl : flags) (r : regex) (bef : option ascii) (s : string)
    (y : mstate) (n : nat) :
  match_at fl r (MState bef s []) = Some y ->
  s = consumed (MState bef s []) y ++ input y
  /\ occurs (group n y) (consumed (MState bef s []) y).
Proof.
  intros H. destruct (rmatch_carries fl r _ _ _ H) as (y' & pre & Hx & Hc & Hk).
  injection Hk as ->. cbn [input] in Hx.
  rewrite (consumed_pre (MState bef s []) y pre Hx). split; [exact Hx|].
  unfold group. destruct (lookup_cap n (caps y)) as [c|] eqn:Hl.
  - destruct (Hc n c Hl) as [Hn|Ho]; [discriminate|exact Ho].
  - exists "", pre. reflexivity.
Qed.

(** *** Every [>] closes a tag *)

Lemma closed_app (a b : string) :
  forall p,
    tags_closed p (a ++ b) = tags_closed p a && tags_closed (last_of a p) b.
Proof.
  induction a as [|c a IH]; intros p; [reflexivity|].
  cbn [append tags_closed last_of]. now rewrite IH, andb_assoc.
Qed.

Lemma closed_weaken (s : string) (p q : option ascii) :
  tags_closed p s = true -> closes q = true -> tags_closed q s = true.
Proof.
  destruct s as [|c s]; [reflexivity|]. cbn [tags_closed].
  intros H Hq. apply andb_true_iff in H. destruct H as [_ H].
  now rewrite Hq, orb_true_r, H.
Qed.

Lemma closed_part (c s : string) (p q : option ascii) :
  tags_closed p s = true -> occurs c s -> closes q = true ->
  tags_closed q c = true.
Proof.
  intros H (u & v & ->) Hq. rewrite !closed_app in H.
  apply andb_true_iff in H. destruct H as [_ H].
  apply andb_true_iff in H. destruct H as [H _].
  exact (closed_weaken _ _ _ H Hq).
Qed.

Lemma no_angle_closed (s : string) :
  all (fun c => negb (angle c)) s = true ->
  forall p, tags_closed p s = true.
Proof.
  induction s as [|c s IH]; intros H p; [reflexivity|].
  cbn [all] in H. apply andb_true_iff in H. destruct H as [Hc Hs].
  cbn [tags_closed]. rewrite (IH Hs), andb_true_r.
  unfold angle in Hc. apply negb_true_iff, orb_false_iff in Hc.
  destruct Hc as [_ Hc]. rewrite Ascii.eqb_sym, Hc. reflexivity.
Qed.

Section Tagged.

(** A pass that writes the first capture between two tags *)
Variable fl : flags.
Variable r : regex.
Variable a b : string.
Hypothesis a_closed : forall p, tags_closed p a = true.
Hypothesis a_end : forall p, closes (last_of a p) = true.
Hypothesis b_closed : forall p, tags_closed p b = true.
Hypothesis b_end : forall p, closes (last_of b p) = true.

Lemma written_closed (p : option ascii) (m : string) (y : mstate) :
  tags_closed (Some ">"%char) (group 1 y) = true ->
  tags_closed p (tmpl [T a; G 1; T b] m y) = true
  /\ closes (last_of (tmpl [T a; G 1; T b] m y) p) = true.
Proof.
  intros Hg. cbn [tmpl]. rewrite append_nil_r. split.
  - rewrite !closed_app, a_closed, b_closed, andb_true_r. cbn [andb].
    exact (closed_weaken _ _ _ Hg (a_end p)).
  - rewrite !last_of_append. apply b_end.
Qed.

Lemma replaced_closed (n : nat) :
  forall s, String.length s <= n ->
  forall bef p,
    tags_closed p s = true ->
    tags_closed p (replace_all_from fl r (tmpl [T a; G 1; T b]) 0 bef s)
    = true.
Proof.
  induction n as [|n IH]; intros s Hn bef p Hs.
  - destruct s as [|c t]; [|simpl in Hn; lia].
    cbn [replace_all_from].
    destruct (match_at fl r (MState bef "" [])) as [y|] eqn:Hm;
      [|reflexivity].
    destruct (match_group fl r bef "" y 1 Hm) as [Hx Ho].
    apply written_closed.
    destruct (consumed (MState bef "" []) y) as [|c m]; [|discriminate].
    destruct Ho as (u & v & Hg).
    destruct u; [|discriminate]. cbn [append] in Hg.
    destruct (group 1 y); [reflexivity|discriminate].
  - destruct s as [|c t].
    + apply (IH "" ltac:(simpl; lia) bef p Hs).
    + simpl in Hn. rewrite replace_all_from_0.
      destruct (match_at fl r (MState bef (String c t) [])) as [y|] eqn:Hm.
      * destruct (match_group fl r bef (String c t) y 1 Hm) as [Hx Ho].
        set (m := consumed (MState bef (String c t) []) y) in *.
        assert (Hparts : tags_closed p m = true
                         /\ tags_closed (last_of m p) (input y) = true).
        { rewrite Hx, closed_app in Hs. now apply andb_true_iff in Hs. }
        destruct Hparts as [Hm1 Hrest].
        destruct (written_closed p m y
                    (closed_part _ _ _ (Some ">"%char) Hm1 Ho
                       eq_refl)) as [Hw1 Hw2].
        destruct m as [|c' m'] eqn:Hmm.
        -- cbn [String.length]. rewrite closed_app, Hw1. cbn [andb].
           cbn [tags_closed]. rewrite Hw2, orb_true_r. cbn [andb].
           apply IH; [lia|].
           cbn [tags_closed] in Hs. apply andb_true_iff in Hs. apply Hs.
        -- cbn [String.length]. cbn [append] in Hx.
           injection Hx as Hc Ht. subst c'.
           rewrite closed_app, Hw1. cbn [andb].
           rewrite Ht, replace_all_skip.
           apply IH.
           ++ rewrite Ht, length_append in Hn. lia.
           ++ exact (closed_weaken _ _ _ Hrest Hw2).
      * cbn [tags_closed] in *. apply andb_true_iff in Hs.
        destruct Hs as [Hc Ht]. rewrite Hc. cbn [andb].
        apply IH; [lia|exact Ht].
Qed.

End Tagged.

Lemma pass_closed (fl : flags) (r : regex) (a b s : string) :
  (forall p, tags_closed p a = true) ->
  (forall p, closes (last_of a p) = true) ->
  (forall p, tags_closed p b = true) ->
  (forall p, closes (last_of b p) = true) ->
  tags_closed None s = true ->
  tags_closed None (replace_all fl r (tmpl [T a; G 1; T b]) s) = true.
Proof.
  intros Ha Hae Hb Hbe Hs. unfold replace_all.
  apply (replaced_closed fl r a b Ha Hae Hb Hbe (String.length s) s
           (Nat.le_refl _) None None Hs).
Qed.

Lemma escape_no_angle (s : string) :
  all (fun c => negb (angle c)) (escape_passes s) = true.
Proof.
  rewrite EscapeFacts.escape_passes_expand.
  induction s as [|a t IH]; [reflexivity|].
  cbn [expand]. now rewrite all_append, EscapeFacts.escape_char_angle.
Qed.

Lemma renderMarkdown_closed (md : string) :
  tags_closed None (renderMarkdown md) = true.
Proof.
  destruct md as [|c md]; [reflexivity|].
  unfold renderMarkdown, heading_pass.
  repeat (apply pass_closed;
          [intros p; reflexivity | intros p; reflexivity
          |intros p; reflexivity | intros p; reflexivity|]).
  apply no_angle_closed, escape_no_angle.
Qed.

Lemma escapeHtml_closed (text : string) (p : option ascii) :
  tags_closed p (escapeHtml text) = true.
Proof. apply no_angle_closed, escape_no_angle. Qed.

End TagFacts.

(** ** The tag of the card that starts expanded *)

Module CardTagFacts.
Import Text StrFacts TagFacts.

Lemma free_app (bad : ascii -> ascii -> bool) (a b : string) :
  forall pp p,
    free bad pp p (a ++ b)
    = free bad pp p a
      && free bad (fst (hist a pp p)) (snd (hist a pp p)) b.
Proof.
  induction a as [|c a IH]; intros pp p; [reflexivity|].
  cbn [append free hist]. now rewrite IH, andb_assoc.
Qed.

Lemma sealed_app (bad : ascii -> ascii -> bool) (a b : string) :
  sealed bad a -> sealed bad b -> sealed bad (a ++ b).
Proof. intros Ha Hb pp p. now rewrite free_app, Ha, Hb. Qed.

Lemma sealed_nil (bad : ascii -> ascii -> bool) : sealed bad "".
Proof. intros pp p. reflexivity. Qed.

Lemma free_mono (bad bad' : ascii -> ascii -> bool) (s : string) :
  (forall x y, bad' x y = true -> bad x y = true) ->
  forall pp p, free bad pp p s = true -> free bad' pp p s = true.
Proof.
  intros Hb. induction s as [|c s IH]; intros pp p H; [reflexivity|].
  cbn [free] in *. apply andb_true_iff in H. destruct H as [Hc Hs].
  rewrite (IH _ _ Hs), andb_true_r.
  destruct (Ascii.eqb c ">"); [|reflexivity]. cbn [andb] in *.
  destruct pp as [x|]; [|reflexivity]. destruct p as [y|]; [|reflexivity].
  destruct (bad' x y) eqn:Hxy; [|reflexivity].
  now rewrite (Hb x y Hxy) in Hc.
Qed.

Lemma sealed_open (s : string) : sealed marks_card s -> sealed marks_open s.
Proof.
  intros H pp p. apply (free_mono marks_card); [|apply H].
  intros x y Hxy. unfold marks_card. now rewrite Hxy.
Qed.

Lemma marks_card_end (x y : ascii) :
  marks_card x y = true -> tag_end y = false.
Proof.
  unfold marks_card, marks_open. intros H.
  apply orb_true_iff in H.
  destruct H as [H|H]; apply andb_true_iff in H; destruct H as [_ H];
    apply Ascii.eqb_eq in H; subst y; reflexivity.
Qed.

(** A text in which every [>] closes a tag of [renderMarkdown] holds no
    marked one. *)
Lemma closed_free (s : string) :
  forall pp p, tags_closed p s = true -> free marks_card pp p s = true.
Proof.
  induction s as [|c s IH]; intros pp p H; [reflexivity|].
  cbn [tags_closed free] in *. apply andb_true_iff in H.
  destruct H as [Hc Hs]. rewrite (IH _ _ Hs), andb_true_r.
  destruct (Ascii.eqb c ">"); [|reflexivity]. cbn [negb orb andb] in *.
  destruct pp as [x|]; [|reflexivity]. destruct p as [y|]; [|reflexivity].
  destruct (marks_card x y) eqn:Hxy; [|reflexivity].
  cbn [closes] in Hc. now rewrite (marks_card_end x y Hxy) in Hc.
Qed.

(** After a [>], such a text can stand. *)
Lemma after_tag (f d x : string) :
  sealed marks_card f ->
  (forall pp p, snd (hist f pp p) = Some ">"%char) ->
  tags_closed None d = true ->
  sealed marks_card x ->
  sealed marks_card (f ++ d ++ x).
Proof.
  intros Hf Hend Hd Hx pp p.
  rewrite free_app, Hf. cbn [andb]. rewrite free_app, Hx, andb_true_r.
  apply closed_free. rewrite Hend.
  apply (closed_weaken d None (Some ">"%char) Hd). reflexivity.
Qed.

Lemma is_prefix_split (p s : string) :
  Str.is_prefix p s = true -> exists rest, s = p ++ rest.
Proof.
  revert s. induction p as [|a p IH]; intros s H; [now exists s|].
  destruct s as [|b s]; [discriminate|]. cbn [Str.is_prefix] in H.
  apply andb_true_iff in H. destruct H as [Hab Hp].
  apply Ascii.eqb_eq in Hab. subst b.
  destruct (IH s Hp) as [rest ->]. now exists rest.
Qed.

Lemma free_contains (bad : ascii -> ascii -> bool) (tag : string) :
  (forall pp p rest, free bad pp p (tag ++ rest) = false) ->
  forall s pp p, free bad pp p s = true -> Str.contains tag s = false.
Proof.
  intros Htag. induction s as [|c s IH]; intros pp p H.
  - cbn [Str.contains]. rewrite orb_false_r.
    destruct (Str.is_prefix tag "") eqn:Hp; [|reflexivity].
    destruct (is_prefix_split _ _ Hp) as [rest Hr].
    rewrite Hr, Htag in H. discriminate.
  - cbn [Str.contains].
    destruct (Str.is_prefix tag (String c s)) eqn:Hp.
    + destruct (is_prefix_split _ _ Hp) as [rest Hr].
      rewrite Hr, Htag in H. discriminate.
    + cbn [free] in H. apply andb_true_iff in H. destruct H as [_ H].
      exact (IH _ _ H).
Qed.

Lemma open_tag_marked (pp p : option ascii) (rest : string) :
  free marks_open pp p (details_open ++ rest) = false.
Proof. rewrite free_app. reflexivity. Qed.

Lemma open_tag_card (pp p : option ascii) (rest : string) :
  free marks_card pp p (details_open ++ rest) = false.
Proof. rewrite free_app. reflexivity. Qed.

Lemma closed_tag_card (pp p : option ascii) (rest : string) :
  free marks_card pp p (details_closed ++ rest) = false.
Proof. rewrite free_app. reflexivity. Qed.

(** *** The parts of the output *)

Lemma concat_cons (x : string) (l : list string) :
  concat_strings (x :: l) = x ++ concat_strings l.
Proof.
  unfold concat_strings. destruct l as [|y l]; cbn [Str.join append].
  - now rewrite append_nil_r.
  - reflexivity.
Qed.

Lemma card_html_shape (indent : nat) (k : card) :
  card_html indent k
  = (Str.nl ++ spaces indent
     ++ "<details " ++ attr "class" "roadmap-card" ++ openAttr k ++ ">")
    ++ card_body indent k.
Proof.
  unfold card_html, card_body, card_top, card_mid, card_foot.
  rewrite !append_assoc. reflexivity.
Qed.

Lemma phaseBlock_shape (s : section) (phaseIndex : nat) :
  phaseBlock s phaseIndex
  = block_head ++ escapeHtml (sec_title s)
    ++ ("</h3>" ++ prefaceHtml s)
    ++ concat_strings (List.map (card_html 12) (subsectionCards s phaseIndex))
    ++ "</section>".
Proof.
  unfold phaseBlock, prefaceHtml, subsectionCards, block_head.
  destruct (splitPhaseContentIntoSubsections (content s)) as [pre subs].
  rewrite !append_assoc. reflexivity.
Qed.

Lemma card_of_closed (title : string) (lines : list string) (open : bool) :
  card_text_closed (card_of title lines open).
Proof.
  split; cbn [card_of card_title contentHtml].
  - apply escapeHtml_closed.
  - apply renderMarkdown_closed.
Qed.

Lemma mapi_from_text {A : Type} (f : A -> nat -> card) (l : list A) :
  (forall x j, card_text_closed (f x j)) ->
  forall i, Forall card_text_closed (mapi_from i f l).
Proof.
  intros Hf. induction l as [|x rest IH]; intros i; simpl; constructor.
  - apply Hf.
  - apply IH.
Qed.

Lemma subsectionCards_text (s : section) (i : nat) :
  Forall card_text_closed (subsectionCards s i).
Proof.
  unfold subsectionCards.
  destruct (splitPhaseContentIntoSubsections (content s)) as [pre subs].
  apply mapi_from_text. intros sub j. apply card_of_closed.
Qed.

Lemma standalone_text (g : nat -> bool) (i : nat) (l : list section) :
  Forall card_text_closed
    (mapi_from i (fun s idx => buildStandaloneCard s (g idx)) l).
Proof. apply mapi_from_text. intros s j. apply card_of_closed. Qed.

Lemma indent_cases (indent : nat) (P : nat -> Prop) :
  indent = 6 \/ indent = 12 -> P 6 -> P 12 -> P indent.
Proof. intros [->| ->]; auto. Qed.

Lemma card_body_sealed (indent : nat) (k : card) :
  indent = 6 \/ indent = 12 ->
  card_text_closed k ->
  sealed marks_card (card_body indent k).
Proof.
  intros Hi [Ht Hc]. unfold card_body.
  apply (indent_cases indent
           (fun n => sealed marks_card
                       (card_top n ++ card_title k ++ card_mid n
                        ++ contentHtml k ++ card_foot n)) Hi).
  - apply after_tag; [intros pp p; reflexivity|intros pp p; reflexivity
                     |exact Ht|].
    apply after_tag; [intros pp p; reflexivity|intros pp p; reflexivity
                     |exact Hc|].
    intros pp p. reflexivity.
  - apply after_tag; [intros pp p; reflexivity|intros pp p; reflexivity
                     |exact Ht|].
    apply after_tag; [intros pp p; reflexivity|intros pp p; reflexivity
                     |exact Hc|].
    intros pp p. reflexivity.
Qed.

Lemma closed_card_sealed (indent : nat) (k : card) :
  indent = 6 \/ indent = 12 ->
  is_closed k -> card_text_closed k ->
  sealed marks_open (card_html indent k).
Proof.
  intros Hi Hk Ht. rewrite card_html_shape. unfold is_closed in Hk.
  rewrite Hk. apply sealed_app.
  - destruct Hi as [->| ->]; intros pp p; reflexivity.
  - apply sealed_open. now apply card_body_sealed.
Qed.

Lemma closed_cards_sealed (indent : nat) (l : list card) :
  indent = 6 \/ indent = 12 ->
  Forall is_closed l -> Forall card_text_closed l ->
  sealed marks_open (concat_strings (List.map (card_html indent) l)).
Proof.
  intros Hi Hc Ht. induction l as [|k l IH]; [apply sealed_nil|].
  cbn [List.map]. rewrite concat_cons.
  inversion Hc; subst. inversion Ht; subst.
  apply sealed_app; [now apply closed_card_sealed|now apply IH].
Qed.

Lemma prefaceHtml_sealed (s : section) : sealed marks_card (prefaceHtml s).
Proof.
  unfold prefaceHtml.
  destruct (splitPhaseContentIntoSubsections (content s)) as [pre subs].
  cbv zeta. destruct (Str.trim (Str.join Str.nl pre)) as [|c t];
    [apply sealed_nil|].
  match goal with
  | |- sealed _ (_ ++ _ ++ _ ++ ?d ++ _) =>
    change (sealed marks_card
              (("<div " ++ attr "class" "roadmap-phase-preface" ++ ">")
               ++ d ++ "</div>"))
  end.
  apply after_tag; [intros pp p; reflexivity|intros pp p; reflexivity
                   |apply renderMarkdown_closed|].
  intros pp p. reflexivity.
Qed.

(** What stands in a phase block before its cards *)
Lemma block_start_sealed (s : section) :
  sealed marks_card
    (block_head ++ escapeHtml (sec_title s) ++ "</h3>" ++ prefaceHtml s).
Proof.
  apply after_tag; [intros pp p; reflexivity|intros pp p; reflexivity
                   |apply escapeHtml_closed|].
  apply sealed_app; [intros pp p; reflexivity|apply prefaceHtml_sealed].
Qed.

Lemma later_block_sealed (s : section) (i : nat) :
  0 < i -> sealed marks_open (phaseBlock s i).
Proof.
  intros Hi. rewrite phaseBlock_shape.
  replace (block_head ++ escapeHtml (sec_title s)
           ++ ("</h3>" ++ prefaceHtml s)
           ++ concat_strings
                (List.map (card_html 12) (subsectionCards s i))
           ++ "</section>")
    with ((block_head ++ escapeHtml (sec_title s) ++ "</h3>"
           ++ prefaceHtml s)
          ++ concat_strings
               (List.map (card_html 12) (subsectionCards s i))
          ++ "</section>")
    by (now rewrite !append_assoc).
  apply sealed_app; [apply sealed_open, block_start_sealed|].
  apply sealed_app.
  - apply closed_cards_sealed; [now right| |apply subsectionCards_text].
    now apply subsectionCards_later.
  - intros pp p. reflexivity.
Qed.

Lemma later_blocks_sealed (l : list section) :
  forall i, 0 < i ->
    sealed marks_open (concat_strings (mapi_from i phaseBlock l)).
Proof.
  induction l as [|s l IH]; intros i Hi; [apply sealed_nil|].
  cbn [mapi_from]. rewrite concat_cons.
  apply sealed_app; [now apply later_block_sealed|apply IH; lia].
Qed.

(** The first card written, with what stands before and after it *)
Lemma first_card (intro f x : string) (k : card) (indent : nat) :
  indent = 6 \/ indent = 12 ->
  tags_closed None intro = true ->
  sealed marks_card f ->
  is_open k -> card_text_closed k ->
  sealed marks_open x ->
  card_html indent k
  = Str.nl ++ spaces indent ++ details_open ++ card_body indent k
  /\ Str.contains details_open ((intro ++ f) ++ Str.nl ++ spaces indent)
     = false
  /\ Str.contains details_closed ((intro ++ f) ++ Str.nl ++ spaces indent)
     = false
  /\ Str.contains details_open (card_body indent k ++ x) = false.
Proof.
  intros Hi Hintro Hf Hk Ht Hx.
  assert (Hbefore : free marks_card None None
                      ((intro ++ f) ++ Str.nl ++ spaces indent) = true).
  { rewrite !free_app, (closed_free intro None None Hintro), Hf.
    cbn [andb]. destruct Hi as [->| ->]; reflexivity. }
  split; [|split; [|split]].
  - rewrite card_html_shape. unfold is_open in Hk. rewrite Hk.
    rewrite !append_assoc. reflexivity.
  - exact (free_contains marks_card details_open open_tag_card _ _ _ Hbefore).
  - exact (free_contains marks_card details_closed closed_tag_card _ _ _
             Hbefore).
  - apply (free_contains marks_open details_open open_tag_marked _ None None).
    apply sealed_app; [|exact Hx].
    apply sealed_open. now apply card_body_sealed.
Qed.

End CardTagFacts.



(** ** Paragraphs and white space *)

Module ParagraphFacts.
Import Text Matcher StrFacts ReFacts.

Lemma lit_state_input (fl : flags) (l : string) :
  forall x x',
    input x = input x' ->
    match lit_state fl l x, lit_state fl l x' with
    | Some y, Some y' => input y = input y'
    | None, None => True
    | _, _ => False
    end.
Proof.
  induction l as [|c l IH]; intros x x' H; cbn [lit_state]; [exact H|].
  rewrite <- H. destruct (input x) as [|a t]; [exact I|].
  destruct (char_eq fl c a); [|exact I]. now apply IH.
Qed.

(** The lookahead looks at the input only. *)
Lemma refused_anywhere (x z : mstate) :
  rmatch fl_im rx_refused (fun y => Some y) x = Some z ->
  refused (input x) = true.
Proof.
  unfold refused, match_at, rx_refused. cbn [alts cat rmatch].
  rewrite !rmatch_lit.
  pose proof (lit_state_input fl_im "<h" x (start (input x)) eq_refl) as H1.
  pose proof (lit_state_input fl_im "<ul>" x (start (input x)) eq_refl) as H2.
  pose proof (lit_state_input fl_im "<li>" x (start (input x)) eq_refl) as H3.
  pose proof (lit_state_input fl_im "</li>" x (start (input x)) eq_refl)
    as H4.
  pose proof (lit_state_input fl_im "</ul>" x (start (input x)) eq_refl)
    as H5.
  destruct (lit_state fl_im "<h" x) as [y1|],
      (lit_state fl_im "<h" (start (input x))) as [y1'|];
    try contradiction;
  destruct (lit_state fl_im "<ul>" x) as [y2|],
      (lit_state fl_im "<ul>" (start (input x))) as [y2'|];
    try contradiction;
  destruct (lit_state fl_im "<li>" x) as [y3|],
      (lit_state fl_im "<li>" (start (input x))) as [y3'|];
    try contradiction;
  destruct (lit_state fl_im "</li>" x) as [y4|],
      (lit_state fl_im "</li>" (start (input x))) as [y4'|];
    try contradiction;
  destruct (lit_state fl_im "</ul>" x) as [y5|],
      (lit_state fl_im "</ul>" (start (input x))) as [y5'|];
    try contradiction;
  unfold Digit; cbn [rmatch]; try rewrite H1;
  try (destruct (input y1') as [|d t]);
  try (destruct (Chr.is_digit d));
  intros H; try discriminate H; reflexivity.
Qed.

Lemma nonspace_dot (c : ascii) : Chr.is_space c = false -> Chr.dot c = true.
Proof.
  destruct c as [[] [] [] [] [] [] [] []]; vm_compute; congruence.
Qed.

Lemma stops_dot_eol (x : mstate) :
  stops Chr.dot (input x) -> at_eol fl_im x = true.
Proof.
  unfold at_eol, stops. destruct (input x) as [|c t]; [reflexivity|].
  unfold Chr.dot. intros H. apply negb_false_iff in H. now rewrite H.
Qed.

(** A paragraph without text: the white space at the start of the match
    runs to the end of the input or to a text that the lookahead
    refuses. *)
Lemma blank_paragraph (x y : mstate) :
  match_at fl_im rx_paragraph x = Some y ->
  has_text (group 1 y) = true
  \/ drop_while Chr.is_space (input x) = ""
  \/ refused (drop_while Chr.is_space (input x)) = true.
Proof.
  unfold match_at, rx_paragraph. intros H.
  match type of H with
  | rmatch _ ?r _ _ = _ =>
    change r
      with (Seq Bol (Seq (Star Space)
                       (Seq (NegLook rx_refused)
                          (Seq (Group 1 (Plus Any)) Eol)))) in H
  end.
  cbn [rmatch] in H. destruct (at_bol fl_im x); [|discriminate].
  unfold Star, Space in H. cbn [rmatch] in H.
  match type of H with
  | repeat_matcher _ ?k _ _ _ _ _ = _ => set (k0 := k) in H
  end.
  set (w := take_while Chr.is_space (input x)).
  set (r := drop_while Chr.is_space (input x)).
  assert (Hstop : stops Chr.is_space r) by apply drop_while_stops.
  destruct (k0 (after w r x)) as [z|] eqn:Hk.
  - left.
    assert (Hrun : repeat_matcher (rmatch fl_im (Class Chr.is_space)) k0 true
                     (S (0 + String.length (input x))) 0 None x = Some z).
    { apply MarkerFacts.repeat_class_run; [unfold len; lia|exact I|lia|].
      exact Hk. }
    assert (Hyz : Some y = Some z) by (rewrite <- H; exact Hrun).
    injection Hyz as ->. clear H Hrun.
    unfold k0 in Hk.
    destruct (rmatch fl_im rx_refused (fun y => Some y) (after w r x));
      [discriminate|].
    change (repeat_matcher (rmatch fl_im (Class Chr.dot))
              (fun y0 =>
                 if at_eol fl_im (set_cap 1 (consumed (after w r x) y0) y0)
                 then Some (set_cap 1 (consumed (after w r x) y0) y0)
                 else None)
              true (S (1 + String.length (input (after w r x)))) 1 None
              (after w r x) = Some z) in Hk.
    destruct (repeat_class_inv fl_im Chr.dot _ true _ _ _ _ Hk)
      as (m & rest & Hin & Hall & Hlen & Hz).
    destruct (at_eol fl_im _); [|discriminate]. injection Hz as <-.
    unfold group, set_cap. cbn [caps lookup_cap Nat.eqb].
    cbn [after input] in Hin.
    replace (consumed (after w r x) (after m rest (after w r x))) with m.
    + destruct m as [|a m]; [simpl in Hlen; lia|].
      unfold stops in Hstop. rewrite Hin in Hstop. cbn [append] in Hstop.
      unfold has_text. cbn [all]. now rewrite Hstop.
    + unfold after. cbn [before caps input]. rewrite Hin.
      symmetry. apply consumed_append.
  - right. destruct r as [|c r0] eqn:Hr; [now left|right].
    unfold k0 in Hk.
    destruct (rmatch fl_im rx_refused (fun y => Some y)
                (after w (String c r0) x)) as [z|] eqn:Hlook.
    + exact (refused_anywhere _ _ Hlook).
    + exfalso.
      change (repeat_matcher (rmatch fl_im (Class Chr.dot))
                (fun y0 =>
                   if at_eol fl_im
                        (set_cap 1
                           (consumed (after w (String c r0) x) y0) y0)
                   then Some (set_cap 1
                                (consumed (after w (String c r0) x) y0) y0)
                   else None)
                true
                (S (1 + String.length (input (after w (String c r0) x)))) 1
                None (after w (String c r0) x) = None) in Hk.
      unfold stops in Hstop.
      pose proof (nonspace_dot c Hstop) as Hdot.
      match type of Hk with
      | repeat_matcher _ ?k _ ?fuel _ _ ?x0 = None =>
        assert (Hrun : exists z, repeat_matcher (rmatch fl_im (Class Chr.dot))
                                   k true fuel 1 None x0 = Some z)
      end.
      { eexists. apply MarkerFacts.repeat_class_run.
        - unfold len. lia.
        - exact I.
        - cbn [after input take_while]. rewrite Hdot. simpl. lia.
        - rewrite stops_dot_eol; [reflexivity|].
          cbn [set_cap after input]. apply drop_while_stops. }
      destruct Hrun as [z Hz]. rewrite Hz in Hk. discriminate.
Qed.

(** *** Lines of white space and lines of text *)

Lemma blank_char (c : ascii) :
  is_blank c = true ->
  Chr.is_space c = true /\ is_lf c = false /\ Chr.is_alpha c = false
  /\ escape_char c = String c "".
Proof.
  destruct c as [[] [] [] [] [] [] [] []]; vm_compute; intros H;
    try discriminate H; repeat split.
Qed.

Lemma lead_char (c : ascii) :
  is_lf c = true \/ is_blank c = true \/ Chr.is_alpha c = true ->
  char_eq fl_im "#" c = false
  /\ Chr.is_digit c = false
  /\ existsb (Ascii.eqb c) (list_ascii_of_string "-*") = false.
Proof.
  destruct c as [[] [] [] [] [] [] [] []]; vm_compute; intros [H|[H|H]];
    try discriminate H; repeat split.
Qed.

Lemma calm_char (c : ascii) :
  is_lf c = true \/ is_blank c = true \/ quiet c = true ->
  char_eq fl_im "*" c = false /\ char_eq fl_im "<" c = false.
Proof.
  destruct c as [[] [] [] [] [] [] [] []]; vm_compute; intros [H|[H|H]];
    try discriminate H; repeat split.
Qed.

Lemma quiet_no_lf (c : ascii) : quiet c = true -> is_lf c = false.
Proof.
  destruct c as [[] [] [] [] [] [] [] []]; vm_compute; intros H;
    try discriminate H; reflexivity.
Qed.

Lemma calm_head (lead : bool) (c : ascii) (t : string) :
  calm lead (String c t) = true ->
  is_lf c = true \/ is_blank c = true \/ quiet c = true.
Proof.
  cbn [calm]. destruct (is_lf c); [now left|]. destruct lead; intros H.
  - apply orb_true_iff in H. destruct H as [H|H];
      apply andb_true_iff in H; destruct H as [H _]; [tauto|].
    apply andb_true_iff in H. tauto.
  - apply andb_true_iff in H. tauto.
Qed.

Lemma calm_lead_head (c : ascii) (t : string) :
  calm true (String c t) = true ->
  is_lf c = true \/ is_blank c = true \/ Chr.is_alpha c = true.
Proof.
  cbn [calm]. destruct (is_lf c); [now left|]. intros H.
  apply orb_true_iff in H. destruct H as [H|H];
    apply andb_true_iff in H; destruct H as [H _]; [tauto|].
  apply andb_true_iff in H. tauto.
Qed.

Lemma calm_next (bef : option ascii) (c : ascii) (t : string) :
  calm_at bef (String c t) -> calm_at (Some c) t.
Proof.
  intros (lead & H & _). cbn [calm] in H.
  assert (Hin : quiet c = true -> calm false t = true ->
                calm_at (Some c) t).
  { intros Hq Ht. exists false. split; [exact Ht|]. intros _. exists c.
    split; [reflexivity|].
    now destruct (PlainFacts.quiet_char c Hq) as (_ & _ & _ & ?). }
  destruct (is_lf c).
  - exists true. split; [exact H|discriminate].
  - destruct lead.
    + apply orb_true_iff in H. destruct H as [H|H];
        apply andb_true_iff in H; destruct H as [H Ht].
      * exists true. split; [exact Ht|discriminate].
      * apply andb_true_iff in H. destruct H as [_ Hq]. now apply Hin.
    + apply andb_true_iff in H. destruct H as [Hq Ht]. now apply Hin.
Qed.

Lemma calm_bol (bef : option ascii) (s : string) (cs : list (nat * string)) :
  calm_at bef s -> at_bol fl_im (MState bef s cs) = true ->
  calm true s = true.
Proof.
  intros (lead & H & Hb) Hbol. destruct lead; [exact H|].
  destruct (Hb eq_refl) as (c & -> & Hc). unfold at_bol in Hbol.
  cbn [before multiline fl_im] in Hbol. rewrite Hc in Hbol. discriminate.
Qed.

Lemma calm_past_space (m r : string) :
  all Chr.is_space m = true -> calm true (m ++ r) = true ->
  calm true r = true.
Proof.
  induction m as [|c m IH]; intros Hm H; [exact H|].
  simpl in Hm. apply andb_true_iff in Hm. destruct Hm as [Hc Hm].
  change (String c m ++ r) with (String c (m ++ r)) in H. cbn [calm] in H.
  destruct (is_lf c); [now apply IH|].
  apply orb_true_iff in H. destruct H as [H|H];
    apply andb_true_iff in H; destruct H as [H Ht]; [now apply IH|].
  apply andb_true_iff in H. destruct H as [Ha _].
  destruct (PlainFacts.letter c Ha) as (Hsp & _). congruence.
Qed.

(** A pattern that matches nowhere in such a text leaves it as it is. *)
Lemma calm_untouched (fl : flags) (r : regex) (by_ : replacement) :
  (forall bef s, calm_at bef s -> match_at fl r (MState bef s []) = None) ->
  forall s bef, calm_at bef s -> replace_all_from fl r by_ 0 bef s = s.
Proof.
  intros Hno s. induction s as [|c t IH]; intros bef Hs;
    cbn [replace_all_from]; rewrite (Hno _ _ Hs); [reflexivity|].
  now rewrite (IH _ (calm_next _ _ _ Hs)).
Qed.

Lemma replace_all_calm (fl : flags) (r : regex) (by_ : replacement)
    (s : string) :
  (forall bef s, calm_at bef s -> match_at fl r (MState bef s []) = None) ->
  calm true s = true -> replace_all fl r by_ s = s.
Proof.
  intros Hno Hs. apply calm_untouched; [exact Hno|].
  exists true. split; [exact Hs|discriminate].
Qed.

Lemma heading_calm (hashes : string) :
  forall bef s, calm_at bef s ->
    match_at fl_im (rx_heading (String "#" hashes)) (MState bef s []) = None.
Proof.
  intros bef s Hs. unfold match_at, rx_heading.
  change (cat [Bol; lit (String "#" hashes); Char " "; rest_of_line])
    with (Seq Bol (Seq (lit (String "#" hashes))
                     (Seq (Char " ") rest_of_line))).
  cbn [rmatch].
  destruct (at_bol fl_im (MState bef s [])) eqn:Hbol; [|reflexivity].
  pose proof (calm_bol _ _ _ Hs Hbol) as Hc.
  rewrite rmatch_lit. cbn [lit_state input].
  destruct s as [|c t]; [reflexivity|].
  destruct (lead_char c (calm_lead_head c t Hc)) as (-> & _). reflexivity.
Qed.

Lemma emphasis_calm (stars : string) :
  forall bef s, calm_at bef s ->
    match_at fl_im (rx_emphasis (String "*" stars)) (MState bef s []) = None.
Proof.
  intros bef s (lead & Hs & _). unfold match_at, rx_emphasis.
  change (cat [lit (String "*" stars); Group 1 (PlusLazy Any);
               lit (String "*" stars)])
    with (Seq (lit (String "*" stars))
            (Seq (Group 1 (PlusLazy Any)) (lit (String "*" stars)))).
  cbn [rmatch]. rewrite rmatch_lit. cbn [lit_state input].
  destruct s as [|c t]; [reflexivity|].
  destruct (calm_char c (calm_head lead c t Hs)) as (-> & _). reflexivity.
Qed.

Lemma list_items_calm :
  forall bef s, calm_at bef s ->
    match_at fl_im rx_list_items (MState bef s []) = None.
Proof.
  intros bef s (lead & Hs & _). unfold match_at, rx_list_items.
  change (cat [lit "<li>"; Star Any; lit "</li>"])
    with (Seq (lit "<li>") (Seq (Star Any) (lit "</li>"))).
  cbn [rmatch]. rewrite rmatch_lit. cbn [lit_state input].
  destruct s as [|c t]; [reflexivity|].
  destruct (calm_char c (calm_head lead c t Hs)) as (_ & ->). reflexivity.
Qed.

(** [p+] at the end of the input *)
Lemma plus_class_end (fl : flags) (p : ascii -> bool) (k : cont)
    (x : mstate) :
  input x = "" -> rmatch fl (Plus (Class p)) k x = None.
Proof.
  intros Hx. unfold Plus. cbn [rmatch]. rewrite repeat_matcher_S.
  cbv zeta. cbn [hi_is_zero Nat.eqb negb andb rmatch]. now rewrite Hx.
Qed.

Lemma bullet_calm :
  forall bef s, calm_at bef s ->
    match_at fl_im rx_bullet (MState bef s []) = None.
Proof.
  intros bef s Hs. unfold match_at, rx_bullet.
  change (cat [Bol; Star Space; OneOf "-*"; Char " "; rest_of_line])
    with (Seq Bol (Seq (Star Space)
                     (Seq (OneOf "-*") (Seq (Char " ") rest_of_line)))).
  cbn [rmatch].
  destruct (at_bol fl_im (MState bef s [])) eqn:Hbol; [|reflexivity].
  pose proof (calm_bol _ _ _ Hs Hbol) as Hc.
  unfold Star, Space. cbn [rmatch].
  match goal with
  | |- ?e = None => destruct e as [z|] eqn:Hm; [exfalso|reflexivity]
  end.
  destruct (repeat_class_inv fl_im Chr.is_space _ _ _ _ _ _ Hm)
    as (m & r & Hin & Hall & _ & Hk).
  cbn [input] in Hin. subst s.
  pose proof (calm_past_space m r Hall Hc) as Hr.
  unfold OneOf in Hk. cbn [rmatch after input] in Hk.
  destruct r as [|c t]; [discriminate|].
  destruct (lead_char c (calm_lead_head c t Hr)) as (_ & _ & Hb).
  rewrite Hb in Hk. discriminate.
Qed.

Lemma numbered_calm :
  forall bef s, calm_at bef s ->
    match_at fl_im rx_numbered (MState bef s []) = None.
Proof.
  intros bef s Hs. unfold match_at, rx_numbered.
  change (cat [Bol; Star Space; Plus Digit; Char "."; Plus Space;
               rest_of_line])
    with (Seq Bol (Seq (Star Space)
                     (Seq (Plus Digit)
                        (Seq (Char ".") (Seq (Plus Space) rest_of_line))))).
  cbn [rmatch].
  destruct (at_bol fl_im (MState bef s [])) eqn:Hbol; [|reflexivity].
  pose proof (calm_bol _ _ _ Hs Hbol) as Hc.
  unfold Star, Space. cbn [rmatch].
  match goal with
  | |- ?e = None => destruct e as [z|] eqn:Hm; [exfalso|reflexivity]
  end.
  destruct (repeat_class_inv fl_im Chr.is_space _ _ _ _ _ _ Hm)
    as (m & r & Hin & Hall & _ & Hk).
  cbn [input] in Hin. subst s.
  pose proof (calm_past_space m r Hall Hc) as Hr.
  unfold Digit in Hk.
  destruct r as [|c t].
  - rewrite plus_class_end in Hk by reflexivity. discriminate.
  - destruct (lead_char c (calm_lead_head c t Hr)) as (_ & Hd & _).
    rewrite (PlainFacts.plus_class_stop fl_im Chr.is_digit _
               (after m (String c t) (MState bef (m ++ String c t) []))
               c t eq_refl Hd) in Hk.
    discriminate.
Qed.

(** *** The paragraph pass over such lines *)

Lemma drop_while_app_all (q : ascii -> bool) (w x : string) :
  all q w = true -> drop_while q (w ++ x) = drop_while q x.
Proof.
  induction w as [|a w IH]; simpl; [reflexivity|].
  intros H. apply andb_true_iff in H. destruct H as [-> Hw]. now apply IH.
Qed.

Lemma drop_while_stopped (q : ascii -> bool) (s : string) :
  stops q s -> drop_while q s = s.
Proof. destruct s as [|a s]; simpl; [reflexivity|]. now intros ->. Qed.

Lemma no_bol_no_paragraph (bef : option ascii) (s : string) :
  at_bol fl_im (MState bef s []) = false ->
  match_at fl_im rx_paragraph (MState bef s []) = None.
Proof.
  intros Hbol. unfold match_at, rx_paragraph.
  match goal with
  | |- rmatch _ ?r _ _ = _ =>
    change r
      with (Seq Bol (Seq (Star Space)
                       (Seq (NegLook rx_refused)
                          (Seq (Group 1 (Plus Any)) Eol))))
  end.
  cbn [rmatch]. now rewrite Hbol.
Qed.

(** At the start of a line, white space and then a line of text: the
    match takes both and captures the line. *)
Lemma paragraph_after_space (bef : option ascii) (W L R : string) :
  at_bol fl_im (MState bef "" []) = true ->
  all Chr.is_space W = true ->
  quiet_line L = true ->
  stops Chr.dot R ->
  match_at fl_im rx_paragraph (MState bef (W ++ L ++ R) [])
  = Some (MState (last_of (W ++ L) bef) R [(1, L)]).
Proof.
  intros Hbol HW HL HR. unfold quiet_line in HL.
  apply andb_true_iff in HL. destruct HL as [Ha Hq].
  destruct L as [|a t]; [discriminate|]. cbn [starts_with] in Ha.
  unfold match_at, rx_paragraph.
  match goal with
  | |- rmatch _ ?r _ _ = _ =>
    change r
      with (Seq Bol (Seq (Star Space)
                       (Seq (NegLook rx_refused)
                          (Seq (Group 1 (Plus Any)) Eol))))
  end.
  cbn [rmatch].
  change (at_bol fl_im (MState bef (W ++ String a t ++ R) []))
    with (at_bol fl_im (MState bef "" [])).
  rewrite Hbol.
  destruct (PlainFacts.letter a Ha) as (Hsp & _ & _ & Hlt & _).
  unfold Star, Space.
  change (repeat_matcher (rmatch fl_im (Class Chr.is_space))
            (fun y =>
               match rmatch fl_im rx_refused (fun y0 => Some y0) y with
               | Some _ => None
               | None =>
                 rmatch fl_im (Plus Any)
                   (fun y0 =>
                      if at_eol fl_im (set_cap 1 (consumed y y0) y0)
                      then Some (set_cap 1 (consumed y y0) y0)
                      else None) y
               end)
            true
            (S (0 + String.length
                      (input (MState bef (W ++ String a t ++ R) []))))
            0 None (MState bef (W ++ String a t ++ R) [])
          = Some (MState (last_of (W ++ String a t) bef) R
                    [(1, String a t)])).
  apply MarkerFacts.repeat_class_run; [unfold len; lia|exact I|lia|].
  cbn [input].
  rewrite (NormalFacts.take_while_app_all _ _ _ HW),
          (drop_while_app_all _ _ _ HW).
  cbn [append take_while drop_while]. rewrite Hsp, append_nil_r.
  unfold rx_refused. cbn [alts cat rmatch]. rewrite !rmatch_lit.
  cbn [lit_state after input]. rewrite Hlt.
  unfold Plus, Any.
  change (repeat_matcher (rmatch fl_im (Class Chr.dot))
            (fun y0 =>
               if at_eol fl_im
                    (set_cap 1
                       (consumed
                          (MState (last_of W bef) (String a (t ++ R)) []) y0)
                       y0)
               then Some (set_cap 1
                            (consumed
                               (MState (last_of W bef) (String a (t ++ R)) [])
                               y0) y0)
               else None)
            true
            (S (1 + String.length
                      (input (MState (last_of W bef) (String a (t ++ R)) []))))
            1 None (MState (last_of W bef) (String a (t ++ R)) [])
          = Some (MState (last_of (W ++ String a t) bef) R
                    [(1, String a t)])).
  pose proof (PlainFacts.quiet_dot _ Hq) as Hdot.
  assert (Htake : take_while Chr.dot (String a (t ++ R)) = String a t).
  { change (String a (t ++ R)) with (String a t ++ R).
    rewrite (NormalFacts.take_while_app_all _ _ _ Hdot),
            (NormalFacts.take_while_stops _ _ HR).
    apply append_nil_r. }
  assert (Hdrop : drop_while Chr.dot (String a (t ++ R)) = R).
  { change (String a (t ++ R)) with (String a t ++ R).
    rewrite (drop_while_app_all _ _ _ Hdot).
    now apply drop_while_stopped. }
  apply MarkerFacts.repeat_class_run.
  - unfold len. lia.
  - exact I.
  - cbn [input]. rewrite Htake. simpl. lia.
  - cbn [input]. rewrite Htake, Hdrop.
    rewrite stops_dot_eol by exact HR.
    unfold set_cap, after. cbn [before input caps].
    change (String a (t ++ R)) with (String a t ++ R).
    rewrite consumed_append, last_of_append. reflexivity.
Qed.

Lemma paragraph_step (bef : option ascii) (W L R : string) :
  at_bol fl_im (MState bef "" []) = true ->
  all Chr.is_space W = true ->
  quiet_line L = true ->
  stops Chr.dot R ->
  replace_all_from fl_im rx_paragraph (tmpl [T "<p>"; G 1; T "</p>"]) 0 bef
    (W ++ L ++ R)
  = "<p>" ++ L ++ "</p>"
    ++ match R with
       | "" => ""
       | String c t =>
         String c (replace_all_from fl_im rx_paragraph
                     (tmpl [T "<p>"; G 1; T "</p>"]) 0 (Some c) t)
       end.
Proof.
  intros Hbol HW HL HR.
  pose proof (paragraph_after_space bef W L R Hbol HW HL HR) as Hm.
  assert (Hlast : exists c', last_of (W ++ L) bef = Some c'
                             /\ Chr.is_line_terminator c' = false).
  { unfold quiet_line in HL. apply andb_true_iff in HL.
    destruct HL as [Ha Hq]. destruct L as [|a t]; [discriminate|].
    rewrite last_of_append. cbn [last_of].
    simpl in Hq. apply andb_true_iff in Hq. destruct Hq as [Hqa Hqt].
    destruct (PlainFacts.quiet_char a Hqa) as (_ & _ & _ & Hterm).
    exact (PlainFacts.last_inside t a Hterm Hqt). }
  set (by_ := tmpl [T "<p>"; G 1; T "</p>"]).
  assert (Hby : forall m b i,
            by_ m (MState b i [(1, L)]) = "<p>" ++ L ++ "</p>")
    by reflexivity.
  rewrite <- append_assoc in Hm |- *.
  destruct (W ++ L) as [|c0 m0] eqn:HM.
  { destruct W; [destruct L; discriminate|discriminate]. }
  change (String c0 m0 ++ R) with (String c0 (m0 ++ R)) in Hm |- *.
  rewrite NormalFacts.replace_all_from_0, Hm.
  change (String c0 (m0 ++ R)) with (String c0 m0 ++ R).
  rewrite consumed_append. cbn [String.length].
  rewrite NormalFacts.replace_all_skip, Hby, !append_assoc.
  destruct Hlast as (c' & Hc' & Hterm). cbn [last_of] in Hc'. rewrite Hc'.
  assert (Hno : forall s,
            match_at fl_im rx_paragraph (MState (Some c') s []) = None).
  { intros s. apply no_bol_no_paragraph. unfold at_bol.
    cbn [before multiline fl_im]. now rewrite Hterm. }
  destruct R as [|c t].
  - cbn [replace_all_from]. now rewrite Hno.
  - rewrite NormalFacts.replace_all_from_0, Hno. reflexivity.
Qed.

Lemma blank_space (l : string) :
  blank_line l = true -> all Chr.is_space l = true.
Proof.
  unfold blank_line. induction l as [|c l IH]; [reflexivity|]. simpl.
  intros H. apply andb_true_iff in H. destruct H as [Hc Hl].
  destruct (blank_char c Hc) as (-> & _). now apply IH.
Qed.

Lemma blank_not_quiet (l : string) :
  blank_line l = true -> quiet_line l = false.
Proof.
  unfold blank_line, quiet_line. destruct l as [|c l]; [reflexivity|].
  simpl. intros H. apply andb_true_iff in H. destruct H as [Hc _].
  destruct (blank_char c Hc) as (_ & _ & -> & _). reflexivity.
Qed.

Lemma filter_last (p : string -> bool) (ls : list string) :
  p (last ls "") = true -> p "" = false ->
  exists x rest, filter p ls = x :: rest.
Proof.
  intros Hl He. induction ls as [|l ls IH]; [simpl in Hl; congruence|].
  cbn [filter]. destruct (p l) eqn:Hp; [now eauto|].
  destruct ls as [|l2 ls]; [simpl in Hl; congruence|]. now apply IH.
Qed.

Lemma paragraph_lines (ls : list string) :
  forall W bef,
    at_bol fl_im (MState bef "" []) = true ->
    all Chr.is_space W = true ->
    Forall (fun l => blank_line l = true \/ quiet_line l = true) ls ->
    quiet_line (last ls "") = true ->
    replace_all_from fl_im rx_paragraph (tmpl [T "<p>"; G 1; T "</p>"]) 0 bef
      (W ++ Str.join Str.nl ls)
    = Str.join Str.nl
        (List.map (fun l => "<p>" ++ l ++ "</p>") (filter quiet_line ls)).
Proof.
  induction ls as [|l ls IH]; intros W bef Hbol HW Hok Hlast;
    [discriminate|].
  inversion Hok as [|? ? Hl Hls]; subst.
  destruct ls as [|l2 ls].
  - cbn [last] in Hlast. cbn [Str.join filter]. rewrite Hlast.
    cbn [List.map Str.join].
    rewrite <- (append_nil_r l) at 1.
    rewrite (paragraph_step bef W l "" Hbol HW Hlast I).
    now rewrite append_nil_r.
  - rewrite LinesFacts.join_cons.
    change (last (l :: l2 :: ls) "") with (last (l2 :: ls) "") in Hlast.
    change (filter quiet_line (l :: l2 :: ls))
      with (if quiet_line l then l :: filter quiet_line (l2 :: ls)
            else filter quiet_line (l2 :: ls)).
    destruct (quiet_line l) eqn:Hq.
    + rewrite (paragraph_step bef W l
                 (Str.nl ++ Str.join Str.nl (l2 :: ls)) Hbol HW Hq eq_refl).
      change (Str.nl ++ Str.join Str.nl (l2 :: ls))
        with (String LF (Str.join Str.nl (l2 :: ls))).
      cbv iota.
      pose proof (IH "" (Some LF) eq_refl eq_refl Hls Hlast) as Hrest.
      change ("" ++ Str.join Str.nl (l2 :: ls))
        with (Str.join Str.nl (l2 :: ls)) in Hrest.
      rewrite Hrest.
      destruct (filter_last quiet_line (l2 :: ls) Hlast eq_refl)
        as (x & rest & Hf).
      rewrite Hf. cbn [List.map]. rewrite LinesFacts.join_cons.
      now rewrite !append_assoc.
    + destruct Hl as [Hl|Hl]; [|congruence].
      rewrite <- !append_assoc.
      apply IH; [exact Hbol| |exact Hls|exact Hlast].
      now rewrite !all_append, HW, (blank_space l Hl).
Qed.

(** *** The text that reaches the paragraph pass *)

Lemma calm_blank_app (l X : string) :
  all is_blank l = true -> calm true X = true -> calm true (l ++ X) = true.
Proof.
  intros Hl HX. induction l as [|c l IH]; [exact HX|].
  simpl in Hl. apply andb_true_iff in Hl. destruct Hl as [Hc Hl].
  change (String c l ++ X) with (String c (l ++ X)). cbn [calm].
  destruct (blank_char c Hc) as (_ & -> & _). now rewrite Hc, IH.
Qed.

Lemma calm_quiet_app (l X : string) :
  all quiet l = true -> calm false X = true -> calm false (l ++ X) = true.
Proof.
  intros Hl HX. induction l as [|c l IH]; [exact HX|].
  simpl in Hl. apply andb_true_iff in Hl. destruct Hl as [Hc Hl].
  change (String c l ++ X) with (String c (l ++ X)). cbn [calm].
  now rewrite (quiet_no_lf c Hc), Hc, IH.
Qed.

Lemma calm_line_app (l X : string) :
  quiet_line l = true -> calm false X = true -> calm true (l ++ X) = true.
Proof.
  unfold quiet_line. intros Hl HX. apply andb_true_iff in Hl.
  destruct Hl as [Ha Hq]. destruct l as [|c l]; [discriminate|].
  cbn [starts_with] in Ha. simpl in Hq. apply andb_true_iff in Hq.
  destruct Hq as [Hc Hq].
  change (String c l ++ X) with (String c (l ++ X)). cbn [calm].
  rewrite (quiet_no_lf c Hc), Ha, Hc, (calm_quiet_app l X Hq HX).
  now rewrite orb_true_r.
Qed.

Lemma calm_lines (ls : list string) :
  Forall (fun l => blank_line l = true \/ quiet_line l = true) ls ->
  calm true (Str.join Str.nl ls) = true.
Proof.
  induction ls as [|l ls IH]; intros Hok; [reflexivity|].
  inversion Hok as [|? ? Hl Hls]; subst.
  destruct ls as [|l2 ls].
  - cbn [Str.join]. rewrite <- (append_nil_r l).
    destruct Hl as [Hl|Hl];
      [now apply calm_blank_app|now apply calm_line_app].
  - rewrite LinesFacts.join_cons. specialize (IH Hls).
    destruct Hl as [Hl|Hl];
      [apply calm_blank_app|apply calm_line_app]; try exact Hl; exact IH.
Qed.

Lemma escape_blank_line (l : string) :
  blank_line l = true -> expand escape_char l = l.
Proof.
  unfold blank_line. induction l as [|c l IH]; [reflexivity|]. simpl.
  intros H. apply andb_true_iff in H. destruct H as [Hc Hl].
  destruct (blank_char c Hc) as (_ & _ & _ & ->). now rewrite IH.
Qed.

Lemma escape_text_line (l : string) :
  text_line l = true -> quiet_line (expand escape_char l) = true.
Proof.
  unfold text_line, quiet_line. intros H. apply andb_true_iff in H.
  destruct H as [Ha Hp]. rewrite (PlainFacts.escaped_quiet l Hp).
  destruct l as [|c l]; [discriminate|]. cbn [starts_with] in Ha.
  cbn [expand]. destruct (PlainFacts.letter c Ha) as (_ & _ & _ & _ & _ & ->).
  cbn [append starts_with]. now rewrite Ha.
Qed.

Lemma blank_not_text (l : string) :
  blank_line l = true -> text_line l = false.
Proof.
  unfold blank_line, text_line. destruct l as [|c l]; [reflexivity|].
  simpl. intros H. apply andb_true_iff in H. destruct H as [Hc _].
  destruct (blank_char c Hc) as (_ & _ & -> & _). reflexivity.
Qed.

Lemma escape_join (ls : list string) :
  expand escape_char (Str.join Str.nl ls)
  = Str.join Str.nl (List.map (expand escape_char) ls).
Proof.
  induction ls as [|l ls IH]; [reflexivity|].
  destruct ls as [|l2 ls]; [reflexivity|].
  rewrite LinesFacts.join_cons, !EscapeFacts.expand_append, IH.
  reflexivity.
Qed.

Lemma escaped_lines (ls : list string) :
  Forall (fun l => blank_line l = true \/ text_line l = true) ls ->
  Forall (fun l => blank_line l = true \/ quiet_line l = true)
    (List.map (expand escape_char) ls)
  /\ List.map (fun l => "<p>" ++ l ++ "</p>")
       (filter quiet_line (List.map (expand escape_char) ls))
     = List.map paragraph_of (filter text_line ls).
Proof.
  induction 1 as [|l ls Hl _ [IH1 IH2]]; [split; [constructor|reflexivity]|].
  cbn [List.map filter]. destruct Hl as [Hl|Hl].
  - rewrite (escape_blank_line l Hl), (blank_not_quiet l Hl),
            (blank_not_text l Hl).
    split; [constructor; [now left|exact IH1]|exact IH2].
  - rewrite (escape_text_line l Hl), Hl. split.
    + constructor; [right; now apply escape_text_line|exact IH1].
    + cbn [List.map]. rewrite IH2. unfold paragraph_of, escapeHtml.
      now rewrite EscapeFacts.escape_passes_expand.
Qed.

Lemma last_escaped (ls : list string) :
  last (List.map (expand escape_char) ls) ""
  = expand escape_char (last ls "").
Proof.
  induction ls as [|l ls IH]; [reflexivity|].
  destruct ls as [|l2 ls]; [reflexivity|]. exact IH.
Qed.

Lemma join_empty (ls : list string) :
  Str.join Str.nl ls = "" -> last ls "" = "".
Proof.
  induction ls as [|l ls IH]; [reflexivity|].
  destruct ls as [|l2 ls]; [now cbn [Str.join last]|].
  rewrite LinesFacts.join_cons. destruct l; discriminate.
Qed.

(** White-space lines before a line of text get no paragraph. *)
Lemma renderMarkdown_lines (lines : list string) :
  Forall (fun l => blank_line l = true \/ text_line l = true) lines ->
  text_line (last lines "") = true ->
  renderMarkdown (Str.join Str.nl lines)
  = Str.join Str.nl (List.map paragraph_of (filter text_line lines)).
Proof.
  intros Hok Hlast.
  destruct (escaped_lines lines Hok) as [Hes Hmap].
  pose proof (calm_lines _ Hes) as Hcalm.
  assert (Hql : quiet_line (last (List.map (expand escape_char) lines) "")
                = true)
    by (rewrite last_escaped; now apply escape_text_line).
  destruct (Str.join Str.nl lines) as [|c0 t0] eqn:HJ.
  { rewrite (join_empty _ HJ) in Hlast. discriminate. }
  unfold renderMarkdown, heading_pass. rewrite <- HJ.
  rewrite EscapeFacts.escape_passes_expand, escape_join.
  rewrite !(replace_all_calm _ _ _ _ (heading_calm _) Hcalm).
  rewrite !(replace_all_calm _ _ _ _ (emphasis_calm _) Hcalm).
  rewrite (replace_all_calm _ _ _ _ bullet_calm Hcalm).
  rewrite (replace_all_calm _ _ _ _ numbered_calm Hcalm).
  rewrite (replace_all_calm _ _ _ _ list_items_calm Hcalm).
  rewrite <- Hmap. unfold replace_all.
  exact (paragraph_lines _ "" None eq_refl eq_refl Hes Hql).
Qed.

End ParagraphFacts.

(** C8 as stated fails: a line of one space is wrapped, and so is a line of
    blanks that ends the text. *)
Lemma whitespace_line_gets_paragraph :
  renderMarkdown " " = "<p> </p>"
  /\ renderMarkdown ("a" ++ Str.nl ++ "  ") = "<p>a</p>" ++ Str.nl ++ "<p> </p>".
Proof. split; vm_compute; reflexivity. Qed.

(** C8, amended.  A paragraph of [renderMarkdown] wraps the text of a line,
    and a line of white space that comes before a line of text gets none.
    Whatever text reaches the paragraph pass, a match of its pattern
    captures one or more characters of one line, and these hold a character
    that is no white space, unless the white space at the start of the match
    runs to the end of the text or to a heading, list or list item tag,
    which the pattern refuses: there, and only there, a [<p>] around white
    space is emitted.  So in a text whose lines are white space (empty lines
    included) or text that starts with a letter and holds no asterisk, and
    whose last line is text, [renderMarkdown] returns the paragraphs of the
    lines of text, in order and one line feed apart: the lines of white
    space leave nothing in the output.  A text made of line feeds only is
    returned as it is. *)
Theorem paragraphs_wrap_text :
  (forall x y : mstate,
     match_at fl_im rx_paragraph x = Some y ->
     exists a t,
       tmpl [T "<p>"; G 1; T "</p>"] (consumed x y) y
       = "<p>" ++ String a t ++ "</p>"
       /\ Text.all Chr.dot (String a t) = true
       /\ (has_text (String a t) = true
           \/ Text.drop_while Chr.is_space (input x) = ""
           \/ refused (Text.drop_while Chr.is_space (input x)) = true))
  /\ (forall lines : list string,
        Forall (fun l => blank_line l = true \/ text_line l = true) lines ->
        text_line (last lines "") = true ->
        renderMarkdown (Str.join Str.nl lines)
        = Str.join Str.nl (List.map paragraph_of (filter text_line lines)))
  /\ (forall s : string,
        Text.blank_lines s -> renderMarkdown s = s).
Proof.
  split; [|split].
  - intros x y H.
    destruct (RenderFacts.paragraph_capture x y H) as (a & t & Hg & Hd).
    exists a, t. split; [cbn [tmpl]; now rewrite Hg|].
    split; [exact Hd|].
    rewrite <- Hg. exact (ParagraphFacts.blank_paragraph x y H).
  - exact ParagraphFacts.renderMarkdown_lines.
  - exact RenderFacts.renderMarkdown_blank.
Qed.

Lemma paragraphs_wrap_text_witness :
  renderMarkdown
    ("Goals" ++ Str.nl ++ "   " ++ Str.nl ++ Str.nl ++ "Learn a <b> c")
  = "<p>Goals</p>" ++ Str.nl ++ "<p>Learn a &lt;b&gt; c</p>".
Proof.
  apply (proj1 (proj2 paragraphs_wrap_text)
           ["Goals"; "   "; ""; "Learn a <b> c"]);
    [|reflexivity].
  repeat constructor; (left; reflexivity) || (right; reflexivity).
Defined.
